(** * WeWe-RSS worker: credential rotation and article sync

    A shallow embedding of the Cloudflare worker of wewe-rss
    (services/trpc-service, services/db-queries, services/account-check,
    services/feeds, constants, schema.sql) and the properties of its
    credential selector, upstream client, sync engine, re-authentication
    poll loop, health probe and feed generation.

    Conventions of the embedding:
    - the D1 tables are lists of rows in table order; the module-level
      variables of trpc-service ([blockedAccountsMap], [inProgressHistoryMp],
      [isRefreshAllMpArticlesRunning]) are fields of [World];
    - an [async] function is a state transformer that may reject
      ([Async]); every [await] of I/O is a suspension point at which the
      other invocations on the event loop may run ([suspend]);
    - what the program cannot decide (the clock, [Math.random], the upstream
      platform, library renderers) is read from [Env], indexed by the
      logical time [tick];
    - every I/O call is recorded in [trace], in chronological order;
    - D1 statements always succeed; only [fetch] and the program's own
      [throw] reject. *)

From Stdlib Require Import ZArith List String Ascii Lia Bool DecimalString.
From stdpp Require Import base gmap strings list.

Local Open Scope string_scope.
Local Open Scope list_scope.

(* ================================================================== *)
(** ** JavaScript values *)

(** [String.prototype.includes]. *)
Fixpoint includes (s sub : string) : bool :=
  String.prefix sub s ||
  match s with
  | EmptyString => false
  | String _ s' => includes s' sub
  end.

(** [a || b] on an optional string: the empty string and [undefined] are
    falsy. *)
Definition js_or (a : option string) (b : string) : string :=
  match a with
  | Some (String c s) => String c s
  | _ => b
  end.

(** Truthiness of an optional string and of an optional number. *)
Definition truthy_string (a : option string) : bool :=
  match a with
  | Some (String _ _) => true
  | _ => false
  end.

Definition truthy_number (a : option Z) : bool :=
  match a with
  | Some n => negb (n =? 0)%Z
  | None => false
  end.

(** Template-literal rendering of an integral number: [`${n}`]. *)
Definition show_number (n : Z) : string :=
  NilZero.string_of_int (Z.to_int n).

(** [Math.ceil(a / b)] for an integral [a] and a positive integral [b]. *)
Definition Math_ceil_div (a b : Z) : Z := (- ((- a) / b))%Z.

(** [Math.floor(a / b)]. *)
Definition Math_floor_div (a b : Z) : Z := (a / b)%Z.

(** [String.prototype.split] on a one-character separator. *)
Fixpoint split (sep : ascii) (s : string) : list string :=
  match s with
  | EmptyString => [EmptyString]
  | String c s' =>
      if Ascii.eqb c sep then EmptyString :: split sep s'
      else
        match split sep s' with
        | p :: ps => String c p :: ps
        | [] => [String c EmptyString]
        end
  end.

(** [Array.prototype.filter(Boolean)] on strings. *)
Definition filter_Boolean (l : list string) : list string :=
  List.filter (fun s => negb (String.eqb s "")) l.

(** A value of [Math.random()]: the fraction
    [(rnd_num mod rnd_den) / rnd_den] of [[0, 1)], with
    [rnd_den = S rnd_den_pred]. *)
Record Draw : Type := {
  rnd_num : nat;
  rnd_den_pred : nat;
}.

Definition rnd_den (r : Draw) : nat := S (rnd_den_pred r).

(** [Math.floor(r * len)]. *)
Definition Math_floor_mul (r : Draw) (len : nat) : nat :=
  ((rnd_num r mod rnd_den r) * len) / rnd_den r.

(** A thrown [Error]: [error.message], [error.status] and
    [error.data.message] (the last two are set by [fetchJson] only). *)
Record JsError : Type := {
  message : string;
  status : option Z;
  data_message : option string;
}.

Definition Error_of (msg : string) : JsError :=
  {| message := msg; status := None; data_message := None |}.

Inductive Outcome (A : Type) : Type :=
| Resolved (a : A)
| Rejected (e : JsError).
Arguments Resolved {A} a.
Arguments Rejected {A} e.

(* ================================================================== *)
(** ** constants.ts *)

Module statusMap.
Definition INVALID : Z := 0.
Definition ENABLE : Z := 1.
Definition DISABLE : Z := 2.
End statusMap.

Definition feedTypes : list string := ["rss"; "atom"; "json"].

(** [feedMimeTypeMap[type]]; [None] is [undefined]. *)
Definition feedMimeTypeMap (type : string) : option string :=
  if String.eqb type "rss" then Some "application/rss+xml; charset=utf-8"
  else if String.eqb type "atom" then Some "application/atom+xml; charset=utf-8"
  else if String.eqb type "json" then Some "application/feed+json; charset=utf-8"
  else None.

Definition defaultCount : Z := 20.

(* ================================================================== *)
(** ** schema.sql and db.ts: rows *)

Record AccountRow : Type := {
  acc_id : string;
  acc_token : string;
  acc_name : string;
  acc_status : Z;
  acc_created_at : Z;
  acc_updated_at : Z;
}.

Record FeedRow : Type := {
  feed_id : string;
  mp_name : string;
  mp_cover : string;
  mp_intro : string;
  feed_status : Z;
  sync_time : Z;
  update_time : Z;
  has_history : Z;
  feed_created_at : Z;
  feed_updated_at : Z;
}.

Record ArticleRow : Type := {
  art_id : string;
  art_mp_id : string;
  art_title : string;
  art_pic_url : string;
  art_publish_time : Z;
  art_created_at : Z;
  art_updated_at : Z;
}.

(** An article as the platform returns it. *)
Record ArticleSummary : Type := {
  s_id : string;
  s_title : string;
  s_picUrl : string;
  s_publishTime : Z;
}.

(** The body of [GET /api/v2/login/platform/{id}]. *)
Record LoginResult : Type := {
  lr_message : string;
  lr_vid : option Z;
  lr_token : option string;
  lr_username : option string;
}.

(** The [data] of [fetchJson], [await res.json().catch(() => ({}))]: the
    parsed body, taken to be of the type the caller declares, or the empty
    object that the [catch] puts in its place when the body is not JSON. *)
Inductive Body (A : Type) : Type :=
| Json (a : A)
| EmptyObject.
Arguments Json {A} a.
Arguments EmptyObject {A}.

(** [data?.name], a field of the body: [undefined] on the empty object. *)
Definition field {A B : Type} (read : A -> option B) (data : Body A)
  : option B :=
  match data with
  | Json a => read a
  | EmptyObject => None
  end.

(** [data.length] of what should be an array. *)
Definition Array_length {A : Type} (data : Body (list A)) : option Z :=
  match data with
  | Json l => Some (Z.of_nat (length l))
  | EmptyObject => None
  end.

(** The elements of the array, none for the empty object. *)
Definition elements {A : Type} (data : Body (list A)) : list A :=
  match data with
  | Json l => l
  | EmptyObject => []
  end.

(** [x > n] and [x < n]: both false when [x] is [undefined]. *)
Definition js_gt (x : option Z) (n : Z) : bool :=
  match x with
  | Some v => (n <? v)%Z
  | None => false
  end.

Definition js_lt (x : option Z) (n : Z) : bool :=
  match x with
  | Some v => (v <? n)%Z
  | None => false
  end.

(** What [fetch] gives back: it rejects (network failure, abort on
    timeout), or there is a response with a status, the [message] of its
    JSON body when it has one, and the body, parsed or not. *)
Inductive FetchResult (A : Type) : Type :=
| NetworkError (msg : string)
| HttpResponse (st : Z) (body_message : option string) (body : Body A).
Arguments NetworkError {A} msg.
Arguments HttpResponse {A} st body_message body.

(** [res.ok] *)
Definition res_ok (st : Z) : bool := ((200 <=? st) && (st <=? 299))%Z.

(** What [fetchJson] makes of it: [if (!res.ok) throw error; return data],
    where [data] is the empty object when [res.json()] failed. *)
Definition response_outcome {A : Type} (r : FetchResult A)
  : Outcome (Body A) :=
  match r with
  | NetworkError msg => Rejected (Error_of msg)
  | HttpResponse st msg data =>
      if res_ok st then Resolved data
      else Rejected
             {| message := js_or msg ("Request failed: " +:+ show_number st);
                status := Some st;
                data_message := msg |}
  end.

(* ================================================================== *)
(** ** The feed document handed to the [feed] library

    Of the options of [new Feed], the constant ones (language, copyright,
    generator) and those that repeat another one (id = link,
    favicon = image, author = title) are left out. *)

Record Item : Type := {
  item_id : string;
  item_title : string;
  item_link : string;
  item_content : string;
  item_date : Z;
  item_image : string;
  item_author : option string;
}.

Record FeedDoc : Type := {
  fd_title : string;
  fd_description : string;
  fd_link : string;
  fd_image : string;
  fd_updated : Z;
  fd_items : list Item;
}.

(* ================================================================== *)
(** ** I/O events *)

Inductive Stmt : Type :=
| SelectAvailableAccounts (blockedIds : list string)
| SelectAccountById (id : string)
| UpdateAccount (id : string)
| SelectFeedById (id : string)
| UpdateFeed (id : string)
| SelectAllFeeds
| SelectEnabledFeeds
| SelectArticlesByMpId (mpId : string)
| SelectAllArticles
| CountArticlesByMpId (mpId : string)
| BatchUpsertArticles (mpId : string) (n : nat).

Inductive Event : Type :=
| EvD1 (stmt : Stmt)
| EvFetchArticles (xid token mpId : string) (page : Z)
| EvFetchLoginResult (loginId : string)
| EvFetchContent (articleId : string)
| EvSleep (ms : Z)
| EvConsoleError (msg : string).

(* ================================================================== *)
(** ** The environment and the world *)

Record Env : Type := {
  (** bindings of types.ts *)
  SERVER_ORIGIN_URL : option string;
  FEED_MODE : option string;
  UPDATE_DELAY_TIME : option string;
  (** the language and the libraries *)
  Number : string -> option Z;           (* [None]: not a finite number *)
  Date_now : nat -> Z;                   (* epoch milliseconds *)
  dayjs_tz_format : Z -> string;         (* 'YYYY-MM-DD' in Asia/Shanghai *)
  Math_random : nat -> Draw;
  feed_rss2 : FeedDoc -> string;
  feed_atom1 : FeedDoc -> string;
  feed_json1 : FeedDoc -> string;
  (** the upstream platform *)
  platform_articles :
    nat -> string -> string -> string -> Z -> FetchResult (list ArticleSummary);
  platform_login_result : nat -> string -> FetchResult LoginResult;
  article_content : nat -> string -> string;
}.

Record HistoryMarker : Type := {
  hm_id : string;
  hm_page : Z;
}.

Record World : Type := {
  accounts : list AccountRow;
  feeds : list FeedRow;
  articles : list ArticleRow;
  blockedAccountsMap : gmap string (list string);
  inProgressHistoryMp : HistoryMarker;
  isRefreshAllMpArticlesRunning : bool;
  tick : nat;
  trace : list Event;
}.

Definition set_accounts (v : list AccountRow) (w : World) : World :=
  {| accounts := v; feeds := feeds w; articles := articles w;
     blockedAccountsMap := blockedAccountsMap w;
     inProgressHistoryMp := inProgressHistoryMp w;
     isRefreshAllMpArticlesRunning := isRefreshAllMpArticlesRunning w;
     tick := tick w; trace := trace w |}.

Definition set_feeds (v : list FeedRow) (w : World) : World :=
  {| accounts := accounts w; feeds := v; articles := articles w;
     blockedAccountsMap := blockedAccountsMap w;
     inProgressHistoryMp := inProgressHistoryMp w;
     isRefreshAllMpArticlesRunning := isRefreshAllMpArticlesRunning w;
     tick := tick w; trace := trace w |}.

Definition set_articles (v : list ArticleRow) (w : World) : World :=
  {| accounts := accounts w; feeds := feeds w; articles := v;
     blockedAccountsMap := blockedAccountsMap w;
     inProgressHistoryMp := inProgressHistoryMp w;
     isRefreshAllMpArticlesRunning := isRefreshAllMpArticlesRunning w;
     tick := tick w; trace := trace w |}.

Definition set_blockedAccountsMap (v : gmap string (list string)) (w : World)
  : World :=
  {| accounts := accounts w; feeds := feeds w; articles := articles w;
     blockedAccountsMap := v;
     inProgressHistoryMp := inProgressHistoryMp w;
     isRefreshAllMpArticlesRunning := isRefreshAllMpArticlesRunning w;
     tick := tick w; trace := trace w |}.

Definition set_inProgressHistoryMp (v : HistoryMarker) (w : World) : World :=
  {| accounts := accounts w; feeds := feeds w; articles := articles w;
     blockedAccountsMap := blockedAccountsMap w;
     inProgressHistoryMp := v;
     isRefreshAllMpArticlesRunning := isRefreshAllMpArticlesRunning w;
     tick := tick w; trace := trace w |}.

Definition set_isRefreshAllMpArticlesRunning (v : bool) (w : World) : World :=
  {| accounts := accounts w; feeds := feeds w; articles := articles w;
     blockedAccountsMap := blockedAccountsMap w;
     inProgressHistoryMp := inProgressHistoryMp w;
     isRefreshAllMpArticlesRunning := v;
     tick := tick w; trace := trace w |}.

Definition set_tick (v : nat) (w : World) : World :=
  {| accounts := accounts w; feeds := feeds w; articles := articles w;
     blockedAccountsMap := blockedAccountsMap w;
     inProgressHistoryMp := inProgressHistoryMp w;
     isRefreshAllMpArticlesRunning := isRefreshAllMpArticlesRunning w;
     tick := v; trace := trace w |}.

Definition emit (e : Event) (w : World) : World :=
  {| accounts := accounts w; feeds := feeds w; articles := articles w;
     blockedAccountsMap := blockedAccountsMap w;
     inProgressHistoryMp := inProgressHistoryMp w;
     isRefreshAllMpArticlesRunning := isRefreshAllMpArticlesRunning w;
     tick := tick w; trace := trace w ++ [e] |}.

(* ================================================================== *)
(** ** Promises *)

Definition Async (A : Type) : Type := World -> World * Outcome A.

Definition ret {A : Type} (a : A) : Async A := fun w => (w, Resolved a).

Definition throw {A : Type} (e : JsError) : Async A :=
  fun w => (w, Rejected e).

Definition bind {A B : Type} (m : Async A) (k : A -> Async B) : Async B :=
  fun w =>
    match m w with
    | (w1, Resolved a) => k a w1
    | (w1, Rejected e) => (w1, Rejected e)
    end.

Notation "'let*' x ':=' m 'in' k" := (bind m (fun x => k))
  (at level 10, x name, m at level 100, k at level 200).
Notation "m >> k" := (bind m (fun _ => k))
  (at level 100, k at level 200, right associativity).

(** [try { m } catch (error) { h error }] *)
Definition try_catch {A : Type} (m : Async A) (h : JsError -> Async A)
  : Async A :=
  fun w =>
    match m w with
    | (w1, Resolved a) => (w1, Resolved a)
    | (w1, Rejected e) => h e w1
    end.

(** [try { m } finally { f }]: [f] runs on both exits; the outcome of [m]
    stands unless [f] itself rejects. *)
Definition try_finally {A : Type} (m : Async A) (f : Async unit) : Async A :=
  fun w =>
    match m w with
    | (w1, r) =>
        match f w1 with
        | (w2, Resolved _) => (w2, r)
        | (w2, Rejected e) => (w2, Rejected e)
        end
    end.

(** Synchronous reads and writes of the module state. *)
Definition get {A : Type} (f : World -> A) : Async A :=
  fun w => (w, Resolved (f w)).

Definition modify (f : World -> World) : Async unit :=
  fun w => (f w, Resolved tt).

(* ================================================================== *)
(** ** SQL on the tables *)

(** [ORDER BY key ASC]; rows with equal keys stay in table order (SQLite
    leaves their order open). *)
Fixpoint insert_by {A : Type} (key : A -> Z) (x : A) (l : list A) : list A :=
  match l with
  | [] => [x]
  | y :: l' =>
      if (key x <=? key y)%Z then x :: y :: l' else y :: insert_by key x l'
  end.

Definition order_by {A : Type} (key : A -> Z) (l : list A) : list A :=
  fold_right (insert_by key) [] l.

(** [LIMIT n OFFSET k] of SQLite: a negative limit is no limit, a negative
    offset is none. *)
Definition limit_offset {A : Type} (lim off : Z) (l : list A) : list A :=
  let rest := drop (Z.to_nat off) l in
  if (lim <? 0)%Z then rest else take (Z.to_nat lim) rest.

(** The WHERE clause of [getAvailableAccounts]:
    [status = ? AND id NOT IN (...)]; [buildNotInClause] leaves the second
    conjunct out when there is no id to exclude. *)
Definition available (blockedIds : list string) (r : AccountRow) : bool :=
  (acc_status r =? statusMap.ENABLE)%Z
  && negb (existsb (String.eqb (acc_id r)) blockedIds).

Definition sql_getAvailableAccounts (blockedIds : list string)
    (tbl : list AccountRow) : list AccountRow :=
  take 10 (order_by acc_created_at (List.filter (available blockedIds) tbl)).

(** [Partial<{ token; name; status }>] *)
Record AccountPatch : Type := {
  p_token : option string;
  p_name : option string;
  p_status : option Z;
}.

Definition patch_account (data : AccountPatch) (now : Z) (r : AccountRow)
  : AccountRow :=
  {| acc_id := acc_id r;
     acc_token := default (acc_token r) (p_token data);
     acc_name := default (acc_name r) (p_name data);
     acc_status := default (acc_status r) (p_status data);
     acc_created_at := acc_created_at r;
     acc_updated_at := now |}.

(** [UPDATE accounts SET ... WHERE id = ?] *)
Definition sql_updateAccount (id : string) (data : AccountPatch) (now : Z)
    (tbl : list AccountRow) : list AccountRow :=
  map (fun r => if String.eqb (acc_id r) id then patch_account data now r
                else r) tbl.

(** [Partial<{ mpName; ...; syncTime; ...; hasHistory }>] *)
Record FeedPatch : Type := {
  p_mpName : option string;
  p_mpCover : option string;
  p_mpIntro : option string;
  p_syncTime : option Z;
  p_updateTime : option Z;
  p_feed_status : option Z;
  p_hasHistory : option Z;
}.

Definition patch_feed (data : FeedPatch) (now : Z) (r : FeedRow) : FeedRow :=
  {| feed_id := feed_id r;
     mp_name := default (mp_name r) (p_mpName data);
     mp_cover := default (mp_cover r) (p_mpCover data);
     mp_intro := default (mp_intro r) (p_mpIntro data);
     feed_status := default (feed_status r) (p_feed_status data);
     sync_time := default (sync_time r) (p_syncTime data);
     update_time := default (update_time r) (p_updateTime data);
     has_history := default (has_history r) (p_hasHistory data);
     feed_created_at := feed_created_at r;
     feed_updated_at := now |}.

(** [UPDATE feeds SET ... WHERE id = ?] *)
Definition sql_updateFeed (id : string) (data : FeedPatch) (now : Z)
    (tbl : list FeedRow) : list FeedRow :=
  map (fun r => if String.eqb (feed_id r) id then patch_feed data now r
                else r) tbl.

(** [INSERT INTO articles ... ON CONFLICT(id) DO UPDATE SET title, pic_url,
    publish_time, mp_id, updated_at]: the row with the id is rewritten in
    place (its [created_at] stays); without one, a row is added. *)
Definition excluded (mpId : string) (now : Z) (a : ArticleSummary)
  : ArticleRow :=
  {| art_id := s_id a; art_mp_id := mpId; art_title := s_title a;
     art_pic_url := s_picUrl a; art_publish_time := s_publishTime a;
     art_created_at := now; art_updated_at := now |}.

Definition on_conflict_update (new old : ArticleRow) : ArticleRow :=
  {| art_id := art_id old; art_mp_id := art_mp_id new;
     art_title := art_title new; art_pic_url := art_pic_url new;
     art_publish_time := art_publish_time new;
     art_created_at := art_created_at old;
     art_updated_at := art_updated_at new |}.

Fixpoint sql_upsertArticle (new : ArticleRow) (tbl : list ArticleRow)
  : list ArticleRow :=
  match tbl with
  | [] => [new]
  | old :: tbl' =>
      if String.eqb (art_id old) (art_id new)
      then on_conflict_update new old :: tbl'
      else old :: sql_upsertArticle new tbl'
  end.

(** [db.batch(statements)]: the statements run in order. *)
Definition sql_upsertArticles (mpId : string) (now : Z)
    (arts : list ArticleSummary) (tbl : list ArticleRow) : list ArticleRow :=
  fold_left (fun t a => sql_upsertArticle (excluded mpId now a) t) arts tbl.

(** [ORDER BY publish_time DESC LIMIT ? OFFSET ?] *)
Definition sql_getArticles (keep : ArticleRow -> bool) (lim off : Z)
    (tbl : list ArticleRow) : list ArticleRow :=
  limit_offset lim off
    (order_by (fun r => (- art_publish_time r)%Z) (List.filter keep tbl)).

(* ================================================================== *)
(** ** The worker *)

Section Worker.

Variable env : Env.

(** What the other invocations on the event loop do to the world while
    this one is suspended at logical time [t]. *)
Variable others : nat -> World -> World.

(** An [await] of I/O: the caller is suspended, the others run, time
    passes. *)
Definition suspend : Async unit :=
  fun w =>
    let w1 := others (tick w) w in
    (set_tick (S (tick w1)) w1, Resolved tt).

Definition nowMs (w : World) : Z := Date_now env (tick w).

(** A D1 statement. *)
Definition d1 {A : Type} (stmt : Stmt) (run : World -> World * A)
  : Async A :=
  suspend >>
  fun w => let (w1, a) := run (emit (EvD1 stmt) w) in (w1, Resolved a).

Definition sleep (ms : Z) : Async unit :=
  suspend >> modify (emit (EvSleep ms)).

Definition console_error (msg : string) : Async unit :=
  modify (emit (EvConsoleError msg)).

(** [Math.random()] *)
Definition random : Async Draw :=
  fun w => (set_tick (S (tick w)) w, Resolved (Math_random env (tick w))).

(** *** services/db-queries.ts *)

Definition getAccountById (id : string) : Async (option AccountRow) :=
  d1 (SelectAccountById id)
     (fun w =>
        (w, List.find (fun r => String.eqb (acc_id r) id) (accounts w))).

Definition updateAccount (id : string) (data : AccountPatch)
  : Async (option AccountRow) :=
  let* now := get nowMs in
  d1 (UpdateAccount id)
     (fun w =>
        (set_accounts (sql_updateAccount id data now (accounts w)) w, tt))
  >> getAccountById id.

Definition getFeedById (id : string) : Async (option FeedRow) :=
  d1 (SelectFeedById id)
     (fun w => (w, List.find (fun r => String.eqb (feed_id r) id) (feeds w))).

Definition updateFeed (id : string) (data : FeedPatch)
  : Async (option FeedRow) :=
  let* now := get nowMs in
  d1 (UpdateFeed id)
     (fun w => (set_feeds (sql_updateFeed id data now (feeds w)) w, tt))
  >> getFeedById id.

Definition listEnabledFeeds : Async (list FeedRow) :=
  d1 SelectEnabledFeeds
     (fun w =>
        (w, List.filter
              (fun r => (feed_status r =? statusMap.ENABLE)%Z) (feeds w))).

Definition listAllFeeds : Async (list FeedRow) :=
  d1 SelectAllFeeds (fun w => (w, feeds w)).

Definition getArticlesByMpId (mpId : string) (lim off : Z)
  : Async (list ArticleRow) :=
  d1 (SelectArticlesByMpId mpId)
     (fun w =>
        (w, sql_getArticles (fun r => String.eqb (art_mp_id r) mpId)
              lim off (articles w))).

Definition getAllArticles (lim off : Z) : Async (list ArticleRow) :=
  d1 SelectAllArticles
     (fun w => (w, sql_getArticles (fun _ => true) lim off (articles w))).

Definition countArticlesByMpId (mpId : string) : Async Z :=
  d1 (CountArticlesByMpId mpId)
     (fun w =>
        (w, Z.of_nat
              (length (List.filter
                         (fun r => String.eqb (art_mp_id r) mpId)
                         (articles w))))).

Definition upsertArticles (mpId : string) (arts : list ArticleSummary)
  : Async unit :=
  let* now := get nowMs in
  match arts with
  | [] => ret tt
  | _ :: _ =>
      d1 (BatchUpsertArticles mpId (length arts))
         (fun w =>
            (set_articles (sql_upsertArticles mpId now arts (articles w)) w,
             tt))
  end.

Definition getAvailableAccounts (blockedIds : list string)
  : Async (list AccountRow) :=
  d1 (SelectAvailableAccounts blockedIds)
     (fun w => (w, sql_getAvailableAccounts blockedIds (accounts w))).

(** *** services/trpc-service.ts *)

Definition getTodayDate (w : World) : string :=
  dayjs_tz_format env (Date_now env (tick w)).

Definition getBlockedAccountIds (w : World) : list string :=
  let today := getTodayDate w in
  let disabledAccounts := default [] (blockedAccountsMap w !! today) in
  filter_Boolean disabledAccounts.

Definition removeBlockedAccount (id : string) : Async unit :=
  modify (fun w =>
    let today := getTodayDate w in
    match blockedAccountsMap w !! today with
    | Some blockedAccounts =>
        set_blockedAccountsMap
          (<[today := List.filter (fun item => negb (String.eqb item id))
                        blockedAccounts]> (blockedAccountsMap w)) w
    | None => w
    end).

Definition getUpdateDelaySeconds : Z :=
  let raw := default "60" (UPDATE_DELAY_TIME env) in
  match Number env raw with
  | Some seconds => seconds
  | None => 60%Z
  end.

(** [fetchJson]: a response that is not [ok] is thrown as an [Error] with
    the body's message (or ["Request failed: <status>"]), the status and
    the body; a rejected [fetch] is thrown as it is; an [ok] response gives
    its body, the empty object when that is not JSON. *)
Definition fetchJson {A : Type} (request : Event)
    (reply : nat -> FetchResult A) : Async (Body A) :=
  suspend >>
  fun w => (emit request w, response_outcome (reply (tick w))).

Definition getAvailableAccount : Async AccountRow :=
  let* blocked := get getBlockedAccountIds in
  let* accounts := getAvailableAccounts blocked in
  match accounts with
  | [] => throw (Error_of "暂无可用读书账号!")
  | first :: _ =>
      let* r := random in
      ret (nth (Math_floor_mul r (length accounts)) accounts first)
  end.

Definition handleAccountError (accountId : string) (message : string)
  : Async unit :=
  let* today := get getTodayDate in
  let* blockedAccounts :=
    get (fun w => default [] (blockedAccountsMap w !! today)) in
  if includes message "WeReadError401" then
    updateAccount accountId
      {| p_token := None; p_name := None;
         p_status := Some statusMap.INVALID |}
    >> ret tt
  else if includes message "WeReadError429" then
    modify (fun w =>
      set_blockedAccountsMap
        (<[today := blockedAccounts ++ [accountId]]> (blockedAccountsMap w))
        w)
  else ret tt.

Fixpoint getMpArticles (mpId : string) (page : Z) (retryCount : nat)
  : Async (Body (list ArticleSummary)) :=
  let* account := getAvailableAccount in
  try_catch
    (fetchJson
       (EvFetchArticles (acc_id account) (acc_token account) mpId page)
       (fun t =>
          platform_articles env t (acc_id account) (acc_token account)
            mpId page))
    (fun error =>
       let message := js_or (data_message error) (message error) in
       handleAccountError (acc_id account) message >>
       match retryCount with
       | S n => getMpArticles mpId page n
       | O => throw error
       end).

Definition refreshMpArticlesAndUpdateFeed (mpId : string) (page : Z)
  : Async Z :=
  let* articles := getMpArticles mpId page 3 in
  (if js_gt (Array_length articles) 0
   then upsertArticles mpId (elements articles)
   else ret tt) >>
  let hasHistory :=
    if js_lt (Array_length articles) defaultCount then 0%Z else 1%Z in
  let* now := get nowMs in
  updateFeed mpId
    {| p_mpName := None; p_mpCover := None; p_mpIntro := None;
       p_syncTime := Some (Math_floor_div now 1000);
       p_updateTime := None; p_feed_status := None;
       p_hasHistory := Some hasHistory |} >>
  ret hasHistory.

(** The [while (i-- > 0)] loop of [getHistoryMpArticles]. *)
Fixpoint history_loop (mpId : string) (i : nat) : Async unit :=
  match i with
  | O => ret tt
  | S i' =>
      let* marker := get inProgressHistoryMp in
      if negb (String.eqb (hm_id marker) mpId) then ret tt
      else
        let* hasHistory :=
          refreshMpArticlesAndUpdateFeed mpId (hm_page marker) in
        if (hasHistory <? 1)%Z then ret tt
        else
          modify (fun w =>
            set_inProgressHistoryMp
              {| hm_id := hm_id (inProgressHistoryMp w);
                 hm_page := (hm_page (inProgressHistoryMp w) + 1)%Z |} w) >>
          sleep (getUpdateDelaySeconds * 1000) >>
          history_loop mpId i'
  end.

Definition getHistoryMpArticles (mpId : string) : Async unit :=
  let* marker := get inProgressHistoryMp in
  if String.eqb (hm_id marker) mpId then ret tt
  else
    modify (set_inProgressHistoryMp {| hm_id := mpId; hm_page := 1 |}) >>
    if String.eqb mpId "" then ret tt
    else
      try_finally
        (let* feed := getFeedById mpId in
         match feed with
         | None => ret tt
         | Some feed =>
             if (has_history feed =? 0)%Z then ret tt
             else
               let* total := countArticlesByMpId mpId in
               modify (fun w =>
                 set_inProgressHistoryMp
                   {| hm_id := hm_id (inProgressHistoryMp w);
                      hm_page := Math_ceil_div total defaultCount |} w) >>
               history_loop mpId 1000
         end)
        (modify (set_inProgressHistoryMp {| hm_id := ""; hm_page := 1 |})).

(** The [for (const feed of feeds)] loop of
    [refreshAllMpArticlesAndUpdateFeed]. *)
Fixpoint refresh_each (feeds : list FeedRow) : Async unit :=
  match feeds with
  | [] => ret tt
  | feed :: rest =>
      refreshMpArticlesAndUpdateFeed (feed_id feed) 1 >>
      sleep (getUpdateDelaySeconds * 1000) >>
      refresh_each rest
  end.

Definition refreshAllMpArticlesAndUpdateFeed : Async unit :=
  let* running := get isRefreshAllMpArticlesRunning in
  if running then ret tt
  else
    modify (set_isRefreshAllMpArticlesRunning true) >>
    try_finally
      (let* feeds := listAllFeeds in refresh_each feeds)
      (modify (set_isRefreshAllMpArticlesRunning false)).

Definition getLoginResult (id : string) : Async (Body LoginResult) :=
  fetchJson (EvFetchLoginResult id) (fun t => platform_login_result env t id).

(** *** services/account-check.ts *)

Definition checkAccountValidity (accountId token : string) : Async bool :=
  try_catch
    (let* feeds := listEnabledFeeds in
     let testMpId :=
       js_or (option_map feed_id (head feeds)) "gh_test" in
     fetchJson (EvFetchArticles accountId token testMpId 1)
       (fun t => platform_articles env t accountId token testMpId 1) >>
     ret true)
    (fun error =>
       let errMsg := js_or (data_message error) "" in
       let statusCode := status error in
       if bool_decide (statusCode = Some 401%Z)
          || includes errMsg "WeReadError401"
       then ret false
       else if bool_decide (statusCode = Some 404%Z) then ret true
       else ret true).

(** The [for (attempt = 0; attempt < maxAttempts; attempt++)] loop of
    [tryRefreshAccountFromLogin]; [remaining] is
    [maxAttempts - attempt]. *)
Fixpoint poll_login (id name loginId : string) (remaining : nat)
  : Async unit :=
  match remaining with
  | O => ret tt
  | S n =>
      let* loginResult := getLoginResult loginId in
      if truthy_number (field lr_vid loginResult)
         && truthy_string (field lr_token loginResult)
      then
        let vid := show_number (default 0%Z (field lr_vid loginResult)) in
        if String.eqb vid id then
          updateAccount id
            {| p_token := field lr_token loginResult;
               p_name := Some (js_or (field lr_username loginResult) name);
               p_status := Some statusMap.ENABLE |} >>
          removeBlockedAccount id
        else ret tt
      else sleep (5 * 1000) >> poll_login id name loginId n
  end.

Definition tryRefreshAccountFromLogin (id name loginId : string)
  : Async unit :=
  try_catch
    (let maxAttempts := 60%nat in poll_login id name loginId maxAttempts)
    (fun error =>
       console_error
         ("[account-check] failed to refresh account from login: "
          +:+ message error)).

(** *** services/feeds.ts *)

Definition getFeedMode : string := default "" (FEED_MODE env).

Definition getOriginUrl (fallback : string) : string :=
  default fallback (SERVER_ORIGIN_URL env).

(** [tryGetContent]: the cached or freshly fetched page of the article,
    as the environment gives it. *)
Definition tryGetContent (id : string) : Async string :=
  suspend >>
  fun w => (emit (EvFetchContent id) w,
            Resolved (article_content env (tick w) id)).

Record GenerateOpts : Type := {
  o_id : option string;
  o_type : string;
  o_limit : Z;
  o_page : Z;
  o_mode : option string;
  o_title_include : option string;
  o_title_exclude : option string;
}.

(** The [mapper] of [renderFeed] over [opts.articles]. *)
Fixpoint render_items (feeds : list FeedRow) (enableFullText showAuthor : bool)
    (arts : list ArticleRow) : Async (list Item) :=
  match arts with
  | [] => ret []
  | item :: rest =>
      let link := "https://mp.weixin.qq.com/s/" +:+ art_id item in
      let mpName :=
        js_or (option_map mp_name
                 (List.find
                    (fun feed => String.eqb (feed_id feed) (art_mp_id item))
                    feeds)) "-" in
      let* content :=
        (if enableFullText then tryGetContent (art_id item) else ret "") in
      let* items := render_items feeds enableFullText showAuthor rest in
      ret ({| item_id := art_id item; item_title := art_title item;
              item_link := link; item_content := content;
              item_date := (art_publish_time item * 1000)%Z;
              item_image := art_pic_url item;
              item_author := if showAuthor then Some mpName else None |}
           :: items)
  end.

Definition renderFeed (type : string) (feedInfo : FeedRow)
    (arts : list ArticleRow) (mode : option string) : Async FeedDoc :=
  let originUrl := getOriginUrl "" in
  let link := originUrl +:+ "/feeds/" +:+ feed_id feedInfo +:+ "." +:+ type in
  let* feeds := listAllFeeds in
  let enableFullText :=
    match mode with
    | Some m => String.eqb m "fulltext"
    | None => String.eqb getFeedMode "fulltext"
    end in
  let showAuthor := String.eqb (feed_id feedInfo) "all" in
  let* items := render_items feeds enableFullText showAuthor arts in
  ret {| fd_title := mp_name feedInfo;
         fd_description := mp_intro feedInfo;
         fd_link := link;
         fd_image := mp_cover feedInfo;
         fd_updated := (update_time feedInfo * 1000)%Z;
         fd_items := items |}.

Definition with_items (items : list Item) (feed : FeedDoc) : FeedDoc :=
  {| fd_title := fd_title feed; fd_description := fd_description feed;
     fd_link := fd_link feed; fd_image := fd_image feed;
     fd_updated := fd_updated feed; fd_items := items |}.

Definition handleGenerateFeed (opts : GenerateOpts)
  : Async (string * option string) :=
  let type :=
    if existsb (String.eqb (o_type opts)) feedTypes then o_type opts
    else "atom" in
  let* found :=
    (if truthy_string (o_id opts) then
       let id := default "" (o_id opts) in
       let* feedInfo := getFeedById id in
       match feedInfo with
       | None => throw (Error_of "不存在该feed")
       | Some feedInfo =>
           let* articles :=
             getArticlesByMpId id (o_limit opts)
               ((o_page opts - 1) * o_limit opts) in
           ret (feedInfo, articles)
       end
     else
       let* articles :=
         getAllArticles (o_limit opts)
           ((o_page opts - 1) * o_limit opts) in
       let originUrl := default "" (SERVER_ORIGIN_URL env) in
       let* now := get nowMs in
       ret ({| feed_id := "all";
               mp_name := "WeWe-RSS All";
               mp_intro := "WeWe-RSS 全部文章";
               mp_cover :=
                 if String.eqb originUrl ""
                 then "https://r2-assets.111965.xyz/wewe-rss.png"
                 else originUrl +:+ "/favicon.ico";
               feed_status := statusMap.ENABLE;
               sync_time := 0;
               update_time := Math_floor_div now 1000;
               has_history := (-1);
               feed_created_at := now;
               feed_updated_at := now |}, articles)) in
  let* feed := renderFeed type (fst found) (snd found) (o_mode opts) in
  let feed :=
    if truthy_string (o_title_include opts) then
      let includes_ := split "|" (default "" (o_title_include opts)) in
      with_items
        (List.filter
           (fun i => existsb (fun k => includes (item_title i) k) includes_)
           (fd_items feed)) feed
    else feed in
  let feed :=
    if truthy_string (o_title_exclude opts) then
      let excludes := split "|" (default "" (o_title_exclude opts)) in
      with_items
        (List.filter
           (fun i =>
              negb (existsb (fun k => includes (item_title i) k) excludes))
           (fd_items feed)) feed
    else feed in
  if String.eqb type "rss" then
    ret (feed_rss2 env feed, feedMimeTypeMap type)
  else if String.eqb type "json" then
    ret (feed_json1 env feed, feedMimeTypeMap type)
  else
    ret (feed_atom1 env feed, feedMimeTypeMap type).

End Worker.

(* ================================================================== *)
(** ** Runs and observations *)

(** Nothing else runs while this invocation is suspended. *)
Definition alone : nat -> World -> World := fun _ w => w.

(** The ids on today's list as [blockedAccountsMap] holds them. *)
Definition blockedToday (env : Env) (w : World) : list string :=
  default [] (blockedAccountsMap w !! getTodayDate env w).

(** The rows [getAvailableAccount] chooses from. *)
Definition candidates (env : Env) (w : World) : list AccountRow :=
  sql_getAvailableAccounts (getBlockedAccountIds env w) (accounts w).

(** The numerators [p] of [[0, n * k)] whose draw [p / (n * k)] selects
    index [i] among [n] candidates. *)
Definition draws_selecting (n k i : nat) : list nat :=
  List.filter
    (fun p =>
       Math_floor_mul {| rnd_num := p; rnd_den_pred := pred (n * k) |} n
       =? i)%nat
    (seq 0 (n * k)).

(** Eleven valid accounts, created one after the other; nobody is
    blocked. *)
Definition account_nr (n : Z) : AccountRow :=
  {| acc_id := "vid" +:+ show_number n; acc_token := "token";
     acc_name := "reader"; acc_status := statusMap.ENABLE;
     acc_created_at := n; acc_updated_at := n |}.

Definition world0 : World :=
  {| accounts := []; feeds := []; articles := [];
     blockedAccountsMap := ∅;
     inProgressHistoryMp := {| hm_id := ""; hm_page := 1 |};
     isRefreshAllMpArticlesRunning := false;
     tick := 0; trace := [] |}.

Definition eleven_accounts : World :=
  set_accounts (map account_nr [0; 1; 2; 3; 4; 5; 6; 7; 8; 9; 10]%Z) world0.

(** A sample environment: the clock stands at 0, the platform answers
    every articles request with an HTTP 401 without a body message and
    every login poll with a timeout. *)
Definition env0 : Env :=
  {| SERVER_ORIGIN_URL := None;
     FEED_MODE := None;
     UPDATE_DELAY_TIME := None;
     Number := fun _ => Some 60%Z;
     Date_now := fun _ => 0%Z;
     dayjs_tz_format := fun _ => "1970-01-01";
     Math_random := fun _ => {| rnd_num := 0; rnd_den_pred := 0 |};
     feed_rss2 := fun _ => "<rss/>";
     feed_atom1 := fun _ => "<feed/>";
     feed_json1 := fun _ => "{}";
     platform_articles := fun _ _ _ _ _ => HttpResponse 401 None (Json []);
     platform_login_result := fun _ _ => NetworkError "aborted";
     article_content := fun _ _ => "" |}.

(** One valid account. *)
Definition one_account : World :=
  set_accounts [account_nr 0] world0.

(** The classification of an upstream error, following the words of the
    specification: 401 or an error code with the unauthorized marker is
    Unauthorized; 429 or an error code with the rate-limit marker is
    RateLimited; all else is Other. *)
Inductive ErrorKind : Type := Unauthorized | RateLimited | Other.

Definition spec_classify (e : JsError) : ErrorKind :=
  if bool_decide (status e = Some 401%Z)
     || includes (js_or (data_message e) "") "WeReadError401"
  then Unauthorized
  else if bool_decide (status e = Some 429%Z)
          || includes (js_or (data_message e) "") "WeReadError429"
  then RateLimited
  else Other.

(** The [catch] block of [getMpArticles] and [getMpInfo] up to the retry:
    the message handed to [handleAccountError] is
    [error?.data?.message || error.message || '']. *)
Definition on_upstream_error (env : Env) (accountId : string) (error : JsError)
  : Async unit :=
  handleAccountError env alone accountId
    (js_or (data_message error) (message error)).

(** The error [fetchJson] throws for an HTTP 401 whose body carries no
    message. *)
Definition bare_401 : JsError :=
  {| message := "Request failed: 401"; status := Some 401%Z;
     data_message := None |}.

(** A view of the world is framed when logical time and the trace do not
    show in it. *)
Record Framed {B : Type} (view : World -> B) : Prop := {
  framed_tick : forall t w, view (set_tick t w) = view w;
  framed_emit : forall e w, view (emit e w) = view w;
}.

(** [m] leaves the view as it found it. *)
Definition keeps {A B : Type} (view : World -> B) (m : Async A) : Prop :=
  forall w, view (fst (m w)) = view w.

Definition ignores_accounts {B : Type} (view : World -> B) : Prop :=
  forall v w, view (set_accounts v w) = view w.

Definition ignores_feeds {B : Type} (view : World -> B) : Prop :=
  forall v w, view (set_feeds v w) = view w.

Definition ignores_articles {B : Type} (view : World -> B) : Prop :=
  forall v w, view (set_articles v w) = view w.

Definition ignores_blocklist {B : Type} (view : World -> B) : Prop :=
  forall v w, view (set_blockedAccountsMap v w) = view w.

Definition ignores_marker {B : Type} (view : World -> B) : Prop :=
  forall v w, view (set_inProgressHistoryMp v w) = view w.

(** What one pass through the body of [getMpArticles] leaves in the trace:
    the selection query with the ids it excluded, the request made with the
    selected account at some logical time, and the statements of
    [handleAccountError] when the request failed. *)
Record AttemptLog : Type := {
  al_blocked : list string;
  al_account : AccountRow;
  al_tick : nat;
  al_handler : list Event;
}.

Definition attempt_events (mpId : string) (page : Z) (a : AttemptLog)
  : list Event :=
  EvD1 (SelectAvailableAccounts (al_blocked a))
  :: EvFetchArticles (acc_id (al_account a)) (acc_token (al_account a))
       mpId page
  :: al_handler a.

(** What the upstream request of the attempt came to. *)
Definition attempt_outcome (env : Env) (mpId : string) (page : Z)
    (a : AttemptLog) : Outcome (Body (list ArticleSummary)) :=
  response_outcome
    (platform_articles env (al_tick a) (acc_id (al_account a))
       (acc_token (al_account a)) mpId page).

Definition attempt_failed (env : Env) (mpId : string) (page : Z)
    (a : AttemptLog) : Prop :=
  exists e, attempt_outcome env mpId page a = Rejected e.

(** The error handler issues no statement, or the UPDATE and the SELECT of
    [updateAccount] on the account of the attempt. *)
Definition handler_shape (a : AttemptLog) : Prop :=
  al_handler a = []
  \/ al_handler a = [EvD1 (UpdateAccount (acc_id (al_account a)));
                     EvD1 (SelectAccountById (acc_id (al_account a)))].

(** Every attempt but the last failed, and the request of the last one
    came to [r]. *)
Inductive attempts_end (env : Env) (mpId : string) (page : Z)
  : list AttemptLog -> Outcome (Body (list ArticleSummary)) -> Prop :=
| attempts_end_here (a : AttemptLog)
    (r : Outcome (Body (list ArticleSummary))) :
    attempt_outcome env mpId page a = r ->
    attempts_end env mpId page [a] r
| attempts_end_later (a : AttemptLog) (logs : list AttemptLog)
    (r : Outcome (Body (list ArticleSummary))) :
    attempt_failed env mpId page a ->
    attempts_end env mpId page logs r ->
    attempts_end env mpId page (a :: logs) r.

(** One attempt: a credential is selected, the page is requested with it,
    and a failure of the request is fed back to the credential state. *)
Inductive Attempt : Type :=
| Got (articles : Body (list ArticleSummary))
| NoAccount (e : JsError)
| Failed (e : JsError).

Definition attempt (env : Env) (mpId : string) (page : Z) (w : World)
  : World * Attempt :=
  match getAvailableAccount env alone w with
  | (w1, Rejected e) => (w1, NoAccount e)
  | (w1, Resolved account) =>
      match fetchJson alone
              (EvFetchArticles (acc_id account) (acc_token account) mpId page)
              (fun t => platform_articles env t (acc_id account)
                          (acc_token account) mpId page) w1 with
      | (w2, Resolved l) => (w2, Got l)
      | (w2, Rejected e) =>
          (fst (on_upstream_error env (acc_id account) e w2), Failed e)
      end
  end.

(** The retry policy, following the words of the specification: a failed
    request is retried, each retry with a newly selected credential, up to
    [retries] times; then the last error is surfaced. A failed selection is
    surfaced at once. *)
Fixpoint spec_fetchArticlesPage (env : Env) (mpId : string) (page : Z)
    (retries : nat) (w : World)
  : World * Outcome (Body (list ArticleSummary)) :=
  match attempt env mpId page w with
  | (w1, Got l) => (w1, Resolved l)
  | (w1, NoAccount e) => (w1, Rejected e)
  | (w1, Failed e) =>
      match retries with
      | S k => spec_fetchArticlesPage env mpId page k w1
      | O => (w1, Rejected e)
      end
  end.

(** The account of the attempt was valid and not among the ids its
    selection query excluded. *)
Definition selected_by_query (a : AttemptLog) : Prop :=
  acc_status (al_account a) = statusMap.ENABLE
  /\ ~ In (acc_id (al_account a)) (al_blocked a).

(** How a run of [getMpArticles] with [n] retries ends, given the attempts
    [logs] and what follows them in the trace, [coda]. *)
Definition retries_end (env : Env) (mpId : string) (page : Z) (n : nat)
    (logs : list AttemptLog) (coda : list Event)
    (r : Outcome (Body (list ArticleSummary))) : Prop :=
  (coda = []
   /\ attempts_end env mpId page logs r
   /\ (forall e, r = Rejected e -> length logs = S n))
  \/ (exists blocked,
        coda = [EvD1 (SelectAvailableAccounts blocked)]
        /\ r = Rejected (Error_of "暂无可用读书账号!")
        /\ Forall (attempt_failed env mpId page) logs).

Definition is_fetch (e : Event) : bool :=
  match e with
  | EvFetchArticles _ _ _ _ => true
  | _ => false
  end.

(** The upstream article requests of a trace. *)
Definition fetches (evs : list Event) : list Event :=
  List.filter is_fetch evs.

(** A full page of twenty articles, an upstream that always returns it, and
    a feed whose history was already marked as finished. *)
Definition summary_nr (n : Z) : ArticleSummary :=
  {| s_id := "article" +:+ show_number n; s_title := "title";
     s_picUrl := ""; s_publishTime := n |}.

Definition full_page : list ArticleSummary :=
  map summary_nr [1; 2; 3; 4; 5; 6; 7; 8; 9; 10;
                  11; 12; 13; 14; 15; 16; 17; 18; 19; 20]%Z.

Definition env_full_page : Env :=
  {| SERVER_ORIGIN_URL := None;
     FEED_MODE := None;
     UPDATE_DELAY_TIME := None;
     Number := fun _ => Some 60%Z;
     Date_now := fun _ => 0%Z;
     dayjs_tz_format := fun _ => "1970-01-01";
     Math_random := fun _ => {| rnd_num := 0; rnd_den_pred := 0 |};
     feed_rss2 := fun _ => "<rss/>";
     feed_atom1 := fun _ => "<feed/>";
     feed_json1 := fun _ => "{}";
     platform_articles :=
       fun _ _ _ _ _ => HttpResponse 200 None (Json full_page);
     platform_login_result := fun _ _ => NetworkError "aborted";
     article_content := fun _ _ => "" |}.

Definition finished_feed : FeedRow :=
  {| feed_id := "mp"; mp_name := "name"; mp_cover := ""; mp_intro := "";
     feed_status := statusMap.ENABLE; sync_time := 0; update_time := 0;
     has_history := 0; feed_created_at := 0; feed_updated_at := 0 |}.

Definition finished_world : World := set_feeds [finished_feed] one_account.

(** The patch [refreshMpArticlesAndUpdateFeed] hands to [updateFeed]. *)
Definition sync_patch (now hasHistory : Z) : FeedPatch :=
  {| p_mpName := None; p_mpCover := None; p_mpIntro := None;
     p_syncTime := Some (Math_floor_div now 1000);
     p_updateTime := None; p_feed_status := None;
     p_hasHistory := Some hasHistory |}.

(** [articles.length < defaultCount ? 0 : 1] *)
Definition hasHistory_of (articles : Body (list ArticleSummary)) : Z :=
  if js_lt (Array_length articles) defaultCount then 0%Z else 1%Z.

(** [m] only adds events to the trace. *)
Definition extends {A : Type} (m : Async A) : Prop :=
  forall w, exists evs, trace (fst (m w)) = trace w ++ evs.

(** [e] is a request for page [page] of [mpId], with whatever credential. *)
Definition fetch_of (mpId : string) (page : Z) (e : Event) : Prop :=
  exists xid token, e = EvFetchArticles xid token mpId page.

(** [countArticlesByMpId] on the stored articles. *)
Definition stored_articles (mpId : string) (w : World) : Z :=
  Z.of_nat
    (length (List.filter (fun r => String.eqb (art_mp_id r) mpId)
               (articles w))).

(** A feed with forty-five stored articles and more history to fetch, and
    an upstream whose pages hold fifteen articles. *)
Definition stored_nr (n : Z) : ArticleRow :=
  {| art_id := "stored" +:+ show_number n; art_mp_id := "mp";
     art_title := "title"; art_pic_url := ""; art_publish_time := n;
     art_created_at := 0; art_updated_at := 0 |}.

Definition open_feed : FeedRow :=
  {| feed_id := "mp"; mp_name := "name"; mp_cover := ""; mp_intro := "";
     feed_status := statusMap.ENABLE; sync_time := 0; update_time := 0;
     has_history := 1; feed_created_at := 0; feed_updated_at := 0 |}.

Definition forty_five_stored : World :=
  set_articles (map stored_nr (map Z.of_nat (seq 1 45)))
    (set_feeds [open_feed] one_account).

Definition env_short_page : Env :=
  {| SERVER_ORIGIN_URL := None;
     FEED_MODE := None;
     UPDATE_DELAY_TIME := None;
     Number := fun _ => Some 60%Z;
     Date_now := fun _ => 0%Z;
     dayjs_tz_format := fun _ => "1970-01-01";
     Math_random := fun _ => {| rnd_num := 0; rnd_den_pred := 0 |};
     feed_rss2 := fun _ => "<rss/>";
     feed_atom1 := fun _ => "<feed/>";
     feed_json1 := fun _ => "{}";
     platform_articles :=
       fun _ _ _ _ _ => HttpResponse 200 None (Json (take 15 full_page));
     platform_login_result := fun _ _ => NetworkError "aborted";
     article_content := fun _ _ => "" |}.

(** The event loop starts further invocations of
    [refreshAllMpArticlesAndUpdateFeed] while the sweep under study is
    suspended: one at each logical time [t] with [calls t = true]. *)
Definition second_call (env : Env) (calls : nat -> bool)
  : nat -> World -> World :=
  fun t w =>
    if calls t then fst (refreshAllMpArticlesAndUpdateFeed env alone w)
    else w.

(** With the all-feeds flag set, [m] runs under interference as [m0] runs
    alone. *)
Definition undisturbed {A : Type} (m m0 : Async A) : Prop :=
  forall w, isRefreshAllMpArticlesRunning w = true -> m w = m0 w.

(** One feed and one valid account. *)
Definition one_feed : World := set_feeds [open_feed] one_account.

(** *** The login poll loop, observed *)

(** What a poll of the login result means for the account [id] under
    recovery. *)
Inductive Verdict : Type :=
| Waiting
| PollFailed (e : JsError)
| OtherIdentity
| Recovered (r : LoginResult).

Definition verdict (id : string) (reply : FetchResult LoginResult)
  : Verdict :=
  match response_outcome reply with
  | Rejected e => PollFailed e
  | Resolved EmptyObject => Waiting
  | Resolved (Json r) =>
      if truthy_number (lr_vid r) && truthy_string (lr_token r) then
        if String.eqb (show_number (default 0%Z (lr_vid r))) id
        then Recovered r
        else OtherIdentity
      else Waiting
  end.

(** The first of [n] verdicts that is not [Waiting], with its index. *)
Fixpoint first_decisive (verdicts : nat -> Verdict) (n : nat)
  : option (nat * Verdict) :=
  match n with
  | O => None
  | S n' =>
      match verdicts 0%nat with
      | Waiting =>
          option_map (fun kv => (S (fst kv), snd kv))
            (first_decisive (fun j => verdicts (S j)) n')
      | v => Some (0%nat, v)
      end
  end.

Definition emit_all (evs : list Event) (w : World) : World :=
  {| accounts := accounts w; feeds := feeds w; articles := articles w;
     blockedAccountsMap := blockedAccountsMap w;
     inProgressHistoryMp := inProgressHistoryMp w;
     isRefreshAllMpArticlesRunning := isRefreshAllMpArticlesRunning w;
     tick := tick w; trace := trace w ++ evs |}.

(** The reply to the poll number [k] (from 0) of a loop that starts in
    [w]: each round takes two suspensions, the request and the pause. *)
Definition poll_at (env : Env) (w : World) (loginId : string) (k : nat)
  : FetchResult LoginResult :=
  platform_login_result env (tick w + 2 * k + 1) loginId.

(** The world after [k] polls that each found nothing and were each
    followed by the pause of five seconds: only time and the trace moved. *)
Definition waited (loginId : string) (k : nat) (w : World) : World :=
  set_tick (tick w + 2 * k)
    (emit_all
       (flat_map (fun _ => [EvFetchLoginResult loginId; EvSleep 5000])
          (seq 0 k)) w).

(** The world after one more poll. *)
Definition polled (loginId : string) (w : World) : World :=
  emit (EvFetchLoginResult loginId) (set_tick (S (tick w)) w).

(** The patch installed when the login resolves to the account under
    recovery. *)
Definition recovery_patch (name : string) (r : LoginResult) : AccountPatch :=
  {| p_token := lr_token r;
     p_name := Some (js_or (lr_username r) name);
     p_status := Some statusMap.ENABLE |}.

Definition is_poll (e : Event) : bool :=
  match e with
  | EvFetchLoginResult _ => true
  | _ => false
  end.

(** An upstream whose login poll answers "waiting" five times and then
    resolves to identity 42 with token "abc". *)
Definition env_login_42 : Env :=
  {| SERVER_ORIGIN_URL := None;
     FEED_MODE := None;
     UPDATE_DELAY_TIME := None;
     Number := fun _ => Some 60%Z;
     Date_now := fun _ => 0%Z;
     dayjs_tz_format := fun _ => "1970-01-01";
     Math_random := fun _ => {| rnd_num := 0; rnd_den_pred := 0 |};
     feed_rss2 := fun _ => "<rss/>";
     feed_atom1 := fun _ => "<feed/>";
     feed_json1 := fun _ => "{}";
     platform_articles := fun _ _ _ _ _ => HttpResponse 401 None (Json []);
     platform_login_result :=
       fun t _ =>
         if (t <? 11)%nat
         then HttpResponse 200 (Some "waiting")
                (Json {| lr_message := "waiting"; lr_vid := None;
                         lr_token := None; lr_username := None |})
         else HttpResponse 200 None
                (Json {| lr_message := ""; lr_vid := Some 42%Z;
                         lr_token := Some "abc"; lr_username := None |});
     article_content := fun _ _ => "" |}.

(** Two invalid accounts, "42" and "7"; "42" is on today's list. *)
Definition invalid_account (id : string) : AccountRow :=
  {| acc_id := id; acc_token := "old"; acc_name := "reader";
     acc_status := statusMap.INVALID; acc_created_at := 0;
     acc_updated_at := 0 |}.

Definition two_invalid : World :=
  set_blockedAccountsMap (<["1970-01-01" := ["42"; "7"]]> ∅)
    (set_accounts [invalid_account "42"; invalid_account "7"] world0).

(** The world after the login resolved to the account under recovery. *)
Definition recovered (env : Env) (id name : string) (r : LoginResult)
    (w : World) : World :=
  fst ((updateAccount env alone id (recovery_patch name r)
        >> removeBlockedAccount env id) w).

(** How the loop ends on a decisive poll, the poll made. *)
Definition poll_end (env : Env) (id name : string) (v : Verdict) (w : World)
  : World * Outcome unit :=
  match v with
  | Waiting => (w, Resolved tt)
  | PollFailed e => (w, Rejected e)
  | OtherIdentity => (w, Resolved tt)
  | Recovered r => (recovered env id name r w, Resolved tt)
  end.

(** The feed [checkAccountValidity] probes with, and the reply to its
    probe. *)
Definition testMpId_of (w : World) : string :=
  js_or
    (option_map feed_id
       (head (List.filter (fun r => (feed_status r =? statusMap.ENABLE)%Z)
                (feeds w))))
    "gh_test".

Definition probe_reply (env : Env) (accountId token : string) (w : World)
  : FetchResult (list ArticleSummary) :=
  platform_articles env (S (S (tick w))) accountId token (testMpId_of w) 1.

(** [WHERE id = ?] on articles. *)
Definition has_id (id : string) (r : ArticleRow) : bool :=
  String.eqb (art_id r) id.

(** The same article id, first under one title, then under another. *)
Definition first_version : ArticleSummary :=
  {| s_id := "article1"; s_title := "first title"; s_picUrl := "pic1";
     s_publishTime := 100 |}.

Definition second_version : ArticleSummary :=
  {| s_id := "article1"; s_title := "second title"; s_picUrl := "pic2";
     s_publishTime := 200 |}.

(** *** Feed generation, observed *)

(** The type [handleGenerateFeed] works with. *)
Definition normalize_type (type : string) : string :=
  if existsb (String.eqb type) feedTypes then type else "atom".

(** The same request for another document type. *)
Definition with_type (type : string) (opts : GenerateOpts) : GenerateOpts :=
  {| o_id := o_id opts; o_type := type; o_limit := o_limit opts;
     o_page := o_page opts; o_mode := o_mode opts;
     o_title_include := o_title_include opts;
     o_title_exclude := o_title_exclude opts |}.

(** [m] never rejects. *)
Definition resolves {A : Type} (m : Async A) : Prop :=
  forall w, exists w' a, m w = (w', Resolved a).

(** The renderer the [switch] picks. *)
Definition renderer (env : Env) (type : string) : FeedDoc -> string :=
  if String.eqb type "rss" then feed_rss2 env
  else if String.eqb type "json" then feed_json1 env
  else feed_atom1 env.

(** A request for the document type "xml" of a feed that is not stored. *)
Definition xml_of_missing_feed : GenerateOpts :=
  {| o_id := Some "missing"; o_type := "xml"; o_limit := 10; o_page := 1;
     o_mode := None; o_title_include := None; o_title_exclude := None |}.

(* ================================================================== *)
(** ** More of the worker: administration, schedules, listings

    The statements and requests of this part are not recorded in [trace]
    (it has no event for them); their effect on the tables and on the
    module state is modelled in full. *)

(** The input of [upsertAccount]: [{ id, token, name, status }]. *)
Record AccountInput : Type := {
  in_id : string;
  in_token : string;
  in_name : string;
  in_status : Z;
}.

(** [INSERT INTO accounts ... ON CONFLICT(id) DO UPDATE SET token, name,
    status, updated_at]. *)
Fixpoint sql_upsertAccount (input : AccountInput) (now : Z)
    (tbl : list AccountRow) : list AccountRow :=
  match tbl with
  | [] =>
      [ {| acc_id := in_id input; acc_token := in_token input;
           acc_name := in_name input; acc_status := in_status input;
           acc_created_at := now; acc_updated_at := now |} ]
  | old :: tbl' =>
      if String.eqb (acc_id old) (in_id input)
      then {| acc_id := acc_id old; acc_token := in_token input;
              acc_name := in_name input; acc_status := in_status input;
              acc_created_at := acc_created_at old;
              acc_updated_at := now |} :: tbl'
      else old :: sql_upsertAccount input now tbl'
  end.

(** [DELETE FROM accounts WHERE id = ?] *)
Definition sql_deleteAccount (id : string) (tbl : list AccountRow)
  : list AccountRow :=
  List.filter (fun r => negb (String.eqb (acc_id r) id)) tbl.

(** The input of [upsertFeed]. *)
Record FeedInput : Type := {
  fi_id : string;
  fi_mpName : string;
  fi_mpCover : string;
  fi_mpIntro : string;
  fi_syncTime : Z;
  fi_updateTime : Z;
  fi_status : Z;
}.

(** [INSERT INTO feeds ... ON CONFLICT(id) DO UPDATE SET mp_name, mp_cover,
    mp_intro, status, sync_time, update_time, updated_at]: a new row gets
    [has_history = statusMap.ENABLE]; on a conflict [has_history] and
    [created_at] are not in the SET list. *)
Fixpoint sql_upsertFeed (input : FeedInput) (now : Z) (tbl : list FeedRow)
  : list FeedRow :=
  match tbl with
  | [] =>
      [ {| feed_id := fi_id input; mp_name := fi_mpName input;
           mp_cover := fi_mpCover input; mp_intro := fi_mpIntro input;
           feed_status := fi_status input; sync_time := fi_syncTime input;
           update_time := fi_updateTime input;
           has_history := statusMap.ENABLE;
           feed_created_at := now; feed_updated_at := now |} ]
  | old :: tbl' =>
      if String.eqb (feed_id old) (fi_id input)
      then {| feed_id := feed_id old; mp_name := fi_mpName input;
              mp_cover := fi_mpCover input; mp_intro := fi_mpIntro input;
              feed_status := fi_status input; sync_time := fi_syncTime input;
              update_time := fi_updateTime input;
              has_history := has_history old;
              feed_created_at := feed_created_at old;
              feed_updated_at := now |} :: tbl'
      else old :: sql_upsertFeed input now tbl'
  end.

(** [DELETE FROM feeds WHERE id = ?] *)
Definition sql_deleteFeed (id : string) (tbl : list FeedRow) : list FeedRow :=
  List.filter (fun r => negb (String.eqb (feed_id r) id)) tbl.

Section Administration.

Variable env : Env.
Variable others : nat -> World -> World.

(** A D1 statement that the trace has no event for. *)
Definition d1_untraced {A : Type} (run : World -> World * A) : Async A :=
  suspend others >>
  fun w => let (w1, a) := run w in (w1, Resolved a).

(** *** services/db-queries.ts *)

Definition upsertAccount (input : AccountInput) : Async (option AccountRow) :=
  let* now := get (nowMs env) in
  d1_untraced
    (fun w => (set_accounts (sql_upsertAccount input now (accounts w)) w, tt))
  >> getAccountById others (in_id input).

Definition deleteAccount (id : string) : Async unit :=
  d1_untraced
    (fun w => (set_accounts (sql_deleteAccount id (accounts w)) w, tt)).

Definition upsertFeed (input : FeedInput) : Async (option FeedRow) :=
  let* now := get (nowMs env) in
  d1_untraced
    (fun w => (set_feeds (sql_upsertFeed input now (feeds w)) w, tt))
  >> getFeedById others (fi_id input).

Definition deleteFeed (id : string) : Async unit :=
  d1_untraced (fun w => (set_feeds (sql_deleteFeed id (feeds w)) w, tt)).

Definition listEnabledAccountsWithTokens : Async (list AccountRow) :=
  d1_untraced
    (fun w =>
       (w, List.filter (fun r => (acc_status r =? statusMap.ENABLE)%Z)
             (accounts w))).

(** *** trpc/router.ts: the resolvers of [account.add], [account.edit] and
    [account.delete] *)

Definition account_add (input : AccountInput) : Async (option AccountRow) :=
  let* account := upsertAccount input in
  removeBlockedAccount env (in_id input) >>
  ret account.

Definition account_edit (id : string) (data : AccountPatch)
  : Async (option AccountRow) :=
  let* account := updateAccount env others id data in
  removeBlockedAccount env id >>
  ret account.

Definition account_delete (id : string) : Async string :=
  deleteAccount id >>
  removeBlockedAccount env id >>
  ret id.

(** [feed.refreshArticles] *)
Definition feed_refreshArticles (mpId : option string) : Async unit :=
  if truthy_string mpId then
    refreshMpArticlesAndUpdateFeed env others (default "" mpId) 1 >> ret tt
  else refreshAllMpArticlesAndUpdateFeed env others.

(** *** services/feeds.ts: the scheduled sync *)

(** The [for (const feed of feeds)] loop of [handleUpdateFeedsCron]. *)
Fixpoint cron_each (delaySeconds : Z) (feeds : list FeedRow) : Async unit :=
  match feeds with
  | [] => ret tt
  | feed :: rest =>
      try_finally
        (refreshMpArticlesAndUpdateFeed env others (feed_id feed) 1 >>
         sleep others (delaySeconds * 1000))
        (sleep others (30 * 1000)) >>
      cron_each delaySeconds rest
  end.

Definition handleUpdateFeedsCron : Async unit :=
  let* feeds := listEnabledFeeds others in
  let delaySeconds := getUpdateDelaySeconds env in
  cron_each delaySeconds feeds.

Definition updateFeedOnce (id : string) : Async unit :=
  try_finally
    (refreshMpArticlesAndUpdateFeed env others id 1 >> ret tt)
    (sleep others (30 * 1000)).

End Administration.

(** *** Credentials out of use *)

(** No stored account with id [X] has status ENABLE. *)
Definition unusable (X : string) (w : World) : Prop :=
  forall r, In r (accounts w) -> acc_id r = X ->
            acc_status r <> statusMap.ENABLE.

(** [e] is an upstream article request made with the credential [X]. *)
Definition by_account (X : string) (e : Event) : Prop :=
  exists token mpId page, e = EvFetchArticles X token mpId page.

(** From a world in which [X] is unusable, [m] makes no request with [X]
    and leaves [X] unusable. *)
Definition avoids {A : Type} (X : string) (m : Async A) : Prop :=
  forall w, unusable X w ->
    unusable X (fst (m w))
    /\ exists evs, trace (fst (m w)) = trace w ++ evs
                   /\ Forall (fun e => ~ by_account X e) evs.

(** The run of [m] from [w] makes no request with [X] and ends in a world
    in which [X] is unusable. *)
Definition spares {A : Type} (X : string) (m : Async A) (w : World) : Prop :=
  unusable X (fst (m w))
  /\ exists evs, trace (fst (m w)) = trace w ++ evs
                 /\ Forall (fun e => ~ by_account X e) evs.

(** A sample store: the account 42 is invalid, the account vid0 enabled,
    one feed. *)
Definition mixed_accounts : World :=
  set_feeds [open_feed]
    (set_accounts [invalid_account "42"; account_nr 0] world0).

(** *** The stored row of an id *)

Definition stored_account (id : string) (w : World) : option AccountRow :=
  List.find (fun r => String.eqb (acc_id r) id) (accounts w).

Definition stored_feed (id : string) (w : World) : option FeedRow :=
  List.find (fun r => String.eqb (feed_id r) id) (feeds w).

(** A sample input of [account.add]. *)
Definition input_vid0 : AccountInput :=
  {| in_id := "vid0"; in_token := "fresh"; in_name := "reader";
     in_status := statusMap.ENABLE |}.

(** The feed row [upsertFeed] writes for an input, given the row stored
    under the id before. *)
Definition upserted_feed (input : FeedInput) (now : Z)
    (before : option FeedRow) : FeedRow :=
  {| feed_id := fi_id input; mp_name := fi_mpName input;
     mp_cover := fi_mpCover input; mp_intro := fi_mpIntro input;
     feed_status := fi_status input; sync_time := fi_syncTime input;
     update_time := fi_updateTime input;
     has_history :=
       match before with
       | Some old => has_history old
       | None => statusMap.ENABLE
       end;
     feed_created_at :=
       match before with
       | Some old => feed_created_at old
       | None => now
       end;
     feed_updated_at := now |}.

(** A sample input of [feed.add] for the feed of [finished_world]. *)
Definition input_finished : FeedInput :=
  {| fi_id := feed_id finished_feed; fi_mpName := "renamed";
     fi_mpCover := ""; fi_mpIntro := ""; fi_syncTime := 0;
     fi_updateTime := 0; fi_status := statusMap.ENABLE |}.

(** *** The requests of a run *)

(** Whatever the world, the run of [m] only adds events to the trace, at
    most [n] of them are article requests, and each of these satisfies
    [P]. *)
Definition requests {A : Type} (P : Event -> Prop) (n : nat) (m : Async A)
  : Prop :=
  forall w, exists evs,
    trace (fst (m w)) = trace w ++ evs
    /\ Forall P (fetches evs)
    /\ (length (fetches evs) <= n)%nat.

(** A request for page 1 of one of the feeds [fs]. *)
Definition first_page_of (fs : list FeedRow) (e : Event) : Prop :=
  exists f, In f fs /\ fetch_of (feed_id f) 1 e.

(** A request for some page of the feed [mpId]. *)
Definition page_of (mpId : string) (e : Event) : Prop :=
  exists page, fetch_of mpId page e.

(** The world in which the sweep over all feeds starts its loop: the flag
    is set and the feeds are listed. *)
Definition sweep_started (w : World) : World :=
  emit (EvD1 SelectAllFeeds)
    (set_tick (S (tick w)) (set_isRefreshAllMpArticlesRunning true w)).

(** The world in which the scheduled sync starts its loop: the enabled
    feeds are listed. *)
Definition cron_started (w : World) : World :=
  emit (EvD1 SelectEnabledFeeds) (set_tick (S (tick w)) w).

Definition enabled_feeds (w : World) : list FeedRow :=
  List.filter (fun r => (feed_status r =? statusMap.ENABLE)%Z) (feeds w).

(** A store with one disabled feed. *)
Definition disabled_feed : FeedRow :=
  {| feed_id := "mp"; mp_name := "name"; mp_cover := ""; mp_intro := "";
     feed_status := statusMap.DISABLE; sync_time := 0; update_time := 0;
     has_history := 1; feed_created_at := 0; feed_updated_at := 0 |}.

Definition one_disabled_feed : World := set_feeds [disabled_feed] one_account.

(** The idle marker of the deep-history sync. *)
Definition idle_marker : HistoryMarker := {| hm_id := ""; hm_page := 1 |}.

(** A store with two enabled feeds. *)
Definition second_feed : FeedRow :=
  {| feed_id := "mp2"; mp_name := "other"; mp_cover := ""; mp_intro := "";
     feed_status := statusMap.ENABLE; sync_time := 0; update_time := 0;
     has_history := 1; feed_created_at := 1; feed_updated_at := 1 |}.

Definition two_feeds : World :=
  set_feeds [open_feed; second_feed] one_account.

(** *** The items of a generated feed *)

(** The item [renderFeed] makes of an article. *)
Definition rendered (it : Item) (a : ArticleRow) : Prop :=
  item_id it = art_id a
  /\ item_title it = art_title a
  /\ item_link it = "https://mp.weixin.qq.com/s/" +:+ art_id a
  /\ item_date it = (art_publish_time a * 1000)%Z
  /\ item_image it = art_pic_url a.

(** The articles [handleGenerateFeed] reads: the page of the feed, or of
    all feeds without an id. *)
Definition selected_articles (opts : GenerateOpts) (w : World)
  : list ArticleRow :=
  sql_getArticles
    (fun r =>
       if truthy_string (o_id opts)
       then String.eqb (art_mp_id r) (default "" (o_id opts))
       else true)
    (o_limit opts) ((o_page opts - 1) * o_limit opts) (articles w).

(** [title_include] and [title_exclude] on a title. *)
Definition passes_title_filters (opts : GenerateOpts) (title : string)
  : bool :=
  (if truthy_string (o_title_include opts)
   then existsb (fun k => includes title k)
          (split "|" (default "" (o_title_include opts)))
   else true)
  && (if truthy_string (o_title_exclude opts)
      then negb (existsb (fun k => includes title k)
                   (split "|" (default "" (o_title_exclude opts))))
      else true).

(** A request for the stored feed that excludes titles with "ad", written
    with a trailing bar. *)
Definition exclude_trailing_bar : GenerateOpts :=
  {| o_id := Some "mp"; o_type := "rss"; o_limit := 10; o_page := 1;
     o_mode := None; o_title_include := None;
     o_title_exclude := Some "ad|" |}.

(** The same request for another page. *)
Definition with_page (page : Z) (opts : GenerateOpts) : GenerateOpts :=
  {| o_id := o_id opts; o_type := o_type opts; o_limit := o_limit opts;
     o_page := page; o_mode := o_mode opts;
     o_title_include := o_title_include opts;
     o_title_exclude := o_title_exclude opts |}.

(** All the articles the request ranges over, newest first. *)
Definition ranged_articles (opts : GenerateOpts) (w : World)
  : list ArticleRow :=
  order_by (fun r => (- art_publish_time r)%Z)
    (List.filter
       (fun r =>
          if truthy_string (o_id opts)
          then String.eqb (art_mp_id r) (default "" (o_id opts))
          else true)
       (articles w)).

(** *** index.ts *)

(** [new Response(body, { status })] *)
Record HttpReply : Type := {
  reply_status : Z;
  reply_body : string;
}.

(** [getFeedErrorResponse]; the errors of this development are all
    instances of [Error], so the message is [error.message]. Of the call
    of [console.error] the label is recorded, not the printed error. *)
Definition getFeedErrorResponse (error : JsError) : Async HttpReply :=
  let message := message error in
  if includes message "不存在该feed" then
    ret {| reply_status := 404; reply_body := "Feed not found" |}
  else
    console_error "[feeds] error generating feed:" >>
    ret {| reply_status := 500; reply_body := "Internal Server Error" |}.

(** The jobs [scheduled] hands to [ctx.waitUntil]. *)
Inductive Job : Type := AccountCheckJob | UpdateFeedsJob.

Definition scheduled (FEED_CRON ACCOUNT_CHECK_CRON : option string)
    (cron : string) : list Job :=
  let feedCron := default "35 5,17 * * *" FEED_CRON in
  let accountCron := default "0 2,14 * * *" ACCOUNT_CHECK_CRON in
  if String.eqb cron accountCron then [AccountCheckJob]
  else if String.eqb cron feedCron then [UpdateFeedsJob]
  else [AccountCheckJob; UpdateFeedsJob].

(* ================================================================== *)
(** ** The account check

    [services/account-check.ts], and its second version, which re-enables
    an account whose probe passes and waits for the login after a
    notification. The login URL request, the QR code and the webhook have
    no event in [trace]; what they answer is given by a [Notifier]. *)

(** The answer of [GET /api/v2/login/platform]. *)
Record LoginData : Type := {
  ld_uuid : string;
  ld_scanUrl : string;
}.

(** [loginData.scanUrl] and [loginData.uuid]: [undefined] when the answer
    was not JSON. *)
Definition loginData_scanUrl (loginData : Body LoginData) : option string :=
  field (fun d => Some (ld_scanUrl d)) loginData.

Definition loginData_uuid (loginData : Body LoginData) : option string :=
  field (fun d => Some (ld_uuid d)) loginData.

(** [`${x}`] *)
Definition template (x : option string) : string := default "undefined" x.

(** What [sendWebhookNotification] is called with; the Markdown text it
    wraps them in (with the current Beijing time) goes to the webhook
    unread by the worker. [None] is [undefined]; the first version has no
    [loginId]. *)
Record Notification : Type := {
  n_accountId : string;
  n_accountName : string;
  n_qrCode : string;
  n_scanUrl : option string;
  n_loginId : option string;
}.

Record Notifier : Type := {
  (** the platform's reply to [createLoginUrl] at a logical time *)
  platform_login_url : nat -> FetchResult LoginData;
  (** [QRCode.toDataURL(url, { width: 300, margin: 2 })] *)
  QRCode_toDataURL : option string -> Outcome string;
  encodeURIComponent : option string -> string;
  (** the [fetch] of the webhook: it resolves, whatever the response, or
      rejects *)
  webhook_fetch : nat -> Notification -> option JsError;
}.

Section AccountCheck.

Variable env : Env.
Variable others : nat -> World -> World.
Variable notifier : Notifier.

(** *** services/trpc-service.ts *)

Definition createLoginUrl : Async (Body LoginData) :=
  suspend others >>
  fun w => (w, response_outcome (platform_login_url notifier (tick w))).

(** *** services/account-check.ts *)

Definition generateQRCodeBase64 (url : option string) : Async string :=
  suspend others >> fun w => (w, QRCode_toDataURL notifier url).

Definition getQrCodeImageUrl (url : option string) : string :=
  let encoded := encodeURIComponent notifier url in
  "https://api.qrserver.com/v1/create-qr-code/?size=300x300&data="
  +:+ encoded.

Definition sendWebhookNotification (n : Notification) : Async unit :=
  suspend others >>
  fun w =>
    match webhook_fetch notifier (tick w) n with
    | None => (w, Resolved tt)
    | Some e => (w, Rejected e)
    end.

Definition checkAndHandleAccount (account : AccountRow) : Async unit :=
  let* isValid :=
    checkAccountValidity env others (acc_id account) (acc_token account) in
  if isValid then ret tt
  else
    updateAccount env others (acc_id account)
      {| p_token := None; p_name := None;
         p_status := Some statusMap.INVALID |} >>
    let* loginData := createLoginUrl in
    let* qrCodeBase64 :=
      generateQRCodeBase64 (loginData_scanUrl loginData) in
    sendWebhookNotification
      {| n_accountId := acc_id account; n_accountName := acc_name account;
         n_qrCode := qrCodeBase64;
         n_scanUrl := loginData_scanUrl loginData;
         n_loginId := None |}.

(** The [for (const account of enabledAccounts)] loop of
    [handleAccountCheckCron]. *)
Fixpoint check_each (accounts : list AccountRow) : Async unit :=
  match accounts with
  | [] => ret tt
  | account :: rest =>
      checkAndHandleAccount account >>
      sleep others (5 * 1000) >>
      check_each rest
  end.

Definition handleAccountCheckCron : Async unit :=
  let* enabledAccounts := listEnabledAccountsWithTokens others in
  check_each enabledAccounts.

End AccountCheck.

(** The second version of the account check. *)
Module SecondVersion.

Section AccountCheck.

Variable env : Env.
Variable others : nat -> World -> World.
Variable notifier : Notifier.

Definition checkAndHandleAccount (account : AccountRow) : Async unit :=
  let* isValid :=
    checkAccountValidity env others (acc_id account) (acc_token account) in
  if isValid then
    updateAccount env others (acc_id account)
      {| p_token := None; p_name := None;
         p_status := Some statusMap.ENABLE |} >>
    ret tt
  else
    updateAccount env others (acc_id account)
      {| p_token := None; p_name := None;
         p_status := Some statusMap.INVALID |} >>
    let* loginData := createLoginUrl others notifier in
    let qrCodeUrl :=
      getQrCodeImageUrl notifier (loginData_scanUrl loginData) in
    sendWebhookNotification others notifier
      {| n_accountId := acc_id account; n_accountName := acc_name account;
         n_qrCode := qrCodeUrl;
         n_scanUrl := loginData_scanUrl loginData;
         n_loginId := loginData_uuid loginData |} >>
    tryRefreshAccountFromLogin env others (acc_id account) (acc_name account)
      (template (loginData_uuid loginData)).

End AccountCheck.

End SecondVersion.

(** *** The account check, observed *)

(** What [checkAccountValidity] makes of the reply to its probe. *)
Definition probe_valid (env : Env) (account : AccountRow) (w : World)
  : bool :=
  match response_outcome
          (probe_reply env (acc_id account) (acc_token account) w) with
  | Resolved _ => true
  | Rejected error =>
      negb (bool_decide (status error = Some 401%Z)
            || includes (js_or (data_message error) "") "WeReadError401")
  end.

(** The world after the probe of [checkAccountValidity]. *)
Definition probed (account : AccountRow) (w : World) : World :=
  emit (EvFetchArticles (acc_id account) (acc_token account)
          (testMpId_of w) 1)
    (set_tick (S (S (tick w)))
       (emit (EvD1 SelectEnabledFeeds) (set_tick (S (tick w)) w))).

(** A probe with the credentials of one of [accs]. *)
Definition probe_of (accs : list AccountRow) (e : Event) : Prop :=
  exists a mpId,
    In a accs /\ e = EvFetchArticles (acc_id a) (acc_token a) mpId 1.


(** A notifier whose login URL request fails, and one that works. *)
Definition notifier_down : Notifier :=
  {| platform_login_url := fun _ => NetworkError "aborted";
     QRCode_toDataURL := fun url => Resolved ("data:" +:+ template url);
     encodeURIComponent := fun url => template url;
     webhook_fetch := fun _ _ => None |}.

Definition notifier_up : Notifier :=
  {| platform_login_url :=
       fun _ =>
         HttpResponse 200 None
           (Json {| ld_uuid := "uuid"; ld_scanUrl := "https://scan" |});
     QRCode_toDataURL := fun url => Resolved ("data:" +:+ template url);
     encodeURIComponent := fun url => template url;
     webhook_fetch := fun _ _ => None |}.

(** An upstream that does not answer at all. *)
Definition env_offline : Env :=
  {| SERVER_ORIGIN_URL := None;
     FEED_MODE := None;
     UPDATE_DELAY_TIME := None;
     Number := fun _ => Some 60%Z;
     Date_now := fun _ => 0%Z;
     dayjs_tz_format := fun _ => "1970-01-01";
     Math_random := fun _ => {| rnd_num := 0; rnd_den_pred := 0 |};
     feed_rss2 := fun _ => "<rss/>";
     feed_atom1 := fun _ => "<feed/>";
     feed_json1 := fun _ => "{}";
     platform_articles := fun _ _ _ _ _ => NetworkError "fetch failed";
     platform_login_result := fun _ _ => NetworkError "aborted";
     article_content := fun _ _ => "" |}.

(* ================================================================== *)
(** ** The listings *)

(** [ORDER BY] on an order given by its test; rows that the order does not
    tell apart stay in table order. *)
Fixpoint insert_sorted {A : Type} (leb : A -> A -> bool) (x : A)
    (l : list A) : list A :=
  match l with
  | [] => [x]
  | y :: l' =>
      if leb x y then x :: y :: l' else y :: insert_sorted leb x l'
  end.

Definition sort_with {A : Type} (leb : A -> A -> bool) (l : list A)
  : list A :=
  fold_right (insert_sorted leb) [] l.

(** [toAccountPublicDto]: the row without its token; [toIso] prints the
    times. *)
Record AccountPublic : Type := {
  pub_id : string;
  pub_name : string;
  pub_status : Z;
  pub_createdAt : string;
  pub_updatedAt : string;
}.

Definition toAccountPublicDto (toIso : Z -> string) (row : AccountRow)
  : AccountPublic :=
  {| pub_id := acc_id row; pub_name := acc_name row;
     pub_status := acc_status row;
     pub_createdAt := toIso (acc_created_at row);
     pub_updatedAt := toIso (acc_updated_at row) |}.

(** [{ items, nextCursor }] *)
Record Listing (A : Type) : Type := {
  items : list A;
  nextCursor : option string;
}.
Arguments items {A} _.
Arguments nextCursor {A} _.

(** [WHERE (created_at > ? OR (created_at = ? AND id > ?))] *)
Definition after_created_at (created_at : Z) (cursor : string)
    (r : AccountRow) : bool :=
  (created_at <? acc_created_at r)%Z
  || ((acc_created_at r =? created_at)%Z && String.ltb cursor (acc_id r)).

(** [ORDER BY created_at ASC, id ASC] *)
Definition by_created_at_id (r1 r2 : AccountRow) : bool :=
  (acc_created_at r1 <? acc_created_at r2)%Z
  || ((acc_created_at r1 =? acc_created_at r2)%Z
      && String.leb (acc_id r1) (acc_id r2)).

Section Listings.

Variable others : nat -> World -> World.
Variable toIso : Z -> string.

(** [getCreatedAtCursor(db, 'accounts', id)] *)
Definition getCreatedAtCursor_accounts (id : string) : Async (option Z) :=
  d1_untraced others
    (fun w =>
       (w, option_map acc_created_at
             (List.find (fun r => String.eqb (acc_id r) id) (accounts w)))).

Definition listAccounts (limit : Z) (cursor : option string)
  : Async (Listing AccountPublic) :=
  let* where_ :=
    (if truthy_string cursor then
       let* cursorRow :=
         getCreatedAtCursor_accounts (default "" cursor) in
       match cursorRow with
       | Some created_at =>
           ret (after_created_at created_at (default "" cursor))
       | None => ret (fun _ : AccountRow => true)
       end
     else ret (fun _ : AccountRow => true)) in
  let* rows :=
    d1_untraced others
      (fun w =>
         (w, limit_offset (limit + 1) 0
               (sort_with by_created_at_id
                  (List.filter where_ (accounts w))))) in
  let items := map (toAccountPublicDto toIso) rows in
  if (limit <? Z.of_nat (length items))%Z then
    ret {| items := removelast items;
           nextCursor := option_map pub_id (last items) |}
  else ret {| items := items; nextCursor := None |}.

End Listings.

(** *** The listings, observed *)

(** The rows the statement of [listAccounts] returns. *)
Definition listed_rows (limit : Z) (cursor : option string)
    (tbl : list AccountRow) : list AccountRow :=
  limit_offset (limit + 1) 0
    (sort_with by_created_at_id
       (List.filter
          (if truthy_string cursor then
             match List.find
                     (fun r => String.eqb (acc_id r) (default "" cursor))
                     tbl with
             | Some row =>
                 after_created_at (acc_created_at row) (default "" cursor)
             | None => fun _ => true
             end
           else fun _ => true)
          tbl)).

(** Following the cursors from the first page, at most [fuel] pages. *)
Fixpoint listed_ids (toIso : Z -> string) (fuel : nat) (limit : Z)
    (cursor : option string) (w : World) : list string :=
  match fuel with
  | O => []
  | S fuel' =>
      match snd (listAccounts alone toIso limit cursor w) with
      | Resolved page =>
          map pub_id (items page)
          ++ match nextCursor page with
             | Some c => listed_ids toIso fuel' limit (Some c) w
             | None => []
             end
      | Rejected _ => []
      end
  end.

(** A request for a page of [mpId] in the range [[lo, hi)]. *)
Definition page_between (mpId : string) (lo hi : Z) (e : Event) : Prop :=
  exists page, (lo <= page < hi)%Z /\ fetch_of mpId page e.

(** Logical time does not go back in a run of [m]. *)
Definition advances {A : Type} (m : Async A) : Prop :=
  forall w, (tick w <= tick (fst (m w)))%nat.

(** The row's [sync_time] is the clock's seconds at some time from [t0]
    on. *)
Definition stamped_since (env : Env) (t0 : nat) (r : FeedRow) : Prop :=
  exists t, (t0 <= t)%nat
            /\ sync_time r = Math_floor_div (Date_now env t) 1000.

(** [WHERE (created_at > ? OR (created_at = ? AND id > ?))] on feeds *)
Definition feed_after_created_at (created_at : Z) (cursor : string)
    (r : FeedRow) : bool :=
  (created_at <? feed_created_at r)%Z
  || ((feed_created_at r =? created_at)%Z && String.ltb cursor (feed_id r)).

(** [ORDER BY created_at ASC, id ASC] on feeds *)
Definition feeds_by_created_at_id (r1 r2 : FeedRow) : bool :=
  (feed_created_at r1 <? feed_created_at r2)%Z
  || ((feed_created_at r1 =? feed_created_at r2)%Z
      && String.leb (feed_id r1) (feed_id r2)).

(** [(publish_time < ? OR (publish_time = ? AND id < ?))] *)
Definition before_publish_time (publish_time : Z) (cursor : string)
    (r : ArticleRow) : bool :=
  (art_publish_time r <? publish_time)%Z
  || ((art_publish_time r =? publish_time)%Z
      && String.ltb (art_id r) cursor).

(** [ORDER BY publish_time DESC, id DESC] *)
Definition by_publish_time_id_desc (r1 r2 : ArticleRow) : bool :=
  (art_publish_time r2 <? art_publish_time r1)%Z
  || ((art_publish_time r1 =? art_publish_time r2)%Z
      && String.leb (art_id r2) (art_id r1)).

(** [listFeeds] and [listArticles]. As for [getFeedById], a row stands for
    the object [toFeedDto] or [toArticleDto] makes of it: the same columns
    under other names. *)
Section FeedAndArticleListings.

Variable others : nat -> World -> World.

(** [getCreatedAtCursor(db, 'feeds', id)] *)
Definition getCreatedAtCursor_feeds (id : string) : Async (option Z) :=
  d1_untraced others
    (fun w =>
       (w, option_map feed_created_at
             (List.find (fun r => String.eqb (feed_id r) id) (feeds w)))).

Definition listFeeds (limit : Z) (cursor : option string)
  : Async (Listing FeedRow) :=
  let* where_ :=
    (if truthy_string cursor then
       let* cursorRow := getCreatedAtCursor_feeds (default "" cursor) in
       match cursorRow with
       | Some created_at =>
           ret (feed_after_created_at created_at (default "" cursor))
       | None => ret (fun _ : FeedRow => true)
       end
     else ret (fun _ : FeedRow => true)) in
  let* rows :=
    d1_untraced others
      (fun w =>
         (w, limit_offset (limit + 1) 0
               (sort_with feeds_by_created_at_id
                  (List.filter where_ (feeds w))))) in
  let items := rows in
  if (limit <? Z.of_nat (length items))%Z then
    ret {| items := removelast items;
           nextCursor := option_map feed_id (last items) |}
  else ret {| items := items; nextCursor := None |}.

Definition getPublishTimeCursor (id : string) : Async (option Z) :=
  d1_untraced others
    (fun w =>
       (w, option_map art_publish_time
             (List.find (fun r => String.eqb (art_id r) id) (articles w)))).

Definition listArticles (limit : Z) (cursor mpId : option string)
  : Async (Listing ArticleRow) :=
  let where_mp :=
    if truthy_string mpId
    then fun r : ArticleRow => String.eqb (art_mp_id r) (default "" mpId)
    else fun _ : ArticleRow => true in
  let* where_ :=
    (if truthy_string cursor then
       let* cursorRow := getPublishTimeCursor (default "" cursor) in
       match cursorRow with
       | Some publish_time =>
           ret (fun r =>
                  where_mp r
                  && before_publish_time publish_time (default "" cursor) r)
       | None => ret where_mp
       end
     else ret where_mp) in
  let* rows :=
    d1_untraced others
      (fun w =>
         (w, limit_offset (limit + 1) 0
               (sort_with by_publish_time_id_desc
                  (List.filter where_ (articles w))))) in
  let items := rows in
  if (limit <? Z.of_nat (length items))%Z then
    ret {| items := removelast items;
           nextCursor := option_map art_id (last items) |}
  else ret {| items := items; nextCursor := None |}.

End FeedAndArticleListings.

(** [if (items.length > limit) { nextCursor = items.pop()?.id }] *)
Definition page_of_rows {A : Type} (id : A -> string) (limit : Z)
    (rows : list A) : Listing A :=
  if (limit <? Z.of_nat (length rows))%Z
  then {| items := removelast rows; nextCursor := option_map id (last rows) |}
  else {| items := rows; nextCursor := None |}.

(** The rows a keyset statement returns:
    [WHERE ... ORDER BY ... LIMIT limit + 1]. *)
Definition keyset_rows {A : Type} (leb : A -> A -> bool)
    (where_ : A -> bool) (limit : Z) (tbl : list A) : list A :=
  limit_offset (limit + 1) 0 (sort_with leb (List.filter where_ tbl)).

(** The WHERE clauses of [listFeeds] and [listArticles]. *)
Definition where_listFeeds (cursor : option string) (tbl : list FeedRow)
  : FeedRow -> bool :=
  if truthy_string cursor then
    match List.find (fun r => String.eqb (feed_id r) (default "" cursor))
            tbl with
    | Some row =>
        feed_after_created_at (feed_created_at row) (default "" cursor)
    | None => fun _ => true
    end
  else fun _ => true.

Definition where_listArticles (cursor mpId : option string)
    (tbl : list ArticleRow) : ArticleRow -> bool :=
  let where_mp :=
    if truthy_string mpId
    then fun r : ArticleRow => String.eqb (art_mp_id r) (default "" mpId)
    else fun _ : ArticleRow => true in
  if truthy_string cursor then
    match List.find (fun r => String.eqb (art_id r) (default "" cursor))
            tbl with
    | Some row =>
        fun r =>
          where_mp r
          && before_publish_time (art_publish_time row) (default "" cursor) r
    | None => where_mp
    end
  else where_mp.

(** *** The loops, feed by feed and round by round *)

(** The world after a [sleep] of [ms] milliseconds. *)
Definition slept (ms : Z) (w : World) : World :=
  emit (EvSleep ms) (set_tick (S (tick w)) w).

(** How the loop of the scheduled sync goes over the feeds [fs] from the
    world [w]; [evs] is what it adds to the trace, and the pair is where
    and how it ends. Feed after feed, in order, page 1 of the feed is
    synced, with one to four requests, all of them for that page. When the
    sync resolves, the loop pauses for the delay and then for 30 seconds,
    and goes on with the next feed. When the sync rejects, the loop pauses
    for 30 seconds and ends there: it rejects with the error of that
    sync. *)
Inductive cron_run (env : Env) (d : Z)
  : list FeedRow -> World -> list Event -> World * Outcome unit -> Prop :=
| cron_run_done (w : World) :
    cron_run env d [] w [] (w, Resolved tt)
| cron_run_synced (f : FeedRow) (rest : list FeedRow) (w w1 : World)
    (h : Z) (evs evs' : list Event) (r : World * Outcome unit) :
    refreshMpArticlesAndUpdateFeed env alone (feed_id f) 1 w
    = (w1, Resolved h) ->
    trace w1 = trace w ++ evs ->
    Forall (fetch_of (feed_id f) 1) (fetches evs) ->
    (1 <= length (fetches evs) <= 4)%nat ->
    cron_run env d rest (slept (30 * 1000) (slept (d * 1000) w1)) evs' r ->
    cron_run env d (f :: rest) w
      (evs ++ [EvSleep (d * 1000); EvSleep (30 * 1000)] ++ evs') r
| cron_run_failed (f : FeedRow) (rest : list FeedRow) (w w1 : World)
    (e : JsError) (evs : list Event) :
    refreshMpArticlesAndUpdateFeed env alone (feed_id f) 1 w
    = (w1, Rejected e) ->
    trace w1 = trace w ++ evs ->
    Forall (fetch_of (feed_id f) 1) (fetches evs) ->
    (length (fetches evs) <= 4)%nat ->
    cron_run env d (f :: rest) w (evs ++ [EvSleep (30 * 1000)])
      (slept (30 * 1000) w1, Rejected e).

(** The marker of the deep-history sync of [mpId] at [page]. *)
Definition marker_at (mpId : string) (page : Z) : HistoryMarker :=
  {| hm_id := mpId; hm_page := page |}.

(** How the loop of the deep-history sync of [mpId] goes on from the world
    [w] with [i] rounds left and the marker at [page]; [evs] is what it
    adds to the trace, and the pair is where and how it ends. A round
    syncs the page of the marker, with at most four requests, all of them
    for that page. When the sync rejects, the loop rejects with its error.
    When it returns a [hasHistory] below 1, the loop ends. Otherwise the
    marker moves to the next page, the loop pauses for the delay, and the
    next round runs, if one is left. *)
Inductive history_rounds (env : Env) (mpId : string)
  : nat -> Z -> World -> list Event -> World * Outcome unit -> Prop :=
| rounds_spent (page : Z) (w : World) :
    history_rounds env mpId 0 page w [] (w, Resolved tt)
| rounds_failed (i : nat) (page : Z) (w w1 : World) (e : JsError)
    (evs : list Event) :
    refreshMpArticlesAndUpdateFeed env alone mpId page w
    = (w1, Rejected e) ->
    trace w1 = trace w ++ evs ->
    Forall (fetch_of mpId page) (fetches evs) ->
    (length (fetches evs) <= 4)%nat ->
    history_rounds env mpId (S i) page w evs (w1, Rejected e)
| rounds_last (i : nat) (page : Z) (w w1 : World) (h : Z)
    (evs : list Event) :
    refreshMpArticlesAndUpdateFeed env alone mpId page w
    = (w1, Resolved h) ->
    (h < 1)%Z ->
    trace w1 = trace w ++ evs ->
    Forall (fetch_of mpId page) (fetches evs) ->
    (1 <= length (fetches evs) <= 4)%nat ->
    history_rounds env mpId (S i) page w evs (w1, Resolved tt)
| rounds_next (i : nat) (page : Z) (w w1 : World) (h : Z)
    (evs evs' : list Event) (r : World * Outcome unit) :
    refreshMpArticlesAndUpdateFeed env alone mpId page w
    = (w1, Resolved h) ->
    (1 <= h)%Z ->
    trace w1 = trace w ++ evs ->
    Forall (fetch_of mpId page) (fetches evs) ->
    (1 <= length (fetches evs) <= 4)%nat ->
    history_rounds env mpId i (page + 1)
      (slept (getUpdateDelaySeconds env * 1000)
         (set_inProgressHistoryMp (marker_at mpId (page + 1)) w1))
      evs' r ->
    history_rounds env mpId (S i) page w
      (evs ++ [EvSleep (getUpdateDelaySeconds env * 1000)] ++ evs') r.

(** The world in which [getHistoryMpArticles] starts its loop: the feed
    row is read, the stored articles are counted and the marker is at the
    page to resume from. *)
Definition history_started (mpId : string) (w : World) : World :=
  set_inProgressHistoryMp
    (marker_at mpId (Math_ceil_div (stored_articles mpId w) defaultCount))
    (emit (EvD1 (CountArticlesByMpId mpId))
       (set_tick (S (S (tick w)))
          (emit (EvD1 (SelectFeedById mpId))
             (set_tick (S (tick w))
                (set_inProgressHistoryMp (marker_at mpId 1) w))))).

(** An upstream whose answers are not JSON: every articles request gets
    an HTTP 200 with a body that [res.json()] rejects. *)
Definition env_not_json : Env :=
  {| SERVER_ORIGIN_URL := None;
     FEED_MODE := None;
     UPDATE_DELAY_TIME := None;
     Number := fun _ => Some 60%Z;
     Date_now := fun _ => 0%Z;
     dayjs_tz_format := fun _ => "1970-01-01";
     Math_random := fun _ => {| rnd_num := 0; rnd_den_pred := 0 |};
     feed_rss2 := fun _ => "<rss/>";
     feed_atom1 := fun _ => "<feed/>";
     feed_json1 := fun _ => "{}";
     platform_articles := fun _ _ _ _ _ => HttpResponse 200 None EmptyObject;
     platform_login_result := fun _ _ => NetworkError "aborted";
     article_content := fun _ _ => "" |}.

(** An upstream that always returns the full page, under a clock that
    shows a second more at every logical time. *)
Definition env_clock : Env :=
  {| SERVER_ORIGIN_URL := None;
     FEED_MODE := None;
     UPDATE_DELAY_TIME := None;
     Number := fun _ => Some 60%Z;
     Date_now := fun t => (1000 * Z.of_nat t)%Z;
     dayjs_tz_format := fun _ => "1970-01-01";
     Math_random := fun _ => {| rnd_num := 0; rnd_den_pred := 0 |};
     feed_rss2 := fun _ => "<rss/>";
     feed_atom1 := fun _ => "<feed/>";
     feed_json1 := fun _ => "{}";
     platform_articles :=
       fun _ _ _ _ _ => HttpResponse 200 None (Json full_page);
     platform_login_result := fun _ _ => NetworkError "aborted";
     article_content := fun _ _ => "" |}.

(** A store with an enabled feed and a disabled one. *)
Definition resting_feed : FeedRow :=
  {| feed_id := "mp3"; mp_name := "third"; mp_cover := ""; mp_intro := "";
     feed_status := statusMap.DISABLE; sync_time := 0; update_time := 0;
     has_history := 1; feed_created_at := 2; feed_updated_at := 2 |}.

Definition enabled_and_disabled : World :=
  set_feeds [open_feed; resting_feed] one_account.

(** An upstream whose pages below 4 are full and whose later pages hold
    fifteen articles. *)
Definition env_four_pages : Env :=
  {| SERVER_ORIGIN_URL := None;
     FEED_MODE := None;
     UPDATE_DELAY_TIME := None;
     Number := fun _ => Some 60%Z;
     Date_now := fun _ => 0%Z;
     dayjs_tz_format := fun _ => "1970-01-01";
     Math_random := fun _ => {| rnd_num := 0; rnd_den_pred := 0 |};
     feed_rss2 := fun _ => "<rss/>";
     feed_atom1 := fun _ => "<feed/>";
     feed_json1 := fun _ => "{}";
     platform_articles :=
       fun _ _ _ _ page =>
         if (page <? 4)%Z then HttpResponse 200 None (Json full_page)
         else HttpResponse 200 None (Json (take 15 full_page));
     platform_login_result := fun _ _ => NetworkError "aborted";
     article_content := fun _ _ => "" |}.

(** A store with three enabled feeds, and an upstream that returns the
    full page for the first of them and refuses every other request with
    an HTTP 401 whose body is not JSON. *)
Definition third_feed : FeedRow :=
  {| feed_id := "mp4"; mp_name := "fourth"; mp_cover := ""; mp_intro := "";
     feed_status := statusMap.ENABLE; sync_time := 0; update_time := 0;
     has_history := 1; feed_created_at := 3; feed_updated_at := 3 |}.

Definition three_feeds : World :=
  set_feeds [open_feed; second_feed; third_feed] one_account.

Definition env_first_feed_only : Env :=
  {| SERVER_ORIGIN_URL := None;
     FEED_MODE := None;
     UPDATE_DELAY_TIME := None;
     Number := fun _ => Some 60%Z;
     Date_now := fun _ => 0%Z;
     dayjs_tz_format := fun _ => "1970-01-01";
     Math_random := fun _ => {| rnd_num := 0; rnd_den_pred := 0 |};
     feed_rss2 := fun _ => "<rss/>";
     feed_atom1 := fun _ => "<feed/>";
     feed_json1 := fun _ => "{}";
     platform_articles :=
       fun _ _ _ mpId _ =>
         if String.eqb mpId "mp" then HttpResponse 200 None (Json full_page)
         else HttpResponse 401 None EmptyObject;
     platform_login_result := fun _ _ => NetworkError "aborted";
     article_content := fun _ _ => "" |}.

(* ================================================================== *)
(** * Properties *)

(** Closed facts about concrete runs are settled by evaluation, one
    conjunct at a time. *)
Ltac by_evaluation :=
  repeat match goal with |- _ /\ _ => split end; vm_compute; reflexivity.

(** ** Lists and SQL *)

Lemma In_insert_by {A : Type} (key : A -> Z) (x y : A) (l : list A) :
  In y (insert_by key x l) <-> y = x \/ In y l.
Proof.
  induction l as [|z l IH]; simpl.
  - intuition auto.
  - destruct (key x <=? key z)%Z; simpl; rewrite ?IH; intuition auto.
Qed.

Lemma In_order_by {A : Type} (key : A -> Z) (y : A) (l : list A) :
  In y (order_by key l) <-> In y l.
Proof.
  induction l as [|z l IH]; simpl; [tauto|].
  rewrite In_insert_by, IH. intuition auto.
Qed.

Lemma length_insert_by {A : Type} (key : A -> Z) (x : A) (l : list A) :
  length (insert_by key x l) = S (length l).
Proof.
  induction l as [|z l IH]; simpl; [reflexivity|].
  destruct (key x <=? key z)%Z; simpl; congruence.
Qed.

Lemma length_order_by {A : Type} (key : A -> Z) (l : list A) :
  length (order_by key l) = length l.
Proof.
  induction l as [|z l IH]; simpl; [reflexivity|].
  rewrite length_insert_by. congruence.
Qed.

Lemma In_take {A : Type} (n : nat) (x : A) (l : list A) :
  In x (take n l) -> In x l.
Proof.
  intros H. rewrite <- (firstn_skipn n l). apply in_or_app. now left.
Qed.

Lemma available_spec (blockedIds : list string) (r : AccountRow) :
  available blockedIds r = true <->
  acc_status r = statusMap.ENABLE /\ ~ In (acc_id r) blockedIds.
Proof.
  unfold available. rewrite andb_true_iff, negb_true_iff, Z.eqb_eq.
  split; intros [Hs Hb]; split; auto.
  - intros Hin. assert (E : existsb (String.eqb (acc_id r)) blockedIds = true).
    { apply existsb_exists. exists (acc_id r). split; [exact Hin|].
      apply String.eqb_refl. }
    congruence.
  - destruct (existsb (String.eqb (acc_id r)) blockedIds) eqn:E; [|reflexivity].
    apply existsb_exists in E as (x & Hx & Ex). apply String.eqb_eq in Ex.
    subst x. contradiction.
Qed.

Lemma In_filter_Boolean (s : string) (l : list string) :
  In s (filter_Boolean l) <-> In s l /\ s <> "".
Proof.
  unfold filter_Boolean. rewrite filter_In, negb_true_iff.
  split; intros [H1 H2]; split; auto.
  - intros ->. discriminate.
  - destruct (String.eqb_spec s ""); congruence.
Qed.

Lemma sql_getAvailableAccounts_sound (blockedIds : list string)
    (tbl : list AccountRow) (a : AccountRow) :
  In a (sql_getAvailableAccounts blockedIds tbl) ->
  In a tbl /\ acc_status a = statusMap.ENABLE /\ ~ In (acc_id a) blockedIds.
Proof.
  unfold sql_getAvailableAccounts. intros H.
  apply In_take in H.
  apply In_order_by, filter_In in H as [H1 H2].
  apply available_spec in H2. tauto.
Qed.

Lemma filter_none {A : Type} (f : A -> bool) (l : list A) :
  (forall x, In x l -> f x = false) -> List.filter f l = [].
Proof.
  induction l as [|y l IH]; simpl; intros H; [reflexivity|].
  rewrite (H y) by auto. apply IH. auto.
Qed.

Lemma filter_all {A : Type} (f : A -> bool) (l : list A) :
  (forall x, In x l -> f x = true) -> List.filter f l = l.
Proof.
  induction l as [|y l IH]; simpl; intros H; [reflexivity|].
  rewrite (H y) by auto. f_equal. apply IH. auto.
Qed.

(** ** [Math.floor(Math.random() * n)] *)

Lemma Math_floor_mul_lt (r : Draw) (len : nat) :
  (0 < len)%nat -> (Math_floor_mul r len < len)%nat.
Proof.
  intros Hlen. unfold Math_floor_mul, rnd_den.
  apply Nat.Div0.div_lt_upper_bound.
  pose proof (Nat.mod_upper_bound (rnd_num r) (S (rnd_den_pred r))).
  nia.
Qed.

Lemma Math_floor_mul_exact (n k p : nat) :
  (0 < n)%nat -> (0 < k)%nat -> (p < n * k)%nat ->
  Math_floor_mul {| rnd_num := p; rnd_den_pred := pred (n * k) |} n
  = (p / k)%nat.
Proof.
  intros Hn Hk Hp. unfold Math_floor_mul, rnd_den.
  cbn [rnd_num rnd_den_pred].
  assert (E : S (pred (n * k)) = (k * n)%nat) by lia. rewrite E.
  rewrite Nat.mod_small by lia.
  apply Nat.Div0.div_mul_cancel_r. lia.
Qed.

Lemma quotient_count (k i n : nat) :
  (0 < k)%nat -> (i < n)%nat ->
  length (List.filter (fun p => (p / k =? i)%nat) (seq 0 (n * k))) = k.
Proof.
  intros Hk. revert i. induction n as [|n IH]; intros i Hi; [lia|].
  replace (S n * k)%nat with (n * k + k)%nat by lia.
  rewrite seq_app, List.filter_app, List.length_app. simpl.
  destruct (Nat.eq_dec i n) as [->|Hne].
  - rewrite filter_none, filter_all; simpl.
    + apply length_seq.
    + intros p Hp. apply in_seq in Hp. apply Nat.eqb_eq.
      symmetry. apply Nat.div_unique with (r := (p - n * k)%nat); lia.
    + intros p Hp. apply in_seq in Hp. apply Nat.eqb_neq.
      assert (p / k < n)%nat; [|lia].
      apply Nat.Div0.div_lt_upper_bound. lia.
  - rewrite IH by lia. rewrite (filter_none _ (seq (n * k) k)); simpl; [lia|].
    intros p Hp. apply in_seq in Hp. apply Nat.eqb_neq.
    assert (E : (p / k = n)%nat); [|lia].
    symmetry. apply Nat.div_unique with (r := (p - n * k)%nat); lia.
Qed.

Lemma draws_selecting_length (n k i : nat) :
  (0 < k)%nat -> (i < n)%nat -> length (draws_selecting n k i) = k.
Proof.
  intros Hk Hi. unfold draws_selecting.
  rewrite (filter_ext_in _ (fun p => (p / k =? i)%nat)).
  - now apply quotient_count.
  - intros p Hp. apply in_seq in Hp.
    rewrite Math_floor_mul_exact by lia. reflexivity.
Qed.

(** ** The credential selector *)

Lemma getAvailableAccount_run (env : Env) (w : World) :
  getAvailableAccount env alone w =
  let w1 :=
    emit (EvD1 (SelectAvailableAccounts (getBlockedAccountIds env w)))
      (set_tick (S (tick w)) w) in
  match candidates env w with
  | [] => (w1, Rejected (Error_of "暂无可用读书账号!"))
  | first :: _ =>
      (set_tick (S (S (tick w))) w1,
       Resolved
         (nth (Math_floor_mul (Math_random env (S (tick w)))
                 (length (candidates env w)))
            (candidates env w) first))
  end.
Proof.
  unfold getAvailableAccount, candidates, getAvailableAccounts, d1, suspend,
    random, bind, get, alone, throw, ret. simpl.
  destruct (sql_getAvailableAccounts _ _); reflexivity.
Qed.

Lemma getAvailableAccount_resolved (env : Env) (w : World) (a : AccountRow) :
  snd (getAvailableAccount env alone w) = Resolved a -> In a (candidates env w).
Proof.
  rewrite getAvailableAccount_run. cbv zeta.
  destruct (candidates env w) as [|first rest] eqn:E; cbn [snd];
    [discriminate|].
  intros H.
  assert (Ha : a = nth (Math_floor_mul (Math_random env (S (tick w)))
                          (length (first :: rest))) (first :: rest) first)
    by congruence.
  rewrite Ha. apply nth_In. apply Math_floor_mul_lt. cbn [length]. lia.
Qed.

Lemma candidates_eleven_accounts (env : Env) :
  candidates env eleven_accounts
  = map account_nr [0; 1; 2; 3; 4; 5; 6; 7; 8; 9]%Z.
Proof.
  unfold candidates, getBlockedAccountIds. cbn [blockedAccountsMap
    eleven_accounts set_accounts world0 accounts].
  rewrite lookup_empty. vm_compute. reflexivity.
Qed.

(** C1, as stated, fails: with eleven valid accounts and nobody blocked, the
    account created last is valid and not blocked, yet no value of
    [Math.random] makes [getAvailableAccount] return it, because
    [getAvailableAccounts] reads [ORDER BY created_at ASC LIMIT 10]. *)
Lemma C1_eleventh_account_never_selected :
  In (account_nr 10) (accounts eleven_accounts)
  /\ acc_status (account_nr 10) = statusMap.ENABLE
  /\ blockedAccountsMap eleven_accounts = ∅
  /\ ~ (exists env : Env,
          snd (getAvailableAccount env alone eleven_accounts)
          = Resolved (account_nr 10)).
Proof.
  split; [|split; [|split]].
  - vm_compute. tauto.
  - reflexivity.
  - reflexivity.
  - intros [env H]. apply getAvailableAccount_resolved in H.
    rewrite candidates_eleven_accounts in H. vm_compute in H.
    repeat (destruct H as [H|H]; [discriminate H|]). exact H.
Qed.

(** C1 (amended): [getAvailableAccount] chooses among the candidates that
    [getAvailableAccounts] returns: the first ten, in order of creation, of
    the accounts with status ENABLE whose id is not among the non-empty ids
    on today's list. Every candidate is a stored account with status ENABLE
    that is not on [getBlockedAccountIds] (and, when its id is not empty,
    not on today's list at all); when at most ten accounts are valid and
    not blocked, the candidates are exactly those. With no candidate the
    call rejects with the no-account error; otherwise it resolves to the
    candidate at index [Math.floor(Math.random() * n)], and that index is
    uniform: of the [n * k] draws [p / (n * k)], exactly [k] select each
    index. *)
Theorem C1_getAvailableAccount (env : Env) (w : World) :
  let cs := candidates env w in
  let valid_unblocked :=
    List.filter (available (filter_Boolean (blockedToday env w)))
      (accounts w) in
  cs = take 10 (order_by acc_created_at valid_unblocked)
  /\ (forall a, In a cs ->
        In a (accounts w)
        /\ acc_status a = statusMap.ENABLE
        /\ ~ In (acc_id a) (getBlockedAccountIds env w)
        /\ (acc_id a <> "" -> ~ In (acc_id a) (blockedToday env w)))
  /\ ((length valid_unblocked <= 10)%nat ->
      forall a, In a cs <->
        In a (accounts w)
        /\ acc_status a = statusMap.ENABLE
        /\ ~ In (acc_id a) (getBlockedAccountIds env w))
  /\ (cs = [] ->
      snd (getAvailableAccount env alone w)
      = Rejected (Error_of "暂无可用读书账号!"))
  /\ (forall a,
        snd (getAvailableAccount env alone w) = Resolved a -> In a cs)
  /\ (cs <> [] ->
      exists a,
        snd (getAvailableAccount env alone w) = Resolved a
        /\ nth_error cs
             (Math_floor_mul (Math_random env (S (tick w))) (length cs))
           = Some a)
  /\ (forall k i, (0 < k)%nat -> (i < length cs)%nat ->
        length (draws_selecting (length cs) k i) = k).
Proof.
  cbv zeta.
  split; [reflexivity|].
  split.
  { intros a Ha. apply sql_getAvailableAccounts_sound in Ha.
    destruct Ha as (Hin & Hs & Hnb). repeat split; try assumption.
    intros Hne Hb. apply Hnb. unfold getBlockedAccountIds.
    apply In_filter_Boolean. split; assumption. }
  split.
  { intros Hlen a. split.
    - intros Ha. now apply sql_getAvailableAccounts_sound in Ha.
    - intros (Hin & Hs & Hnb). unfold candidates, sql_getAvailableAccounts.
      rewrite firstn_all2 by (rewrite length_order_by; exact Hlen).
      apply In_order_by, filter_In. split; [assumption|].
      apply available_spec. split; assumption. }
  split.
  { intros Hcs. rewrite getAvailableAccount_run. cbv zeta. rewrite Hcs.
    reflexivity. }
  split; [apply getAvailableAccount_resolved|].
  split.
  { intros Hcs. rewrite getAvailableAccount_run. cbv zeta.
    destruct (candidates env w) as [|first rest] eqn:E; [congruence|].
    eexists. split; [reflexivity|].
    apply nth_error_nth'. apply Math_floor_mul_lt. cbn [length]. lia. }
  intros k i Hk Hi. now apply draws_selecting_length.
Qed.

(** ** The error handler *)

Lemma handleAccountError_run (env : Env) (X msg : string) (w : World) :
  handleAccountError env alone X msg w =
  if includes msg "WeReadError401" then
    (emit (EvD1 (SelectAccountById X))
       (set_tick (S (S (tick w)))
          (set_accounts
             (sql_updateAccount X
                {| p_token := None; p_name := None;
                   p_status := Some statusMap.INVALID |}
                (nowMs env w) (accounts w))
             (emit (EvD1 (UpdateAccount X)) (set_tick (S (tick w)) w)))),
     Resolved tt)
  else if includes msg "WeReadError429" then
    (set_blockedAccountsMap
       (<[getTodayDate env w := blockedToday env w ++ [X]]>
          (blockedAccountsMap w)) w,
     Resolved tt)
  else (w, Resolved tt).
Proof.
  unfold handleAccountError, updateAccount, getAccountById, d1, suspend,
    bind, get, modify, ret, alone, blockedToday.
  destruct (includes msg "WeReadError401"); [reflexivity|].
  destruct (includes msg "WeReadError429"); reflexivity.
Qed.

Lemma sql_updateAccount_status (X : string) (data : AccountPatch) (now : Z)
    (tbl : list AccountRow) (r : AccountRow) (st : Z) :
  p_status data = Some st ->
  In r (sql_updateAccount X data now tbl) -> acc_id r = X ->
  acc_status r = st.
Proof.
  intros Hst Hin Hid. unfold sql_updateAccount in Hin.
  apply in_map_iff in Hin as (r0 & Hr & _).
  destruct (String.eqb_spec (acc_id r0) X) as [E|E].
  - subst r. unfold patch_account. cbn [acc_status]. rewrite Hst. reflexivity.
  - subst r. contradiction.
Qed.

Lemma sql_updateAccount_others (X : string) (data : AccountPatch) (now : Z)
    (tbl : list AccountRow) (r : AccountRow) :
  acc_id r <> X ->
  (In r (sql_updateAccount X data now tbl) <-> In r tbl).
Proof.
  intros Hne. unfold sql_updateAccount. rewrite in_map_iff. split.
  - intros (r0 & Hr & Hin).
    destruct (String.eqb_spec (acc_id r0) X) as [E|E].
    + subst r. cbn [patch_account acc_id] in Hne. contradiction.
    + now subst r.
  - intros Hin. exists r. split; [|assumption].
    destruct (String.eqb_spec (acc_id r) X); [contradiction|reflexivity].
Qed.

Lemma sql_updateAccount_ids (X : string) (data : AccountPatch) (now : Z)
    (tbl : list AccountRow) :
  map acc_id (sql_updateAccount X data now tbl) = map acc_id tbl.
Proof.
  unfold sql_updateAccount. rewrite map_map. apply map_ext.
  intros r. destruct (String.eqb (acc_id r) X); reflexivity.
Qed.

(** C3, as stated, fails: an HTTP 401 whose body has no message is thrown
    by [fetchJson] as ["Request failed: 401"]; the specification classifies
    it as Unauthorized, but [handleAccountError] reads the message only and
    leaves the account valid. *)
Lemma C3_bare_401_leaves_account_valid :
  snd (fetchJson alone (EvFetchArticles "vid0" "token" "mp" 1)
         (fun t => platform_articles env0 t "vid0" "token" "mp" 1%Z)
         one_account)
  = Rejected bare_401
  /\ spec_classify bare_401 = Unauthorized
  /\ fst (on_upstream_error env0 "vid0" bare_401 one_account) = one_account
  /\ accounts one_account = [account_nr 0]
  /\ acc_id (account_nr 0) = "vid0"
  /\ acc_status (account_nr 0) = statusMap.ENABLE.
Proof.
  by_evaluation.
Qed.

Example handleAccountError_markers :
  map acc_status
    (accounts (fst (handleAccountError env0 alone "vid0"
                      "WeReadError401: login expired" one_account)))
  = [statusMap.INVALID]
  /\ blockedToday env0
       (fst (handleAccountError env0 alone "vid0"
               "WeReadError401: login expired" one_account)) = []
  /\ map acc_status
       (accounts (fst (handleAccountError env0 alone "vid0"
                         "WeReadError429: too frequent" one_account)))
     = [statusMap.ENABLE]
  /\ blockedToday env0
       (fst (handleAccountError env0 alone "vid0"
               "WeReadError429: too frequent" one_account)) = ["vid0"].
Proof. by_evaluation. Qed.

(** C3 (amended): [handleAccountError] classifies an upstream error by the
    text of its message alone (the HTTP status is not consulted). A message
    containing WeReadError401 sets the status of X to INVALID and leaves
    every other account and the blocklist as they were; otherwise a message
    containing WeReadError429 appends X to today's list and changes no
    account; every other message changes nothing at all. The handler never
    rejects. *)
Theorem C3_handleAccountError (env : Env) (X msg : string) (w : World) :
  let w' := fst (handleAccountError env alone X msg w) in
  snd (handleAccountError env alone X msg w) = Resolved tt
  /\ (includes msg "WeReadError401" = true ->
      (forall r, In r (accounts w') -> acc_id r = X ->
                 acc_status r = statusMap.INVALID)
      /\ (forall r, acc_id r <> X ->
                    (In r (accounts w') <-> In r (accounts w)))
      /\ map acc_id (accounts w') = map acc_id (accounts w)
      /\ blockedAccountsMap w' = blockedAccountsMap w)
  /\ (includes msg "WeReadError401" = false ->
      includes msg "WeReadError429" = true ->
      accounts w' = accounts w
      /\ blockedToday env w' = blockedToday env w ++ [X]
      /\ (forall d, d <> getTodayDate env w ->
                    blockedAccountsMap w' !! d = blockedAccountsMap w !! d))
  /\ (includes msg "WeReadError401" = false ->
      includes msg "WeReadError429" = false ->
      w' = w).
Proof.
  cbv zeta. rewrite handleAccountError_run.
  destruct (includes msg "WeReadError401") eqn:E401;
    [|destruct (includes msg "WeReadError429") eqn:E429]; cbn [fst snd].
  - split; [reflexivity|]. split; [|split; intros; discriminate].
    intros _. cbn [accounts emit set_tick set_accounts blockedAccountsMap].
    split; [|split; [|split]].
    + intros r Hin Hid.
      eapply sql_updateAccount_status; [|exact Hin|exact Hid]. reflexivity.
    + intros r Hne. now apply sql_updateAccount_others.
    + apply sql_updateAccount_ids.
    + reflexivity.
  - split; [reflexivity|]. split; [intros; discriminate|].
    split; [|intros; discriminate]. intros _ _.
    split; [reflexivity|]. split.
    + unfold blockedToday, getTodayDate.
      cbn [blockedAccountsMap set_blockedAccountsMap tick].
      rewrite lookup_insert_eq. reflexivity.
    + intros d Hd. cbn [blockedAccountsMap set_blockedAccountsMap].
      now rewrite lookup_insert_ne.
  - split; [reflexivity|]. split; [intros; discriminate|].
    split; [intros; discriminate|]. reflexivity.
Qed.

(** ** Frames: what an operation leaves alone *)

Create HintDb frame.

Lemma keeps_ret {A B : Type} (view : World -> B) (a : A) :
  keeps view (ret a).
Proof. intros w. reflexivity. Qed.

Lemma keeps_throw {A B : Type} (view : World -> B) (e : JsError) :
  keeps view (throw (A := A) e).
Proof. intros w. reflexivity. Qed.

Lemma keeps_get {A B : Type} (view : World -> B) (f : World -> A) :
  keeps view (get f).
Proof. intros w. reflexivity. Qed.

Lemma keeps_modify {B : Type} (view : World -> B) (f : World -> World) :
  (forall w, view (f w) = view w) -> keeps view (modify f).
Proof. intros H w. apply H. Qed.

Lemma keeps_bind {A C B : Type} (view : World -> B) (m : Async A)
    (k : A -> Async C) :
  keeps view m -> (forall a, keeps view (k a)) -> keeps view (bind m k).
Proof.
  intros Hm Hk w. unfold bind. specialize (Hm w).
  destruct (m w) as [w1 [a|e]]; cbn [fst] in *.
  - rewrite Hk. exact Hm.
  - exact Hm.
Qed.

Lemma keeps_try_catch {A B : Type} (view : World -> B) (m : Async A)
    (h : JsError -> Async A) :
  keeps view m -> (forall e, keeps view (h e)) -> keeps view (try_catch m h).
Proof.
  intros Hm Hh w. unfold try_catch. specialize (Hm w).
  destruct (m w) as [w1 [a|e]]; cbn [fst] in *.
  - exact Hm.
  - rewrite Hh. exact Hm.
Qed.

Lemma keeps_try_finally {A B : Type} (view : World -> B) (m : Async A)
    (f : Async unit) :
  keeps view m -> keeps view f -> keeps view (try_finally m f).
Proof.
  intros Hm Hf w. unfold try_finally. specialize (Hm w).
  destruct (m w) as [w1 r]. specialize (Hf w1).
  destruct (f w1) as [w2 [u|e]]; cbn [fst] in *; congruence.
Qed.

Lemma keeps_if {A B : Type} (view : World -> B) (b : bool)
    (m1 m2 : Async A) :
  keeps view m1 -> keeps view m2 -> keeps view (if b then m1 else m2).
Proof. destruct b; auto. Qed.

#[export] Hint Resolve keeps_ret keeps_throw keeps_get keeps_bind
  keeps_try_catch keeps_try_finally keeps_if : frame.

Section Frames.

Context {B : Type} (view : World -> B) (env : Env).
Hypothesis framed : Framed view.

Lemma keeps_suspend : keeps view (suspend alone).
Proof. intros w. unfold suspend, alone. cbn [fst]. apply framed. Qed.

Lemma keeps_d1 {A : Type} (stmt : Stmt) (run : World -> World * A) :
  (forall w, view (fst (run w)) = view w) -> keeps view (d1 alone stmt run).
Proof.
  intros Hrun. unfold d1. apply keeps_bind; [apply keeps_suspend|].
  intros _ w. specialize (Hrun (emit (EvD1 stmt) w)).
  destruct (run (emit (EvD1 stmt) w)) as [w1 a]. cbn [fst] in *.
  rewrite Hrun. apply framed.
Qed.

Lemma keeps_sleep (ms : Z) : keeps view (sleep alone ms).
Proof.
  unfold sleep. apply keeps_bind; [apply keeps_suspend|]. intros _.
  apply keeps_modify. apply framed.
Qed.

Lemma keeps_console_error (msg : string) : keeps view (console_error msg).
Proof. apply keeps_modify. apply framed. Qed.

Lemma keeps_random : keeps view (random env).
Proof. intros w. unfold random. cbn [fst]. apply framed. Qed.

Lemma keeps_fetchJson {A : Type} (request : Event)
    (reply : nat -> FetchResult A) :
  keeps view (fetchJson alone request reply).
Proof.
  unfold fetchJson. apply keeps_bind; [apply keeps_suspend|]. intros _ w.
  cbn [fst]. apply framed.
Qed.

Lemma keeps_getAccountById (id : string) :
  keeps view (getAccountById alone id).
Proof. apply keeps_d1. reflexivity. Qed.

Lemma keeps_getFeedById (id : string) : keeps view (getFeedById alone id).
Proof. apply keeps_d1. reflexivity. Qed.

Lemma keeps_listAllFeeds : keeps view (listAllFeeds alone).
Proof. apply keeps_d1. reflexivity. Qed.

Lemma keeps_listEnabledFeeds : keeps view (listEnabledFeeds alone).
Proof. apply keeps_d1. reflexivity. Qed.

Lemma keeps_countArticlesByMpId (mpId : string) :
  keeps view (countArticlesByMpId alone mpId).
Proof. apply keeps_d1. reflexivity. Qed.

Lemma keeps_getAvailableAccounts (blockedIds : list string) :
  keeps view (getAvailableAccounts alone blockedIds).
Proof. apply keeps_d1. reflexivity. Qed.

Lemma keeps_getAvailableAccount : keeps view (getAvailableAccount env alone).
Proof.
  unfold getAvailableAccount. apply keeps_bind; [apply keeps_get|].
  intros blocked. apply keeps_bind; [apply keeps_getAvailableAccounts|].
  intros [|first rest]; [apply keeps_throw|].
  apply keeps_bind; [apply keeps_random|]. intros r. apply keeps_ret.
Qed.

Lemma keeps_updateAccount (id : string) (data : AccountPatch) :
  ignores_accounts view -> keeps view (updateAccount env alone id data).
Proof.
  intros Hacc. unfold updateAccount. apply keeps_bind; [apply keeps_get|].
  intros now. apply keeps_bind; [|intros; apply keeps_getAccountById].
  apply keeps_d1. intros w. apply Hacc.
Qed.

Lemma keeps_updateFeed (id : string) (data : FeedPatch) :
  ignores_feeds view -> keeps view (updateFeed env alone id data).
Proof.
  intros Hf. unfold updateFeed. apply keeps_bind; [apply keeps_get|].
  intros now. apply keeps_bind; [|intros; apply keeps_getFeedById].
  apply keeps_d1. intros w. apply Hf.
Qed.

Lemma keeps_upsertArticles (mpId : string) (arts : list ArticleSummary) :
  ignores_articles view -> keeps view (upsertArticles env alone mpId arts).
Proof.
  intros Ha. unfold upsertArticles. apply keeps_bind; [apply keeps_get|].
  intros now. destruct arts; [apply keeps_ret|].
  apply keeps_d1. intros w. apply Ha.
Qed.

Lemma keeps_handleAccountError (accountId msg : string) :
  ignores_accounts view -> ignores_blocklist view ->
  keeps view (handleAccountError env alone accountId msg).
Proof.
  intros Hacc Hbl. unfold handleAccountError.
  apply keeps_bind; [apply keeps_get|]. intros today.
  apply keeps_bind; [apply keeps_get|]. intros blockedAccounts.
  repeat apply keeps_if.
  - apply keeps_bind; [now apply keeps_updateAccount|].
    intros; apply keeps_ret.
  - apply keeps_modify. intros w. apply Hbl.
  - apply keeps_ret.
Qed.

Lemma keeps_getMpArticles (mpId : string) (page : Z) (retryCount : nat) :
  ignores_accounts view -> ignores_blocklist view ->
  keeps view (getMpArticles env alone mpId page retryCount).
Proof.
  intros Hacc Hbl. induction retryCount as [|n IH]; cbn [getMpArticles];
    (apply keeps_bind; [apply keeps_getAvailableAccount|]; intros account;
     apply keeps_try_catch; [apply keeps_fetchJson|]; intros error;
     apply keeps_bind; [now apply keeps_handleAccountError|]; intros _).
  - apply keeps_throw.
  - exact IH.
Qed.

Lemma keeps_refreshMpArticlesAndUpdateFeed (mpId : string) (page : Z) :
  ignores_accounts view -> ignores_blocklist view ->
  ignores_articles view -> ignores_feeds view ->
  keeps view (refreshMpArticlesAndUpdateFeed env alone mpId page).
Proof.
  intros Hacc Hbl Hart Hfeeds. unfold refreshMpArticlesAndUpdateFeed.
  apply keeps_bind; [now apply keeps_getMpArticles|]. intros arts.
  apply keeps_bind.
  { apply keeps_if; [now apply keeps_upsertArticles|apply keeps_ret]. }
  intros _. apply keeps_bind; [apply keeps_get|]. intros now.
  apply keeps_bind; [now apply keeps_updateFeed|]. intros _. apply keeps_ret.
Qed.

End Frames.

Lemma Framed_accounts : Framed accounts.
Proof. split; reflexivity. Qed.

Lemma Framed_feeds : Framed feeds.
Proof. split; reflexivity. Qed.

Lemma Framed_articles : Framed articles.
Proof. split; reflexivity. Qed.

Lemma Framed_blockedAccountsMap : Framed blockedAccountsMap.
Proof. split; reflexivity. Qed.

Lemma Framed_inProgressHistoryMp : Framed inProgressHistoryMp.
Proof. split; reflexivity. Qed.

Lemma Framed_isRefreshAllMpArticlesRunning :
  Framed isRefreshAllMpArticlesRunning.
Proof. split; reflexivity. Qed.

#[export] Hint Resolve Framed_accounts Framed_feeds Framed_articles
  Framed_blockedAccountsMap Framed_inProgressHistoryMp
  Framed_isRefreshAllMpArticlesRunning : frame.

(** ** The upstream client: attempts and retries *)

Lemma getMpArticles_attempt (env : Env) (mpId : string) (page : Z)
    (n : nat) (w : World) :
  getMpArticles env alone mpId page n w =
  match attempt env mpId page w with
  | (w1, Got l) => (w1, Resolved l)
  | (w1, NoAccount e) => (w1, Rejected e)
  | (w1, Failed e) =>
      match n with
      | S k => getMpArticles env alone mpId page k w1
      | O => (w1, Rejected e)
      end
  end.
Proof.
  unfold attempt, on_upstream_error.
  destruct n; cbn [getMpArticles]; unfold bind at 1, try_catch;
    destruct (getAvailableAccount env alone w) as [w1 [account|e]];
    try reflexivity;
    destruct (fetchJson alone _ _ w1) as [w2 [l|e]]; try reflexivity;
    unfold bind;
    pose proof (handleAccountError_run env (acc_id account)
                  (js_or (data_message e) (message e)) w2) as Hrun;
    destruct (handleAccountError env alone (acc_id account)
                (js_or (data_message e) (message e)) w2) as [w3 [u|e3]];
    cbn [fst]; try reflexivity;
    exfalso; revert Hrun;
    repeat (match goal with |- context [if ?b then _ else _] =>
              destruct b end); discriminate.
Qed.

Lemma getMpArticles_spec_fetchArticlesPage (env : Env) (mpId : string)
    (page : Z) (n : nat) (w : World) :
  getMpArticles env alone mpId page n w
  = spec_fetchArticlesPage env mpId page n w.
Proof.
  revert w. induction n as [|n IH]; intros w;
    rewrite getMpArticles_attempt; cbn [spec_fetchArticlesPage];
    destruct (attempt env mpId page w) as [w1 [l|e|e]]; auto.
Qed.

Lemma handleAccountError_trace (env : Env) (X msg : string) (w : World) :
  trace (fst (handleAccountError env alone X msg w)) = trace w
  \/ trace (fst (handleAccountError env alone X msg w))
     = trace w ++ [EvD1 (UpdateAccount X); EvD1 (SelectAccountById X)].
Proof.
  rewrite handleAccountError_run.
  repeat (match goal with |- context [if ?b then _ else _] =>
            destruct b end); cbn [fst trace emit set_tick set_accounts
                                  set_blockedAccountsMap]; auto.
  right. rewrite <- List.app_assoc. reflexivity.
Qed.

Lemma attempt_spec (env : Env) (mpId : string) (page : Z) (w : World) :
  match attempt env mpId page w with
  | (w1, NoAccount e) =>
      candidates env w = []
      /\ e = Error_of "暂无可用读书账号!"
      /\ trace w1
         = trace w
           ++ [EvD1 (SelectAvailableAccounts (getBlockedAccountIds env w))]
  | (w1, Got l) =>
      exists a, In (al_account a) (candidates env w)
                /\ al_blocked a = getBlockedAccountIds env w
                /\ al_handler a = []
                /\ attempt_outcome env mpId page a = Resolved l
                /\ trace w1 = trace w ++ attempt_events mpId page a
  | (w1, Failed e) =>
      exists a, In (al_account a) (candidates env w)
                /\ al_blocked a = getBlockedAccountIds env w
                /\ handler_shape a
                /\ attempt_outcome env mpId page a = Rejected e
                /\ trace w1 = trace w ++ attempt_events mpId page a
  end.
Proof.
  unfold attempt.
  pose proof (getAvailableAccount_resolved env w) as Hin.
  rewrite getAvailableAccount_run in *. cbv zeta in *.
  destruct (candidates env w) as [|first rest] eqn:Ecs.
  { repeat split. }
  cbn [snd] in Hin. specialize (Hin _ eq_refl).
  set (account := nth _ (first :: rest) first) in *.
  unfold fetchJson, suspend, bind, alone, on_upstream_error.
  cbn [fst snd tick set_tick emit].
  set (a := {| al_blocked := getBlockedAccountIds env w;
               al_account := account;
               al_tick := S (S (S (tick w)));
               al_handler := [] |}).
  destruct (response_outcome _) as [l|e] eqn:Eout.
  - exists a. repeat split; try assumption.
    unfold attempt_events.
    cbn [trace emit set_tick al_blocked al_account al_handler].
    rewrite <- !List.app_assoc. reflexivity.
  - match goal with |- context [handleAccountError env _ ?X ?m ?w2] =>
      destruct (handleAccountError_trace env X m w2) as [Htr|Htr];
      rewrite Htr end.
    + exists a. repeat split; try assumption; [now left|].
      unfold attempt_events.
    cbn [trace emit set_tick al_blocked al_account al_handler].
    rewrite <- !List.app_assoc. reflexivity.
    + exists {| al_blocked := getBlockedAccountIds env w;
                al_account := account;
                al_tick := S (S (S (tick w)));
                al_handler := [EvD1 (UpdateAccount (acc_id account));
                               EvD1 (SelectAccountById (acc_id account))] |}.
      repeat split; try assumption; [now right|].
      unfold attempt_events.
      cbn [trace emit set_tick al_blocked al_account al_handler].
      rewrite <- !List.app_assoc. reflexivity.
Qed.

Lemma getMpArticles_attempts (env : Env) (mpId : string) (page : Z)
    (n : nat) (w : World) :
  exists logs coda,
    trace (fst (getMpArticles env alone mpId page n w))
    = trace w ++ flat_map (attempt_events mpId page) logs ++ coda
    /\ (length logs <= S n)%nat
    /\ Forall handler_shape logs
    /\ Forall selected_by_query logs
    /\ retries_end env mpId page n logs coda
         (snd (getMpArticles env alone mpId page n w)).
Proof.
  revert w. induction n as [|n IH]; intros w;
    rewrite getMpArticles_attempt;
    pose proof (attempt_spec env mpId page w) as Hatt;
    destruct (attempt env mpId page w) as [w1 [l|e|e]].
  1, 4: destruct Hatt as (a & Hin & Hb & Hh & Hout & Htr);
    exists [a], []; cbn [fst snd flat_map length];
    rewrite !List.app_nil_r;
    (split; [exact Htr|]); (split; [lia|]);
    (split; [constructor; [left; exact Hh|constructor]|]);
    (split; [constructor; [|constructor];
             apply sql_getAvailableAccounts_sound in Hin;
             split; rewrite ?Hb; tauto|]);
    left; (split; [reflexivity|]);
    (split; [now constructor|]); intros; discriminate.
  1, 3: destruct Hatt as (Hcs & -> & Htr);
    exists [], [EvD1 (SelectAvailableAccounts (getBlockedAccountIds env w))];
    cbn [fst snd flat_map length app];
    (split; [exact Htr|]); (split; [lia|]);
    (split; [constructor|]); (split; [constructor|]);
    right; eexists; repeat split; constructor.
  - destruct Hatt as (a & Hin & Hb & Hh & Hout & Htr).
    exists [a], []. cbn [fst snd flat_map length].
    rewrite !List.app_nil_r.
    split; [exact Htr|]. split; [lia|].
    split; [constructor; [exact Hh|constructor]|].
    split.
    { constructor; [|constructor].
      apply sql_getAvailableAccounts_sound in Hin.
      split; rewrite ?Hb; tauto. }
    left. split; [reflexivity|]. split; [now constructor|]. reflexivity.
  - destruct Hatt as (a & Hin & Hb & Hh & Hout & Htr).
    destruct (IH w1) as (logs & coda & Htr' & Hlen & Hhs & Hsel & Hend).
    exists (a :: logs), coda. cbn [flat_map length].
    split.
    { rewrite Htr', Htr, <- !List.app_assoc. reflexivity. }
    split; [lia|].
    split; [constructor; assumption|].
    split.
    { constructor; [|assumption].
      apply sql_getAvailableAccounts_sound in Hin. split; rewrite ?Hb; tauto. }
    destruct Hend as [(Hc & He & Hn)|(b & Hc & Hr & Hf)].
    + left. split; [exact Hc|]. split.
      * apply attempts_end_later; [exists e; exact Hout|exact He].
      * intros e' He'. cbn [length]. f_equal. exact (Hn e' He').
    + right. exists b. split; [exact Hc|]. split; [exact Hr|].
      constructor; [exists e; exact Hout|exact Hf].
Qed.

Lemma fetches_app (evs1 evs2 : list Event) :
  fetches (evs1 ++ evs2) = fetches evs1 ++ fetches evs2.
Proof. apply List.filter_app. Qed.

Lemma fetches_attempts (mpId : string) (page : Z) (logs : list AttemptLog) :
  Forall handler_shape logs ->
  length (fetches (flat_map (attempt_events mpId page) logs)) = length logs.
Proof.
  induction 1 as [|a logs Ha _ IH]; [reflexivity|].
  cbn [flat_map]. rewrite fetches_app, List.length_app, IH.
  unfold attempt_events. destruct Ha as [-> | ->]; reflexivity.
Qed.

Lemma fetches_coda (env : Env) (mpId : string) (page : Z) (n : nat)
    (logs : list AttemptLog) (coda : list Event)
    (r : Outcome (Body (list ArticleSummary))) :
  retries_end env mpId page n logs coda r -> fetches coda = [].
Proof. intros [(-> & _)|(b & -> & _)]; reflexivity. Qed.

Example getMpArticles_four_attempts :
  snd (getMpArticles env0 alone "mp" 1 3 one_account) = Rejected bare_401
  /\ length (fetches (trace (fst (getMpArticles env0 alone "mp" 1 3
                                    one_account)))) = 4%nat.
Proof. by_evaluation. Qed.

(** C4: [getMpArticles] (with its default of three retries) makes at most
    four attempts, that is at most three retries. Each attempt runs its own
    selection query and requests the page with an account that the query
    returned (valid, not among the excluded ids); an attempt whose request
    fails, whatever the failure, is followed by the next one while retries
    remain; the first successful request ends the run with its articles;
    after the fourth failed request the error of that last request is
    surfaced. A selection that finds no account is surfaced at once. The
    function is the retry policy of the specification. *)
Theorem C4_getMpArticles_retries (env : Env) (mpId : string) (page : Z)
    (w : World) :
  let run := getMpArticles env alone mpId page 3 w in
  run = spec_fetchArticlesPage env mpId page 3 w
  /\ exists logs coda,
       trace (fst run)
       = trace w ++ flat_map (attempt_events mpId page) logs ++ coda
       /\ length (fetches (flat_map (attempt_events mpId page) logs ++ coda))
          = length logs
       /\ (length logs <= 4)%nat
       /\ Forall handler_shape logs
       /\ Forall selected_by_query logs
       /\ retries_end env mpId page 3 logs coda (snd run).
Proof.
  cbv zeta. split; [apply getMpArticles_spec_fetchArticlesPage|].
  destruct (getMpArticles_attempts env mpId page 3 w)
    as (logs & coda & Htr & Hlen & Hhs & Hsel & Hend).
  exists logs, coda. repeat split; try assumption.
  rewrite fetches_app, List.length_app, fetches_attempts by assumption.
  rewrite (fetches_coda _ _ _ _ _ _ _ Hend). cbn [length]. lia.
Qed.

(** ** Single-feed sync *)

Lemma updateFeed_run (env : Env) (id : string) (data : FeedPatch)
    (w : World) :
  updateFeed env alone id data w =
  let w1 :=
    set_feeds (sql_updateFeed id data (nowMs env w) (feeds w))
      (emit (EvD1 (UpdateFeed id)) (set_tick (S (tick w)) w)) in
  (emit (EvD1 (SelectFeedById id)) (set_tick (S (S (tick w))) w1),
   Resolved (List.find (fun r => String.eqb (feed_id r) id) (feeds w1))).
Proof. reflexivity. Qed.

Lemma upsertArticles_run (env : Env) (mpId : string)
    (arts : list ArticleSummary) (w : World) :
  upsertArticles env alone mpId arts w =
  match arts with
  | [] => (w, Resolved tt)
  | _ :: _ =>
      (set_articles
         (sql_upsertArticles mpId (nowMs env w) arts (articles w))
         (emit (EvD1 (BatchUpsertArticles mpId (length arts)))
            (set_tick (S (tick w)) w)),
       Resolved tt)
  end.
Proof. destruct arts; reflexivity. Qed.

Lemma refreshMpArticlesAndUpdateFeed_run (env : Env) (mpId : string)
    (page : Z) (w : World) :
  refreshMpArticlesAndUpdateFeed env alone mpId page w =
  match getMpArticles env alone mpId page 3 w with
  | (w1, Rejected e) => (w1, Rejected e)
  | (w1, Resolved data) =>
      let w2 := fst (upsertArticles env alone mpId (elements data) w1) in
      (fst (updateFeed env alone mpId
              (sync_patch (nowMs env w2) (hasHistory_of data)) w2),
       Resolved (hasHistory_of data))
  end.
Proof.
  unfold refreshMpArticlesAndUpdateFeed. unfold bind at 1.
  destruct (getMpArticles env alone mpId page 3 w) as [w1 [data|e]];
    [|reflexivity].
  destruct data as [[|a arts]|]; reflexivity.
Qed.

Lemma sql_updateFeed_has_history (id : string) (data : FeedPatch) (now h : Z)
    (tbl : list FeedRow) (r : FeedRow) :
  p_hasHistory data = Some h ->
  In r (sql_updateFeed id data now tbl) -> feed_id r = id ->
  has_history r = h.
Proof.
  intros Hh Hin Hid. unfold sql_updateFeed in Hin.
  apply in_map_iff in Hin as (r0 & Hr & _).
  destruct (String.eqb_spec (feed_id r0) id) as [E|E].
  - subst r. unfold patch_feed. cbn [has_history]. rewrite Hh. reflexivity.
  - subst r. contradiction.
Qed.

Lemma sql_updateFeed_others (id : string) (data : FeedPatch) (now : Z)
    (tbl : list FeedRow) (r : FeedRow) :
  feed_id r <> id ->
  (In r (sql_updateFeed id data now tbl) <-> In r tbl).
Proof.
  intros Hne. unfold sql_updateFeed. rewrite in_map_iff. split.
  - intros (r0 & Hr & Hin).
    destruct (String.eqb_spec (feed_id r0) id) as [E|E].
    + subst r. cbn [patch_feed feed_id] in Hne. contradiction.
    + now subst r.
  - intros Hin. exists r. split; [|assumption].
    destruct (String.eqb_spec (feed_id r) id); [contradiction|reflexivity].
Qed.

Lemma sql_updateFeed_ids (id : string) (data : FeedPatch) (now : Z)
    (tbl : list FeedRow) :
  map feed_id (sql_updateFeed id data now tbl) = map feed_id tbl.
Proof.
  unfold sql_updateFeed. rewrite map_map. apply map_ext.
  intros r. destruct (String.eqb (feed_id r) id); reflexivity.
Qed.

Lemma hasHistory_of_Json (arts : list ArticleSummary) :
  (hasHistory_of (Json arts) = 0%Z <-> (length arts < 20)%nat)
  /\ (hasHistory_of (Json arts) = 1%Z <-> (20 <= length arts)%nat).
Proof.
  unfold hasHistory_of, defaultCount. cbn [Array_length js_lt].
  destruct (Z.ltb_spec (Z.of_nat (length arts)) 20); split; split;
    intros; try lia; try discriminate.
Qed.

Lemma hasHistory_of_spec (data : Body (list ArticleSummary)) :
  (hasHistory_of data = 0%Z
   <-> exists arts, data = Json arts /\ (length arts < 20)%nat)
  /\ (hasHistory_of data = 1%Z
      <-> data = EmptyObject
          \/ exists arts, data = Json arts /\ (20 <= length arts)%nat).
Proof.
  destruct data as [arts|].
  - destruct (hasHistory_of_Json arts) as [H0 H1]. split; split.
    + intros H. exists arts. split; [reflexivity|]. now apply H0.
    + intros (arts' & [= <-] & Hlen). now apply H0.
    + intros H. right. exists arts. split; [reflexivity|]. now apply H1.
    + intros [H|(arts' & [= <-] & Hlen)]; [discriminate|]. now apply H1.
  - split; split.
    + discriminate.
    + intros (arts' & H & _). discriminate.
    + intros _. now left.
    + reflexivity.
Qed.

(** C2, as stated, fails: a feed whose [has_history] is 0 is synced, the
    upstream returns a full page of twenty articles, and the sync writes
    [has_history] = 1. *)
Lemma C2_full_page_sets_has_history_back :
  map has_history (feeds finished_world) = [0%Z]
  /\ snd (refreshMpArticlesAndUpdateFeed env_full_page alone "mp" 1
            finished_world) = Resolved 1%Z
  /\ map has_history
       (feeds (fst (refreshMpArticlesAndUpdateFeed env_full_page alone "mp" 1
                      finished_world))) = [1%Z].
Proof. by_evaluation. Qed.

Lemma feeds_getMpArticles (env : Env) (mpId : string) (page : Z) (n : nat)
    (w : World) :
  feeds (fst (getMpArticles env alone mpId page n w)) = feeds w.
Proof.
  apply (keeps_getMpArticles feeds env); auto with frame;
    intros v w0; reflexivity.
Qed.

Lemma feeds_upsertArticles (env : Env) (mpId : string)
    (arts : list ArticleSummary) (w : World) :
  feeds (fst (upsertArticles env alone mpId arts w)) = feeds w.
Proof.
  apply (keeps_upsertArticles feeds env); auto with frame;
    intros v w0; reflexivity.
Qed.

(** C2 (amended): every sync that gets an answer recomputes [has_history]
    from that answer alone and writes it to the feed: 0 when the answer is
    a page of fewer than twenty articles, 1 when it is a page of twenty or
    more or when its body was not JSON (the empty object, whose [length]
    is [undefined]), whatever the stored value was. So a sync takes
    [has_history] to 0 only on a short page, and a sync of a full page or
    of an unreadable answer sets it to 1 also when it was 0. The other
    feeds are not touched, and a sync that rejects leaves all feeds as they
    were. *)
Theorem C2_has_history_after_sync (env : Env) (mpId : string) (page : Z)
    (w : World) :
  let run := refreshMpArticlesAndUpdateFeed env alone mpId page w in
  (forall e, snd run = Rejected e -> feeds (fst run) = feeds w)
  /\ (forall h, snd run = Resolved h ->
      exists data,
        snd (getMpArticles env alone mpId page 3 w) = Resolved data
        /\ (h = 0%Z
            <-> exists arts, data = Json arts /\ (length arts < 20)%nat)
        /\ (h = 1%Z
            <-> data = EmptyObject
                \/ exists arts, data = Json arts /\ (20 <= length arts)%nat)
        /\ (forall f, In f (feeds (fst run)) -> feed_id f = mpId ->
                      has_history f = h)
        /\ (forall f, feed_id f <> mpId ->
                      (In f (feeds (fst run)) <-> In f (feeds w)))
        /\ map feed_id (feeds (fst run)) = map feed_id (feeds w)).
Proof.
  cbv zeta. rewrite refreshMpArticlesAndUpdateFeed_run.
  pose proof (feeds_getMpArticles env mpId page 3 w) as Hfeeds.
  destruct (getMpArticles env alone mpId page 3 w) as [w1 [data|e]];
    cbn [fst snd] in *.
  - split; [intros; discriminate|]. intros h [= <-].
    exists data. split; [reflexivity|].
    destruct (hasHistory_of_spec data) as [H0 H1].
    split; [exact H0|]. split; [exact H1|].
    rewrite updateFeed_run. cbv zeta.
    cbn [fst feeds emit set_tick set_feeds].
    rewrite feeds_upsertArticles, Hfeeds.
    split; [|split].
    + intros f Hin Hid.
      eapply sql_updateFeed_has_history; [|exact Hin|exact Hid]. reflexivity.
    + intros f Hne. now apply sql_updateFeed_others.
    + apply sql_updateFeed_ids.
  - split; [|intros; discriminate]. intros _ _. exact Hfeeds.
Qed.

(** ** The trace only grows *)

Lemma extends_ret {A : Type} (a : A) : extends (ret a).
Proof. intros w. exists []. cbn. now rewrite List.app_nil_r. Qed.

Lemma extends_throw {A : Type} (e : JsError) : extends (throw (A := A) e).
Proof. intros w. exists []. cbn. now rewrite List.app_nil_r. Qed.

Lemma extends_get {A : Type} (f : World -> A) : extends (get f).
Proof. intros w. exists []. cbn. now rewrite List.app_nil_r. Qed.

Lemma extends_modify (f : World -> World) :
  (forall w, trace (f w) = trace w) -> extends (modify f).
Proof. intros H w. exists []. cbn. now rewrite List.app_nil_r. Qed.

Lemma extends_emit (e : Event) : extends (modify (emit e)).
Proof. intros w. exists [e]. reflexivity. Qed.

Lemma extends_bind {A C : Type} (m : Async A) (k : A -> Async C) :
  extends m -> (forall a, extends (k a)) -> extends (bind m k).
Proof.
  intros Hm Hk w. unfold bind. destruct (Hm w) as [evs1 H1].
  destruct (m w) as [w1 [a|e]]; cbn [fst] in *.
  - destruct (Hk a w1) as [evs2 H2]. exists (evs1 ++ evs2).
    rewrite H2, H1, List.app_assoc. reflexivity.
  - exists evs1. exact H1.
Qed.

Lemma extends_try_catch {A : Type} (m : Async A) (h : JsError -> Async A) :
  extends m -> (forall e, extends (h e)) -> extends (try_catch m h).
Proof.
  intros Hm Hh w. unfold try_catch. destruct (Hm w) as [evs1 H1].
  destruct (m w) as [w1 [a|e]]; cbn [fst] in *.
  - exists evs1. exact H1.
  - destruct (Hh e w1) as [evs2 H2]. exists (evs1 ++ evs2).
    rewrite H2, H1, List.app_assoc. reflexivity.
Qed.

Lemma extends_try_finally {A : Type} (m : Async A) (f : Async unit) :
  extends m -> extends f -> extends (try_finally m f).
Proof.
  intros Hm Hf w. unfold try_finally. destruct (Hm w) as [evs1 H1].
  destruct (m w) as [w1 r]. destruct (Hf w1) as [evs2 H2].
  destruct (f w1) as [w2 [u|e]]; cbn [fst] in *; exists (evs1 ++ evs2);
    rewrite H2, H1, List.app_assoc; reflexivity.
Qed.

Lemma extends_if {A : Type} (b : bool) (m1 m2 : Async A) :
  extends m1 -> extends m2 -> extends (if b then m1 else m2).
Proof. destruct b; auto. Qed.

Lemma extends_suspend : extends (suspend alone).
Proof. intros w. exists []. cbn. now rewrite List.app_nil_r. Qed.

Lemma extends_d1 {A : Type} (stmt : Stmt) (run : World -> World * A) :
  (forall w, trace (fst (run w)) = trace w) -> extends (d1 alone stmt run).
Proof.
  intros Hrun w. exists [EvD1 stmt]. unfold d1, bind, suspend, alone.
  specialize (Hrun (emit (EvD1 stmt) (set_tick (S (tick w)) w))).
  destruct (run _) as [w1 a]. cbn [fst] in *. rewrite Hrun. reflexivity.
Qed.

Lemma extends_sleep (ms : Z) : extends (sleep alone ms).
Proof. intros w. exists [EvSleep ms]. reflexivity. Qed.

Lemma extends_fetchJson {A : Type} (request : Event)
    (reply : nat -> FetchResult A) :
  extends (fetchJson alone request reply).
Proof. intros w. exists [request]. reflexivity. Qed.

Lemma extends_getFeedById (id : string) : extends (getFeedById alone id).
Proof. apply extends_d1. reflexivity. Qed.

Lemma extends_getAvailableAccount (env : Env) :
  extends (getAvailableAccount env alone).
Proof.
  intros w. rewrite getAvailableAccount_run. cbv zeta.
  destruct (candidates env w); eexists; reflexivity.
Qed.

Lemma extends_updateAccount (env : Env) (id : string) (data : AccountPatch) :
  extends (updateAccount env alone id data).
Proof.
  unfold updateAccount, getAccountById.
  apply extends_bind; [apply extends_get|]. intros now.
  apply extends_bind; [|intros]; apply extends_d1; reflexivity.
Qed.

Lemma extends_updateFeed (env : Env) (id : string) (data : FeedPatch) :
  extends (updateFeed env alone id data).
Proof.
  unfold updateFeed.
  apply extends_bind; [apply extends_get|]. intros now.
  apply extends_bind; [|intros; apply extends_getFeedById].
  apply extends_d1; reflexivity.
Qed.

Lemma extends_upsertArticles (env : Env) (mpId : string)
    (arts : list ArticleSummary) :
  extends (upsertArticles env alone mpId arts).
Proof.
  unfold upsertArticles. apply extends_bind; [apply extends_get|].
  intros now. destruct arts; [apply extends_ret|].
  apply extends_d1; reflexivity.
Qed.

Lemma extends_handleAccountError (env : Env) (X msg : string) :
  extends (handleAccountError env alone X msg).
Proof.
  intros w. destruct (handleAccountError_trace env X msg w) as [H|H];
    rewrite H; [exists []; now rewrite List.app_nil_r|eexists; reflexivity].
Qed.

Lemma extends_getMpArticles (env : Env) (mpId : string) (page : Z)
    (n : nat) :
  extends (getMpArticles env alone mpId page n).
Proof.
  intros w.
  destruct (getMpArticles_attempts env mpId page n w)
    as (logs & coda & Htr & _).
  eexists. exact Htr.
Qed.

Lemma extends_refreshMpArticlesAndUpdateFeed (env : Env) (mpId : string)
    (page : Z) :
  extends (refreshMpArticlesAndUpdateFeed env alone mpId page).
Proof.
  unfold refreshMpArticlesAndUpdateFeed.
  apply extends_bind; [apply extends_getMpArticles|]. intros arts.
  apply extends_bind.
  { apply extends_if; [apply extends_upsertArticles|apply extends_ret]. }
  intros _. apply extends_bind; [apply extends_get|]. intros now.
  apply extends_bind; [apply extends_updateFeed|]. intros _.
  apply extends_ret.
Qed.

Lemma extends_history_loop (env : Env) (mpId : string) (i : nat) :
  extends (history_loop env alone mpId i).
Proof.
  induction i as [|i IH]; cbn [history_loop]; [apply extends_ret|].
  apply extends_bind; [apply extends_get|]. intros marker.
  apply extends_if; [apply extends_ret|].
  apply extends_bind; [apply extends_refreshMpArticlesAndUpdateFeed|].
  intros h. apply extends_if; [apply extends_ret|].
  apply extends_bind; [apply extends_modify; reflexivity|]. intros _.
  apply extends_bind; [apply extends_sleep|]. intros _. exact IH.
Qed.

(** ** Deep-history sync *)

Lemma fetches_attempts_of (mpId : string) (page : Z)
    (logs : list AttemptLog) :
  Forall handler_shape logs ->
  Forall (fetch_of mpId page)
    (fetches (flat_map (attempt_events mpId page) logs)).
Proof.
  induction 1 as [|a logs Ha _ IH]; [constructor|].
  cbn [flat_map]. rewrite fetches_app. apply Forall_app. split; [|exact IH].
  unfold attempt_events. destruct Ha as [-> | ->]; cbn;
    repeat constructor; eexists; eexists; reflexivity.
Qed.

Lemma getMpArticles_fetch_events (env : Env) (mpId : string) (page : Z)
    (n : nat) (w : World) :
  exists evs,
    trace (fst (getMpArticles env alone mpId page n w)) = trace w ++ evs
    /\ Forall (fetch_of mpId page) (fetches evs)
    /\ (fetches evs = [] ->
        exists e, snd (getMpArticles env alone mpId page n w) = Rejected e)
    /\ (candidates env w <> [] -> fetches evs <> []).
Proof.
  destruct (getMpArticles_attempts env mpId page n w)
    as (logs & coda & Htr & Hlen & Hhs & Hsel & Hend).
  exists (flat_map (attempt_events mpId page) logs ++ coda).
  split; [exact Htr|].
  rewrite fetches_app, (fetches_coda _ _ _ _ _ _ _ Hend), List.app_nil_r.
  split; [now apply fetches_attempts_of|]. split.
  - intros Hnil.
    assert (Hl : length logs = 0%nat).
    { rewrite <- (fetches_attempts mpId page logs Hhs), Hnil. reflexivity. }
    destruct logs; [|discriminate].
    destruct Hend as [(_ & He & _)|(b & _ & Hr & _)].
    + inversion He.
    + eexists. exact Hr.
  - intros Hcs Hnil.
    assert (Hl : length logs = 0%nat).
    { rewrite <- (fetches_attempts mpId page logs Hhs), Hnil. reflexivity. }
    destruct logs; [|discriminate]. cbn [flat_map app] in Htr.
    rewrite getMpArticles_attempt in Htr.
    pose proof (attempt_spec env mpId page w) as Hatt.
    destruct (attempt env mpId page w) as [w1 [l|e|e]].
    + destruct Hatt as (a & _ & _ & _ & _ & Htr1). cbn [fst] in Htr.
      rewrite Htr1 in Htr. apply app_inv_head in Htr.
      destruct Hend as [(-> & He & _)|(b & -> & _)]; discriminate.
    + destruct Hatt as (Hnone & _). contradiction.
    + destruct Hatt as (a & _ & _ & _ & _ & Htr1).
      assert (Hext : exists evs,
                 trace (fst match n with
                            | 0%nat => (w1, Rejected e)
                            | S k => getMpArticles env alone mpId page k w1
                            end) = trace w1 ++ evs).
      { destruct n; [exists []; cbn; now rewrite List.app_nil_r|].
        apply extends_getMpArticles. }
      destruct Hext as [evs Hevs]. rewrite Hevs, Htr1 in Htr.
      rewrite <- List.app_assoc in Htr. apply app_inv_head in Htr.
      destruct Hend as [(-> & He & _)|(b & -> & _)]; discriminate.
Qed.

Lemma candidates_ext (env : Env) (w1 w2 : World) :
  accounts w1 = accounts w2 ->
  blockedAccountsMap w1 = blockedAccountsMap w2 ->
  tick w1 = tick w2 ->
  candidates env w1 = candidates env w2.
Proof.
  intros Ha Hb Ht. unfold candidates, getBlockedAccountIds, getTodayDate.
  rewrite Ha, Hb, Ht. reflexivity.
Qed.

Lemma refreshMpArticlesAndUpdateFeed_fetch_events (env : Env)
    (mpId : string) (page : Z) (w : World) :
  exists evs,
    trace (fst (refreshMpArticlesAndUpdateFeed env alone mpId page w))
    = trace w ++ evs
    /\ Forall (fetch_of mpId page) (fetches evs)
    /\ (fetches evs = [] ->
        exists e,
          snd (refreshMpArticlesAndUpdateFeed env alone mpId page w)
          = Rejected e)
    /\ (candidates env w <> [] -> fetches evs <> []).
Proof.
  rewrite refreshMpArticlesAndUpdateFeed_run.
  destruct (getMpArticles_fetch_events env mpId page 3 w)
    as (evs & Htr & Hall & Hnil & Hlive).
  destruct (getMpArticles env alone mpId page 3 w) as [w1 [arts|e]];
    cbn [fst snd] in *.
  - destruct (extends_upsertArticles env mpId (elements arts) w1)
      as [evs1 H1].
    assert (Hf1 : fetches evs1 = []).
    { rewrite upsertArticles_run in H1. destruct (elements arts); cbn in H1.
      - rewrite <- (List.app_nil_r (trace w1)) in H1 at 1.
        apply app_inv_head in H1. now subst evs1.
      - apply app_inv_head in H1. now subst evs1. }
    rewrite updateFeed_run. cbv zeta.
    cbn [fst trace emit set_tick set_feeds]. rewrite H1, Htr.
    exists (evs ++ evs1 ++ [EvD1 (UpdateFeed mpId);
                            EvD1 (SelectFeedById mpId)]).
    split; [now rewrite <- !List.app_assoc|].
    rewrite !fetches_app, Hf1. cbn [fetches List.filter is_fetch app].
    rewrite List.app_nil_r.
    split; [exact Hall|]. split; [|exact Hlive].
    intros Hn. destruct (Hnil Hn) as [e He]. discriminate.
  - exists evs. split; [exact Htr|]. split; [exact Hall|].
    split; [|exact Hlive]. intros _. exists e. reflexivity.
Qed.

Lemma history_loop_first_fetch (env : Env) (mpId : string) (i : nat)
    (w : World) :
  hm_id (inProgressHistoryMp w) = mpId ->
  exists evs,
    trace (fst (history_loop env alone mpId i w)) = trace w ++ evs
    /\ (forall e, head (fetches evs) = Some e ->
                  fetch_of mpId (hm_page (inProgressHistoryMp w)) e)
    /\ (i <> 0%nat -> candidates env w <> [] -> head (fetches evs) <> None).
Proof.
  intros Hid. destruct i as [|i].
  { exists []. cbn. rewrite List.app_nil_r.
    repeat split; [discriminate|congruence]. }
  cbn [history_loop]. unfold bind at 1, get. rewrite Hid, String.eqb_refl.
  cbn [negb]. unfold bind at 1.
  destruct (refreshMpArticlesAndUpdateFeed_fetch_events env mpId
              (hm_page (inProgressHistoryMp w)) w)
    as (evs1 & Htr1 & Hall & Hnil & Hlive).
  destruct (refreshMpArticlesAndUpdateFeed env alone mpId
              (hm_page (inProgressHistoryMp w)) w) as [w1 [h|e]];
    cbn [fst snd] in *.
  - assert (Hext : extends
        (if (h <? 1)%Z then ret tt
         else
           modify (fun w0 =>
             set_inProgressHistoryMp
               {| hm_id := hm_id (inProgressHistoryMp w0);
                  hm_page := (hm_page (inProgressHistoryMp w0) + 1)%Z |} w0)
           >> sleep alone (getUpdateDelaySeconds env * 1000)
           >> history_loop env alone mpId i)).
    { apply extends_if; [apply extends_ret|].
      apply extends_bind; [apply extends_modify; reflexivity|]. intros _.
      apply extends_bind; [apply extends_sleep|]. intros _.
      apply extends_history_loop. }
    destruct (Hext w1) as [evs2 Htr2]. exists (evs1 ++ evs2).
    split; [rewrite Htr2, Htr1, List.app_assoc; reflexivity|].
    rewrite fetches_app.
    destruct (fetches evs1) as [|e1 rest] eqn:Ef.
    { destruct (Hnil eq_refl) as [e He]. discriminate. }
    cbn [app head]. split; [|discriminate].
    intros e [= <-]. now inversion Hall.
  - exists evs1. split; [exact Htr1|]. split.
    + intros e0 He0. destruct (fetches evs1) as [|e1 rest]; [discriminate|].
      cbn [head] in He0. injection He0 as <-. now inversion Hall.
    + intros _ Hcs. specialize (Hlive Hcs).
      destruct (fetches evs1); [congruence|discriminate].
Qed.

Lemma Math_ceil_div_20 (n : Z) :
  ((Math_ceil_div n defaultCount - 1) * 20 < n
   <= Math_ceil_div n defaultCount * 20)%Z.
Proof.
  unfold Math_ceil_div, defaultCount.
  pose proof (Z.div_mod (- n) 20 ltac:(lia)).
  pose proof (Z.mod_pos_bound (- n) 20 ltac:(lia)). lia.
Qed.

Lemma getFeedById_run (id : string) (w : World) :
  getFeedById alone id w =
  (emit (EvD1 (SelectFeedById id)) (set_tick (S (tick w)) w),
   Resolved (List.find (fun r => String.eqb (feed_id r) id) (feeds w))).
Proof. reflexivity. Qed.

Lemma countArticlesByMpId_run (mpId : string) (w : World) :
  countArticlesByMpId alone mpId w =
  (emit (EvD1 (CountArticlesByMpId mpId)) (set_tick (S (tick w)) w),
   Resolved (stored_articles mpId w)).
Proof. reflexivity. Qed.

Example history_of_forty_five_stored :
  stored_articles "mp" forty_five_stored = 45%Z
  /\ head (fetches (trace (fst (getHistoryMpArticles env_short_page alone
                                  "mp" forty_five_stored))))
     = Some (EvFetchArticles "vid0" "token" "mp" 3)
  /\ map has_history
       (feeds (fst (getHistoryMpArticles env_short_page alone "mp"
                      forty_five_stored))) = [0%Z].
Proof. by_evaluation. Qed.

(** C6: the deep-history sync of a feed with [n] stored articles requests
    page [Math.ceil(n / 20)] first: whenever [getHistoryMpArticles] makes an
    upstream request at all, its first request is for that page of that
    feed (page 3 for 45 stored articles), and it does make one when the feed
    exists with [has_history] not 0, no history sync of the same feed is in
    progress and an account can be selected. *)
Theorem C6_history_resumes_at_ceil (env : Env) (mpId : string) (w : World) :
  let run := getHistoryMpArticles env alone mpId w in
  let n := stored_articles mpId w in
  let start := Math_ceil_div n defaultCount in
  ((start - 1) * 20 < n <= start * 20)%Z
  /\ Math_ceil_div 45 defaultCount = 3%Z
  /\ exists evs,
       trace (fst run) = trace w ++ evs
       /\ (forall e, head (fetches evs) = Some e -> fetch_of mpId start e)
       /\ (mpId <> "" ->
           hm_id (inProgressHistoryMp w) <> mpId ->
           (exists feed,
              List.find (fun r => String.eqb (feed_id r) mpId) (feeds w)
              = Some feed /\ has_history feed <> 0%Z) ->
           (forall t, candidates env (set_tick t w) <> []) ->
           head (fetches evs) <> None).
Proof.
  cbv zeta. split; [apply Math_ceil_div_20|]. split; [reflexivity|].
  unfold getHistoryMpArticles. unfold bind at 1, get.
  destruct (String.eqb_spec (hm_id (inProgressHistoryMp w)) mpId) as [Eid|Eid].
  { exists []. cbn. rewrite List.app_nil_r. split; [reflexivity|].
    split; [discriminate|]. intros _ H. contradiction. }
  unfold bind at 1, modify.
  destruct (String.eqb_spec mpId "") as [Eempty|Eempty].
  { exists []. cbn. rewrite List.app_nil_r. split; [reflexivity|].
    split; [discriminate|]. intros H. contradiction. }
  unfold try_finally.
  set (wm := set_inProgressHistoryMp {| hm_id := mpId; hm_page := 1 |} w).
  unfold bind at 1. rewrite getFeedById_run.
  change (feeds wm) with (feeds w).
  destruct (List.find _ (feeds w)) as [feed|] eqn:Efeed.
  2: { exists [EvD1 (SelectFeedById mpId)]. cbn.
       split; [reflexivity|]. split; [discriminate|].
       intros _ _ (feed & Hf & _). discriminate. }
  destruct (Z.eqb_spec (has_history feed) 0) as [Eh|Eh].
  { exists [EvD1 (SelectFeedById mpId)]. cbn.
    split; [reflexivity|]. split; [discriminate|].
    intros _ _ (feed' & Hf & Hh). congruence. }
  unfold bind at 1. rewrite countArticlesByMpId_run.
  unfold bind at 1.
  set (w3 := set_inProgressHistoryMp _ _).
  assert (Hid : hm_id (inProgressHistoryMp w3) = mpId) by reflexivity.
  destruct (history_loop_first_fetch env mpId 1000 w3 Hid)
    as (evs & Htr & Hfirst & Hlive).
  destruct (history_loop env alone mpId 1000 w3) as [w4 r].
  cbn [fst] in *.
  exists ([EvD1 (SelectFeedById mpId); EvD1 (CountArticlesByMpId mpId)]
            ++ evs).
  split.
  { cbn [trace set_inProgressHistoryMp]. rewrite Htr. subst w3 wm.
    cbn [trace set_inProgressHistoryMp emit set_tick].
    rewrite <- !List.app_assoc. reflexivity. }
  rewrite fetches_app. cbn [fetches List.filter is_fetch app].
  split.
  - intros e He. apply Hfirst in He. exact He.
  - intros _ _ _ Hcs. apply Hlive; [discriminate|].
    rewrite (candidates_ext env w3 (set_tick (tick w3) w)); auto.
Qed.

(** ** All-feeds sync and its running flag *)

Lemma undisturbed_refl {A : Type} (m : Async A) : undisturbed m m.
Proof. intros w _. reflexivity. Qed.

Lemma undisturbed_bind {A C : Type} (m m0 : Async A) (k k0 : A -> Async C) :
  undisturbed m m0 -> keeps isRefreshAllMpArticlesRunning m0 ->
  (forall a, undisturbed (k a) (k0 a)) ->
  undisturbed (bind m k) (bind m0 k0).
Proof.
  intros Hm Hkeep Hk w Hw. unfold bind. rewrite (Hm w Hw).
  specialize (Hkeep w). destruct (m0 w) as [w1 [a|e]]; [|reflexivity].
  apply Hk. cbn [fst] in Hkeep. congruence.
Qed.

Lemma undisturbed_try_catch {A : Type} (m m0 : Async A)
    (h h0 : JsError -> Async A) :
  undisturbed m m0 -> keeps isRefreshAllMpArticlesRunning m0 ->
  (forall e, undisturbed (h e) (h0 e)) ->
  undisturbed (try_catch m h) (try_catch m0 h0).
Proof.
  intros Hm Hkeep Hh w Hw. unfold try_catch. rewrite (Hm w Hw).
  specialize (Hkeep w). destruct (m0 w) as [w1 [a|e]]; [reflexivity|].
  apply Hh. cbn [fst] in Hkeep. congruence.
Qed.

Lemma undisturbed_if {A : Type} (b : bool) (m1 m2 m1' m2' : Async A) :
  undisturbed m1 m1' -> undisturbed m2 m2' ->
  undisturbed (if b then m1 else m2) (if b then m1' else m2').
Proof. destruct b; auto. Qed.

Section Interference.

Variable env : Env.
Variable others : nat -> World -> World.
Hypothesis others_idle :
  forall t w, isRefreshAllMpArticlesRunning w = true -> others t w = w.

Let flag_framed := Framed_isRefreshAllMpArticlesRunning.

Lemma undisturbed_suspend : undisturbed (suspend others) (suspend alone).
Proof.
  intros w Hw. unfold suspend, alone. rewrite (others_idle _ _ Hw).
  reflexivity.
Qed.

Lemma undisturbed_d1 {A : Type} (stmt : Stmt) (run : World -> World * A) :
  undisturbed (d1 others stmt run) (d1 alone stmt run).
Proof.
  unfold d1. apply undisturbed_bind;
    [apply undisturbed_suspend|now apply keeps_suspend|].
  intros _. apply undisturbed_refl.
Qed.

Lemma undisturbed_sleep (ms : Z) :
  undisturbed (sleep others ms) (sleep alone ms).
Proof.
  unfold sleep. apply undisturbed_bind;
    [apply undisturbed_suspend|now apply keeps_suspend|].
  intros _. apply undisturbed_refl.
Qed.

Lemma undisturbed_fetchJson {A : Type} (request : Event)
    (reply : nat -> FetchResult A) :
  undisturbed (fetchJson others request reply)
    (fetchJson alone request reply).
Proof.
  unfold fetchJson. apply undisturbed_bind;
    [apply undisturbed_suspend|now apply keeps_suspend|].
  intros _. apply undisturbed_refl.
Qed.

Lemma undisturbed_getAvailableAccount :
  undisturbed (getAvailableAccount env others)
    (getAvailableAccount env alone).
Proof.
  unfold getAvailableAccount.
  apply undisturbed_bind;
    [apply undisturbed_refl|apply keeps_get|]. intros blocked.
  apply undisturbed_bind;
    [apply undisturbed_d1|now apply keeps_getAvailableAccounts|].
  intros accs. apply undisturbed_refl.
Qed.

Lemma undisturbed_updateAccount (id : string) (data : AccountPatch) :
  undisturbed (updateAccount env others id data)
    (updateAccount env alone id data).
Proof.
  unfold updateAccount, getAccountById.
  apply undisturbed_bind;
    [apply undisturbed_refl|apply keeps_get|]. intros now.
  apply undisturbed_bind;
    [apply undisturbed_d1|now apply keeps_d1|].
  intros _. apply undisturbed_d1.
Qed.

Lemma undisturbed_updateFeed (id : string) (data : FeedPatch) :
  undisturbed (updateFeed env others id data) (updateFeed env alone id data).
Proof.
  unfold updateFeed, getFeedById.
  apply undisturbed_bind;
    [apply undisturbed_refl|apply keeps_get|]. intros now.
  apply undisturbed_bind;
    [apply undisturbed_d1|now apply keeps_d1|].
  intros _. apply undisturbed_d1.
Qed.

Lemma undisturbed_upsertArticles (mpId : string)
    (arts : list ArticleSummary) :
  undisturbed (upsertArticles env others mpId arts)
    (upsertArticles env alone mpId arts).
Proof.
  unfold upsertArticles.
  apply undisturbed_bind;
    [apply undisturbed_refl|apply keeps_get|]. intros now.
  destruct arts; [apply undisturbed_refl|apply undisturbed_d1].
Qed.

Lemma undisturbed_handleAccountError (accountId msg : string) :
  undisturbed (handleAccountError env others accountId msg)
    (handleAccountError env alone accountId msg).
Proof.
  unfold handleAccountError.
  apply undisturbed_bind;
    [apply undisturbed_refl|apply keeps_get|]. intros today.
  apply undisturbed_bind;
    [apply undisturbed_refl|apply keeps_get|]. intros blockedAccounts.
  repeat apply undisturbed_if; try apply undisturbed_refl.
  apply undisturbed_bind;
    [apply undisturbed_updateAccount| |intros; apply undisturbed_refl].
  apply keeps_updateAccount; [assumption|]. intros v w. reflexivity.
Qed.

Lemma undisturbed_getMpArticles (mpId : string) (page : Z)
    (retryCount : nat) :
  undisturbed (getMpArticles env others mpId page retryCount)
    (getMpArticles env alone mpId page retryCount).
Proof.
  induction retryCount as [|n IH]; cbn [getMpArticles];
    (apply undisturbed_bind;
       [apply undisturbed_getAvailableAccount
       |now apply keeps_getAvailableAccount|]; intros account;
     apply undisturbed_try_catch;
       [apply undisturbed_fetchJson|now apply keeps_fetchJson|];
     intros error;
     apply undisturbed_bind;
       [apply undisturbed_handleAccountError
       |apply keeps_handleAccountError;
          [assumption|intros v w; reflexivity..]|]; intros _).
  - apply undisturbed_refl.
  - exact IH.
Qed.

Lemma undisturbed_refreshMpArticlesAndUpdateFeed (mpId : string) (page : Z) :
  undisturbed (refreshMpArticlesAndUpdateFeed env others mpId page)
    (refreshMpArticlesAndUpdateFeed env alone mpId page).
Proof.
  unfold refreshMpArticlesAndUpdateFeed.
  apply undisturbed_bind;
    [apply undisturbed_getMpArticles
    |apply keeps_getMpArticles; [assumption|intros v w; reflexivity..]|].
  intros arts. apply undisturbed_bind.
  - apply undisturbed_if;
      [apply undisturbed_upsertArticles|apply undisturbed_refl].
  - apply keeps_if; [|apply keeps_ret].
    apply keeps_upsertArticles; [assumption|]. intros v w. reflexivity.
  - intros _. apply undisturbed_bind;
      [apply undisturbed_refl|apply keeps_get|]. intros now.
    apply undisturbed_bind;
      [apply undisturbed_updateFeed| |intros; apply undisturbed_refl].
    apply keeps_updateFeed; [assumption|]. intros v w. reflexivity.
Qed.

Lemma keeps_flag_refreshMpArticlesAndUpdateFeed (mpId : string) (page : Z) :
  keeps isRefreshAllMpArticlesRunning
    (refreshMpArticlesAndUpdateFeed env alone mpId page).
Proof.
  apply keeps_refreshMpArticlesAndUpdateFeed;
    [assumption|intros v w; reflexivity..].
Qed.

Lemma undisturbed_refresh_each (feeds : list FeedRow) :
  undisturbed (refresh_each env others feeds) (refresh_each env alone feeds).
Proof.
  induction feeds as [|feed rest IH]; cbn [refresh_each];
    [apply undisturbed_refl|].
  apply undisturbed_bind;
    [apply undisturbed_refreshMpArticlesAndUpdateFeed
    |apply keeps_flag_refreshMpArticlesAndUpdateFeed|]. intros _.
  apply undisturbed_bind;
    [apply undisturbed_sleep|now apply keeps_sleep|]. intros _. exact IH.
Qed.

Lemma undisturbed_sweep :
  undisturbed
    (let* feeds := listAllFeeds others in refresh_each env others feeds)
    (let* feeds := listAllFeeds alone in refresh_each env alone feeds).
Proof.
  apply undisturbed_bind;
    [apply undisturbed_d1|now apply keeps_listAllFeeds|].
  intros feeds. apply undisturbed_refresh_each.
Qed.

End Interference.

Lemma refreshAll_running (env : Env) (others : nat -> World -> World)
    (w : World) :
  isRefreshAllMpArticlesRunning w = true ->
  refreshAllMpArticlesAndUpdateFeed env others w = (w, Resolved tt).
Proof.
  intros Hw. unfold refreshAllMpArticlesAndUpdateFeed, bind, get.
  rewrite Hw. reflexivity.
Qed.

Lemma refreshAll_starting (env : Env) (others : nat -> World -> World)
    (w : World) :
  isRefreshAllMpArticlesRunning w = false ->
  refreshAllMpArticlesAndUpdateFeed env others w =
  match (let* feeds := listAllFeeds others in refresh_each env others feeds)
          (set_isRefreshAllMpArticlesRunning true w) with
  | (w1, r) => (set_isRefreshAllMpArticlesRunning false w1, r)
  end.
Proof.
  intros Hw. unfold refreshAllMpArticlesAndUpdateFeed.
  unfold bind at 1, get. rewrite Hw. unfold bind at 1, modify.
  unfold try_finally. destruct (bind _ _ _) as [w1 r]. reflexivity.
Qed.

Lemma second_call_idle (env : Env) (calls : nat -> bool) (t : nat)
    (w : World) :
  isRefreshAllMpArticlesRunning w = true -> second_call env calls t w = w.
Proof.
  intros Hw. unfold second_call. destruct (calls t); [|reflexivity].
  now rewrite refreshAll_running.
Qed.

Lemma extends_refresh_each (env : Env) (feeds : list FeedRow) :
  extends (refresh_each env alone feeds).
Proof.
  induction feeds as [|feed rest IH]; cbn [refresh_each];
    [apply extends_ret|].
  apply extends_bind; [apply extends_refreshMpArticlesAndUpdateFeed|].
  intros _. apply extends_bind; [apply extends_sleep|]. intros _. exact IH.
Qed.

Example failed_sweep_clears_flag :
  snd (refreshAllMpArticlesAndUpdateFeed env0 alone one_feed)
  = Rejected bare_401
  /\ isRefreshAllMpArticlesRunning
       (fst (refreshAllMpArticlesAndUpdateFeed env0 alone one_feed)) = false.
Proof. by_evaluation. Qed.

Example second_calls_change_nothing :
  refreshAllMpArticlesAndUpdateFeed env_short_page
    (second_call env_short_page (fun _ => true)) one_feed
  = refreshAllMpArticlesAndUpdateFeed env_short_page alone one_feed
  /\ refreshAllMpArticlesAndUpdateFeed env_short_page alone
       (set_isRefreshAllMpArticlesRunning true one_feed)
     = (set_isRefreshAllMpArticlesRunning true one_feed, Resolved tt)
  /\ length (fetches (trace (fst (refreshAllMpArticlesAndUpdateFeed
                                    env_short_page alone one_feed))))
     = 1%nat.
Proof. by_evaluation. Qed.

(** C5: an invocation of [refreshAllMpArticlesAndUpdateFeed] that finds the
    running flag set returns at once and leaves the world as it is; the flag
    is set at every suspension point of a sweep, so further invocations
    started by the event loop while a sweep is suspended, at whatever
    points, change nothing: the run is the run of the one sweep alone. A
    sweep that starts lists the feeds, and when it ends, resolved or
    rejected, the flag is cleared, so the next invocation starts a sweep
    again. *)
Theorem C5_refreshAll_single_sweep (env : Env) :
  (forall others w,
      isRefreshAllMpArticlesRunning w = true ->
      refreshAllMpArticlesAndUpdateFeed env others w = (w, Resolved tt))
  /\ (forall calls w,
        isRefreshAllMpArticlesRunning w = false ->
        refreshAllMpArticlesAndUpdateFeed env (second_call env calls) w
        = refreshAllMpArticlesAndUpdateFeed env alone w)
  /\ (forall w,
        isRefreshAllMpArticlesRunning w = false ->
        (exists evs,
           trace (fst (refreshAllMpArticlesAndUpdateFeed env alone w))
           = trace w ++ EvD1 SelectAllFeeds :: evs)
        /\ isRefreshAllMpArticlesRunning
             (fst (refreshAllMpArticlesAndUpdateFeed env alone w)) = false)
  /\ (forall e w,
        isRefreshAllMpArticlesRunning w = false ->
        snd (refreshAllMpArticlesAndUpdateFeed env alone w) = Rejected e ->
        exists evs,
          trace (fst (refreshAllMpArticlesAndUpdateFeed env alone
                        (fst (refreshAllMpArticlesAndUpdateFeed env alone w))))
          = trace (fst (refreshAllMpArticlesAndUpdateFeed env alone w))
            ++ EvD1 SelectAllFeeds :: evs).
Proof.
  assert (Hstart : forall w,
    isRefreshAllMpArticlesRunning w = false ->
    (exists evs,
       trace (fst (refreshAllMpArticlesAndUpdateFeed env alone w))
       = trace w ++ EvD1 SelectAllFeeds :: evs)
    /\ isRefreshAllMpArticlesRunning
         (fst (refreshAllMpArticlesAndUpdateFeed env alone w)) = false).
  { intros w Hw. rewrite (refreshAll_starting env alone w Hw).
    unfold bind. change (listAllFeeds alone ?w0)
      with (emit (EvD1 SelectAllFeeds) (set_tick (S (tick w0)) w0),
            Resolved (feeds w0)).
    cbv iota beta.
    match goal with |- context [refresh_each env alone ?fs ?w1] =>
      destruct (extends_refresh_each env fs w1) as [evs Hevs];
      destruct (refresh_each env alone fs w1) as [w2 r] end.
    cbn [fst] in *. split; [|reflexivity].
    exists evs. cbn [trace set_isRefreshAllMpArticlesRunning].
    rewrite Hevs. cbn [trace emit set_tick set_isRefreshAllMpArticlesRunning].
    rewrite <- List.app_assoc. reflexivity. }
  split; [apply refreshAll_running|]. split; [|split; [exact Hstart|]].
  - intros calls w Hw. rewrite !refreshAll_starting by exact Hw.
    rewrite (undisturbed_sweep env (second_call env calls)
               (second_call_idle env calls)); reflexivity.
  - intros e w Hw _. apply Hstart. apply Hstart. exact Hw.
Qed.

(** ** The re-authentication poll loop *)

Lemma World_eq (w1 w2 : World) :
  accounts w1 = accounts w2 -> feeds w1 = feeds w2 ->
  articles w1 = articles w2 ->
  blockedAccountsMap w1 = blockedAccountsMap w2 ->
  inProgressHistoryMp w1 = inProgressHistoryMp w2 ->
  isRefreshAllMpArticlesRunning w1 = isRefreshAllMpArticlesRunning w2 ->
  tick w1 = tick w2 -> trace w1 = trace w2 -> w1 = w2.
Proof. destruct w1, w2. cbn. intros. congruence. Qed.

Lemma first_decisive_ext (f g : nat -> Verdict) (n : nat) :
  (forall j, f j = g j) -> first_decisive f n = first_decisive g n.
Proof.
  revert f g. induction n as [|n IH]; intros f g H; [reflexivity|].
  cbn [first_decisive]. rewrite (H 0%nat).
  destruct (g 0%nat); try reflexivity.
  f_equal. apply IH. intros j. apply H.
Qed.

Lemma first_decisive_bound (f : nat -> Verdict) (n k : nat) (v : Verdict) :
  first_decisive f n = Some (k, v) ->
  (k < n)%nat /\ f k = v /\ v <> Waiting /\ forall j, (j < k)%nat ->
                                                     f j = Waiting.
Proof.
  revert f k. induction n as [|n IH]; intros f k H; [discriminate|].
  cbn [first_decisive] in H. destruct (f 0%nat) eqn:E0.
  - destruct (first_decisive (fun j => f (S j)) n) as [[k' v']|] eqn:E;
      [|discriminate].
    cbn in H. injection H as <- <-.
    destruct (IH _ _ E) as (Hk & Hv & Hne & Hw).
    split; [lia|]. split; [exact Hv|]. split; [exact Hne|].
    intros [|j] Hj; [exact E0|]. apply Hw. lia.
  - injection H as <- <-. repeat split; try lia; try congruence.
  - injection H as <- <-. repeat split; try lia; try congruence.
  - injection H as <- <-. repeat split; try lia; try congruence.
Qed.

Lemma first_decisive_none (f : nat -> Verdict) (n : nat) :
  first_decisive f n = None -> forall j, (j < n)%nat -> f j = Waiting.
Proof.
  revert f. induction n as [|n IH]; intros f H j Hj; [lia|].
  cbn [first_decisive] in H. destruct (f 0%nat) eqn:E0; try discriminate.
  destruct (first_decisive (fun j => f (S j)) n) eqn:E; [discriminate|].
  destruct j as [|j]; [exact E0|]. apply (IH _ E). lia.
Qed.

Lemma getLoginResult_run (env : Env) (loginId : string) (w : World) :
  getLoginResult env alone loginId w =
  (polled loginId w,
   response_outcome (platform_login_result env (S (tick w)) loginId)).
Proof. reflexivity. Qed.

Lemma flat_map_const {A C : Type} (b : list C) (l1 l2 : list A) :
  length l1 = length l2 ->
  flat_map (fun _ => b) l1 = flat_map (fun _ => b) l2.
Proof.
  revert l2. induction l1 as [|x l1 IH]; intros [|y l2] H;
    try discriminate; [reflexivity|].
  cbn [flat_map]. f_equal. apply IH. now injection H.
Qed.

Lemma waited_0 (loginId : string) (w : World) : waited loginId 0 w = w.
Proof.
  apply World_eq; try reflexivity; cbn.
  - lia.
  - apply List.app_nil_r.
Qed.

Lemma waited_S (loginId : string) (k : nat) (w : World) :
  waited loginId k
    (emit (EvSleep 5000) (set_tick (S (S (tick w))) (polled loginId w)))
  = waited loginId (S k) w.
Proof.
  apply World_eq; try reflexivity.
  - cbn [tick waited set_tick emit emit_all polled]. lia.
  - cbn [trace waited set_tick emit emit_all polled].
    rewrite <- !List.app_assoc. f_equal.
    rewrite <- cons_seq. cbn [flat_map app]. f_equal. f_equal.
    apply flat_map_const. now rewrite !length_seq.
Qed.

Lemma poll_at_S (env : Env) (loginId : string) (j : nat) (w : World) :
  poll_at env
    (emit (EvSleep 5000) (set_tick (S (S (tick w))) (polled loginId w)))
    loginId j
  = poll_at env w loginId (S j).
Proof.
  unfold poll_at. cbn [tick set_tick emit polled]. f_equal. lia.
Qed.

Lemma poll_login_spec (env : Env) (id name loginId : string) (n : nat)
    (w : World) :
  poll_login env alone id name loginId n w =
  match first_decisive (fun j => verdict id (poll_at env w loginId j)) n with
  | None => (waited loginId n w, Resolved tt)
  | Some (k, v) =>
      poll_end env id name v (polled loginId (waited loginId k w))
  end.
Proof.
  revert w. induction n as [|n IH]; intros w.
  { cbn. now rewrite waited_0. }
  cbn [poll_login first_decisive]. unfold bind at 1.
  rewrite getLoginResult_run. unfold verdict at 1, poll_at at 1.
  replace (tick w + 2 * 0 + 1)%nat with (S (tick w)) by lia.
  destruct (response_outcome _) as [[r|]|e].
  3: { cbn. now rewrite waited_0. }
  2: { cbn [field truthy_number truthy_string andb].
       change ((sleep alone (5 * 1000)
                >> poll_login env alone id name loginId n)
                 (polled loginId w))
         with (poll_login env alone id name loginId n
                 (emit (EvSleep 5000)
                    (set_tick (S (S (tick w))) (polled loginId w)))).
       rewrite IH.
       rewrite (first_decisive_ext _
                  (fun j => verdict id (poll_at env w loginId (S j))))
         by (intros j; now rewrite poll_at_S).
       destruct (first_decisive _ n) as [[k v]|]; cbn [option_map fst snd];
         now rewrite waited_S. }
  cbn [field].
  destruct (truthy_number (lr_vid r) && truthy_string (lr_token r)).
  - destruct (String.eqb _ id); cbn [poll_end]; rewrite waited_0;
      [|reflexivity].
    unfold recovered, recovery_patch. destruct (bind _ _ _) as [w1 [[]|e]] eqn:E;
      [reflexivity|].
    exfalso. revert E. unfold updateAccount, getAccountById, d1, suspend,
      removeBlockedAccount, bind, get, modify, alone. discriminate.
  - change ((sleep alone (5 * 1000) >> poll_login env alone id name loginId n)
              (polled loginId w))
      with (poll_login env alone id name loginId n
              (emit (EvSleep 5000)
                 (set_tick (S (S (tick w))) (polled loginId w)))).
    rewrite IH.
    rewrite (first_decisive_ext _
               (fun j => verdict id (poll_at env w loginId (S j))))
      by (intros j; now rewrite poll_at_S).
    destruct (first_decisive _ n) as [[k v]|]; cbn [option_map fst snd];
      now rewrite waited_S.
Qed.

Lemma polls_waited (loginId : string) (l : list nat) :
  length (List.filter is_poll
            (flat_map (fun _ => [EvFetchLoginResult loginId; EvSleep 5000])
               l)) = length l.
Proof. induction l as [|x l IH]; cbn; congruence. Qed.

Lemma recovered_run (env : Env) (id name : string) (r : LoginResult)
    (w : World) :
  recovered env id name r w =
  let w2 :=
    emit (EvD1 (SelectAccountById id))
      (set_tick (S (S (tick w)))
         (set_accounts
            (sql_updateAccount id (recovery_patch name r) (nowMs env w)
               (accounts w))
            (emit (EvD1 (UpdateAccount id)) (set_tick (S (tick w)) w)))) in
  match blockedAccountsMap w !! getTodayDate env w2 with
  | Some blockedAccounts =>
      set_blockedAccountsMap
        (<[getTodayDate env w2 :=
             List.filter (fun item => negb (String.eqb item id))
               blockedAccounts]> (blockedAccountsMap w)) w2
  | None => w2
  end.
Proof. reflexivity. Qed.

Lemma not_In_filter_neq (id : string) (l : list string) :
  ~ In id (List.filter (fun item => negb (String.eqb item id)) l).
Proof.
  intros H. apply filter_In in H as [_ H]. now rewrite String.eqb_refl in H.
Qed.

Example login_42_recovers_42_only :
  map (fun a => (acc_id a, acc_token a, acc_status a))
    (accounts (fst (tryRefreshAccountFromLogin env_login_42 alone "42"
                      "reader" "uuid" two_invalid)))
  = [("42", "abc", statusMap.ENABLE); ("7", "old", statusMap.INVALID)]
  /\ blockedToday env_login_42
       (fst (tryRefreshAccountFromLogin env_login_42 alone "42" "reader"
               "uuid" two_invalid)) = ["7"]
  /\ length (List.filter is_poll
               (trace (fst (tryRefreshAccountFromLogin env_login_42 alone
                              "42" "reader" "uuid" two_invalid)))) = 6%nat
  /\ accounts (fst (tryRefreshAccountFromLogin env_login_42 alone "7"
                      "reader" "uuid" two_invalid))
     = accounts two_invalid
  /\ blockedAccountsMap
       (fst (tryRefreshAccountFromLogin env_login_42 alone "7" "reader"
               "uuid" two_invalid))
     = blockedAccountsMap two_invalid.
Proof. by_evaluation. Qed.

(** C7: [tryRefreshAccountFromLogin] polls the login result at most sixty
    times and pauses five seconds after every poll that brought neither an
    identity nor a token. The first poll that brings both (truthy) ends the
    loop: when the identity, printed, is the id of the account, the
    account's token is replaced by the new one, its status becomes ENABLE
    and its id is taken off today's list; when it is another identity
    nothing but the trace and the clock has changed. A poll that throws is
    logged with [console.error] and ends the attempt, the accounts and the
    blocklist untouched. The call never rejects. *)
Theorem C7_tryRefreshAccountFromLogin (env : Env) (id name loginId : string)
    (w : World) :
  let run := tryRefreshAccountFromLogin env alone id name loginId w in
  let verdicts := fun j => verdict id (poll_at env w loginId j) in
  snd run = Resolved tt
  /\ (exists evs,
        trace (fst run) = trace w ++ evs
        /\ (length (List.filter is_poll evs) <= 60)%nat)
  /\ match first_decisive verdicts 60 with
     | None => fst run = waited loginId 60 w
     | Some (k, Waiting) => False
     | Some (k, PollFailed e) =>
         fst run
         = emit (EvConsoleError
                   ("[account-check] failed to refresh account from login: "
                    +:+ message e))
             (polled loginId (waited loginId k w))
     | Some (k, OtherIdentity) =>
         fst run = polled loginId (waited loginId k w)
     | Some (k, Recovered r) =>
         let w1 := polled loginId (waited loginId k w) in
         truthy_string (lr_token r) = true
         /\ show_number (default 0%Z (lr_vid r)) = id
         /\ accounts (fst run)
            = sql_updateAccount id (recovery_patch name r) (nowMs env w1)
                (accounts w)
         /\ (forall a, In a (accounts (fst run)) -> acc_id a = id ->
               Some (acc_token a) = lr_token r
               /\ acc_status a = statusMap.ENABLE)
         /\ (forall a, acc_id a <> id ->
               (In a (accounts (fst run)) <-> In a (accounts w)))
         /\ blockedToday env (fst run)
            = List.filter (fun item => negb (String.eqb item id))
                (default [] (blockedAccountsMap w
                             !! getTodayDate env (fst run)))
         /\ ~ In id (blockedToday env (fst run))
         /\ (forall d, d <> getTodayDate env (fst run) ->
               blockedAccountsMap (fst run) !! d = blockedAccountsMap w !! d)
     end
  /\ ((forall k r, first_decisive verdicts 60 <> Some (k, Recovered r)) ->
      accounts (fst run) = accounts w
      /\ blockedAccountsMap (fst run) = blockedAccountsMap w).
Proof.
  cbv zeta. unfold tryRefreshAccountFromLogin, try_catch.
  rewrite poll_login_spec.
  destruct (first_decisive _ 60) as [[k v]|] eqn:Efd.
  2: { cbn [fst snd]. split; [reflexivity|]. split.
       - eexists. split; [reflexivity|]. rewrite polls_waited, length_seq.
         lia.
       - split; [reflexivity|]. intros _. split; reflexivity. }
  destruct (first_decisive_bound _ _ _ _ Efd) as (Hk & Hv & Hne & _).
  destruct v as [|e| |r]; [congruence|..]; cbn [poll_end fst snd].
  - split; [reflexivity|]. split.
    + eexists. split.
      * cbn [console_error modify fst trace emit polled waited set_tick
               emit_all]. rewrite <- !List.app_assoc. reflexivity.
      * rewrite !List.filter_app, !List.length_app, polls_waited, length_seq.
        cbn. lia.
    + split; [reflexivity|]. intros _. split; reflexivity.
  - split; [reflexivity|]. split.
    + eexists. split.
      * cbn [fst trace emit polled waited set_tick emit_all].
        rewrite <- !List.app_assoc. reflexivity.
      * rewrite !List.filter_app, !List.length_app, polls_waited, length_seq.
        cbn. lia.
    + split; [reflexivity|]. intros _. split; reflexivity.
  - assert (Htruthy : truthy_string (lr_token r) = true
                      /\ show_number (default 0%Z (lr_vid r)) = id).
    { revert Hv. unfold verdict.
      destruct (response_outcome _) as [[r'|]|e']; [|discriminate..].
      destruct (truthy_number (lr_vid r')); [|discriminate].
      destruct (truthy_string (lr_token r')) eqn:Et; [|discriminate].
      cbn [andb]. destruct (String.eqb_spec
                              (show_number (default 0%Z (lr_vid r'))) id);
        [|discriminate].
      intros [= <-]. split; assumption. }
    rewrite recovered_run. cbv zeta.
    set (w1 := polled loginId (waited loginId k w)).
    set (w2 := emit _ _).
    assert (Hacc : forall wf,
      accounts wf = accounts w2 ->
      (forall a, In a (accounts wf) -> acc_id a = id ->
         Some (acc_token a) = lr_token r /\ acc_status a = statusMap.ENABLE)
      /\ (forall a, acc_id a <> id ->
            (In a (accounts wf) <-> In a (accounts w)))).
    { intros wf ->. subst w2. cbn [accounts emit set_tick set_accounts].
      change (accounts w1) with (accounts w). split.
      - intros a Hin Hid. unfold sql_updateAccount in Hin.
        apply in_map_iff in Hin as (a0 & Ha & _).
        destruct (String.eqb_spec (acc_id a0) id) as [E|E];
          [|subst a; contradiction].
        subst a. cbn [patch_account acc_token acc_status recovery_patch
                        p_token p_status default].
        destruct Htruthy as [Ht _].
        destruct (lr_token r) as [tok|]; [|discriminate]. now split.
      - intros a Hna. now apply sql_updateAccount_others. }
    assert (Htrace : trace w2
                     = trace w
                       ++ (flat_map (fun _ => [EvFetchLoginResult loginId;
                                               EvSleep 5000]) (seq 0 k)
                           ++ [EvFetchLoginResult loginId;
                               EvD1 (UpdateAccount id);
                               EvD1 (SelectAccountById id)])).
    { subst w2 w1. cbn [trace emit polled waited set_tick emit_all
                          set_accounts].
      rewrite <- !List.app_assoc. reflexivity. }
    assert (Hpolls : (length (List.filter is_poll
                        (flat_map (fun _ => [EvFetchLoginResult loginId;
                                             EvSleep 5000]) (seq 0 k)
                         ++ [EvFetchLoginResult loginId;
                             EvD1 (UpdateAccount id);
                             EvD1 (SelectAccountById id)])) <= 60)%nat).
    { rewrite List.filter_app, List.length_app, polls_waited, length_seq.
      cbn. lia. }
    change (blockedAccountsMap w1) with (blockedAccountsMap w).
    destruct (blockedAccountsMap w !! getTodayDate env w2) as [l|] eqn:El.
    + split; [reflexivity|]. split; [eexists; split; [exact Htrace|exact Hpolls]|].
      split.
      * split; [apply Htruthy|]. split; [apply Htruthy|].
        split; [reflexivity|].
        split; [apply (Hacc _ eq_refl)|]. split; [apply (Hacc _ eq_refl)|].
        unfold blockedToday.
        change (getTodayDate env (set_blockedAccountsMap _ w2))
          with (getTodayDate env w2).
        cbn [blockedAccountsMap set_blockedAccountsMap].
        rewrite lookup_insert_eq, El. cbn [default].
        split; [reflexivity|]. split; [apply not_In_filter_neq|].
        intros d Hd. now rewrite lookup_insert_ne.
      * intros Hno. exfalso. exact (Hno _ _ eq_refl).
    + split; [reflexivity|]. split; [eexists; split; [exact Htrace|exact Hpolls]|].
      split.
      * split; [apply Htruthy|]. split; [apply Htruthy|].
        split; [reflexivity|].
        split; [apply (Hacc _ eq_refl)|]. split; [apply (Hacc _ eq_refl)|].
        unfold blockedToday.
        change (blockedAccountsMap w2) with (blockedAccountsMap w).
        rewrite El. cbn [default List.filter].
        split; [reflexivity|]. split; [intros []|]. reflexivity.
      * intros Hno. exfalso. exact (Hno _ _ eq_refl).
Qed.

(** ** The health probe *)

Lemma checkAccountValidity_run (env : Env) (accountId token : string)
    (w : World) :
  checkAccountValidity env alone accountId token w =
  (emit (EvFetchArticles accountId token (testMpId_of w) 1)
     (set_tick (S (S (tick w)))
        (emit (EvD1 SelectEnabledFeeds) (set_tick (S (tick w)) w))),
   Resolved
     match response_outcome (probe_reply env accountId token w) with
     | Resolved _ => true
     | Rejected error =>
         negb (bool_decide (status error = Some 401%Z)
               || includes (js_or (data_message error) "") "WeReadError401")
     end).
Proof.
  unfold checkAccountValidity, try_catch, listEnabledFeeds, fetchJson, d1,
    suspend, bind, alone, ret, probe_reply, testMpId_of.
  cbn [fst snd tick set_tick emit feeds].
  destruct (response_outcome _) as [l|error]; [reflexivity|].
  destruct (bool_decide (status error = Some 401%Z)
            || includes (js_or (data_message error) "") "WeReadError401");
    [reflexivity|].
  destruct (bool_decide (status error = Some 404%Z)); reflexivity.
Qed.

(** C8: [checkAccountValidity] always resolves, and it resolves to [false]
    ("invalid") exactly when the probe got an HTTP response that is not ok
    and that has status 401 or a body message containing WeReadError401.
    A 404 without the marker, any other status without the marker, a
    rejected [fetch] and an ok response all give [true] ("still valid"). *)
Theorem C8_checkAccountValidity (env : Env) (accountId token : string)
    (w : World) :
  let run := checkAccountValidity env alone accountId token w in
  let reply := probe_reply env accountId token w in
  exists valid,
    snd run = Resolved valid
    /\ (valid = false <->
        exists st msg body,
          reply = HttpResponse st msg body
          /\ res_ok st = false
          /\ (st = 401%Z
              \/ includes (js_or msg "") "WeReadError401" = true))
    /\ (forall msg, reply = NetworkError msg -> valid = true)
    /\ (forall st msg body,
          reply = HttpResponse st msg body -> res_ok st = true ->
          valid = true)
    /\ (forall st msg body,
          reply = HttpResponse st msg body -> st <> 401%Z ->
          includes (js_or msg "") "WeReadError401" = false ->
          valid = true)
    /\ (forall msg body,
          reply = HttpResponse 404 msg body ->
          includes (js_or msg "") "WeReadError401" = false ->
          valid = true).
Proof.
  cbv zeta. rewrite checkAccountValidity_run. cbn [snd].
  eexists. split; [reflexivity|].
  assert (Hmain :
    match response_outcome (probe_reply env accountId token w) with
    | Resolved _ => true
    | Rejected error =>
        negb (bool_decide (status error = Some 401%Z)
              || includes (js_or (data_message error) "") "WeReadError401")
    end = false <->
    exists st msg body,
      probe_reply env accountId token w = HttpResponse st msg body
      /\ res_ok st = false
      /\ (st = 401%Z \/ includes (js_or msg "") "WeReadError401" = true)).
  { destruct (probe_reply env accountId token w) as [m|st msg body];
      cbn [response_outcome Error_of status data_message].
    - split; [cbn; discriminate|]. intros (? & ? & ? & H & _). discriminate.
    - destruct (res_ok st) eqn:Eok;
        cbn [status data_message].
      + split; [discriminate|].
        intros (st' & msg' & body' & [= <- <- <-] & H & _). congruence.
      + rewrite negb_false_iff, orb_true_iff, bool_decide_eq_true. split.
        * intros [H|H]; exists st, msg, body;
            (split; [reflexivity|split; [exact Eok|]]).
          -- left. congruence.
          -- now right.
        * intros (st' & msg' & body' & [= <- <- <-] & _ & [->|H]);
            [now left|now right]. }
  split; [exact Hmain|].
  split; [|split; [|split]].
  - intros msg Hr. rewrite Hr. reflexivity.
  - intros st msg body Hr Hok. rewrite Hr. cbn [response_outcome].
    rewrite Hok. reflexivity.
  - intros st msg body Hr Hst Hmsg.
    apply not_false_iff_true. rewrite Hmain.
    intros (st' & msg' & body' & Hr' & _ & Hc).
    rewrite Hr in Hr'. injection Hr' as E1 E2 E3. subst st' msg' body'.
    destruct Hc; congruence.
  - intros msg body Hr Hmsg.
    apply not_false_iff_true. rewrite Hmain.
    intros (st' & msg' & body' & Hr' & _ & Hc).
    rewrite Hr in Hr'. injection Hr' as E1 E2 E3. subst st' msg' body'.
    destruct Hc; congruence.
Qed.

(** ** Article upsert *)

Lemma sql_upsertArticle_spec (new : ArticleRow) (tbl : list ArticleRow) :
  List.NoDup (map art_id tbl) ->
  List.filter (has_id (art_id new)) (sql_upsertArticle new tbl)
  = [match List.find (has_id (art_id new)) tbl with
     | Some old => on_conflict_update new old
     | None => new
     end]
  /\ List.filter (fun r => negb (has_id (art_id new) r))
       (sql_upsertArticle new tbl)
     = List.filter (fun r => negb (has_id (art_id new) r)) tbl
  /\ List.NoDup (map art_id (sql_upsertArticle new tbl)).
Proof.
  unfold has_id. induction tbl as [|old tbl IH]; intros Hnd.
  { cbn. rewrite String.eqb_refl. cbn. split; [reflexivity|].
    split; [reflexivity|]. constructor; [intros Hin; inversion Hin|].
    constructor. }
  cbn [map] in Hnd. apply List.NoDup_cons_iff in Hnd as [Hnotin Hnd].
  cbn [sql_upsertArticle List.find].
  destruct (String.eqb_spec (art_id old) (art_id new)) as [E|E].
  - assert (Hnone : forall r, In r tbl ->
                      String.eqb (art_id r) (art_id new) = false).
    { intros r Hr. apply String.eqb_neq. intros Er. apply Hnotin.
      rewrite E, <- Er. now apply in_map. }
    cbn [List.filter on_conflict_update art_id]. rewrite E, String.eqb_refl.
    cbn [negb]. rewrite (filter_none _ tbl Hnone). split; [reflexivity|].
    split; [reflexivity|].
    cbn [map on_conflict_update art_id]. constructor; assumption.
  - destruct (IH Hnd) as (H1 & H2 & H3).
    cbn [List.filter]. apply String.eqb_neq in E. rewrite E. cbn [negb].
    split; [exact H1|]. split; [now rewrite H2|].
    cbn [map]. constructor; [|exact H3]. intros Hin.
    apply in_map_iff in Hin as (r & Hr & Hin).
    assert (Hr' : List.filter (fun x => negb (String.eqb (art_id x) (art_id new)))
                    (sql_upsertArticle new tbl) = 
                  List.filter (fun x => negb (String.eqb (art_id x) (art_id new)))
                    tbl) by exact H2.
    assert (Hin' : In r (List.filter
                          (fun x => negb (String.eqb (art_id x) (art_id new)))
                          (sql_upsertArticle new tbl))).
    { apply filter_In. split; [exact Hin|]. rewrite Hr. now rewrite E. }
    rewrite Hr' in Hin'. apply filter_In in Hin' as [Hin' _].
    apply Hnotin. rewrite <- Hr. now apply in_map.
Qed.

Lemma articles_upsert_one (env : Env) (mpId : string) (a : ArticleSummary)
    (w : World) :
  articles (fst (upsertArticles env alone mpId [a] w))
  = sql_upsertArticle (excluded mpId (nowMs env w) a) (articles w).
Proof. reflexivity. Qed.

(** C9: upserting an article whose id is already stored rewrites that row
    with the new title, picture URL, publish time and owning feed and the
    new [updated_at] (its [created_at] stays), and adds no row; upserting a
    new id adds one row. So after two upserts of the same id there is
    exactly one row with that id, it carries the values of the second
    upsert, the rows of the other ids are as before and the ids of the
    table are still pairwise distinct. *)
Theorem C9_upsertArticles_twice (env : Env) (mpId1 mpId2 : string)
    (a1 a2 : ArticleSummary) (w : World) :
  List.NoDup (map art_id (articles w)) ->
  s_id a1 = s_id a2 ->
  let w1 := fst (upsertArticles env alone mpId1 [a1] w) in
  let w2 := fst (upsertArticles env alone mpId2 [a2] w1) in
  (exists stored,
      List.filter (has_id (s_id a1)) (articles w1) = [stored]
      /\ List.filter (has_id (s_id a2)) (articles w2)
         = [ {| art_id := s_id a2; art_mp_id := mpId2;
                art_title := s_title a2; art_pic_url := s_picUrl a2;
                art_publish_time := s_publishTime a2;
                art_created_at := art_created_at stored;
                art_updated_at := nowMs env w1 |} ]
      /\ art_title stored = s_title a1
      /\ art_created_at stored
         = match List.find (has_id (s_id a1)) (articles w) with
           | Some old => art_created_at old
           | None => nowMs env w
           end)
  /\ List.filter (fun r => negb (has_id (s_id a2) r)) (articles w2)
     = List.filter (fun r => negb (has_id (s_id a2) r)) (articles w)
  /\ List.NoDup (map art_id (articles w2)).
Proof.
  intros Hnd Hid. cbv zeta. rewrite !articles_upsert_one.
  set (new1 := excluded mpId1 (nowMs env w) a1).
  set (w1 := fst (upsertArticles env alone mpId1 [a1] w)).
  set (new2 := excluded mpId2 (nowMs env w1) a2).
  destruct (sql_upsertArticle_spec new1 (articles w) Hnd) as (F1 & O1 & N1).
  destruct (sql_upsertArticle_spec new2 _ N1) as (F2 & O2 & N2).
  change (art_id new1) with (s_id a1) in *.
  change (art_id new2) with (s_id a2) in *.
  split; [|split; [|exact N2]].
  - eexists. split; [exact F1|]. rewrite F2.
    assert (Hfind : List.find (has_id (s_id a2))
                      (sql_upsertArticle new1 (articles w))
                    = head (List.filter (has_id (s_id a1))
                              (sql_upsertArticle new1 (articles w)))).
    { rewrite Hid. generalize (sql_upsertArticle new1 (articles w)).
      intros l. induction l as [|x l IH]; [reflexivity|]. cbn.
      destruct (has_id (s_id a2) x); [reflexivity|exact IH]. }
    rewrite Hfind, F1. cbn [head].
    destruct (List.find (has_id (s_id a1)) (articles w)) as [old|] eqn:Eold.
    + apply find_some in Eold as [_ Eold]. unfold has_id in Eold.
      apply String.eqb_eq in Eold.
      split; [|split; reflexivity]. subst new1 new2.
      unfold on_conflict_update, excluded.
      cbn [art_id art_mp_id art_title art_pic_url art_publish_time
             art_created_at art_updated_at].
      rewrite Eold, Hid. reflexivity.
    + split; [|split; reflexivity]. subst new1 new2.
      unfold on_conflict_update, excluded.
      cbn [art_id art_mp_id art_title art_pic_url art_publish_time
             art_created_at art_updated_at].
      rewrite Hid. reflexivity.
  - rewrite O2. rewrite <- Hid. exact O1.
Qed.

(** The two upserts of the same id on the empty table. *)
Lemma C9_upsertArticles_twice_witness :
  List.NoDup (map art_id (articles world0))
  /\ s_id first_version = s_id second_version
  /\ s_title first_version <> s_title second_version
  /\ map art_title
       (articles
          (fst (upsertArticles env0 alone "mp" [second_version]
                  (fst (upsertArticles env0 alone "mp" [first_version]
                          world0)))))
     = ["second title"]
  /\ List.NoDup
       (map art_id
          (articles
             (fst (upsertArticles env0 alone "mp" [second_version]
                     (fst (upsertArticles env0 alone "mp" [first_version]
                             world0)))))).
Proof.
  split; [constructor|]. split; [reflexivity|]. split; [discriminate|].
  split; [reflexivity|].
  apply (C9_upsertArticles_twice env0 "mp" "mp" first_version second_version
           world0); [constructor|reflexivity].
Defined.

(** ** Feed generation *)

Lemma normalize_type_known (type : string) :
  In type feedTypes -> normalize_type type = type.
Proof.
  intros Hin. unfold normalize_type.
  assert (E : existsb (String.eqb type) feedTypes = true).
  { apply existsb_exists. exists type. split; [exact Hin|].
    apply String.eqb_refl. }
  now rewrite E.
Qed.

Lemma normalize_type_unknown (type : string) :
  ~ In type feedTypes -> normalize_type type = "atom".
Proof.
  intros Hnin. unfold normalize_type.
  destruct (existsb (String.eqb type) feedTypes) eqn:E; [|reflexivity].
  apply existsb_exists in E as (x & Hx & Ex). apply String.eqb_eq in Ex.
  subst x. contradiction.
Qed.

Lemma normalize_type_idem (type : string) :
  normalize_type (normalize_type type) = normalize_type type.
Proof.
  unfold normalize_type.
  destruct (existsb (String.eqb type) feedTypes) eqn:E.
  - now rewrite E.
  - reflexivity.
Qed.

Lemma handleGenerateFeed_normalized (env : Env) (opts : GenerateOpts) :
  handleGenerateFeed env alone opts
  = handleGenerateFeed env alone (with_type (normalize_type (o_type opts)) opts).
Proof.
  unfold handleGenerateFeed.
  cbn [with_type o_id o_type o_limit o_page o_mode o_title_include
         o_title_exclude].
  change (if existsb (String.eqb (normalize_type (o_type opts))) feedTypes
          then normalize_type (o_type opts) else "atom")
    with (normalize_type (normalize_type (o_type opts))).
  rewrite normalize_type_idem. reflexivity.
Qed.

Lemma resolves_ret {A : Type} (a : A) : resolves (ret a).
Proof. intros w. eexists; eexists; reflexivity. Qed.

Lemma resolves_get {A : Type} (f : World -> A) : resolves (get f).
Proof. intros w. eexists; eexists; reflexivity. Qed.

Lemma resolves_bind {A C : Type} (m : Async A) (k : A -> Async C) :
  resolves m -> (forall a, resolves (k a)) -> resolves (bind m k).
Proof.
  intros Hm Hk w. unfold bind. destruct (Hm w) as (w1 & a & ->).
  apply Hk.
Qed.

Lemma resolves_d1 {A : Type} (stmt : Stmt) (run : World -> World * A) :
  resolves (d1 alone stmt run).
Proof.
  intros w. unfold d1, bind, suspend. cbv iota beta.
  destruct (run _) as [w1 a]. eexists; eexists; reflexivity.
Qed.

Lemma resolves_tryGetContent (env : Env) (id : string) :
  resolves (tryGetContent env alone id).
Proof. intros w. eexists; eexists; reflexivity. Qed.

Lemma resolves_render_items (env : Env) (feeds : list FeedRow)
    (enableFullText showAuthor : bool) (arts : list ArticleRow) :
  resolves (render_items env alone feeds enableFullText showAuthor arts).
Proof.
  induction arts as [|item rest IH]; cbn [render_items];
    [apply resolves_ret|].
  apply resolves_bind.
  { destruct enableFullText;
      [apply resolves_tryGetContent|apply resolves_ret]. }
  intros content. apply resolves_bind; [exact IH|]. intros items.
  apply resolves_ret.
Qed.

Lemma resolves_renderFeed (env : Env) (type : string) (feedInfo : FeedRow)
    (arts : list ArticleRow) (mode : option string) :
  resolves (renderFeed env alone type feedInfo arts mode).
Proof.
  unfold renderFeed. apply resolves_bind; [apply resolves_d1|].
  intros feeds. apply resolves_bind; [apply resolves_render_items|].
  intros items. apply resolves_ret.
Qed.

Lemma handleGenerateFeed_outcome (env : Env) (opts : GenerateOpts)
    (w : World) :
  match snd (handleGenerateFeed env alone opts w) with
  | Rejected e =>
      e = Error_of "不存在该feed"
      /\ truthy_string (o_id opts) = true
      /\ List.find (fun r => String.eqb (feed_id r) (default "" (o_id opts)))
           (feeds w) = None
  | Resolved (content, mime) =>
      mime = feedMimeTypeMap (normalize_type (o_type opts))
      /\ exists feed,
           content = renderer env (normalize_type (o_type opts)) feed
  end.
Proof.
  unfold handleGenerateFeed. cbv zeta.
  change (if existsb (String.eqb (o_type opts)) feedTypes
          then o_type opts else "atom")
    with (normalize_type (o_type opts)).
  set (type := normalize_type (o_type opts)).
  assert (Hfinal : forall (feed : FeedDoc) (w0 : World),
    match snd ((if String.eqb type "rss"
                then ret (feed_rss2 env feed, feedMimeTypeMap type)
                else if String.eqb type "json"
                then ret (feed_json1 env feed, feedMimeTypeMap type)
                else ret (feed_atom1 env feed, feedMimeTypeMap type)) w0) with
    | Rejected e =>
        e = Error_of "不存在该feed"
        /\ truthy_string (o_id opts) = true
        /\ List.find
             (fun r => String.eqb (feed_id r) (default "" (o_id opts)))
             (feeds w) = None
    | Resolved (content, mime) =>
        mime = feedMimeTypeMap type
        /\ exists feed0, content = renderer env type feed0
    end).
  { intros feed w0. unfold renderer.
    destruct (String.eqb type "rss"); [|destruct (String.eqb type "json")];
      cbn [ret snd]; (split; [reflexivity|eexists; reflexivity]). }
  unfold bind at 1.
  destruct (truthy_string (o_id opts)) eqn:Eid.
  - unfold bind at 1. rewrite getFeedById_run.
    destruct (List.find _ (feeds w)) as [feedInfo|] eqn:Efeed.
    + unfold bind at 1. unfold getArticlesByMpId.
      match goal with |- context [d1 alone ?s ?r ?w1] =>
        destruct (resolves_d1 s r w1) as (w2 & arts & ->) end.
      unfold ret at 1. cbv iota beta. unfold bind at 1.
      match goal with |- context [renderFeed env alone ?t ?f ?a ?m ?w1] =>
        destruct (resolves_renderFeed env t f a m w1) as (w3 & feed & ->) end.
      apply Hfinal.
    + cbn [throw snd]. repeat split.
  - unfold bind at 1. unfold getAllArticles.
    match goal with |- context [d1 alone ?s ?r ?w1] =>
      destruct (resolves_d1 s r w1) as (w2 & arts & ->) end.
    unfold bind at 1, get, ret at 1. cbv iota beta. unfold bind at 1.
    match goal with |- context [renderFeed env alone ?t ?f ?a ?m ?w1] =>
      destruct (resolves_renderFeed env t f a m w1) as (w3 & feed & ->) end.
    apply Hfinal.
Qed.

(** C10, as stated, fails: a request for the unrecognised type "xml" of a
    feed that is not stored is rejected (with the not-found error). *)
Lemma C10_unknown_type_of_missing_feed_fails :
  ~ In (o_type xml_of_missing_feed) feedTypes
  /\ snd (handleGenerateFeed env0 alone xml_of_missing_feed world0)
     = Rejected (Error_of "不存在该feed").
Proof.
  split.
  - cbn. intros [H|[H|[H|[]]]]; discriminate.
  - vm_compute. reflexivity.
Qed.

Example generate_all_by_type :
  snd (handleGenerateFeed env0 alone
         (with_type "rss" (with_type "xml" xml_of_missing_feed)) one_feed)
  = Rejected (Error_of "不存在该feed")
  /\ map (fun type =>
            snd (handleGenerateFeed env0 alone
                   {| o_id := Some "mp"; o_type := type; o_limit := 10;
                      o_page := 1; o_mode := None; o_title_include := None;
                      o_title_exclude := None |} one_feed))
       ["rss"; "atom"; "json"; "xml"]
     = [Resolved ("<rss/>", Some "application/rss+xml; charset=utf-8");
        Resolved ("<feed/>", Some "application/atom+xml; charset=utf-8");
        Resolved ("{}", Some "application/feed+json; charset=utf-8");
        Resolved ("<feed/>", Some "application/atom+xml; charset=utf-8")].
Proof. by_evaluation. Qed.

(** C10 (amended): a request for a document type that is not rss, atom or
    json is handled exactly as the same request for atom. A request is
    rejected only with the not-found error, when it names a feed that is
    not stored, whatever its type; otherwise it resolves. A resolved
    request of an unrecognised type carries the Atom rendering and the Atom
    MIME type, and a resolved request of a recognised type carries the
    rendering and the MIME type mapped to that type. *)
Theorem C10_handleGenerateFeed_type (env : Env) (opts : GenerateOpts)
    (w : World) :
  let run := handleGenerateFeed env alone opts w in
  (~ In (o_type opts) feedTypes ->
   run = handleGenerateFeed env alone (with_type "atom" opts) w)
  /\ (forall e, snd run = Rejected e ->
        e = Error_of "不存在该feed"
        /\ truthy_string (o_id opts) = true
        /\ List.find
             (fun r => String.eqb (feed_id r) (default "" (o_id opts)))
             (feeds w) = None)
  /\ ((truthy_string (o_id opts) = false
       \/ exists feedInfo,
            List.find
              (fun r => String.eqb (feed_id r) (default "" (o_id opts)))
              (feeds w) = Some feedInfo) ->
      exists content mime, snd run = Resolved (content, mime))
  /\ (forall content mime, snd run = Resolved (content, mime) ->
        (~ In (o_type opts) feedTypes ->
         mime = Some "application/atom+xml; charset=utf-8"
         /\ exists feed, content = feed_atom1 env feed)
        /\ (o_type opts = "atom" ->
            mime = Some "application/atom+xml; charset=utf-8"
            /\ exists feed, content = feed_atom1 env feed)
        /\ (o_type opts = "rss" ->
            mime = Some "application/rss+xml; charset=utf-8"
            /\ exists feed, content = feed_rss2 env feed)
        /\ (o_type opts = "json" ->
            mime = Some "application/feed+json; charset=utf-8"
            /\ exists feed, content = feed_json1 env feed)).
Proof.
  cbv zeta. pose proof (handleGenerateFeed_outcome env opts w) as Hout.
  split; [|split; [|split]].
  - intros Hnin. rewrite handleGenerateFeed_normalized.
    now rewrite normalize_type_unknown.
  - intros e He. rewrite He in Hout. exact Hout.
  - intros Hok.
    destruct (snd (handleGenerateFeed env alone opts w))
      as [[content mime]|e]; [eexists; eexists; reflexivity|].
    destruct Hout as (_ & Hid & Hfind).
    destruct Hok as [Hno|(feedInfo & Hsome)]; congruence.
  - intros content mime Hrun. rewrite Hrun in Hout.
    destruct Hout as (-> & feed & ->).
    split; [|split; [|split]].
    + intros Hnin. rewrite normalize_type_unknown by exact Hnin.
      split; [reflexivity|]. exists feed. reflexivity.
    + intros ->. split; [reflexivity|]. exists feed. reflexivity.
    + intros ->. split; [reflexivity|]. exists feed. reflexivity.
    + intros ->. split; [reflexivity|]. exists feed. reflexivity.
Qed.

(* ================================================================== *)
(** * Further properties *)

(** ** Blocked and invalid credentials and the selector *)

Lemma getBlockedAccountIds_blocked (env : Env) (X : string) (w : World) :
  X <> "" ->
  In X (getBlockedAccountIds env
          (set_blockedAccountsMap
             (<[getTodayDate env w := blockedToday env w ++ [X]]>
                (blockedAccountsMap w)) w)).
Proof.
  intros HX. unfold getBlockedAccountIds, getTodayDate.
  cbn [blockedAccountsMap set_blockedAccountsMap tick].
  rewrite lookup_insert_eq. cbn [default].
  apply In_filter_Boolean. split; [|exact HX].
  apply in_or_app. right. now left.
Qed.

(** X1: once [handleAccountError] has recorded a rate limit for the
    credential X (a message with WeReadError429 and without WeReadError401,
    X not empty), the selection that follows never returns an account with
    id X; a selection made under another date key does not see the entry:
    its candidates are those of the blocklist as it was before. *)
Theorem X1_rate_limited_not_selected_today (env : Env) (X msg : string)
    (w : World) :
  includes msg "WeReadError401" = false ->
  includes msg "WeReadError429" = true ->
  X <> "" ->
  let w' := fst (handleAccountError env alone X msg w) in
  (forall a, snd (getAvailableAccount env alone w') = Resolved a ->
             acc_id a <> X)
  /\ (forall w2,
        accounts w2 = accounts w' ->
        blockedAccountsMap w2 = blockedAccountsMap w' ->
        getTodayDate env w2 <> getTodayDate env w ->
        candidates env w2
        = sql_getAvailableAccounts
            (filter_Boolean
               (default [] (blockedAccountsMap w !! getTodayDate env w2)))
            (accounts w)).
Proof.
  intros H401 H429 HX. cbv zeta. rewrite handleAccountError_run, H401, H429.
  cbn [fst]. split.
  - intros a Ha Hid. apply getAvailableAccount_resolved in Ha.
    apply sql_getAvailableAccounts_sound in Ha as (_ & _ & Hnb).
    apply Hnb. rewrite Hid. now apply getBlockedAccountIds_blocked.
  - intros w2 Hacc Hmap Hday. unfold candidates, getBlockedAccountIds.
    rewrite Hacc, Hmap. cbn [accounts blockedAccountsMap
                               set_blockedAccountsMap].
    rewrite lookup_insert_ne by congruence. reflexivity.
Qed.

Lemma X1_rate_limited_not_selected_today_witness :
  includes "WeReadError429: too frequent" "WeReadError401" = false
  /\ includes "WeReadError429: too frequent" "WeReadError429" = true
  /\ "vid0" <> ""
  /\ forall a,
       snd (getAvailableAccount env0 alone
              (fst (handleAccountError env0 alone "vid0"
                      "WeReadError429: too frequent" one_account)))
       = Resolved a ->
       acc_id a <> "vid0".
Proof.
  split; [reflexivity|]. split; [reflexivity|]. split; [discriminate|].
  apply (X1_rate_limited_not_selected_today env0 "vid0"
           "WeReadError429: too frequent" one_account);
    [reflexivity|reflexivity|discriminate].
Defined.

(** ** Credentials that are not enabled are never used *)

Lemma avoids_ret {A : Type} (X : string) (a : A) : avoids X (ret a).
Proof.
  intros w Hw. split; [exact Hw|]. exists []. cbn.
  rewrite List.app_nil_r. split; [reflexivity|constructor].
Qed.

Lemma avoids_throw {A : Type} (X : string) (e : JsError) :
  avoids X (throw (A := A) e).
Proof.
  intros w Hw. split; [exact Hw|]. exists []. cbn.
  rewrite List.app_nil_r. split; [reflexivity|constructor].
Qed.

Lemma avoids_get {A : Type} (X : string) (f : World -> A) :
  avoids X (get f).
Proof.
  intros w Hw. split; [exact Hw|]. exists []. cbn.
  rewrite List.app_nil_r. split; [reflexivity|constructor].
Qed.

Lemma avoids_modify (X : string) (f : World -> World) :
  (forall w, accounts (f w) = accounts w) ->
  (forall w, trace (f w) = trace w) ->
  avoids X (modify f).
Proof.
  intros Ha Ht w Hw. split.
  - unfold unusable. cbn [modify fst]. rewrite Ha. exact Hw.
  - exists []. cbn [modify fst]. rewrite Ht, List.app_nil_r.
    split; [reflexivity|constructor].
Qed.

Lemma avoids_bind {A C : Type} (X : string) (m : Async A)
    (k : A -> Async C) :
  avoids X m -> (forall a, avoids X (k a)) -> avoids X (bind m k).
Proof.
  intros Hm Hk w Hw. unfold bind.
  destruct (Hm w Hw) as (Hw1 & evs1 & Htr1 & Hev1).
  destruct (m w) as [w1 [a|e]]; cbn [fst] in *.
  - destruct (Hk a w1 Hw1) as (Hw2 & evs2 & Htr2 & Hev2).
    split; [exact Hw2|]. exists (evs1 ++ evs2).
    split; [rewrite Htr2, Htr1, List.app_assoc; reflexivity|].
    apply Forall_app. split; assumption.
  - split; [exact Hw1|]. exists evs1. split; assumption.
Qed.

Lemma avoids_try_catch {A : Type} (X : string) (m : Async A)
    (h : JsError -> Async A) :
  avoids X m -> (forall e, avoids X (h e)) -> avoids X (try_catch m h).
Proof.
  intros Hm Hh w Hw. unfold try_catch.
  destruct (Hm w Hw) as (Hw1 & evs1 & Htr1 & Hev1).
  destruct (m w) as [w1 [a|e]]; cbn [fst] in *.
  - split; [exact Hw1|]. exists evs1. split; assumption.
  - destruct (Hh e w1 Hw1) as (Hw2 & evs2 & Htr2 & Hev2).
    split; [exact Hw2|]. exists (evs1 ++ evs2).
    split; [rewrite Htr2, Htr1, List.app_assoc; reflexivity|].
    apply Forall_app. split; assumption.
Qed.

Lemma avoids_try_finally {A : Type} (X : string) (m : Async A)
    (f : Async unit) :
  avoids X m -> avoids X f -> avoids X (try_finally m f).
Proof.
  intros Hm Hf w Hw. unfold try_finally.
  destruct (Hm w Hw) as (Hw1 & evs1 & Htr1 & Hev1).
  destruct (m w) as [w1 r]. cbn [fst] in *.
  destruct (Hf w1 Hw1) as (Hw2 & evs2 & Htr2 & Hev2).
  destruct (f w1) as [w2 [u|e]]; cbn [fst] in *;
    (split; [exact Hw2|]; exists (evs1 ++ evs2);
     split; [rewrite Htr2, Htr1, List.app_assoc; reflexivity|];
     apply Forall_app; split; assumption).
Qed.

Lemma avoids_if {A : Type} (X : string) (b : bool) (m1 m2 : Async A) :
  avoids X m1 -> avoids X m2 -> avoids X (if b then m1 else m2).
Proof. destruct b; auto. Qed.

Lemma not_by_account_d1 (X : string) (stmt : Stmt) :
  ~ by_account X (EvD1 stmt).
Proof. intros (t & m & p & H). discriminate. Qed.

Lemma not_by_account_sleep (X : string) (ms : Z) :
  ~ by_account X (EvSleep ms).
Proof. intros (t & m & p & H). discriminate. Qed.

Lemma avoids_d1 {A : Type} (X : string) (stmt : Stmt)
    (run : World -> World * A) :
  (forall w, unusable X w -> unusable X (fst (run w))) ->
  (forall w, trace (fst (run w)) = trace w) ->
  avoids X (d1 alone stmt run).
Proof.
  intros Hu Ht w Hw. unfold d1, bind, suspend, alone. cbv iota beta.
  specialize (Hu (emit (EvD1 stmt) (set_tick (S (tick w)) w)) Hw).
  specialize (Ht (emit (EvD1 stmt) (set_tick (S (tick w)) w))).
  destruct (run _) as [w1 a]. cbn [fst] in *.
  split; [exact Hu|]. exists [EvD1 stmt]. split; [exact Ht|].
  constructor; [apply not_by_account_d1|constructor].
Qed.

Lemma avoids_sleep (X : string) (ms : Z) : avoids X (sleep alone ms).
Proof.
  intros w Hw. split; [exact Hw|]. exists [EvSleep ms].
  split; [reflexivity|]. constructor; [apply not_by_account_sleep|constructor].
Qed.

Lemma unusable_sql_updateAccount_INVALID (X Y : string) (now : Z)
    (w : World) (tbl : list AccountRow) :
  (forall r, In r tbl -> acc_id r = X -> acc_status r <> statusMap.ENABLE) ->
  forall r,
    In r (sql_updateAccount Y
            {| p_token := None; p_name := None;
               p_status := Some statusMap.INVALID |} now tbl) ->
    acc_id r = X -> acc_status r <> statusMap.ENABLE.
Proof.
  intros H r Hin Hid. unfold sql_updateAccount in Hin.
  apply in_map_iff in Hin as (r0 & Hr & Hin0).
  destruct (String.eqb (acc_id r0) Y).
  - subst r. cbn. discriminate.
  - subst r. now apply H.
Qed.

Lemma handleAccountError_unusable (env : Env) (X Y msg : string)
    (w : World) :
  unusable X w -> unusable X (fst (handleAccountError env alone Y msg w)).
Proof.
  intros Hw. rewrite handleAccountError_run.
  destruct (includes msg "WeReadError401");
    [|destruct (includes msg "WeReadError429")]; cbn [fst].
  - unfold unusable. cbn [accounts emit set_tick set_accounts].
    now apply unusable_sql_updateAccount_INVALID.
  - exact Hw.
  - exact Hw.
Qed.

Lemma attempt_unusable (env : Env) (X mpId : string) (page : Z)
    (w : World) :
  unusable X w -> unusable X (fst (attempt env mpId page w)).
Proof.
  intros Hw. unfold attempt.
  pose proof (keeps_getAvailableAccount accounts env Framed_accounts w)
    as Hacc.
  destruct (getAvailableAccount env alone w) as [w1 [account|e]];
    cbn [fst] in *.
  2: { unfold unusable. now rewrite Hacc. }
  assert (Hw1 : unusable X w1) by (unfold unusable; now rewrite Hacc).
  match goal with |- context [fetchJson alone ?ev ?rep w1] =>
    pose proof (keeps_fetchJson accounts Framed_accounts ev rep w1) as Hacc2;
    destruct (fetchJson alone ev rep w1) as [w2 [l|e]] end;
    cbn [fst] in *.
  - unfold unusable. now rewrite Hacc2.
  - apply handleAccountError_unusable. unfold unusable. now rewrite Hacc2.
Qed.

Lemma attempt_events_avoid (X mpId : string) (page : Z) (a : AttemptLog) :
  handler_shape a -> acc_id (al_account a) <> X ->
  Forall (fun e => ~ by_account X e) (attempt_events mpId page a).
Proof.
  intros Hh Hid. unfold attempt_events.
  constructor; [apply not_by_account_d1|].
  constructor; [intros (t & m & p & [= E _ _ _]); congruence|].
  destruct Hh as [-> | ->]; repeat constructor; apply not_by_account_d1.
Qed.

Lemma candidate_usable (env : Env) (X : string) (w : World)
    (a : AccountRow) :
  unusable X w -> In a (candidates env w) -> acc_id a <> X.
Proof.
  intros Hw Hin Hid. apply sql_getAvailableAccounts_sound in Hin
    as (Hin & Hst & _).
  exact (Hw a Hin Hid Hst).
Qed.

Lemma avoids_getMpArticles (env : Env) (X mpId : string) (page : Z)
    (n : nat) :
  avoids X (getMpArticles env alone mpId page n).
Proof.
  induction n as [|n IH]; intros w Hw; rewrite getMpArticles_attempt;
    pose proof (attempt_spec env mpId page w) as Hatt;
    pose proof (attempt_unusable env X mpId page w Hw) as Hw1;
    destruct (attempt env mpId page w) as [w1 [l|e|e]]; cbn [fst] in *.
  1, 4: destruct Hatt as (a & Hin & _ & Hh & _ & Htr);
    (split; [exact Hw1|]); eexists; (split; [exact Htr|]);
    apply attempt_events_avoid;
      [now left|now apply (candidate_usable env X w)].
  1, 3: destruct Hatt as (_ & _ & Htr);
    (split; [exact Hw1|]); eexists; (split; [exact Htr|]);
    constructor; [apply not_by_account_d1|constructor].
  - destruct Hatt as (a & Hin & _ & Hh & _ & Htr).
    split; [exact Hw1|]. eexists. split; [exact Htr|].
    apply attempt_events_avoid;
      [exact Hh|now apply (candidate_usable env X w)].
  - destruct Hatt as (a & Hin & _ & Hh & _ & Htr).
    destruct (IH w1 Hw1) as (Hw2 & evs & Htr2 & Hev).
    split; [exact Hw2|]. exists (attempt_events mpId page a ++ evs).
    split; [rewrite Htr2, Htr, List.app_assoc; reflexivity|].
    apply Forall_app. split; [|exact Hev].
    apply attempt_events_avoid;
      [exact Hh|now apply (candidate_usable env X w)].
Qed.


Lemma avoids_d1_read {A : Type} (X : string) (stmt : Stmt)
    (f : World -> A) :
  avoids X (d1 alone stmt (fun w => (w, f w))).
Proof. apply avoids_d1; intros w; cbn [fst]; auto. Qed.

Lemma avoids_upsertArticles (env : Env) (X mpId : string)
    (arts : list ArticleSummary) :
  avoids X (upsertArticles env alone mpId arts).
Proof.
  unfold upsertArticles. apply avoids_bind; [apply avoids_get|].
  intros now. destruct arts; [apply avoids_ret|].
  apply avoids_d1; intros w; cbn [fst]; auto.
Qed.

Lemma avoids_updateFeed (env : Env) (X id : string) (data : FeedPatch) :
  avoids X (updateFeed env alone id data).
Proof.
  unfold updateFeed, getFeedById. apply avoids_bind; [apply avoids_get|].
  intros now. apply avoids_bind; [|intros _; apply avoids_d1_read].
  apply avoids_d1; intros w; cbn [fst]; auto.
Qed.

Lemma avoids_refreshMpArticlesAndUpdateFeed (env : Env) (X mpId : string)
    (page : Z) :
  avoids X (refreshMpArticlesAndUpdateFeed env alone mpId page).
Proof.
  unfold refreshMpArticlesAndUpdateFeed.
  apply avoids_bind; [apply avoids_getMpArticles|]. intros arts.
  apply avoids_bind;
    [apply avoids_if; [apply avoids_upsertArticles|apply avoids_ret]|].
  intros _. apply avoids_bind; [apply avoids_get|]. intros now.
  apply avoids_bind; [apply avoids_updateFeed|]. intros _.
  apply avoids_ret.
Qed.

Lemma avoids_history_loop (env : Env) (X mpId : string) (i : nat) :
  avoids X (history_loop env alone mpId i).
Proof.
  induction i as [|i IH]; cbn [history_loop]; [apply avoids_ret|].
  apply avoids_bind; [apply avoids_get|]. intros marker.
  apply avoids_if; [apply avoids_ret|].
  apply avoids_bind; [apply avoids_refreshMpArticlesAndUpdateFeed|].
  intros h. apply avoids_if; [apply avoids_ret|].
  apply avoids_bind; [apply avoids_modify; reflexivity|]. intros _.
  apply avoids_bind; [apply avoids_sleep|]. intros _. exact IH.
Qed.

Lemma avoids_getHistoryMpArticles (env : Env) (X mpId : string) :
  avoids X (getHistoryMpArticles env alone mpId).
Proof.
  unfold getHistoryMpArticles.
  apply avoids_bind; [apply avoids_get|]. intros marker.
  apply avoids_if; [apply avoids_ret|].
  apply avoids_bind; [apply avoids_modify; reflexivity|]. intros _.
  apply avoids_if; [apply avoids_ret|].
  apply avoids_try_finally; [|apply avoids_modify; reflexivity].
  apply avoids_bind; [apply avoids_d1_read|]. intros [feed|];
    [|apply avoids_ret].
  apply avoids_if; [apply avoids_ret|].
  apply avoids_bind; [apply avoids_d1_read|]. intros total.
  apply avoids_bind; [apply avoids_modify; reflexivity|]. intros _.
  apply avoids_history_loop.
Qed.

Lemma avoids_refresh_each (env : Env) (X : string) (fs : list FeedRow) :
  avoids X (refresh_each env alone fs).
Proof.
  induction fs as [|f fs IH]; cbn [refresh_each]; [apply avoids_ret|].
  apply avoids_bind; [apply avoids_refreshMpArticlesAndUpdateFeed|].
  intros _. apply avoids_bind; [apply avoids_sleep|]. intros _. exact IH.
Qed.

Lemma avoids_refreshAllMpArticlesAndUpdateFeed (env : Env) (X : string) :
  avoids X (refreshAllMpArticlesAndUpdateFeed env alone).
Proof.
  unfold refreshAllMpArticlesAndUpdateFeed.
  apply avoids_bind; [apply avoids_get|]. intros running.
  apply avoids_if; [apply avoids_ret|].
  apply avoids_bind; [apply avoids_modify; reflexivity|]. intros _.
  apply avoids_try_finally; [|apply avoids_modify; reflexivity].
  apply avoids_bind; [apply avoids_d1_read|]. intros fs.
  apply avoids_refresh_each.
Qed.

Lemma avoids_cron_each (env : Env) (X : string) (d : Z)
    (fs : list FeedRow) :
  avoids X (cron_each env alone d fs).
Proof.
  induction fs as [|f fs IH]; cbn [cron_each]; [apply avoids_ret|].
  apply avoids_bind; [|intros _; exact IH].
  apply avoids_try_finally; [|apply avoids_sleep].
  apply avoids_bind; [apply avoids_refreshMpArticlesAndUpdateFeed|].
  intros _. apply avoids_sleep.
Qed.

Lemma avoids_handleUpdateFeedsCron (env : Env) (X : string) :
  avoids X (handleUpdateFeedsCron env alone).
Proof.
  unfold handleUpdateFeedsCron.
  apply avoids_bind; [apply avoids_d1_read|]. intros fs.
  apply avoids_cron_each.
Qed.

Lemma avoids_updateFeedOnce (env : Env) (X id : string) :
  avoids X (updateFeedOnce env alone id).
Proof.
  unfold updateFeedOnce. apply avoids_try_finally; [|apply avoids_sleep].
  apply avoids_bind; [apply avoids_refreshMpArticlesAndUpdateFeed|].
  intros _. apply avoids_ret.
Qed.


Lemma getBlockedAccountIds_after_block (env : Env) (X : string)
    (w : World) :
  getBlockedAccountIds env
    (set_blockedAccountsMap
       (<[getTodayDate env w := blockedToday env w ++ [X]]>
          (blockedAccountsMap w)) w)
  = getBlockedAccountIds env w ++ filter_Boolean [X].
Proof.
  unfold getBlockedAccountIds, getTodayDate, blockedToday.
  cbn [blockedAccountsMap set_blockedAccountsMap tick].
  rewrite lookup_insert_eq. cbn [default]. unfold filter_Boolean.
  apply List.filter_app.
Qed.

(** X2: an upstream error with the unauthorized marker WeReadError401 takes
    the credential X out of use at once: after [handleAccountError] no
    stored account with id X is enabled, the next selection never returns
    X, and a page fetch with all its retries ([getMpArticles], any feed,
    page and retry count) makes no request with X. *)
Theorem X2_unauthorized_never_used_again (env : Env) (X msg : string)
    (w : World) :
  includes msg "WeReadError401" = true ->
  let w' := fst (handleAccountError env alone X msg w) in
  unusable X w'
  /\ (forall a, snd (getAvailableAccount env alone w') = Resolved a ->
                acc_id a <> X)
  /\ (forall mpId page n, spares X (getMpArticles env alone mpId page n) w').
Proof.
  intros H401. cbv zeta.
  assert (Hu : unusable X (fst (handleAccountError env alone X msg w))).
  { rewrite handleAccountError_run, H401. cbn [fst].
    intros r Hin Hid. cbn [accounts emit set_tick set_accounts] in Hin.
    eapply sql_updateAccount_status in Hin; [|reflexivity|exact Hid].
    rewrite Hin. discriminate. }
  split; [exact Hu|]. split.
  - intros a Ha. apply getAvailableAccount_resolved in Ha.
    now apply (candidate_usable env X _ a Hu).
  - intros mpId page n. now apply avoids_getMpArticles.
Qed.

Lemma X2_unauthorized_never_used_again_witness :
  includes "WeReadError401: login expired" "WeReadError401" = true
  /\ unusable "vid0"
       (fst (handleAccountError env0 alone "vid0"
               "WeReadError401: login expired" one_account)).
Proof.
  split; [reflexivity|].
  exact (proj1 (X2_unauthorized_never_used_again env0 "vid0"
                  "WeReadError401: login expired" one_account eq_refl)).
Defined.

(** X3: a credential without an enabled row is never used by the sync
    entry points. From a store in which no account with id X has status
    ENABLE, a run (without interleaved invocations) of the sync of one
    feed, the sweep over all feeds, the deep-history sync, the scheduled
    sync, [updateFeedOnce] or the [feed.refreshArticles] resolver sends no
    articles request with X, whatever the platform answers, and X is still
    not enabled afterwards. *)
Theorem X3_unusable_credential_never_requested (env : Env) (X : string)
    (w : World) :
  unusable X w ->
  (forall mpId page,
      spares X (refreshMpArticlesAndUpdateFeed env alone mpId page) w)
  /\ spares X (refreshAllMpArticlesAndUpdateFeed env alone) w
  /\ (forall mpId, spares X (getHistoryMpArticles env alone mpId) w)
  /\ spares X (handleUpdateFeedsCron env alone) w
  /\ (forall id, spares X (updateFeedOnce env alone id) w)
  /\ (forall mpId, spares X (feed_refreshArticles env alone mpId) w).
Proof.
  intros Hw.
  split; [intros; now apply avoids_refreshMpArticlesAndUpdateFeed|].
  split; [now apply avoids_refreshAllMpArticlesAndUpdateFeed|].
  split; [intros; now apply avoids_getHistoryMpArticles|].
  split; [now apply avoids_handleUpdateFeedsCron|].
  split; [intros; now apply avoids_updateFeedOnce|].
  intros mpId. unfold feed_refreshArticles.
  destruct (truthy_string mpId).
  - apply (avoids_bind X); [apply avoids_refreshMpArticlesAndUpdateFeed|
                            intros; apply avoids_ret|exact Hw].
  - now apply avoids_refreshAllMpArticlesAndUpdateFeed.
Qed.

Lemma X3_unusable_credential_never_requested_witness :
  unusable "42" mixed_accounts
  /\ spares "42" (refreshAllMpArticlesAndUpdateFeed env_full_page alone)
       mixed_accounts.
Proof.
  assert (H : unusable "42" mixed_accounts).
  { intros r [<-|[<-|[]]] Hid; cbn; discriminate. }
  split; [exact H|].
  exact (proj1 (proj2 (X3_unusable_credential_never_requested
                         env_full_page "42" mixed_accounts H))).
Defined.

(** The sample sweep is not idle: it does send a request, with the enabled
    account. *)
Example mixed_accounts_sweep_requests :
  fetches (trace (fst (refreshAllMpArticlesAndUpdateFeed env_full_page alone
                         mixed_accounts)))
  = [EvFetchArticles "vid0" "token" "mp" 1].
Proof. vm_compute. reflexivity. Qed.

(** ** The daily blocklist *)

Lemma filter_Boolean_filter (f : string -> bool) (l : list string) :
  filter_Boolean (List.filter f l) = List.filter f (filter_Boolean l).
Proof.
  unfold filter_Boolean. induction l as [|x l IH]; [reflexivity|].
  cbn [List.filter]. destruct (f x) eqn:Hf;
    destruct (negb (String.eqb x "")) eqn:Hx; cbn [List.filter];
    rewrite ?Hf, ?Hx, IH; reflexivity.
Qed.

Lemma removeBlockedAccount_ids (env : Env) (X : string) (w : World) :
  getBlockedAccountIds env (fst (removeBlockedAccount env X w))
  = List.filter (fun item => negb (String.eqb item X))
      (getBlockedAccountIds env w).
Proof.
  unfold removeBlockedAccount, modify, getBlockedAccountIds, getTodayDate.
  cbn [fst]. destruct (blockedAccountsMap w !! _) as [l|] eqn:E.
  - cbn [blockedAccountsMap set_blockedAccountsMap tick].
    rewrite lookup_insert_eq. cbn [default]. apply filter_Boolean_filter.
  - rewrite E. reflexivity.
Qed.

Lemma removeBlockedAccount_frame (env : Env) (X : string) (w : World) :
  let w' := fst (removeBlockedAccount env X w) in
  accounts w' = accounts w /\ feeds w' = feeds w
  /\ articles w' = articles w
  /\ inProgressHistoryMp w' = inProgressHistoryMp w
  /\ isRefreshAllMpArticlesRunning w' = isRefreshAllMpArticlesRunning w
  /\ tick w' = tick w /\ trace w' = trace w.
Proof.
  unfold removeBlockedAccount, modify. cbn [fst].
  destruct (blockedAccountsMap w !! _); repeat split; reflexivity.
Qed.

(** X4: [removeBlockedAccount] takes every occurrence of the id out of
    today's list and nothing else: afterwards the id is not blocked, the
    other blocked ids are the same in the same order, the lists of other
    days are as they were, no entry is created for a day that has none
    (the world is unchanged), and the tables, the clock and the trace are
    untouched; a second removal changes nothing. *)
Theorem X4_removeBlockedAccount (env : Env) (X : string) (w : World) :
  let w' := fst (removeBlockedAccount env X w) in
  ~ In X (getBlockedAccountIds env w')
  /\ getBlockedAccountIds env w'
     = List.filter (fun item => negb (String.eqb item X))
         (getBlockedAccountIds env w)
  /\ (forall day, day <> getTodayDate env w ->
                  blockedAccountsMap w' !! day = blockedAccountsMap w !! day)
  /\ (blockedAccountsMap w !! getTodayDate env w = None -> w' = w)
  /\ accounts w' = accounts w /\ feeds w' = feeds w
  /\ articles w' = articles w /\ trace w' = trace w
  /\ getBlockedAccountIds env (fst (removeBlockedAccount env X w'))
     = getBlockedAccountIds env w'.
Proof.
  cbv zeta.
  pose proof (removeBlockedAccount_ids env X w) as Hids.
  pose proof (removeBlockedAccount_frame env X w) as Hfr. cbv zeta in Hfr.
  destruct Hfr as (Ha & Hf & Har & _ & _ & _ & Ht).
  split.
  { rewrite Hids. intros Hin. apply filter_In in Hin as [_ Hne].
    rewrite String.eqb_refl in Hne. discriminate. }
  split; [exact Hids|]. split.
  { intros day Hday. unfold removeBlockedAccount, modify. cbn [fst].
    destruct (blockedAccountsMap w !! getTodayDate env w); [|reflexivity].
    cbn [blockedAccountsMap set_blockedAccountsMap].
    rewrite lookup_insert_ne by congruence. reflexivity. }
  split.
  { intros Hnone. unfold removeBlockedAccount, modify. cbn [fst].
    rewrite Hnone. reflexivity. }
  split; [exact Ha|]. split; [exact Hf|]. split; [exact Har|].
  split; [exact Ht|].
  rewrite removeBlockedAccount_ids, Hids. clear Hids.
  induction (getBlockedAccountIds env w) as [|x l IH]; [reflexivity|].
  cbn [List.filter]. destruct (negb (String.eqb x X)) eqn:E;
    cbn [List.filter]; rewrite ?E, IH; reflexivity.
Qed.

(** X5: a rate-limit block is undone by [removeBlockedAccount]: after
    [handleAccountError] has blocked X for today (rate-limit marker, no
    unauthorized marker) and [removeBlockedAccount X] has run, the
    candidates of the selection are those of the store with every
    occurrence of X taken out of the blocklist as it was before the
    error, so earlier blocks of X are lifted as well. *)
Theorem X5_block_then_unblock (env : Env) (X msg : string) (w : World) :
  includes msg "WeReadError401" = false ->
  includes msg "WeReadError429" = true ->
  let w1 := fst (handleAccountError env alone X msg w) in
  let w2 := fst (removeBlockedAccount env X w1) in
  getBlockedAccountIds env w2
  = List.filter (fun item => negb (String.eqb item X))
      (getBlockedAccountIds env w)
  /\ candidates env w2
     = sql_getAvailableAccounts
         (List.filter (fun item => negb (String.eqb item X))
            (getBlockedAccountIds env w))
         (accounts w).
Proof.
  intros H401 H429. cbv zeta.
  assert (Hids :
    getBlockedAccountIds env
      (fst (removeBlockedAccount env X
              (fst (handleAccountError env alone X msg w))))
    = List.filter (fun item => negb (String.eqb item X))
        (getBlockedAccountIds env w)).
  { rewrite removeBlockedAccount_ids, handleAccountError_run, H401, H429.
    cbn [fst]. rewrite getBlockedAccountIds_after_block.
    rewrite List.filter_app. unfold filter_Boolean at 1.
    cbn [List.filter]. destruct (negb (String.eqb X "")); cbn [List.filter];
      rewrite ?String.eqb_refl; cbn [negb]; rewrite List.app_nil_r;
      reflexivity. }
  split; [exact Hids|]. unfold candidates. rewrite Hids.
  pose proof (removeBlockedAccount_frame env X
                (fst (handleAccountError env alone X msg w))) as Hfr.
  cbv zeta in Hfr. destruct Hfr as (-> & _).
  rewrite handleAccountError_run, H401, H429. reflexivity.
Qed.

Lemma X5_block_then_unblock_witness :
  includes "WeReadError429" "WeReadError401" = false
  /\ includes "WeReadError429" "WeReadError429" = true
  /\ candidates env0
       (fst (removeBlockedAccount env0 "vid0"
               (fst (handleAccountError env0 alone "vid0" "WeReadError429"
                       one_account))))
     = sql_getAvailableAccounts
         (List.filter (fun item => negb (String.eqb item "vid0"))
            (getBlockedAccountIds env0 one_account))
         (accounts one_account).
Proof.
  split; [reflexivity|]. split; [reflexivity|].
  exact (proj2 (X5_block_then_unblock env0 "vid0" "WeReadError429"
                  one_account eq_refl eq_refl)).
Defined.


(** ** Administration of the accounts *)

Lemma find_sql_upsertAccount (input : AccountInput) (now : Z)
    (tbl : list AccountRow) :
  List.find (fun r => String.eqb (acc_id r) (in_id input))
    (sql_upsertAccount input now tbl)
  = Some {| acc_id := in_id input; acc_token := in_token input;
            acc_name := in_name input; acc_status := in_status input;
            acc_created_at :=
              match List.find (fun r => String.eqb (acc_id r) (in_id input))
                      tbl with
              | Some old => acc_created_at old
              | None => now
              end;
            acc_updated_at := now |}.
Proof.
  induction tbl as [|old tbl IH]; cbn [sql_upsertAccount List.find].
  - cbn [acc_id]. rewrite String.eqb_refl. reflexivity.
  - destruct (String.eqb_spec (acc_id old) (in_id input)) as [E|E];
      cbn [List.find acc_id].
    + rewrite E, String.eqb_refl. reflexivity.
    + destruct (String.eqb_spec (acc_id old) (in_id input));
        [contradiction|]. exact IH.
Qed.

Lemma sql_upsertAccount_others (input : AccountInput) (now : Z)
    (tbl : list AccountRow) (r : AccountRow) :
  acc_id r <> in_id input ->
  (In r (sql_upsertAccount input now tbl) <-> In r tbl).
Proof.
  intros Hne. induction tbl as [|old tbl IH]; cbn [sql_upsertAccount].
  - split; [intros [<-|[]]; now cbn in Hne|intros []].
  - destruct (String.eqb_spec (acc_id old) (in_id input)) as [E|E];
      cbn [In].
    + split; (intros [<-|H]; [|now right]).
      * now cbn in Hne.
      * congruence.
    + rewrite IH. reflexivity.
Qed.

Lemma length_sql_upsertAccount (input : AccountInput) (now : Z)
    (tbl : list AccountRow) :
  length (sql_upsertAccount input now tbl)
  = match List.find (fun r => String.eqb (acc_id r) (in_id input)) tbl with
    | Some _ => length tbl
    | None => S (length tbl)
    end.
Proof.
  induction tbl as [|old tbl IH]; cbn [sql_upsertAccount List.find length];
    [reflexivity|].
  destruct (String.eqb (acc_id old) (in_id input)); cbn [length];
    [reflexivity|].
  rewrite IH. destruct (List.find _ tbl); reflexivity.
Qed.

Lemma upsertAccount_run (env : Env) (input : AccountInput) (w : World) :
  upsertAccount env alone input w
  = (emit (EvD1 (SelectAccountById (in_id input)))
       (set_tick (S (S (tick w)))
          (set_accounts
             (sql_upsertAccount input (nowMs env w) (accounts w)) w)),
     Resolved
       (List.find (fun r => String.eqb (acc_id r) (in_id input))
          (sql_upsertAccount input (nowMs env w) (accounts w)))).
Proof. reflexivity. Qed.

(** X6: [upsertAccount] stores the input and gives it back: the result is
    the row of the input's id with the input's token, name and status and
    [updated_at] now; the row keeps its [created_at] when the id was
    stored already and gets [created_at] now otherwise; the rows of other
    ids are the same, and the number of rows grows by one exactly when the
    id was not stored. *)
Theorem X6_upsertAccount_stores_input (env : Env) (input : AccountInput)
    (w : World) :
  let w' := fst (upsertAccount env alone input w) in
  let row :=
    {| acc_id := in_id input; acc_token := in_token input;
       acc_name := in_name input; acc_status := in_status input;
       acc_created_at :=
         match stored_account (in_id input) w with
         | Some old => acc_created_at old
         | None => nowMs env w
         end;
       acc_updated_at := nowMs env w |} in
  snd (upsertAccount env alone input w) = Resolved (Some row)
  /\ stored_account (in_id input) w' = Some row
  /\ (forall r, acc_id r <> in_id input ->
                (In r (accounts w') <-> In r (accounts w)))
  /\ length (accounts w')
     = match stored_account (in_id input) w with
       | Some _ => length (accounts w)
       | None => S (length (accounts w))
       end
  /\ feeds w' = feeds w /\ articles w' = articles w
  /\ blockedAccountsMap w' = blockedAccountsMap w.
Proof.
  cbv zeta. rewrite upsertAccount_run. cbn [fst snd].
  unfold stored_account. cbn [accounts emit set_tick set_accounts].
  rewrite find_sql_upsertAccount.
  split; [reflexivity|]. split; [reflexivity|].
  split; [intros r Hne; now apply sql_upsertAccount_others|].
  split; [apply length_sql_upsertAccount|].
  split; [reflexivity|]. split; reflexivity.
Qed.

Lemma find_sql_updateAccount (id : string) (data : AccountPatch) (now : Z)
    (tbl : list AccountRow) :
  List.find (fun r => String.eqb (acc_id r) id)
    (sql_updateAccount id data now tbl)
  = option_map (patch_account data now)
      (List.find (fun r => String.eqb (acc_id r) id) tbl).
Proof.
  unfold sql_updateAccount.
  induction tbl as [|r tbl IH]; cbn [map List.find]; [reflexivity|].
  destruct (String.eqb (acc_id r) id) eqn:E;
    cbn [patch_account acc_id]; rewrite E; [reflexivity|exact IH].
Qed.

Lemma find_sql_deleteAccount (id : string) (tbl : list AccountRow) :
  List.find (fun r => String.eqb (acc_id r) id) (sql_deleteAccount id tbl)
  = None.
Proof.
  unfold sql_deleteAccount.
  induction tbl as [|r tbl IH]; cbn [List.filter List.find]; [reflexivity|].
  destruct (String.eqb (acc_id r) id) eqn:E; cbn [negb List.find];
    rewrite ?E; exact IH.
Qed.

Lemma account_add_run (env : Env) (input : AccountInput) (w : World) :
  account_add env alone input w
  = (fst (removeBlockedAccount env (in_id input)
            (fst (upsertAccount env alone input w))),
     snd (upsertAccount env alone input w)).
Proof. reflexivity. Qed.

Lemma updateAccount_run (env : Env) (id : string) (data : AccountPatch)
    (w : World) :
  updateAccount env alone id data w
  = (emit (EvD1 (SelectAccountById id))
       (set_tick (S (S (tick w)))
          (set_accounts (sql_updateAccount id data (nowMs env w) (accounts w))
             (emit (EvD1 (UpdateAccount id)) (set_tick (S (tick w)) w)))),
     Resolved
       (List.find (fun r => String.eqb (acc_id r) id)
          (sql_updateAccount id data (nowMs env w) (accounts w)))).
Proof. reflexivity. Qed.

Lemma account_edit_run (env : Env) (id : string) (data : AccountPatch)
    (w : World) :
  account_edit env alone id data w
  = (fst (removeBlockedAccount env id
            (fst (updateAccount env alone id data w))),
     snd (updateAccount env alone id data w)).
Proof. reflexivity. Qed.

Lemma account_delete_run (env : Env) (id : string) (w : World) :
  account_delete env alone id w
  = (fst (removeBlockedAccount env id
            (set_accounts (sql_deleteAccount id (accounts w))
               (set_tick (S (tick w)) w))),
     Resolved id).
Proof. reflexivity. Qed.

Lemma not_blocked_after_remove (env : Env) (X : string) (w : World) :
  ~ In X (getBlockedAccountIds env (fst (removeBlockedAccount env X w))).
Proof.
  rewrite removeBlockedAccount_ids. intros Hin.
  apply filter_In in Hin as [_ Hne].
  rewrite String.eqb_refl in Hne. discriminate.
Qed.

(** X7: the resolvers [account.add], [account.edit] and [account.delete]
    lift today's block of the id they are given, whatever becomes of the
    row: after each of them the id is not in today's blocklist; [edit]
    returns the patched row, or null for an id that is not stored, in
    which case no row is created and the block is lifted all the same;
    [delete] returns the id, leaves no row of it, keeps the other rows in
    their order and does not touch feeds or articles. *)
Theorem X7_account_resolvers_lift_block (env : Env) (w : World) :
  (forall input,
      ~ In (in_id input)
          (getBlockedAccountIds env (fst (account_add env alone input w)))
      /\ snd (account_add env alone input w)
         = Resolved (stored_account (in_id input)
                       (fst (account_add env alone input w))))
  /\ (forall id data,
        let w' := fst (account_edit env alone id data w) in
        ~ In id (getBlockedAccountIds env w')
        /\ snd (account_edit env alone id data w)
           = Resolved (option_map (patch_account data (nowMs env w))
                         (stored_account id w))
        /\ map acc_id (accounts w') = map acc_id (accounts w))
  /\ (forall id,
        let w' := fst (account_delete env alone id w) in
        ~ In id (getBlockedAccountIds env w')
        /\ snd (account_delete env alone id w) = Resolved id
        /\ stored_account id w' = None
        /\ accounts w'
           = List.filter (fun r => negb (String.eqb (acc_id r) id))
               (accounts w)
        /\ feeds w' = feeds w /\ articles w' = articles w).
Proof.
  split; [|split].
  - intros input. rewrite account_add_run. cbn [fst snd].
    split; [apply not_blocked_after_remove|].
    unfold stored_account.
    pose proof (removeBlockedAccount_frame env (in_id input)
                  (fst (upsertAccount env alone input w))) as Hfr.
    cbv zeta in Hfr. destruct Hfr as (-> & _).
    rewrite upsertAccount_run. reflexivity.
  - intros id data. cbv zeta. rewrite account_edit_run. cbn [fst snd].
    split; [apply not_blocked_after_remove|].
    pose proof (removeBlockedAccount_frame env id
                  (fst (updateAccount env alone id data w))) as Hfr.
    cbv zeta in Hfr. destruct Hfr as (-> & _).
    rewrite updateAccount_run. cbn [fst snd accounts emit set_tick
                                      set_accounts].
    split; [rewrite find_sql_updateAccount; reflexivity|].
    apply sql_updateAccount_ids.
  - intros id. cbv zeta. rewrite account_delete_run. cbn [fst snd].
    split; [apply not_blocked_after_remove|]. split; [reflexivity|].
    match goal with |- context [removeBlockedAccount env id ?w0] =>
      pose proof (removeBlockedAccount_frame env id w0) as Hfr end.
    cbv zeta in Hfr. destruct Hfr as (Ha & Hf & Har & _).
    unfold stored_account. rewrite Ha, Hf, Har.
    cbn [accounts feeds articles set_accounts set_tick].
    split; [apply find_sql_deleteAccount|].
    split; [reflexivity|]. split; reflexivity.
Qed.

(** A blocked account is selectable again once [account.add] has run for
    it. *)
Example account_add_unblocks :
  let blocked :=
    fst (handleAccountError env0 alone "vid0" "WeReadError429" one_account) in
  snd (getAvailableAccount env0 alone blocked)
  = Rejected (Error_of "暂无可用读书账号!")
  /\ option_map acc_id
       (match snd (getAvailableAccount env0 alone
                     (fst (account_add env0 alone input_vid0 blocked))) with
        | Resolved a => Some a
        | Rejected _ => None
        end)
     = Some "vid0".
Proof. cbv zeta. by_evaluation. Qed.


(** ** Administration of the feeds *)

Lemma find_sql_upsertFeed (input : FeedInput) (now : Z)
    (tbl : list FeedRow) :
  List.find (fun r => String.eqb (feed_id r) (fi_id input))
    (sql_upsertFeed input now tbl)
  = Some (upserted_feed input now
            (List.find (fun r => String.eqb (feed_id r) (fi_id input)) tbl)).
Proof.
  unfold upserted_feed.
  induction tbl as [|old tbl IH]; cbn [sql_upsertFeed List.find].
  - cbn [feed_id]. rewrite String.eqb_refl. reflexivity.
  - destruct (String.eqb_spec (feed_id old) (fi_id input)) as [E|E];
      cbn [List.find feed_id].
    + rewrite E, String.eqb_refl. reflexivity.
    + destruct (String.eqb_spec (feed_id old) (fi_id input));
        [contradiction|]. exact IH.
Qed.

Lemma sql_upsertFeed_others (input : FeedInput) (now : Z)
    (tbl : list FeedRow) (r : FeedRow) :
  feed_id r <> fi_id input ->
  (In r (sql_upsertFeed input now tbl) <-> In r tbl).
Proof.
  intros Hne. induction tbl as [|old tbl IH]; cbn [sql_upsertFeed].
  - split; [intros [<-|[]]; now cbn in Hne|intros []].
  - destruct (String.eqb_spec (feed_id old) (fi_id input)) as [E|E];
      cbn [In].
    + split; (intros [<-|H]; [|now right]).
      * now cbn in Hne.
      * congruence.
    + rewrite IH. reflexivity.
Qed.

Lemma upsertFeed_run (env : Env) (input : FeedInput) (w : World) :
  upsertFeed env alone input w
  = (emit (EvD1 (SelectFeedById (fi_id input)))
       (set_tick (S (S (tick w)))
          (set_feeds (sql_upsertFeed input (nowMs env w) (feeds w)) w)),
     Resolved
       (List.find (fun r => String.eqb (feed_id r) (fi_id input))
          (sql_upsertFeed input (nowMs env w) (feeds w)))).
Proof. reflexivity. Qed.

(** X8: [upsertFeed] (the resolver [feed.add]) returns the stored row of
    the input's id, which carries the input's name, cover, intro, status,
    sync time and update time; a feed that was not stored starts with
    [has_history] 1, while a feed that was stored keeps its [has_history]
    and its [created_at]: adding a feed again does not reopen a history
    that was marked finished. The rows of other ids, the accounts and the
    articles are the same. *)
Theorem X8_upsertFeed_keeps_has_history (env : Env) (input : FeedInput)
    (w : World) :
  let w' := fst (upsertFeed env alone input w) in
  let row := upserted_feed input (nowMs env w) (stored_feed (fi_id input) w) in
  snd (upsertFeed env alone input w) = Resolved (Some row)
  /\ stored_feed (fi_id input) w' = Some row
  /\ (forall old, stored_feed (fi_id input) w = Some old ->
                  has_history row = has_history old
                  /\ feed_created_at row = feed_created_at old)
  /\ (stored_feed (fi_id input) w = None ->
      has_history row = 1%Z /\ feed_created_at row = nowMs env w)
  /\ (forall r, feed_id r <> fi_id input ->
                (In r (feeds w') <-> In r (feeds w)))
  /\ accounts w' = accounts w /\ articles w' = articles w.
Proof.
  cbv zeta. rewrite upsertFeed_run. cbn [fst snd]. unfold stored_feed.
  cbn [feeds emit set_tick set_feeds]. rewrite find_sql_upsertFeed.
  split; [reflexivity|]. split; [reflexivity|].
  split; [intros old ->; split; reflexivity|].
  split; [intros ->; split; reflexivity|].
  split; [intros r Hne; now apply sql_upsertFeed_others|].
  split; reflexivity.
Qed.

Example upsertFeed_of_finished_feed :
  option_map has_history (stored_feed (feed_id finished_feed) finished_world)
  = Some 0%Z
  /\ option_map has_history
       (stored_feed (feed_id finished_feed)
          (fst (upsertFeed env0 alone input_finished finished_world)))
     = Some 0%Z.
Proof. by_evaluation. Qed.

(** ** The batch upsert of a page *)

Lemma sql_upsertArticle_others (new : ArticleRow) (tbl : list ArticleRow)
    (r : ArticleRow) :
  art_id r <> art_id new ->
  (In r (sql_upsertArticle new tbl) <-> In r tbl).
Proof.
  intros Hne. induction tbl as [|old tbl IH]; cbn [sql_upsertArticle].
  - split; [intros [<-|[]]; congruence|intros []].
  - destruct (String.eqb_spec (art_id old) (art_id new)) as [E|E];
      cbn [In].
    + split; (intros [<-|H]; [|now right]).
      * now cbn in Hne.
      * congruence.
    + rewrite IH. reflexivity.
Qed.

Lemma sql_upsertArticle_ids (new : ArticleRow) (tbl : list ArticleRow)
    (id : string) :
  In id (map art_id (sql_upsertArticle new tbl))
  <-> In id (map art_id tbl) \/ id = art_id new.
Proof.
  induction tbl as [|old tbl IH]; cbn [sql_upsertArticle map In].
  - split; [intros [<-|[]]; now right|intros [[]|E]; left; now symmetry].
  - destruct (String.eqb_spec (art_id old) (art_id new)) as [E|E];
      cbn [map In on_conflict_update art_id].
    + split; [tauto|]. intros [H|E']; [exact H|]. left. congruence.
    + rewrite IH. tauto.
Qed.

Lemma sql_upsertArticle_row (new : ArticleRow) (tbl : list ArticleRow)
    (r : ArticleRow) :
  List.NoDup (map art_id tbl) ->
  In r (sql_upsertArticle new tbl) -> art_id r = art_id new ->
  art_mp_id r = art_mp_id new /\ art_title r = art_title new
  /\ art_updated_at r = art_updated_at new.
Proof.
  intros Hnd Hin Hid.
  destruct (sql_upsertArticle_spec new tbl Hnd) as (Hf & _ & _).
  assert (Hin' : In r (List.filter (has_id (art_id new))
                         (sql_upsertArticle new tbl))).
  { apply filter_In. split; [exact Hin|]. unfold has_id.
    now apply String.eqb_eq. }
  rewrite Hf in Hin'. destruct Hin' as [<-|[]].
  destruct (List.find _ tbl); cbn; repeat split; reflexivity.
Qed.

Lemma sql_upsertArticle_NoDup (new : ArticleRow) (tbl : list ArticleRow) :
  List.NoDup (map art_id tbl) ->
  List.NoDup (map art_id (sql_upsertArticle new tbl)).
Proof. intros Hnd. now apply sql_upsertArticle_spec. Qed.

Lemma sql_upsertArticles_snoc (mpId : string) (now : Z)
    (arts : list ArticleSummary) (a : ArticleSummary)
    (tbl : list ArticleRow) :
  sql_upsertArticles mpId now (arts ++ [a]) tbl
  = sql_upsertArticle (excluded mpId now a)
      (sql_upsertArticles mpId now arts tbl).
Proof. unfold sql_upsertArticles. now rewrite fold_left_app. Qed.

Lemma sql_upsertArticles_spec (mpId : string) (now : Z)
    (arts : list ArticleSummary) (tbl : list ArticleRow) :
  List.NoDup (map art_id tbl) ->
  let tbl' := sql_upsertArticles mpId now arts tbl in
  List.NoDup (map art_id tbl')
  /\ (forall id, In id (map art_id tbl')
                 <-> In id (map art_id tbl) \/ In id (map s_id arts))
  /\ (forall r, ~ In (art_id r) (map s_id arts) ->
                (In r tbl' <-> In r tbl))
  /\ (forall r, In r tbl' -> In (art_id r) (map s_id arts) ->
                art_mp_id r = mpId /\ art_updated_at r = now).
Proof.
  intros Hnd. cbv zeta.
  induction arts as [|a arts IH] using rev_ind.
  - cbn. split; [exact Hnd|]. split; [tauto|]. split; [tauto|].
    intros r _ [].
  - destruct IH as (N & I & O & B).
    rewrite sql_upsertArticles_snoc.
    set (t := sql_upsertArticles mpId now arts tbl) in *.
    split; [now apply sql_upsertArticle_NoDup|]. split; [|split].
    + intros id. rewrite sql_upsertArticle_ids, I, map_app, in_app_iff.
      cbn [map In excluded art_id]. intuition congruence.
    + intros r Hr. rewrite map_app, in_app_iff in Hr.
      cbn [map In] in Hr.
      rewrite sql_upsertArticle_others
        by (cbn [excluded art_id]; intros E; apply Hr; right; left;
            congruence).
      apply O. tauto.
    + intros r Hin Hid.
      destruct (String.eqb_spec (art_id r) (s_id a)) as [E|E].
      * destruct (sql_upsertArticle_row (excluded mpId now a) t r N Hin E)
          as (H1 & _ & H3). split; assumption.
      * apply sql_upsertArticle_others in Hin;
          [|cbn [excluded art_id]; exact E].
        apply B; [exact Hin|]. rewrite map_app, in_app_iff in Hid.
        destruct Hid as [H|[H|[]]]; [exact H|congruence].
Qed.

(** X9: the batch of [upsertArticles] over a table with pairwise distinct
    ids (the primary key) stores the whole page: afterwards the stored ids
    are the old ones and those of the page, still pairwise distinct; every
    row with an id of the page belongs to the feed of the call and has
    [updated_at] now, also a row that was stored under another feed; the
    rows with other ids are the same; and the accounts and feeds are
    untouched. An empty page issues no statement at all. *)
Theorem X9_upsertArticles_page (env : Env) (mpId : string)
    (arts : list ArticleSummary) (w : World) :
  List.NoDup (map art_id (articles w)) ->
  let w' := fst (upsertArticles env alone mpId arts w) in
  snd (upsertArticles env alone mpId arts w) = Resolved tt
  /\ List.NoDup (map art_id (articles w'))
  /\ (forall id, In id (map art_id (articles w'))
                 <-> In id (map art_id (articles w))
                     \/ In id (map s_id arts))
  /\ (forall r, In r (articles w') -> In (art_id r) (map s_id arts) ->
                art_mp_id r = mpId /\ art_updated_at r = nowMs env w)
  /\ (forall r, ~ In (art_id r) (map s_id arts) ->
                (In r (articles w') <-> In r (articles w)))
  /\ accounts w' = accounts w /\ feeds w' = feeds w
  /\ (arts = [] -> w' = w).
Proof.
  intros Hnd. cbv zeta. rewrite upsertArticles_run.
  destruct arts as [|a arts].
  - cbn [fst snd map In]. split; [reflexivity|]. split; [exact Hnd|].
    split; [tauto|]. split; [intros r _ []|]. split; [tauto|].
    split; [reflexivity|]. split; reflexivity.
  - cbn [fst snd articles accounts feeds set_articles emit set_tick].
    destruct (sql_upsertArticles_spec mpId (nowMs env w) (a :: arts)
                (articles w) Hnd) as (N & I & O & B).
    split; [reflexivity|]. split; [exact N|]. split; [exact I|].
    split; [exact B|]. split; [exact O|]. split; [reflexivity|].
    split; [reflexivity|discriminate].
Qed.

Lemma X9_upsertArticles_page_witness :
  List.NoDup (map art_id (articles forty_five_stored))
  /\ snd (upsertArticles env0 alone "mp" full_page forty_five_stored)
     = Resolved tt.
Proof.
  assert (H : List.NoDup (map art_id (articles forty_five_stored))).
  { apply (NoDup_count_occ' string_dec). intros x Hx. vm_compute in Hx.
    repeat (destruct Hx as [<-|Hx]; [vm_compute; reflexivity|]).
    destruct Hx. }
  split; [exact H|].
  exact (proj1 (X9_upsertArticles_page env0 "mp" full_page forty_five_stored
                  H)).
Defined.


(** ** The requests of the sync entry points *)

Lemma requests_weaken {A : Type} (P Q : Event -> Prop) (n k : nat)
    (m : Async A) :
  (forall e, P e -> Q e) -> (n <= k)%nat -> requests P n m -> requests Q k m.
Proof.
  intros HPQ Hnk Hm w. destruct (Hm w) as (evs & Htr & HP & Hlen).
  exists evs. split; [exact Htr|]. split; [|lia].
  eapply List.Forall_impl; [exact HPQ|exact HP].
Qed.

Lemma requests_quiet {A : Type} (P : Event -> Prop) (m : Async A) :
  (forall w, exists evs, trace (fst (m w)) = trace w ++ evs
                         /\ fetches evs = []) ->
  requests P 0 m.
Proof.
  intros H w. destruct (H w) as (evs & Htr & Hf). exists evs.
  split; [exact Htr|]. rewrite Hf. split; [constructor|cbn; lia].
Qed.

Lemma requests_ret {A : Type} (P : Event -> Prop) (a : A) :
  requests P 0 (ret a).
Proof.
  apply requests_quiet. intros w. exists []. cbn.
  now rewrite List.app_nil_r.
Qed.

Lemma requests_get {A : Type} (P : Event -> Prop) (f : World -> A) :
  requests P 0 (get f).
Proof.
  apply requests_quiet. intros w. exists []. cbn.
  now rewrite List.app_nil_r.
Qed.

Lemma requests_modify (P : Event -> Prop) (f : World -> World) :
  (forall w, trace (f w) = trace w) -> requests P 0 (modify f).
Proof.
  intros Hf. apply requests_quiet. intros w. exists []. cbn [modify fst].
  now rewrite Hf, List.app_nil_r.
Qed.

Lemma requests_d1 {A : Type} (P : Event -> Prop) (stmt : Stmt)
    (run : World -> World * A) :
  (forall w, trace (fst (run w)) = trace w) ->
  requests P 0 (d1 alone stmt run).
Proof.
  intros Hrun. apply requests_quiet. intros w. exists [EvD1 stmt].
  split; [|reflexivity]. unfold d1, bind, suspend, alone. cbv iota beta.
  specialize (Hrun (emit (EvD1 stmt) (set_tick (S (tick w)) w))).
  destruct (run _) as [w1 a]. cbn [fst] in *. exact Hrun.
Qed.

Lemma requests_sleep (P : Event -> Prop) (ms : Z) :
  requests P 0 (sleep alone ms).
Proof.
  apply requests_quiet. intros w. exists [EvSleep ms]. split; reflexivity.
Qed.

Lemma requests_bind {A C : Type} (P : Event -> Prop) (n k : nat)
    (m : Async A) (f : A -> Async C) :
  requests P n m -> (forall a, requests P k (f a)) ->
  requests P (n + k) (bind m f).
Proof.
  intros Hm Hf w. unfold bind.
  destruct (Hm w) as (evs1 & Htr1 & HP1 & Hlen1).
  destruct (m w) as [w1 [a|e]]; cbn [fst] in *.
  - destruct (Hf a w1) as (evs2 & Htr2 & HP2 & Hlen2).
    exists (evs1 ++ evs2).
    split; [rewrite Htr2, Htr1, List.app_assoc; reflexivity|].
    rewrite fetches_app, List.length_app.
    split; [apply Forall_app; split; assumption|lia].
  - exists evs1. split; [exact Htr1|]. split; [exact HP1|lia].
Qed.

Lemma requests_try_finally {A : Type} (P : Event -> Prop) (n k : nat)
    (m : Async A) (f : Async unit) :
  requests P n m -> requests P k f -> requests P (n + k) (try_finally m f).
Proof.
  intros Hm Hf w. unfold try_finally.
  destruct (Hm w) as (evs1 & Htr1 & HP1 & Hlen1).
  destruct (m w) as [w1 r]. cbn [fst] in *.
  destruct (Hf w1) as (evs2 & Htr2 & HP2 & Hlen2).
  exists (evs1 ++ evs2).
  destruct (f w1) as [w2 [u|e]]; cbn [fst] in *;
    (split; [rewrite Htr2, Htr1, List.app_assoc; reflexivity|];
     rewrite fetches_app, List.length_app;
     split; [apply Forall_app; split; assumption|lia]).
Qed.

Lemma requests_if {A : Type} (P : Event -> Prop) (n : nat) (b : bool)
    (m1 m2 : Async A) :
  requests P n m1 -> requests P n m2 -> requests P n (if b then m1 else m2).
Proof. destruct b; auto. Qed.

Lemma requests_getMpArticles (env : Env) (mpId : string) (page : Z)
    (n : nat) :
  requests (fetch_of mpId page) (S n) (getMpArticles env alone mpId page n).
Proof.
  intros w.
  destruct (getMpArticles_attempts env mpId page n w)
    as (logs & coda & Htr & Hlen & Hshape & _ & Hend).
  exists (flat_map (attempt_events mpId page) logs ++ coda).
  split; [exact Htr|]. rewrite fetches_app, (fetches_coda _ _ _ _ _ _ _ Hend).
  rewrite List.app_nil_r.
  split; [now apply fetches_attempts_of|].
  now rewrite fetches_attempts.
Qed.

Lemma requests_upsertArticles (P : Event -> Prop) (env : Env)
    (mpId : string) (arts : list ArticleSummary) :
  requests P 0 (upsertArticles env alone mpId arts).
Proof.
  unfold upsertArticles.
  apply (requests_bind P 0 0); [apply requests_get|]. intros now.
  destruct arts; [apply requests_ret|]. apply requests_d1. reflexivity.
Qed.

Lemma requests_updateFeed (P : Event -> Prop) (env : Env) (id : string)
    (data : FeedPatch) :
  requests P 0 (updateFeed env alone id data).
Proof.
  unfold updateFeed, getFeedById.
  apply (requests_bind P 0 0); [apply requests_get|]. intros now.
  apply (requests_bind P 0 0); [|intros _]; apply requests_d1; reflexivity.
Qed.

Lemma requests_refreshMpArticlesAndUpdateFeed (env : Env) (mpId : string)
    (page : Z) :
  requests (fetch_of mpId page) 4
    (refreshMpArticlesAndUpdateFeed env alone mpId page).
Proof.
  unfold refreshMpArticlesAndUpdateFeed.
  apply (requests_bind _ 4 0); [apply requests_getMpArticles|]. intros arts.
  apply (requests_bind _ 0 0);
    [apply requests_if; [apply requests_upsertArticles|apply requests_ret]|].
  intros _. apply (requests_bind _ 0 0); [apply requests_get|]. intros now.
  apply (requests_bind _ 0 0); [apply requests_updateFeed|]. intros _.
  apply requests_ret.
Qed.


Lemma requests_cron_each (env : Env) (d : Z) (fs : list FeedRow) :
  requests (first_page_of fs) (4 * length fs) (cron_each env alone d fs).
Proof.
  induction fs as [|f fs IH]; cbn [cron_each]; [apply requests_ret|].
  replace (4 * length (f :: fs))%nat with ((4 + 0 + 0) + 4 * length fs)%nat
    by (cbn [length]; lia).
  apply requests_bind.
  { apply requests_try_finally; [|apply requests_sleep].
    apply requests_bind; [|intros _; apply requests_sleep].
    eapply requests_weaken; [| |apply requests_refreshMpArticlesAndUpdateFeed];
      [|lia]. intros e He. exists f. split; [now left|exact He]. }
  intros _. eapply requests_weaken; [| |exact IH]; [|lia].
  intros e (f' & Hin & He). exists f'. split; [now right|exact He].
Qed.

Lemma handleUpdateFeedsCron_run (env : Env) (w : World) :
  handleUpdateFeedsCron env alone w
  = cron_each env alone (getUpdateDelaySeconds env) (enabled_feeds w)
      (cron_started w).
Proof. reflexivity. Qed.

Lemma cron_each_rejected (env : Env) (d : Z) (f : FeedRow)
    (rest : list FeedRow) (w w1 : World) (e : JsError) :
  refreshMpArticlesAndUpdateFeed env alone (feed_id f) 1 w
  = (w1, Rejected e) ->
  cron_each env alone d (f :: rest) w
  = (emit (EvSleep (30 * 1000)) (set_tick (S (tick w1)) w1), Rejected e).
Proof.
  intros H. cbn [cron_each]. unfold bind at 1, try_finally, bind at 1.
  rewrite H. reflexivity.
Qed.

Lemma cron_each_resolved (env : Env) (d : Z) (f : FeedRow)
    (rest : list FeedRow) (w w1 : World) (h : Z) :
  refreshMpArticlesAndUpdateFeed env alone (feed_id f) 1 w
  = (w1, Resolved h) ->
  cron_each env alone d (f :: rest) w
  = cron_each env alone d rest
      (emit (EvSleep (30 * 1000))
         (set_tick (S (S (tick w1)))
            (emit (EvSleep (d * 1000)) (set_tick (S (tick w1)) w1)))).
Proof.
  intros H. cbn [cron_each]. unfold bind at 1, try_finally, bind at 1.
  rewrite H. reflexivity.
Qed.

(** What one sync adds to the trace. *)
Lemma sync_events (env : Env) (mpId : string) (page : Z) (w : World) :
  exists evs,
    trace (fst (refreshMpArticlesAndUpdateFeed env alone mpId page w))
    = trace w ++ evs
    /\ Forall (fetch_of mpId page) (fetches evs)
    /\ (length (fetches evs) <= 4)%nat
    /\ (forall h,
          snd (refreshMpArticlesAndUpdateFeed env alone mpId page w)
          = Resolved h ->
          (1 <= length (fetches evs))%nat).
Proof.
  destruct (requests_refreshMpArticlesAndUpdateFeed env mpId page w)
    as (evs & Htr & HP & Hlen).
  destruct (refreshMpArticlesAndUpdateFeed_fetch_events env mpId page w)
    as (evs' & Htr' & _ & Hnil & _).
  rewrite Htr in Htr'. apply app_inv_head in Htr'. subst evs'.
  exists evs. split; [exact Htr|]. split; [exact HP|]. split; [exact Hlen|].
  intros h Hres. destruct (fetches evs) as [|x l] eqn:E; [|cbn; lia].
  destruct (Hnil eq_refl) as [e He]. congruence.
Qed.

Lemma cron_each_cron_run (env : Env) (d : Z) (fs : list FeedRow)
    (w : World) :
  exists evs,
    cron_run env d fs w evs (cron_each env alone d fs w)
    /\ trace (fst (cron_each env alone d fs w)) = trace w ++ evs.
Proof.
  revert w. induction fs as [|f fs IH]; intros w.
  { exists []. split; [constructor|]. cbn. now rewrite List.app_nil_r. }
  destruct (sync_events env (feed_id f) 1 w) as (evs & Htr & HP & Hlen & Hone).
  destruct (refreshMpArticlesAndUpdateFeed env alone (feed_id f) 1 w)
    as [w1 [h|e]] eqn:Erun; cbn [fst snd] in *.
  - rewrite (cron_each_resolved env d f fs w w1 h Erun).
    change (emit (EvSleep (30 * 1000))
              (set_tick (S (S (tick w1)))
                 (emit (EvSleep (d * 1000)) (set_tick (S (tick w1)) w1))))
      with (slept (30 * 1000) (slept (d * 1000) w1)).
    destruct (IH (slept (30 * 1000) (slept (d * 1000) w1)))
      as (evs' & Hrun & Htr').
    exists (evs ++ [EvSleep (d * 1000); EvSleep (30 * 1000)] ++ evs').
    split.
    + eapply cron_run_synced; [exact Erun|exact Htr|exact HP| |exact Hrun].
      split; [now apply (Hone h)|exact Hlen].
    + rewrite Htr'. cbn [trace slept emit set_tick]. rewrite Htr.
      rewrite <- !List.app_assoc. reflexivity.
  - rewrite (cron_each_rejected env d f fs w w1 e Erun).
    exists (evs ++ [EvSleep (30 * 1000)]). split.
    + change (emit (EvSleep (30 * 1000)) (set_tick (S (tick w1)) w1))
        with (slept (30 * 1000) w1).
      eapply cron_run_failed; [exact Erun|exact Htr|exact HP|exact Hlen].
    + cbn [fst trace emit set_tick]. rewrite Htr, <- List.app_assoc.
      reflexivity.
Qed.

(** A run of the loop that rejects has stopped at a feed whose sync
    rejected with that error. *)
Lemma cron_run_rejected (env : Env) (d : Z) (fs : list FeedRow)
    (w w' : World) (evs : list Event) (e : JsError) :
  cron_run env d fs w evs (w', Rejected e) ->
  exists done f rest w0 w1 evs0 evs1,
    fs = done ++ f :: rest
    /\ trace w0 = trace w ++ evs0
    /\ Forall (first_page_of done) (fetches evs0)
    /\ refreshMpArticlesAndUpdateFeed env alone (feed_id f) 1 w0
       = (w1, Rejected e)
    /\ trace w1 = trace w0 ++ evs1
    /\ Forall (fetch_of (feed_id f) 1) (fetches evs1)
    /\ evs = evs0 ++ evs1 ++ [EvSleep (30 * 1000)]
    /\ w' = slept (30 * 1000) w1.
Proof.
  intros H. remember (w', Rejected e) as r eqn:Er.
  induction H as [w|f rest w w1 h evs evs' r Hrun Htr HP Hlen Hrest IH
                  |f rest w w1 e' evs Hrun Htr HP Hlen].
  - discriminate.
  - destruct (IH Er)
      as (done & f' & rest' & w0 & w2 & evs0 & evs1 & -> & Htr0 & HP0 & Hrej
          & Htr1 & HP1 & -> & ->).
    exists (f :: done), f', rest', w0, w2,
      (evs ++ [EvSleep (d * 1000); EvSleep (30 * 1000)] ++ evs0), evs1.
    split; [reflexivity|]. split.
    { rewrite Htr0. cbn [trace slept emit set_tick]. rewrite Htr.
      rewrite <- !List.app_assoc. reflexivity. }
    split.
    { rewrite !fetches_app. cbn [fetches List.filter is_fetch app].
      apply Forall_app. split.
      - eapply List.Forall_impl; [|exact HP]. intros x Hx. exists f.
        split; [now left|exact Hx].
      - eapply List.Forall_impl; [|exact HP0]. intros x (g & Hg & Hx).
        exists g. split; [now right|exact Hx]. }
    split; [exact Hrej|]. split; [exact Htr1|]. split; [exact HP1|].
    split; [|reflexivity]. rewrite <- !List.app_assoc. reflexivity.
  - injection Er as <- <-.
    exists [], f, rest, w, w1, [], evs.
    split; [reflexivity|]. split; [now rewrite List.app_nil_r|].
    split; [constructor|]. split; [exact Hrun|]. split; [exact Htr|].
    split; [exact HP|]. split; reflexivity.
Qed.

(** X10: the scheduled sync [handleUpdateFeedsCron] asks the platform only
    for page 1 of feeds that are stored with status ENABLE when it starts
    and goes over them in order, feed by feed ([cron_run]): the sync of a
    feed makes at most four requests, all for page 1 of that feed; after
    every feed the loop pauses for 30 seconds, on success after the
    configured delay and on failure at once; and the failure of a feed,
    wherever it stands in the list, ends the run: the run rejects with the
    error of that feed's sync, the pause of 30 seconds is the last thing
    it does, and it has made requests only for the feeds before that one
    and for that one. *)
Theorem X10_handleUpdateFeedsCron (env : Env) (w : World) :
  let run := handleUpdateFeedsCron env alone w in
  (exists evs,
      trace (fst run) = trace w ++ evs
      /\ Forall (first_page_of (enabled_feeds w)) (fetches evs)
      /\ (length (fetches evs) <= 4 * length (enabled_feeds w))%nat)
  /\ (forall f rest w1 e,
        enabled_feeds w = f :: rest ->
        refreshMpArticlesAndUpdateFeed env alone (feed_id f) 1
          (cron_started w) = (w1, Rejected e) ->
        run
        = (emit (EvSleep (30 * 1000)) (set_tick (S (tick w1)) w1),
           Rejected e))
  /\ (forall f rest w1 h,
        enabled_feeds w = f :: rest ->
        refreshMpArticlesAndUpdateFeed env alone (feed_id f) 1
          (cron_started w) = (w1, Resolved h) ->
        run
        = cron_each env alone (getUpdateDelaySeconds env) rest
            (emit (EvSleep (30 * 1000))
               (set_tick (S (S (tick w1)))
                  (emit (EvSleep (getUpdateDelaySeconds env * 1000))
                     (set_tick (S (tick w1)) w1)))))
  /\ (exists evs,
        cron_run env (getUpdateDelaySeconds env) (enabled_feeds w)
          (cron_started w) evs run
        /\ trace (fst run) = trace w ++ EvD1 SelectEnabledFeeds :: evs)
  /\ (forall e,
        snd run = Rejected e ->
        exists done f rest w0 w1 evs0 evs1,
          enabled_feeds w = done ++ f :: rest
          /\ trace w0 = trace w ++ EvD1 SelectEnabledFeeds :: evs0
          /\ Forall (first_page_of done) (fetches evs0)
          /\ refreshMpArticlesAndUpdateFeed env alone (feed_id f) 1 w0
             = (w1, Rejected e)
          /\ trace w1 = trace w0 ++ evs1
          /\ Forall (fetch_of (feed_id f) 1) (fetches evs1)
          /\ (length (fetches evs1) <= 4)%nat
          /\ fst run = slept (30 * 1000) w1).
Proof.
  cbv zeta. split; [|split; [|split; [|split]]].
  - rewrite handleUpdateFeedsCron_run.
    destruct (requests_cron_each env (getUpdateDelaySeconds env)
                (enabled_feeds w) (cron_started w))
      as (evs & Htr & HP & Hlen).
    exists (EvD1 SelectEnabledFeeds :: evs).
    split; [rewrite Htr; cbn [trace cron_started emit set_tick];
            rewrite <- List.app_assoc; reflexivity|].
    split; assumption.
  - intros f rest w1 e Hfs Hrej. rewrite handleUpdateFeedsCron_run, Hfs.
    now apply cron_each_rejected.
  - intros f rest w1 h Hfs Hres. rewrite handleUpdateFeedsCron_run, Hfs.
    now apply (cron_each_resolved env _ f rest _ w1 h).
  - rewrite handleUpdateFeedsCron_run.
    destruct (cron_each_cron_run env (getUpdateDelaySeconds env)
                (enabled_feeds w) (cron_started w)) as (evs & Hrun & Htr).
    exists evs. split; [exact Hrun|]. rewrite Htr.
    cbn [trace cron_started emit set_tick].
    rewrite <- List.app_assoc. reflexivity.
  - rewrite handleUpdateFeedsCron_run. intros e He.
    destruct (cron_each_cron_run env (getUpdateDelaySeconds env)
                (enabled_feeds w) (cron_started w)) as (evs & Hrun & _).
    destruct (cron_each env alone (getUpdateDelaySeconds env)
                (enabled_feeds w) (cron_started w)) as [w' r].
    cbn [fst snd] in *. subst r.
    destruct (cron_run_rejected _ _ _ _ _ _ _ Hrun)
      as (done & f & rest & w0 & w1 & evs0 & evs1 & Hfs & Htr0 & HP0 & Hrej
          & Htr1 & HP1 & _ & ->).
    exists done, f, rest, w0, w1, evs0, evs1.
    split; [exact Hfs|]. split.
    { rewrite Htr0. cbn [trace cron_started emit set_tick].
      rewrite <- List.app_assoc. reflexivity. }
    split; [exact HP0|]. split; [exact Hrej|]. split; [exact Htr1|].
    split; [exact HP1|]. split; [|reflexivity].
    destruct (sync_events env (feed_id f) 1 w0) as (evs' & Htr' & _ & Hlen & _).
    rewrite Hrej in Htr'. cbn [fst] in Htr'. rewrite Htr1 in Htr'.
    apply app_inv_head in Htr'. now subst evs'.
Qed.

Lemma X10_handleUpdateFeedsCron_witness :
  snd (handleUpdateFeedsCron env_first_feed_only alone three_feeds)
  = Rejected bare_401
  /\ exists done f rest w0 w1 evs0 evs1,
       enabled_feeds three_feeds = done ++ f :: rest
       /\ trace w0 = trace three_feeds ++ EvD1 SelectEnabledFeeds :: evs0
       /\ Forall (first_page_of done) (fetches evs0)
       /\ refreshMpArticlesAndUpdateFeed env_first_feed_only alone
            (feed_id f) 1 w0 = (w1, Rejected bare_401)
       /\ trace w1 = trace w0 ++ evs1
       /\ Forall (fetch_of (feed_id f) 1) (fetches evs1)
       /\ (length (fetches evs1) <= 4)%nat
       /\ fst (handleUpdateFeedsCron env_first_feed_only alone three_feeds)
          = slept (30 * 1000) w1.
Proof.
  assert (H : snd (handleUpdateFeedsCron env_first_feed_only alone
                     three_feeds) = Rejected bare_401)
    by (vm_compute; reflexivity).
  split; [exact H|].
  exact (proj2 (proj2 (proj2 (proj2
           (X10_handleUpdateFeedsCron env_first_feed_only three_feeds))))
           bare_401 H).
Defined.

(** Over three enabled feeds, with an upstream that refuses the second:
    the first feed is synced with one request, the second with four, and
    the run ends there with the error of the second, after the pause of
    30 seconds; nothing is asked for the third. *)
Example cron_stops_at_second_feed :
  let r := handleUpdateFeedsCron env_first_feed_only alone three_feeds in
  snd r = Rejected bare_401
  /\ fetches (trace (fst r))
     = EvFetchArticles "vid0" "token" "mp" 1
       :: repeat (EvFetchArticles "vid0" "token" "mp2" 1) 4
  /\ List.filter (fun e => match e with EvSleep _ => true | _ => false end)
       (trace (fst r))
     = [EvSleep 60000; EvSleep 30000; EvSleep 30000]
  /\ last (trace (fst r)) = Some (EvSleep 30000).
Proof. cbv zeta. by_evaluation. Qed.

(** The scheduled sync leaves a disabled feed alone. *)
Example cron_skips_disabled_feed :
  fetches (trace (fst (handleUpdateFeedsCron env_full_page alone
                         one_disabled_feed))) = [].
Proof. vm_compute. reflexivity. Qed.

Lemma refreshAll_run (env : Env) (w : World) :
  isRefreshAllMpArticlesRunning w = false ->
  refreshAllMpArticlesAndUpdateFeed env alone w
  = let r := refresh_each env alone (feeds w) (sweep_started w) in
    (set_isRefreshAllMpArticlesRunning false (fst r), snd r).
Proof.
  intros H. unfold refreshAllMpArticlesAndUpdateFeed, bind at 1, get.
  rewrite H. unfold bind at 1, modify, try_finally.
  change ((let* feeds := listAllFeeds alone in refresh_each env alone feeds)
            (set_isRefreshAllMpArticlesRunning true w))
    with (refresh_each env alone (feeds w) (sweep_started w)).
  cbv zeta. destruct (refresh_each env alone (feeds w) (sweep_started w))
    as [w1 r]. reflexivity.
Qed.


(** The sweep does sync a disabled feed. *)
Example sweep_syncs_disabled_feed :
  fetches (trace (fst (refreshAllMpArticlesAndUpdateFeed env_full_page alone
                         one_disabled_feed)))
  = [EvFetchArticles "vid0" "token" "mp" 1].
Proof. vm_compute. reflexivity. Qed.


(** With an upstream that refuses every request, both loops stop at the
    first feed: the four requests of its sync are the only ones. *)
Example loops_stop_at_first_failure :
  fetches (trace (fst (handleUpdateFeedsCron env0 alone two_feeds)))
  = repeat (EvFetchArticles "vid0" "token" "mp" 1) 4
  /\ last (trace (fst (handleUpdateFeedsCron env0 alone two_feeds)))
     = Some (EvSleep 30000)
  /\ fetches (trace (fst (refreshAllMpArticlesAndUpdateFeed env0 alone
                            two_feeds)))
     = repeat (EvFetchArticles "vid0" "token" "mp" 1) 4
  /\ isRefreshAllMpArticlesRunning
       (fst (refreshAllMpArticlesAndUpdateFeed env0 alone two_feeds))
     = false.
Proof. by_evaluation. Qed.

(** ** The deep-history sync *)

Lemma requests_ret_any {A : Type} (P : Event -> Prop) (n : nat) (a : A) :
  requests P n (ret a).
Proof.
  apply (requests_weaken P P 0); [auto|lia|apply requests_ret].
Qed.

Lemma requests_history_loop (env : Env) (mpId : string) (i : nat) :
  requests (page_of mpId) (4 * i) (history_loop env alone mpId i).
Proof.
  induction i as [|i IH]; cbn [history_loop]; [apply requests_ret|].
  replace (4 * S i)%nat with (0 + (4 + (0 + (0 + 4 * i))))%nat by lia.
  apply requests_bind; [apply requests_get|]. intros marker.
  apply requests_if.
  { apply requests_ret_any. }
  apply requests_bind.
  { eapply requests_weaken;
      [| |apply requests_refreshMpArticlesAndUpdateFeed]; [|lia].
    intros e He. now exists (hm_page marker). }
  intros h. apply requests_if.
  { apply requests_ret_any. }
  apply requests_bind; [apply requests_modify; reflexivity|]. intros _.
  apply requests_bind; [apply requests_sleep|]. intros _. exact IH.
Qed.

Lemma requests_getHistoryMpArticles (env : Env) (mpId : string) :
  requests (page_of mpId) 4000 (getHistoryMpArticles env alone mpId).
Proof.
  unfold getHistoryMpArticles.
  change 4000%nat with (0 + (0 + ((0 + (0 + (0 + 4 * 1000))) + 0)))%nat.
  apply requests_bind; [apply requests_get|]. intros marker.
  apply requests_if.
  { apply requests_ret_any. }
  apply requests_bind; [apply requests_modify; reflexivity|]. intros _.
  apply requests_if.
  { apply requests_ret_any. }
  apply requests_try_finally; [|apply requests_modify; reflexivity].
  apply requests_bind; [apply requests_d1; reflexivity|].
  intros [feed|];
    [|apply requests_ret_any].
  apply requests_if.
  { apply requests_ret_any. }
  apply requests_bind; [apply requests_d1; reflexivity|]. intros total.
  apply requests_bind; [apply requests_modify; reflexivity|]. intros _.
  apply requests_history_loop.
Qed.

Lemma getHistoryMpArticles_started (env : Env) (mpId : string) (w : World) :
  String.eqb (hm_id (inProgressHistoryMp w)) mpId = false ->
  String.eqb mpId "" = false ->
  getHistoryMpArticles env alone mpId w
  = try_finally
      (let* feed := getFeedById alone mpId in
       match feed with
       | None => ret tt
       | Some feed =>
           if (has_history feed =? 0)%Z then ret tt
           else
             let* total := countArticlesByMpId alone mpId in
             modify (fun w =>
               set_inProgressHistoryMp
                 {| hm_id := hm_id (inProgressHistoryMp w);
                    hm_page := Math_ceil_div total defaultCount |} w) >>
             history_loop env alone mpId 1000
       end)
      (modify (set_inProgressHistoryMp {| hm_id := ""; hm_page := 1 |}))
      (set_inProgressHistoryMp {| hm_id := mpId; hm_page := 1 |} w).
Proof.
  intros Hm He. unfold getHistoryMpArticles, bind at 1, get.
  rewrite Hm. unfold bind at 1, modify at 1. rewrite He. reflexivity.
Qed.

(** X12: the marker of the deep-history sync. A call for the feed that is
    already in progress does nothing at all; a call for any other id
    ends, resolved or rejected, with the marker idle (empty id, page 1);
    a call with the empty id while a feed is in progress is the stop
    request: it puts the marker to idle without a statement or a request;
    and the loop does no further round, whatever else runs on the event
    loop, once the marker names another id than its feed. *)
Theorem X12_history_marker (env : Env) (mpId : string) (w : World) :
  (hm_id (inProgressHistoryMp w) = mpId ->
   getHistoryMpArticles env alone mpId w = (w, Resolved tt))
  /\ (hm_id (inProgressHistoryMp w) <> mpId ->
      inProgressHistoryMp (fst (getHistoryMpArticles env alone mpId w))
      = idle_marker)
  /\ (hm_id (inProgressHistoryMp w) <> "" ->
      getHistoryMpArticles env alone "" w
      = (set_inProgressHistoryMp idle_marker w, Resolved tt))
  /\ (forall others i,
        hm_id (inProgressHistoryMp w) <> mpId ->
        history_loop env others mpId i w = (w, Resolved tt)).
Proof.
  split; [|split; [|split]].
  - intros H. unfold getHistoryMpArticles, bind, get.
    apply String.eqb_eq in H. rewrite H. reflexivity.
  - intros H. apply String.eqb_neq in H.
    destruct (String.eqb_spec mpId "") as [E|E].
    + subst mpId. unfold getHistoryMpArticles, bind, get, modify.
      rewrite H. reflexivity.
    + apply String.eqb_neq in E.
      rewrite (getHistoryMpArticles_started env mpId w H E).
      unfold try_finally, modify.
      match goal with |- context [bind ?m ?k ?w0] =>
        destruct (bind m k w0) as [w1 r] end.
      reflexivity.
  - intros H. apply String.eqb_neq in H.
    unfold getHistoryMpArticles, bind, get, modify. rewrite H. reflexivity.
  - intros others i H. apply String.eqb_neq in H.
    destruct i as [|i]; [reflexivity|].
    cbn [history_loop]. unfold bind, get. rewrite H. reflexivity.
Qed.

Lemma getHistoryMpArticles_nothing_to_fetch (env : Env) (mpId : string)
    (w : World) :
  hm_id (inProgressHistoryMp w) <> mpId -> mpId <> "" ->
  match stored_feed mpId w with
  | Some feed => has_history feed = 0%Z
  | None => True
  end ->
  getHistoryMpArticles env alone mpId w
  = (set_inProgressHistoryMp idle_marker
       (emit (EvD1 (SelectFeedById mpId)) (set_tick (S (tick w)) w)),
     Resolved tt).
Proof.
  intros Hm He Hfeed. apply String.eqb_neq in Hm, He.
  rewrite (getHistoryMpArticles_started env mpId w Hm He).
  unfold try_finally, bind at 1. rewrite getFeedById_run.
  unfold stored_feed in Hfeed. cbn [feeds set_inProgressHistoryMp].
  destruct (List.find _ (feeds w)) as [feed|].
  - rewrite Hfeed. reflexivity.
  - reflexivity.
Qed.

(** X13: the requests of the deep-history sync. Every articles request of
    [getHistoryMpArticles] is for a page of the feed it was called for,
    and a call makes at most 4000 of them (1000 rounds of at most four
    attempts). For a feed that is not stored, or whose [has_history] is 0,
    the call reads the feed row and ends: it resolves without any request,
    without writing to a table, and leaves the marker idle. *)
Theorem X13_history_requests (env : Env) (mpId : string) (w : World) :
  (exists evs,
      trace (fst (getHistoryMpArticles env alone mpId w)) = trace w ++ evs
      /\ Forall (page_of mpId) (fetches evs)
      /\ (length (fetches evs) <= 4000)%nat)
  /\ (hm_id (inProgressHistoryMp w) <> mpId -> mpId <> "" ->
      match stored_feed mpId w with
      | Some feed => has_history feed = 0%Z
      | None => True
      end ->
      let r := getHistoryMpArticles env alone mpId w in
      snd r = Resolved tt
      /\ trace (fst r) = trace w ++ [EvD1 (SelectFeedById mpId)]
      /\ accounts (fst r) = accounts w /\ feeds (fst r) = feeds w
      /\ articles (fst r) = articles w
      /\ inProgressHistoryMp (fst r) = idle_marker).
Proof.
  split; [apply requests_getHistoryMpArticles|].
  intros Hm He Hfeed. cbv zeta.
  rewrite (getHistoryMpArticles_nothing_to_fetch env mpId w Hm He Hfeed).
  cbn [fst snd]. split; [reflexivity|]. split; [reflexivity|].
  split; [reflexivity|]. split; [reflexivity|]. split; reflexivity.
Qed.

(** The deep-history sync of the finished feed makes no request. *)
Example history_of_finished_feed :
  fetches (trace (fst (getHistoryMpArticles env_full_page alone
                         (feed_id finished_feed) finished_world))) = []
  /\ snd (getHistoryMpArticles env_full_page alone
            (feed_id finished_feed) finished_world) = Resolved tt.
Proof. by_evaluation. Qed.


(** ** What a sync writes *)

Lemma sql_upsertArticles_ids (mpId : string) (now : Z)
    (arts : list ArticleSummary) (tbl : list ArticleRow) (id : string) :
  In id (map art_id (sql_upsertArticles mpId now arts tbl))
  <-> In id (map art_id tbl) \/ In id (map s_id arts).
Proof.
  induction arts as [|a arts IH] using rev_ind.
  - cbn. tauto.
  - rewrite sql_upsertArticles_snoc, sql_upsertArticle_ids, IH, map_app,
      in_app_iff.
    cbn [map In excluded art_id]. intuition congruence.
Qed.

Lemma sql_updateFeed_row (id : string) (data : FeedPatch) (now : Z)
    (tbl : list FeedRow) (r : FeedRow) :
  In r (sql_updateFeed id data now tbl) -> feed_id r = id ->
  exists old, In old tbl /\ feed_id old = id /\ r = patch_feed data now old.
Proof.
  intros Hin Hid. unfold sql_updateFeed in Hin.
  apply in_map_iff in Hin as (old & Hr & Hin).
  destruct (String.eqb_spec (feed_id old) id) as [E|E].
  - exists old. split; [exact Hin|]. split; [exact E|]. now symmetry.
  - subst r. contradiction.
Qed.

(** X14: what [refreshMpArticlesAndUpdateFeed] writes. When it rejects, it
    has written neither a feed row nor an article row. When it resolves,
    the fetch returned a body: a page, of which every article is then
    stored, and [hasHistory] is 0 for fewer than twenty articles and 1
    otherwise; or the empty object of an answer that was not JSON, for
    which no article row is written and [hasHistory] is 1. In both cases
    the rows of the feed carry the returned [hasHistory] and as [sync_time]
    the seconds of the clock read after the page was stored; no feed row is
    created or removed (a sync of an id that is not stored stamps
    nothing), and the rows of other feeds are the same. *)
Theorem X14_sync_writes (env : Env) (mpId : string) (page : Z) (w : World) :
  let r := refreshMpArticlesAndUpdateFeed env alone mpId page w in
  (forall e, snd r = Rejected e ->
             feeds (fst r) = feeds w /\ articles (fst r) = articles w)
  /\ (forall h, snd r = Resolved h ->
        exists data,
          let w1 := fst (getMpArticles env alone mpId page 3 w) in
          let w2 := fst (upsertArticles env alone mpId (elements data) w1) in
          snd (getMpArticles env alone mpId page 3 w) = Resolved data
          /\ match data with
             | Json arts =>
                 h = (if (length arts <? 20)%nat then 0%Z else 1%Z)
                 /\ (forall a, In a arts ->
                                In (s_id a) (map art_id (articles (fst r))))
             | EmptyObject =>
                 h = 1%Z /\ articles (fst r) = articles w
             end
          /\ map feed_id (feeds (fst r)) = map feed_id (feeds w)
          /\ (forall f, In f (feeds (fst r)) -> feed_id f = mpId ->
                        has_history f = h
                        /\ sync_time f = Math_floor_div (nowMs env w2) 1000)
          /\ (forall f, feed_id f <> mpId ->
                        (In f (feeds (fst r)) <-> In f (feeds w)))).
Proof.
  cbv zeta. rewrite refreshMpArticlesAndUpdateFeed_run.
  pose proof (feeds_getMpArticles env mpId page 3 w) as Hfeeds.
  pose proof (keeps_getMpArticles articles env Framed_articles mpId page 3
                (fun _ _ => eq_refl) (fun _ _ => eq_refl) w) as Harts.
  destruct (getMpArticles env alone mpId page 3 w) as [w1 [data|e]];
    cbn [fst snd] in *.
  - split; [intros e [=]|]. intros h [= <-]. exists data.
    split; [reflexivity|].
    pose proof (feeds_upsertArticles env mpId (elements data) w1) as Hf2.
    set (w2 := fst (upsertArticles env alone mpId (elements data) w1)) in *.
    rewrite updateFeed_run. cbv zeta.
    cbn [fst feeds articles emit set_tick set_feeds].
    rewrite Hf2, Hfeeds. split; [|split; [|split]].
    + destruct data as [arts|]; cbn [elements] in *.
      * split.
        { unfold hasHistory_of, defaultCount. cbn [Array_length js_lt].
          destruct (Nat.ltb_spec (length arts) 20),
            (Z.ltb_spec (Z.of_nat (length arts)) 20); try reflexivity; lia. }
        intros a Ha. unfold w2. rewrite upsertArticles_run.
        destruct arts as [|a0 arts]; [destruct Ha|].
        cbn [fst articles set_articles emit set_tick].
        apply sql_upsertArticles_ids. right. now apply in_map.
      * split; [reflexivity|]. exact Harts.
    + apply sql_updateFeed_ids.
    + intros f Hin Hid.
      split;
        [eapply sql_updateFeed_has_history;
           [|exact Hin|exact Hid]; reflexivity|].
      apply sql_updateFeed_row in Hin as (old & _ & _ & ->); [|exact Hid].
      reflexivity.
    + intros f Hne. now apply sql_updateFeed_others.
  - split; [|intros h [=]]. intros e' _. split; assumption.
Qed.

(** A sync whose answer is an HTTP 200 with a body that is not JSON
    resolves after that one request: it stores no article and writes
    [has_history] = 1, here over the 0 that was stored. *)
Example sync_of_answer_that_is_not_json :
  let r := refreshMpArticlesAndUpdateFeed env_not_json alone "mp" 1
             finished_world in
  snd r = Resolved 1%Z
  /\ fetches (trace (fst r)) = [EvFetchArticles "vid0" "token" "mp" 1]
  /\ articles (fst r) = []
  /\ map has_history (feeds finished_world) = [0%Z]
  /\ map has_history (feeds (fst r)) = [1%Z].
Proof. cbv zeta. by_evaluation. Qed.

(** A sync of a feed id that is not stored resolves, creates no feed row,
    and stores the page all the same. *)
Example sync_of_unknown_feed :
  let r := refreshMpArticlesAndUpdateFeed env_full_page alone "unknown" 1
             one_account in
  snd r = Resolved 1%Z /\ feeds (fst r) = []
  /\ length (articles (fst r)) = 20%nat.
Proof. cbv zeta. by_evaluation. Qed.


(** ** The items of a generated feed *)

Lemma filter_ext_in_bool {A : Type} (f g : A -> bool) (l : list A) :
  (forall x, In x l -> f x = g x) -> List.filter f l = List.filter g l.
Proof.
  induction l as [|x l IH]; intros H; [reflexivity|]. cbn [List.filter].
  rewrite (H x (or_introl eq_refl)), IH; [reflexivity|].
  intros y Hy. apply H. now right.
Qed.

Lemma filter_twice {A : Type} (f g : A -> bool) (l : list A) :
  List.filter g (List.filter f l) = List.filter (fun x => f x && g x) l.
Proof.
  induction l as [|x l IH]; [reflexivity|]. cbn [List.filter].
  destruct (f x); cbn [List.filter andb]; rewrite IH; reflexivity.
Qed.

Lemma Forall2_filter {A B : Type} (R : A -> B -> Prop) (f : A -> bool)
    (g : B -> bool) (l1 : list A) (l2 : list B) :
  (forall x y, R x y -> f x = g y) ->
  List.Forall2 R l1 l2 ->
  List.Forall2 R (List.filter f l1) (List.filter g l2).
Proof.
  intros Hfg H. induction H as [|x y l1 l2 Hxy H IH]; [constructor|].
  cbn [List.filter]. rewrite (Hfg x y Hxy).
  destruct (g y); [constructor; assumption|exact IH].
Qed.

Lemma includes_empty (s : string) : includes s "" = true.
Proof. destruct s; reflexivity. Qed.

Lemma render_items_run (env : Env) (fs : list FeedRow)
    (enableFullText showAuthor : bool) (arts : list ArticleRow) (w : World) :
  exists w' items,
    render_items env alone fs enableFullText showAuthor arts w
    = (w', Resolved items)
    /\ List.Forall2 rendered items arts.
Proof.
  revert w. induction arts as [|a arts IH]; intros w; cbn [render_items].
  - exists w, []. split; [reflexivity|constructor].
  - unfold bind at 1.
    assert (Hc : exists w1 content,
               (if enableFullText then tryGetContent env alone (art_id a)
                else ret "") w = (w1, Resolved content)).
    { destruct enableFullText;
        [apply resolves_tryGetContent|apply resolves_ret]. }
    destruct Hc as (w1 & content & ->). unfold bind at 1.
    destruct (IH w1) as (w2 & items & -> & HF).
    eexists; eexists. split; [reflexivity|].
    constructor; [|exact HF]. repeat split.
Qed.

Lemma renderFeed_run (env : Env) (type : string) (feedInfo : FeedRow)
    (arts : list ArticleRow) (mode : option string) (w : World) :
  exists w' doc,
    renderFeed env alone type feedInfo arts mode w = (w', Resolved doc)
    /\ List.Forall2 rendered (fd_items doc) arts.
Proof.
  unfold renderFeed, bind at 1.
  match goal with |- context [listAllFeeds alone w] =>
    destruct (resolves_d1 SelectAllFeeds (fun w => (w, feeds w)) w)
      as (w1 & fs & Hl) end.
  unfold listAllFeeds. rewrite Hl. unfold bind at 1.
  match goal with |- context [render_items env alone ?f ?b ?c arts w1] =>
    destruct (render_items_run env f b c arts w1) as (w2 & items & -> & HF)
  end.
  eexists; eexists. split; [reflexivity|]. exact HF.
Qed.

(** X15: the items of a generated feed. When [handleGenerateFeed]
    resolves, the document handed to the serializer holds, in their order,
    exactly the articles of the requested page (of the feed, or of all
    feeds; by publish time, newest first) whose title passes the title
    filters: with [title_include] the title contains one of its keywords,
    with [title_exclude] it contains none of them; each item carries the
    id, title, link, date and picture of its article. With a limit that is
    not negative there are at most [limit] items, and an exclude list with
    an empty keyword (a leading, trailing or doubled bar) leaves no item at
    all, since every title contains the empty string. *)
Theorem X15_generated_items (env : Env) (opts : GenerateOpts) (w : World)
    (content : string) (mime : option string) :
  snd (handleGenerateFeed env alone opts w) = Resolved (content, mime) ->
  exists doc,
    content = renderer env (normalize_type (o_type opts)) doc
    /\ List.Forall2 rendered (fd_items doc)
         (List.filter (fun a => passes_title_filters opts (art_title a))
            (selected_articles opts w))
    /\ ((0 <= o_limit opts)%Z ->
        (length (fd_items doc) <= Z.to_nat (o_limit opts))%nat)
    /\ (truthy_string (o_title_exclude opts) = true ->
        In "" (split "|" (default "" (o_title_exclude opts))) ->
        fd_items doc = []).
Proof.
  intros H.
  assert (Hmain : exists doc,
    content = renderer env (normalize_type (o_type opts)) doc
    /\ List.Forall2 rendered (fd_items doc)
         (List.filter (fun a => passes_title_filters opts (art_title a))
            (selected_articles opts w))).
  { revert H. unfold handleGenerateFeed. cbv zeta.
    change (if existsb (String.eqb (o_type opts)) feedTypes
            then o_type opts else "atom")
      with (normalize_type (o_type opts)).
    set (type := normalize_type (o_type opts)).
    assert (Hfinal : forall (feed : FeedDoc) (w0 : World),
      snd ((if String.eqb type "rss"
            then ret (feed_rss2 env feed, feedMimeTypeMap type)
            else if String.eqb type "json"
            then ret (feed_json1 env feed, feedMimeTypeMap type)
            else ret (feed_atom1 env feed, feedMimeTypeMap type)) w0)
      = Resolved (content, mime) ->
      content = renderer env type feed).
    { intros feed w0. unfold renderer.
      destruct (String.eqb type "rss"); [|destruct (String.eqb type "json")];
        cbn [ret snd]; intros [= <- _]; reflexivity. }
    assert (Hfilter : forall (doc : FeedDoc) (arts : list ArticleRow),
      List.Forall2 rendered (fd_items doc) arts ->
      List.Forall2 rendered
        (fd_items
           (if truthy_string (o_title_exclude opts)
            then
              with_items
                (List.filter
                   (fun i =>
                      negb (existsb (fun k => includes (item_title i) k)
                              (split "|"
                                 (default "" (o_title_exclude opts)))))
                   (fd_items
                      (if truthy_string (o_title_include opts)
                       then
                         with_items
                           (List.filter
                              (fun i =>
                                 existsb
                                   (fun k => includes (item_title i) k)
                                   (split "|"
                                      (default "" (o_title_include opts))))
                              (fd_items doc)) doc
                       else doc)))
                (if truthy_string (o_title_include opts)
                 then
                   with_items
                     (List.filter
                        (fun i =>
                           existsb (fun k => includes (item_title i) k)
                             (split "|"
                                (default "" (o_title_include opts))))
                        (fd_items doc)) doc
                 else doc)
            else
              if truthy_string (o_title_include opts)
              then
                with_items
                  (List.filter
                     (fun i =>
                        existsb (fun k => includes (item_title i) k)
                          (split "|" (default "" (o_title_include opts))))
                     (fd_items doc)) doc
              else doc))
        (List.filter (fun a => passes_title_filters opts (art_title a))
           arts)).
    { intros doc arts HF. unfold passes_title_filters.
      destruct (truthy_string (o_title_include opts));
        destruct (truthy_string (o_title_exclude opts));
        cbn [with_items fd_items]; rewrite ?filter_twice.
      4: { rewrite (filter_all _ arts) by reflexivity. exact HF. }
      all: (apply Forall2_filter; [|exact HF]);
        intros x y (_ & Ht & _); rewrite Ht;
        rewrite ?andb_true_r; reflexivity. }
    unfold bind at 1. unfold selected_articles.
    destruct (truthy_string (o_id opts)) eqn:Eid.
    - unfold bind at 1. rewrite getFeedById_run.
      destruct (List.find _ (feeds w)) as [feedInfo|] eqn:Efeed;
        [|cbn [throw snd]; discriminate].
      unfold bind at 1, getArticlesByMpId, d1, bind at 1, suspend, alone.
      cbv iota beta. unfold ret at 1. cbv iota beta. unfold bind at 1.
      cbn [fst snd articles emit set_tick].
      change (fun (_ : nat) (w0 : World) => w0) with alone.
      match goal with |- context [renderFeed env alone ?t ?f ?a ?m ?w1] =>
        destruct (renderFeed_run env t f a m w1) as (w3 & doc & -> & HF) end.
      intros H. apply Hfinal in H. eexists. split; [exact H|].
      apply Hfilter. exact HF.
    - unfold bind at 1, getAllArticles, d1, bind at 1, suspend, alone.
      cbv iota beta. unfold bind at 1, get, ret at 1. cbv iota beta.
      unfold bind at 1. cbn [fst snd articles emit set_tick].
      change (fun (_ : nat) (w0 : World) => w0) with alone.
      match goal with |- context [renderFeed env alone ?t ?f ?a ?m ?w1] =>
        destruct (renderFeed_run env t f a m w1) as (w3 & doc & -> & HF) end.
      intros H. apply Hfinal in H. eexists. split; [exact H|].
      apply Hfilter. exact HF. }
  destruct Hmain as (doc & Hc & HF). exists doc.
  split; [exact Hc|]. split; [exact HF|]. split.
  - intros Hlim. rewrite (List.Forall2_length HF).
    etransitivity; [apply List.filter_length_le|].
    unfold selected_articles, sql_getArticles, limit_offset.
    destruct (o_limit opts <? 0)%Z eqn:E; [lia|].
    rewrite length_take. lia.
  - intros Hex Hin.
    assert (Hnone : List.filter
                      (fun a => passes_title_filters opts (art_title a))
                      (selected_articles opts w) = []).
    { apply filter_none. intros a _. unfold passes_title_filters.
      rewrite Hex.
      assert (He : existsb (fun k => includes (art_title a) k)
                     (split "|" (default "" (o_title_exclude opts)))
                   = true).
      { apply existsb_exists. exists "". split; [exact Hin|].
        apply includes_empty. }
      rewrite He. apply andb_false_r. }
    rewrite Hnone in HF. inversion HF. reflexivity.
Qed.

Lemma X15_generated_items_witness :
  snd (handleGenerateFeed env0 alone exclude_trailing_bar forty_five_stored)
  = Resolved ("<rss/>", Some "application/rss+xml; charset=utf-8")
  /\ exists doc,
       "<rss/>" = renderer env0 (normalize_type "rss") doc
       /\ fd_items doc = [].
Proof.
  assert (H : snd (handleGenerateFeed env0 alone exclude_trailing_bar
                     forty_five_stored)
              = Resolved ("<rss/>",
                          Some "application/rss+xml; charset=utf-8")).
  { vm_compute. reflexivity. }
  split; [exact H|].
  destruct (X15_generated_items env0 exclude_trailing_bar forty_five_stored
              _ _ H) as (doc & Hc & _ & _ & Hnone).
  exists doc. split; [exact Hc|].
  apply Hnone; [reflexivity|]. right. now left.
Defined.


(** ** The pages of a feed *)

Lemma pages_cover {A : Type} (L : Z) (k : nat) (l : list A) :
  (0 < L)%Z ->
  flat_map (fun p => limit_offset L ((Z.of_nat p - 1) * L) l) (seq 1 k)
  = take (k * Z.to_nat L) l.
Proof.
  intros HL. induction k as [|k IH]; [reflexivity|].
  rewrite seq_S, flat_map_app, IH. cbn [flat_map].
  rewrite List.app_nil_r. unfold limit_offset.
  destruct (L <? 0)%Z eqn:E; [lia|].
  replace (Z.to_nat ((Z.of_nat (1 + k) - 1) * L)) with (k * Z.to_nat L)%nat
    by nia.
  rewrite take_take_drop. f_equal. lia.
Qed.

(** X16: the pages of a generated feed. For a limit above 0 the articles
    read for the pages 1, 2, ..., k of a request (offset (page - 1) * limit
    of the articles by publish time, newest first) are, put one after the
    other, the first k * limit articles of that order: consecutive pages
    neither overlap nor leave an article out (for a table that is not
    written in between). A page number of 0 or below reads page 1. *)
Theorem X16_feed_pages (opts : GenerateOpts) (w : World) (k : nat) :
  (0 < o_limit opts)%Z ->
  flat_map (fun p => selected_articles (with_page (Z.of_nat p) opts) w)
    (seq 1 k)
  = take (k * Z.to_nat (o_limit opts)) (ranged_articles opts w)
  /\ (forall page, (page <= 1)%Z ->
                   selected_articles (with_page page opts) w
                   = selected_articles (with_page 1 opts) w).
Proof.
  intros HL. split.
  - unfold selected_articles, sql_getArticles, ranged_articles.
    cbn [with_page o_id o_limit o_page]. now apply pages_cover.
  - intros page Hp. unfold selected_articles, sql_getArticles, limit_offset.
    cbn [with_page o_id o_limit o_page].
    replace (Z.to_nat ((page - 1) * o_limit opts)) with 0%nat by nia.
    reflexivity.
Qed.

Lemma X16_feed_pages_witness :
  (0 < o_limit exclude_trailing_bar)%Z
  /\ flat_map
       (fun p =>
          selected_articles (with_page (Z.of_nat p) exclude_trailing_bar)
            forty_five_stored)
       (seq 1 5)
     = take (5 * Z.to_nat (o_limit exclude_trailing_bar))
         (ranged_articles exclude_trailing_bar forty_five_stored).
Proof.
  split; [reflexivity|].
  exact (proj1 (X16_feed_pages exclude_trailing_bar forty_five_stored 5
                  eq_refl)).
Defined.

(** ** The answers of the feed routes to an error *)

(** X17: [getFeedErrorResponse] answers the only error that
    [handleGenerateFeed] raises, the one of a feed that is not stored,
    with 404 "Feed not found" and logs nothing; an error whose message
    does not contain that text is answered with 500 "Internal Server
    Error" and logged; neither case touches the store. *)
Theorem X17_getFeedErrorResponse (env : Env) (opts : GenerateOpts)
    (w w' : World) :
  (forall e, snd (handleGenerateFeed env alone opts w) = Rejected e ->
             getFeedErrorResponse e w'
             = (w', Resolved {| reply_status := 404;
                                reply_body := "Feed not found" |}))
  /\ (forall e, includes (message e) "不存在该feed" = false ->
                getFeedErrorResponse e w'
                = (emit (EvConsoleError "[feeds] error generating feed:") w',
                   Resolved {| reply_status := 500;
                               reply_body := "Internal Server Error" |})).
Proof.
  split.
  - intros e He. pose proof (handleGenerateFeed_outcome env opts w) as H.
    rewrite He in H. destruct H as (-> & _). reflexivity.
  - intros e He. unfold getFeedErrorResponse. rewrite He. reflexivity.
Qed.

(** ** The scheduled handler *)

(** X18: what [scheduled] starts. The feed sync is started exactly when
    the cron expression of the event differs from the one configured for
    the account check, and the account check exactly when the expression
    equals its own or differs from the one of the feed sync; so some job
    is always started, an expression matching neither setting starts
    both, and when both settings are the same expression the feed sync
    is not started by it. *)
Theorem X18_scheduled_jobs (FEED_CRON ACCOUNT_CHECK_CRON : option string)
    (cron : string) :
  let feedCron := default "35 5,17 * * *" FEED_CRON in
  let accountCron := default "0 2,14 * * *" ACCOUNT_CHECK_CRON in
  let jobs := scheduled FEED_CRON ACCOUNT_CHECK_CRON cron in
  (In UpdateFeedsJob jobs <-> cron <> accountCron)
  /\ (In AccountCheckJob jobs <-> cron = accountCron \/ cron <> feedCron)
  /\ jobs <> []
  /\ (feedCron = accountCron -> cron = feedCron -> jobs = [AccountCheckJob]).
Proof.
  cbv zeta. unfold scheduled.
  destruct (String.eqb_spec cron (default "0 2,14 * * *" ACCOUNT_CHECK_CRON))
    as [Ea|Ea];
    [|destruct (String.eqb_spec cron (default "35 5,17 * * *" FEED_CRON))
        as [Ef|Ef]]; cbn [In].
  - split; [split; [intros [H|[]]; discriminate|contradiction]|].
    split; [split; [now left|now left]|]. split; [discriminate|reflexivity].
  - split; [split; [intros _; exact Ea|now left]|].
    split; [split; [intros [H|[]]; discriminate|intros [H|H]; contradiction]|].
    split; [discriminate|]. intros E1 E2. congruence.
  - split; [split; [intros _; exact Ea|intros _; right; now left]|].
    split; [split; [intros _; now right|intros _; now left]|].
    split; [discriminate|]. intros _ E. contradiction.
Qed.


(** ** The account check *)

Section CheckFrames.

Context {B : Type} (view : World -> B) (env : Env) (notifier : Notifier).
Hypothesis framed : Framed view.

Lemma keeps_checkAccountValidity (accountId token : string) :
  keeps view (checkAccountValidity env alone accountId token).
Proof.
  intros w. rewrite checkAccountValidity_run. cbn [fst].
  rewrite (framed_emit view framed), (framed_tick view framed),
    (framed_emit view framed), (framed_tick view framed).
  reflexivity.
Qed.

Lemma keeps_createLoginUrl : keeps view (createLoginUrl alone notifier).
Proof. intros w. apply (framed_tick view framed). Qed.

Lemma keeps_generateQRCodeBase64 (url : option string) :
  keeps view (generateQRCodeBase64 alone notifier url).
Proof. intros w. apply (framed_tick view framed). Qed.

Lemma keeps_sendWebhookNotification (n : Notification) :
  keeps view (sendWebhookNotification alone notifier n).
Proof.
  intros w. unfold sendWebhookNotification, bind, suspend, alone.
  cbv iota beta. destruct (webhook_fetch notifier _ n);
    apply (framed_tick view framed).
Qed.

Lemma keeps_checkAndHandleAccount (account : AccountRow) :
  ignores_accounts view ->
  keeps view (checkAndHandleAccount env alone notifier account).
Proof.
  intros Hacc. unfold checkAndHandleAccount.
  apply keeps_bind; [apply keeps_checkAccountValidity|]. intros isValid.
  apply keeps_if; [apply keeps_ret|].
  apply keeps_bind; [now apply keeps_updateAccount|]. intros _.
  apply keeps_bind; [apply keeps_createLoginUrl|]. intros loginData.
  apply keeps_bind; [apply keeps_generateQRCodeBase64|]. intros qr.
  apply keeps_sendWebhookNotification.
Qed.



End CheckFrames.

Lemma requests_try_catch {A : Type} (P : Event -> Prop) (n k : nat)
    (m : Async A) (h : JsError -> Async A) :
  requests P n m -> (forall e, requests P k (h e)) ->
  requests P (n + k) (try_catch m h).
Proof.
  intros Hm Hh w. unfold try_catch.
  destruct (Hm w) as (evs1 & Htr1 & HP1 & Hlen1).
  destruct (m w) as [w1 [a|e]]; cbn [fst] in *.
  - exists evs1. split; [exact Htr1|]. split; [exact HP1|lia].
  - destruct (Hh e w1) as (evs2 & Htr2 & HP2 & Hlen2).
    exists (evs1 ++ evs2).
    split; [rewrite Htr2, Htr1, List.app_assoc; reflexivity|].
    rewrite fetches_app, List.length_app.
    split; [apply Forall_app; split; assumption|lia].
Qed.

Lemma requests_checkAccountValidity (env : Env) (a : AccountRow) :
  requests (probe_of [a]) 1
    (checkAccountValidity env alone (acc_id a) (acc_token a)).
Proof.
  intros w. rewrite checkAccountValidity_run. cbn [fst].
  exists [EvD1 SelectEnabledFeeds;
          EvFetchArticles (acc_id a) (acc_token a) (testMpId_of w) 1].
  split; [cbn [trace emit set_tick]; rewrite <- List.app_assoc;
          reflexivity|].
  cbn [fetches List.filter is_fetch length]. split; [|lia].
  constructor; [|constructor]. exists a, (testMpId_of w).
  split; [now left|reflexivity].
Qed.

Lemma requests_updateAccount (P : Event -> Prop) (env : Env) (id : string)
    (data : AccountPatch) :
  requests P 0 (updateAccount env alone id data).
Proof.
  unfold updateAccount, getAccountById.
  apply (requests_bind P 0 0); [apply requests_get|]. intros now.
  apply (requests_bind P 0 0); [|intros _]; apply requests_d1; reflexivity.
Qed.

Lemma requests_untraced {A : Type} (P : Event -> Prop) (m : Async A) :
  (forall w, trace (fst (m w)) = trace w) -> requests P 0 m.
Proof.
  intros H. apply requests_quiet. intros w. exists [].
  rewrite List.app_nil_r. split; [apply H|reflexivity].
Qed.

Lemma requests_sendWebhookNotification (P : Event -> Prop)
    (notifier : Notifier) (n : Notification) :
  requests P 0 (sendWebhookNotification alone notifier n).
Proof.
  apply requests_untraced. intros w.
  unfold sendWebhookNotification, bind, suspend, alone. cbv iota beta.
  destruct (webhook_fetch notifier _ n); reflexivity.
Qed.

Lemma requests_checkAndHandleAccount (env : Env) (notifier : Notifier)
    (a : AccountRow) :
  requests (probe_of [a]) 1 (checkAndHandleAccount env alone notifier a).
Proof.
  unfold checkAndHandleAccount.
  apply (requests_bind _ 1 0); [apply requests_checkAccountValidity|].
  intros isValid. apply requests_if; [apply requests_ret|].
  apply (requests_bind _ 0 0); [apply requests_updateAccount|]. intros _.
  apply (requests_bind _ 0 0); [now apply requests_untraced|].
  intros loginData.
  apply (requests_bind _ 0 0); [now apply requests_untraced|]. intros qr.
  apply requests_sendWebhookNotification.
Qed.






Lemma checkAndHandleAccount_valid (env : Env) (notifier : Notifier)
    (a : AccountRow) (w : World) :
  probe_valid env a w = true ->
  checkAndHandleAccount env alone notifier a w = (probed a w, Resolved tt).
Proof.
  intros H. unfold checkAndHandleAccount, bind at 1.
  rewrite checkAccountValidity_run.
  change (match response_outcome
                  (probe_reply env (acc_id a) (acc_token a) w) with
          | Resolved _ => true
          | Rejected error =>
              negb (bool_decide (status error = Some 401%Z)
                    || includes (js_or (data_message error) "")
                         "WeReadError401")
          end) with (probe_valid env a w).
  rewrite H. reflexivity.
Qed.

Lemma checkAndHandleAccount_invalid (env : Env) (notifier : Notifier)
    (a : AccountRow) (w : World) :
  probe_valid env a w = false ->
  checkAndHandleAccount env alone notifier a w
  = (let* loginData := createLoginUrl alone notifier in
     let* qrCodeBase64 :=
       generateQRCodeBase64 alone notifier (loginData_scanUrl loginData) in
     sendWebhookNotification alone notifier
       {| n_accountId := acc_id a; n_accountName := acc_name a;
          n_qrCode := qrCodeBase64;
          n_scanUrl := loginData_scanUrl loginData;
          n_loginId := None |})
      (fst (updateAccount env alone (acc_id a)
              {| p_token := None; p_name := None;
                 p_status := Some statusMap.INVALID |} (probed a w))).
Proof.
  intros H. unfold checkAndHandleAccount, bind at 1.
  rewrite checkAccountValidity_run.
  change (match response_outcome
                  (probe_reply env (acc_id a) (acc_token a) w) with
          | Resolved _ => true
          | Rejected error =>
              negb (bool_decide (status error = Some 401%Z)
                    || includes (js_or (data_message error) "")
                         "WeReadError401")
          end) with (probe_valid env a w).
  rewrite H. unfold bind at 1. rewrite updateAccount_run. reflexivity.
Qed.

Lemma checkAndHandleAccount_accounts (env : Env) (notifier : Notifier)
    (a : AccountRow) (w : World) :
  accounts (fst (checkAndHandleAccount env alone notifier a w))
  = if probe_valid env a w then accounts w
    else sql_updateAccount (acc_id a)
           {| p_token := None; p_name := None;
              p_status := Some statusMap.INVALID |}
           (nowMs env (probed a w)) (accounts w).
Proof.
  destruct (probe_valid env a w) eqn:H.
  - rewrite (checkAndHandleAccount_valid env notifier a w H). reflexivity.
  - rewrite (checkAndHandleAccount_invalid env notifier a w H).
    match goal with |- accounts (fst (?k ?w0)) = _ =>
      assert (Hk : keeps accounts k) end.
    { apply keeps_bind;
        [apply keeps_createLoginUrl, Framed_accounts|]. intros loginData.
      apply keeps_bind;
        [apply keeps_generateQRCodeBase64, Framed_accounts|]. intros qr.
      apply keeps_sendWebhookNotification, Framed_accounts. }
    rewrite Hk, updateAccount_run. reflexivity.
Qed.

(** X19: [checkAndHandleAccount] of account-check.ts. An account whose
    probe is not answered with the unauthorized signal is left as it is:
    the call resolves after the probe and writes nothing. Otherwise the
    account is set to INVALID before anything else is tried, so it is
    INVALID also when the login URL request, the QR code or the webhook
    fails, and a failed login URL request rejects the call with its error.
    In both cases the only articles request is the probe with the
    account's own id and token, for page 1, and feeds, articles and the
    blocklist are untouched. *)
Theorem X19_checkAndHandleAccount (env : Env) (notifier : Notifier)
    (a : AccountRow) (w : World) :
  let r := checkAndHandleAccount env alone notifier a w in
  (probe_valid env a w = true -> r = (probed a w, Resolved tt))
  /\ (probe_valid env a w = false ->
      accounts (fst r)
      = sql_updateAccount (acc_id a)
          {| p_token := None; p_name := None;
             p_status := Some statusMap.INVALID |}
          (nowMs env (probed a w)) (accounts w)
      /\ (forall x, In x (accounts (fst r)) -> acc_id x = acc_id a ->
                    acc_status x = statusMap.INVALID)
      /\ (forall e,
            response_outcome (platform_login_url notifier (5 + tick w))
            = Rejected e ->
            snd r = Rejected e))
  /\ (exists evs,
        trace (fst r) = trace w ++ evs
        /\ Forall (probe_of [a]) (fetches evs)
        /\ (length (fetches evs) <= 1)%nat)
  /\ feeds (fst r) = feeds w /\ articles (fst r) = articles w
  /\ blockedAccountsMap (fst r) = blockedAccountsMap w.
Proof.
  cbv zeta. split; [now apply checkAndHandleAccount_valid|]. split.
  - intros H. pose proof (checkAndHandleAccount_accounts env notifier a w)
      as Hacc. rewrite H in Hacc. split; [exact Hacc|]. split.
    + intros x Hin Hid. rewrite Hacc in Hin.
      eapply sql_updateAccount_status; [|exact Hin|exact Hid]. reflexivity.
    + intros e He. rewrite (checkAndHandleAccount_invalid env notifier a w H).
      rewrite updateAccount_run. cbn [fst]. unfold bind at 1.
      unfold createLoginUrl, bind at 1, suspend, alone. cbv iota beta.
      cbn [tick set_tick emit set_accounts probed].
      change (S (S (S (S (S (tick w)))))) with (5 + tick w)%nat.
      rewrite He. reflexivity.
  - split; [apply requests_checkAndHandleAccount|].
    split; [apply keeps_checkAndHandleAccount;
              [apply Framed_feeds|intros v w0; reflexivity]|].
    split; [apply keeps_checkAndHandleAccount;
              [apply Framed_articles|intros v w0; reflexivity]|].
    apply keeps_checkAndHandleAccount;
      [apply Framed_blockedAccountsMap|intros v w0; reflexivity].
Qed.

(** With the login URL request failing, the unauthorized account is
    marked invalid and the call is rejected. *)
Example checkAndHandleAccount_login_down :
  let r := checkAndHandleAccount env0 alone notifier_down (account_nr 0)
             one_account in
  snd r = Rejected (Error_of "aborted")
  /\ map acc_status (accounts (fst r)) = [statusMap.INVALID].
Proof. cbv zeta. by_evaluation. Qed.



(** The check leaves an invalid account alone and marks the enabled one
    that the platform refuses. *)
Example account_check_of_mixed_accounts :
  let r := handleAccountCheckCron env0 alone notifier_up mixed_accounts in
  snd r = Resolved tt
  /\ fetches (trace (fst r)) = [EvFetchArticles "vid0" "token" "mp" 1]
  /\ map acc_status (accounts (fst r))
     = [statusMap.INVALID; statusMap.INVALID].
Proof. cbv zeta. by_evaluation. Qed.


Lemma tryRefreshAccountFromLogin_resolves (env : Env)
    (id name loginId : string) (w : World) :
  snd (tryRefreshAccountFromLogin env alone id name loginId w) = Resolved tt.
Proof.
  unfold tryRefreshAccountFromLogin, try_catch. rewrite poll_login_spec.
  destruct (first_decisive _ 60) as [[k v]|]; [|reflexivity].
  destruct v; reflexivity.
Qed.

Lemma recheck_valid (env : Env) (notifier : Notifier) (a : AccountRow)
    (w : World) :
  probe_valid env a w = true ->
  SecondVersion.checkAndHandleAccount env alone notifier a w
  = (fst (updateAccount env alone (acc_id a)
            {| p_token := None; p_name := None;
               p_status := Some statusMap.ENABLE |} (probed a w)),
     Resolved tt).
Proof.
  intros H. unfold SecondVersion.checkAndHandleAccount, bind at 1.
  rewrite checkAccountValidity_run.
  change (match response_outcome
                  (probe_reply env (acc_id a) (acc_token a) w) with
          | Resolved _ => true
          | Rejected error =>
              negb (bool_decide (status error = Some 401%Z)
                    || includes (js_or (data_message error) "")
                         "WeReadError401")
          end) with (probe_valid env a w).
  rewrite H. unfold bind at 1. rewrite updateAccount_run. reflexivity.
Qed.

Lemma recheck_invalid (env : Env) (notifier : Notifier) (a : AccountRow)
    (w : World) :
  probe_valid env a w = false ->
  SecondVersion.checkAndHandleAccount env alone notifier a w
  = (let* loginData := createLoginUrl alone notifier in
     sendWebhookNotification alone notifier
       {| n_accountId := acc_id a; n_accountName := acc_name a;
          n_qrCode :=
            getQrCodeImageUrl notifier (loginData_scanUrl loginData);
          n_scanUrl := loginData_scanUrl loginData;
          n_loginId := loginData_uuid loginData |} >>
     tryRefreshAccountFromLogin env alone (acc_id a) (acc_name a)
       (template (loginData_uuid loginData)))
      (fst (updateAccount env alone (acc_id a)
              {| p_token := None; p_name := None;
                 p_status := Some statusMap.INVALID |} (probed a w))).
Proof.
  intros H. unfold SecondVersion.checkAndHandleAccount, bind at 1.
  rewrite checkAccountValidity_run.
  change (match response_outcome
                  (probe_reply env (acc_id a) (acc_token a) w) with
          | Resolved _ => true
          | Rejected error =>
              negb (bool_decide (status error = Some 401%Z)
                    || includes (js_or (data_message error) "")
                         "WeReadError401")
          end) with (probe_valid env a w).
  rewrite H. unfold bind at 1. rewrite updateAccount_run. reflexivity.
Qed.

Lemma createLoginUrl_bind {A : Type} (notifier : Notifier)
    (k : Body LoginData -> Async A) (w : World) :
  bind (createLoginUrl alone notifier) k w
  = match response_outcome (platform_login_url notifier (S (tick w))) with
    | Resolved d => k d (set_tick (S (tick w)) w)
    | Rejected e => (set_tick (S (tick w)) w, Rejected e)
    end.
Proof.
  unfold createLoginUrl, bind, suspend, alone. cbv iota beta.
  cbn [tick set_tick]. destruct (response_outcome _); reflexivity.
Qed.

(** X21: [checkAndHandleAccount] in its second version writes the verdict
    of the probe back. When the probe is not answered with the
    unauthorized signal, which includes a request that failed on the
    network, every row of the account gets status ENABLE, whatever its
    status was, and the call resolves. When the probe is refused, the
    account is set to INVALID first; a failed login URL request then
    rejects the call with the account INVALID, and once the login URL is
    there and the webhook has taken the notification the call resolves,
    however the wait for the login ends. *)
Theorem X21_recheck_writes_verdict (env : Env) (notifier : Notifier)
    (a : AccountRow) (w : World) :
  let r := SecondVersion.checkAndHandleAccount env alone notifier a w in
  (probe_valid env a w = true ->
   snd r = Resolved tt
   /\ accounts (fst r)
      = sql_updateAccount (acc_id a)
          {| p_token := None; p_name := None;
             p_status := Some statusMap.ENABLE |}
          (nowMs env (probed a w)) (accounts w)
   /\ (forall x, In x (accounts (fst r)) -> acc_id x = acc_id a ->
                 acc_status x = statusMap.ENABLE))
  /\ (forall msg,
        probe_reply env (acc_id a) (acc_token a) w = NetworkError msg ->
        probe_valid env a w = true)
  /\ (probe_valid env a w = false ->
      (forall e,
          response_outcome (platform_login_url notifier (5 + tick w))
          = Rejected e ->
          snd r = Rejected e
          /\ (forall x, In x (accounts (fst r)) -> acc_id x = acc_id a ->
                        acc_status x = statusMap.INVALID))
      /\ (forall d,
            response_outcome (platform_login_url notifier (5 + tick w))
            = Resolved d ->
            webhook_fetch notifier (6 + tick w)
              {| n_accountId := acc_id a; n_accountName := acc_name a;
                 n_qrCode :=
                   getQrCodeImageUrl notifier (loginData_scanUrl d);
                 n_scanUrl := loginData_scanUrl d;
                 n_loginId := loginData_uuid d |} = None ->
            snd r = Resolved tt)).
Proof.
  cbv zeta. split; [|split].
  - intros H. rewrite (recheck_valid env notifier a w H).
    rewrite updateAccount_run. cbn [fst snd accounts emit set_tick
                                      set_accounts probed].
    split; [reflexivity|]. split; [reflexivity|].
    intros x Hin Hid.
    eapply sql_updateAccount_status; [|exact Hin|exact Hid]. reflexivity.
  - intros msg H. unfold probe_valid. rewrite H. reflexivity.
  - intros H. rewrite (recheck_invalid env notifier a w H).
    rewrite updateAccount_run. cbn [fst]. split.
    + intros e He. rewrite createLoginUrl_bind.
      cbn [tick set_tick emit set_accounts probed].
      change (S (S (S (S (S (tick w)))))) with (5 + tick w)%nat.
      rewrite He. cbn [fst snd accounts set_tick emit set_accounts].
      split; [reflexivity|]. intros x Hin Hid.
      eapply sql_updateAccount_status; [|exact Hin|exact Hid]. reflexivity.
    + intros d Hd Hhook. rewrite createLoginUrl_bind.
      cbn [tick set_tick emit set_accounts probed].
      change (S (S (S (S (S (tick w)))))) with (5 + tick w)%nat.
      rewrite Hd. unfold bind at 1.
      unfold sendWebhookNotification, bind at 1, suspend, alone.
      cbv iota beta. cbn [tick set_tick].
      change (S (5 + tick w)) with (6 + tick w)%nat.
      rewrite Hhook. apply tryRefreshAccountFromLogin_resolves.
Qed.

(** A probe that fails on the network enables an invalid account, and a
    refused account that logs in again is enabled with its new token. *)
Example recheck_examples :
  map (fun x => (acc_id x, acc_token x, acc_status x))
    (accounts (fst (SecondVersion.checkAndHandleAccount env_offline alone
                      notifier_up (invalid_account "42") two_invalid)))
  = [("42", "old", statusMap.ENABLE); ("7", "old", statusMap.INVALID)]
  /\ map (fun x => (acc_id x, acc_token x, acc_status x))
       (accounts (fst (SecondVersion.checkAndHandleAccount env_login_42
                         alone notifier_up (invalid_account "42")
                         two_invalid)))
     = [("42", "abc", statusMap.ENABLE); ("7", "old", statusMap.INVALID)]
  /\ map (fun x => (acc_id x, acc_token x, acc_status x))
       (accounts (fst (SecondVersion.checkAndHandleAccount env_login_42
                         alone notifier_down (invalid_account "42")
                         two_invalid)))
     = [("42", "old", statusMap.INVALID); ("7", "old", statusMap.INVALID)].
Proof. by_evaluation. Qed.


(** ** The listings *)

Lemma Permutation_insert_sorted {A : Type} (leb : A -> A -> bool) (x : A)
    (l : list A) :
  Permutation (insert_sorted leb x l) (x :: l).
Proof.
  induction l as [|y l IH]; cbn [insert_sorted]; [reflexivity|].
  destruct (leb x y); [reflexivity|].
  rewrite IH. apply perm_swap.
Qed.

Lemma Permutation_sort_with {A : Type} (leb : A -> A -> bool) (l : list A) :
  Permutation (sort_with leb l) l.
Proof.
  induction l as [|x l IH]; [reflexivity|]. cbn [sort_with fold_right].
  rewrite Permutation_insert_sorted. now constructor.
Qed.

Lemma NoDup_map_filter {A B : Type} (f : A -> B) (p : A -> bool)
    (l : list A) :
  List.NoDup (map f l) -> List.NoDup (map f (List.filter p l)).
Proof.
  induction l as [|x l IH]; intros H; [constructor|].
  cbn [map] in H. apply List.NoDup_cons_iff in H as [Hx H].
  cbn [List.filter]. destruct (p x); [|now apply IH].
  cbn [map]. constructor; [|now apply IH].
  intros Hin. apply Hx. apply in_map_iff in Hin as (y & Hy & Hin).
  apply filter_In in Hin as [Hin _]. rewrite <- Hy. now apply in_map.
Qed.

Lemma NoDup_map_take {A B : Type} (f : A -> B) (n : nat) (l : list A) :
  List.NoDup (map f l) -> List.NoDup (map f (take n l)).
Proof.
  intros H. rewrite <- (firstn_skipn n l), map_app in H.
  now apply List.NoDup_app_remove_r in H.
Qed.

Lemma NoDup_map_In_eq {A B : Type} (f : A -> B) (l : list A) (x y : A) :
  List.NoDup (map f l) -> In x l -> In y l -> f x = f y -> x = y.
Proof.
  induction l as [|z l IH]; intros H Hx Hy E; [destruct Hx|].
  cbn [map] in H. apply List.NoDup_cons_iff in H as [Hz H].
  destruct Hx as [<-|Hx], Hy as [<-|Hy].
  - reflexivity.
  - exfalso. apply Hz. rewrite E. now apply in_map.
  - exfalso. apply Hz. rewrite <- E. now apply in_map.
  - now apply IH.
Qed.

Lemma pop_spec {A B : Type} (f : A -> B) (rows : list A) (d : B) :
  last (map f rows) = Some d ->
  exists l' x, rows = l' ++ [x] /\ f x = d
               /\ removelast (map f rows) = map f l'.
Proof.
  induction rows as [|x rows _] using rev_ind; [discriminate|].
  rewrite map_app. cbn [map]. rewrite last_snoc. intros [= <-].
  exists rows, x. split; [reflexivity|]. split; [reflexivity|].
  apply List.removelast_last.
Qed.

Lemma ltb_irrefl (s : string) : String.ltb s s = false.
Proof.
  unfold String.ltb. pose proof (String.compare_antisym s s) as H.
  destruct (String.compare s s); try reflexivity. discriminate.
Qed.

Lemma NoDup_listed_rows (limit : Z) (cursor : option string)
    (tbl : list AccountRow) :
  List.NoDup (map acc_id tbl) ->
  List.NoDup (map acc_id (listed_rows limit cursor tbl)).
Proof.
  intros H. unfold listed_rows, limit_offset. cbn [Z.to_nat drop].
  match goal with |- context [sort_with ?leb (List.filter ?p tbl)] =>
    assert (Hs : List.NoDup (map acc_id (sort_with leb (List.filter p tbl))))
  end.
  { eapply Permutation_NoDup;
      [apply Permutation_map; symmetry; apply Permutation_sort_with|].
    now apply NoDup_map_filter. }
  destruct (limit + 1 <? 0)%Z; [exact Hs|]. now apply NoDup_map_take.
Qed.

Lemma In_listed_rows (limit : Z) (cursor : option string)
    (tbl : list AccountRow) (r : AccountRow) :
  In r (listed_rows limit cursor tbl) ->
  In r tbl
  /\ (forall c row,
        cursor = Some c -> c <> "" ->
        List.find (fun r => String.eqb (acc_id r) c) tbl = Some row ->
        after_created_at (acc_created_at row) c r = true).
Proof.
  unfold listed_rows, limit_offset. cbn [Z.to_nat drop]. intros Hin.
  match type of Hin with context [sort_with ?leb (List.filter ?p tbl)] =>
    assert (Hf : In r (List.filter p tbl)) end.
  { eapply Permutation_in; [apply Permutation_sort_with|].
    destruct (limit + 1 <? 0)%Z; [exact Hin|]. now apply In_take in Hin. }
  apply filter_In in Hf as [Hr Hp]. split; [exact Hr|].
  intros c row -> Hc Hfind. change (default "" (Some c)) with c in Hp.
  assert (Ht : truthy_string (Some c) = true)
    by (destruct c; [now contradiction Hc|reflexivity]).
  rewrite Ht, Hfind in Hp. exact Hp.
Qed.

Lemma if_ret {A : Type} (b : bool) (x y : A) (w : World) :
  (if b then ret x else ret y) w = (w, Resolved (if b then x else y)).
Proof. destruct b; reflexivity. Qed.

Lemma listAccounts_run (toIso : Z -> string) (limit : Z)
    (cursor : option string) (w : World) :
  snd (listAccounts alone toIso limit cursor w)
  = Resolved
      (let items :=
         map (toAccountPublicDto toIso)
           (listed_rows limit cursor (accounts w)) in
       if (limit <? Z.of_nat (length items))%Z
       then {| items := removelast items;
               nextCursor := option_map pub_id (last items) |}
       else {| items := items; nextCursor := None |}).
Proof.
  unfold listAccounts, listed_rows, getCreatedAtCursor_accounts, d1_untraced.
  destruct (truthy_string cursor).
  - unfold bind, suspend, alone. cbv iota beta.
    cbn [accounts set_tick].
    destruct (List.find _ (accounts w)) as [row|]; cbn [option_map];
      unfold ret at 1; cbv zeta iota beta; rewrite if_ret; reflexivity.
  - unfold bind, suspend, alone. unfold ret at 1. cbv iota beta zeta.
    rewrite if_ret. reflexivity.
Qed.

Lemma map_pub_id (toIso : Z -> string) (rows : list AccountRow) :
  map pub_id (map (toAccountPublicDto toIso) rows) = map acc_id rows.
Proof. rewrite map_map. reflexivity. Qed.

Lemma ascii_compare_lt_trans (a b c : ascii) :
  Ascii.compare a b = Lt -> Ascii.compare b c = Lt -> Ascii.compare a c = Lt.
Proof.
  unfold Ascii.compare. rewrite !N.compare_lt_iff. lia.
Qed.

Lemma string_compare_lt_trans (a b c : string) :
  String.compare a b = Lt -> String.compare b c = Lt ->
  String.compare a c = Lt.
Proof.
  revert b c. induction a as [|x a IH]; intros [|y b] [|z c];
    cbn [String.compare]; try discriminate; try reflexivity.
  destruct (Ascii.compare x y) eqn:Exy; try discriminate.
  - apply Ascii.compare_eq_iff in Exy. subst y.
    destruct (Ascii.compare x z); try discriminate; [apply IH|reflexivity].
  - intros _. destruct (Ascii.compare y z) eqn:Eyz; try discriminate.
    + apply Ascii.compare_eq_iff in Eyz. subst z. rewrite Exy. reflexivity.
    + rewrite (ascii_compare_lt_trans x y z Exy Eyz). reflexivity.
Qed.

Lemma ltb_trans (a b c : string) :
  String.ltb a b = true -> String.ltb b c = true -> String.ltb a c = true.
Proof.
  unfold String.ltb. intros Hab Hbc.
  destruct (String.compare a b) eqn:Eab; try discriminate.
  destruct (String.compare b c) eqn:Ebc; try discriminate.
  now rewrite (string_compare_lt_trans a b c Eab Ebc).
Qed.

Lemma after_created_at_trans (r1 r2 r3 : AccountRow) :
  after_created_at (acc_created_at r1) (acc_id r1) r2 = true ->
  after_created_at (acc_created_at r2) (acc_id r2) r3 = true ->
  after_created_at (acc_created_at r1) (acc_id r1) r3 = true.
Proof.
  unfold after_created_at.
  rewrite !orb_true_iff, !andb_true_iff, !Z.ltb_lt, !Z.eqb_eq.
  intros [H12|[E12 L12]] [H23|[E23 L23]].
  - left. lia.
  - left. lia.
  - left. lia.
  - right. split; [lia|]. now apply (ltb_trans _ (acc_id r2)).
Qed.

Lemma after_created_at_irrefl (r : AccountRow) :
  after_created_at (acc_created_at r) (acc_id r) r = false.
Proof.
  unfold after_created_at.
  now rewrite ltb_irrefl, Z.ltb_irrefl, andb_false_r.
Qed.

Lemma find_by_id (tbl : list AccountRow) (row : AccountRow) :
  List.NoDup (map acc_id tbl) -> In row tbl ->
  List.find (fun r => String.eqb (acc_id r) (acc_id row)) tbl = Some row.
Proof.
  intros Hnd Hin.
  destruct (List.find _ tbl) as [r|] eqn:E.
  - apply find_some in E as [Hr Heq]. apply String.eqb_eq in Heq.
    f_equal. now apply (NoDup_map_In_eq acc_id tbl).
  - apply (find_none _ _ E) in Hin. rewrite String.eqb_refl in Hin.
    discriminate.
Qed.

Lemma listAccounts_page (toIso : Z -> string) (limit : Z)
    (cursor : option string) (w : World) :
  exists page,
    snd (listAccounts alone toIso limit cursor w) = Resolved page
    /\ (forall i, In i (items page) ->
          exists r, In r (listed_rows limit cursor (accounts w))
                    /\ i = toAccountPublicDto toIso r)
    /\ (forall c, nextCursor page = Some c ->
          exists x, In x (listed_rows limit cursor (accounts w))
                    /\ acc_id x = c).
Proof.
  rewrite listAccounts_run. cbv zeta.
  set (rows := listed_rows limit cursor (accounts w)).
  eexists. split; [reflexivity|].
  destruct (limit <? Z.of_nat (length (map (toAccountPublicDto toIso) rows)))%Z;
    cbn [items nextCursor].
  - destruct (last (map (toAccountPublicDto toIso) rows)) as [d|] eqn:Elast.
    + destruct (pop_spec _ _ _ Elast) as (l' & x & Hrows & Hd & Hpop).
      rewrite Hpop. split.
      * intros i Hi. apply in_map_iff in Hi as (r & <- & Hr). exists r.
        split; [|reflexivity]. rewrite Hrows. apply in_or_app. now left.
      * intros c [= <-]. exists x. split; [|now subst d].
        rewrite Hrows. apply in_or_app. right. now left.
    + apply last_None in Elast. rewrite Elast. cbn.
      split; [tauto|discriminate].
  - split; [|discriminate]. intros i Hi.
    apply in_map_iff in Hi as (r & <- & Hr). now exists r.
Qed.

Lemma listed_ids_after (toIso : Z -> string) (fuel : nat) (limit : Z)
    (w : World) (row_c row : AccountRow) :
  List.NoDup (map acc_id (accounts w)) ->
  ~ In "" (map acc_id (accounts w)) ->
  In row (accounts w) ->
  row = row_c
  \/ after_created_at (acc_created_at row_c) (acc_id row_c) row = true ->
  forall id,
    In id (listed_ids toIso fuel limit (Some (acc_id row)) w) ->
    exists r, In r (accounts w) /\ acc_id r = id
              /\ after_created_at (acc_created_at row_c) (acc_id row_c) r
                 = true.
Proof.
  intros Hnd Hne. revert row. induction fuel as [|fuel IH];
    intros row Hrow Hle id Hid; [destruct Hid|].
  cbn [listed_ids] in Hid.
  destruct (listAccounts_page toIso limit (Some (acc_id row)) w)
    as (page & Hrun & Hitems & Hnext).
  rewrite Hrun in Hid.
  assert (Hrows : forall r,
            In r (listed_rows limit (Some (acc_id row)) (accounts w)) ->
            In r (accounts w)
            /\ after_created_at (acc_created_at row_c) (acc_id row_c) r
               = true).
  { intros r Hr. destruct (In_listed_rows _ _ _ _ Hr) as (Hin & Haft).
    split; [exact Hin|].
    assert (Hrne : acc_id row <> "").
    { intros E. apply Hne. rewrite <- E. now apply in_map. }
    specialize (Haft (acc_id row) row eq_refl Hrne
                  (find_by_id _ _ Hnd Hrow)).
    destruct Hle as [->|Hle]; [exact Haft|].
    now apply (after_created_at_trans row_c row r). }
  apply in_app_or in Hid as [Hid|Hid].
  - apply in_map_iff in Hid as (i & <- & Hi).
    destruct (Hitems i Hi) as (r & Hr & ->).
    exists r. destruct (Hrows r Hr) as (Hin & Haft).
    split; [exact Hin|]. split; [reflexivity|exact Haft].
  - destruct (nextCursor page) as [c'|] eqn:Ec; [|destruct Hid].
    destruct (Hnext c' eq_refl) as (x & Hx & <-).
    destruct (Hrows x Hx) as (Hin & Haft).
    apply (IH x Hin); [now right|exact Hid].
Qed.

(** X22: the cursor of [listAccounts] names a row that no later page
    shows. Over a table with pairwise distinct ids, a page never has more
    items than a limit that is not negative, and its items are stored
    accounts. When a page comes with a next cursor, the cursor is the id of
    a stored account that is not among the items of that page (it is the
    row read beyond the limit and popped). The page requested with this
    cursor, with whatever limit, starts strictly after that row: each of
    its items is a stored account that comes after the cursor's row in the
    order by [created_at] and id, so the account is not among its items,
    nor is it the next cursor again. And when no stored account has the
    empty id, following the cursors from there, for any number of pages,
    never lists the account. *)
Theorem X22_listAccounts_cursor_row_skipped (toIso : Z -> string)
    (limit : Z) (cursor : option string) (w : World)
    (page : Listing AccountPublic) :
  List.NoDup (map acc_id (accounts w)) ->
  snd (listAccounts alone toIso limit cursor w) = Resolved page ->
  ((0 <= limit)%Z -> (length (items page) <= Z.to_nat limit)%nat)
  /\ (forall i, In i (map pub_id (items page)) ->
                In i (map acc_id (accounts w)))
  /\ (forall c, nextCursor page = Some c ->
        In c (map acc_id (accounts w))
        /\ ~ In c (map pub_id (items page))
        /\ (c <> "" ->
            (forall limit' w' page',
               accounts w' = accounts w ->
               snd (listAccounts alone toIso limit' (Some c) w')
               = Resolved page' ->
               ~ In c (map pub_id (items page'))
               /\ nextCursor page' <> Some c
               /\ (forall i, In i (items page') ->
                     exists row r,
                       In row (accounts w) /\ acc_id row = c
                       /\ In r (accounts w)
                       /\ i = toAccountPublicDto toIso r
                       /\ after_created_at (acc_created_at row) c r = true))
            /\ (~ In "" (map acc_id (accounts w)) ->
                forall fuel limit',
                  ~ In c (listed_ids toIso fuel limit' (Some c) w)))).
Proof.
  intros Hnd Hrun. rewrite listAccounts_run in Hrun. cbv zeta in Hrun.
  pose proof (NoDup_listed_rows limit cursor (accounts w) Hnd) as Hnd1.
  assert (Hsub : forall r, In r (listed_rows limit cursor (accounts w)) ->
                           In r (accounts w)).
  { intros r Hr. now apply In_listed_rows in Hr. }
  assert (Hlen : (0 <= limit)%Z ->
                 (length (listed_rows limit cursor (accounts w))
                  <= Z.to_nat limit + 1)%nat).
  { intros Hl. unfold listed_rows, limit_offset. cbn [Z.to_nat drop].
    destruct (limit + 1 <? 0)%Z eqn:E; [lia|].
    rewrite length_take. lia. }
  set (rows := listed_rows limit cursor (accounts w)) in *.
  destruct (limit <? Z.of_nat (length (map (toAccountPublicDto toIso) rows)))%Z
    eqn:Emore; injection Hrun as <-; cbn [items nextCursor].
  - destruct (last (map (toAccountPublicDto toIso) rows)) as [d|] eqn:Elast.
    + destruct (pop_spec _ _ _ Elast) as (l' & x & Hrows & Hd & Hpop).
      rewrite Hpop, map_pub_id.
      split; [|split].
      * intros Hl. specialize (Hlen Hl). rewrite Hrows in Hlen.
        rewrite List.length_app in Hlen. cbn in Hlen.
        rewrite length_map. lia.
      * intros i Hi. apply in_map_iff in Hi as (r & <- & Hr).
        apply in_map, Hsub. rewrite Hrows. apply in_or_app. now left.
      * intros c [= <-]. subst d. cbn [toAccountPublicDto pub_id].
        split; [apply in_map, Hsub; rewrite Hrows; apply in_or_app; right;
                now left|].
        split.
        { rewrite Hrows, map_app in Hnd1.
          apply List.NoDup_remove_2 in Hnd1.
          rewrite List.app_nil_r in Hnd1. exact Hnd1. }
        intros Hc.
        assert (Hx : In x (accounts w))
          by (apply Hsub; rewrite Hrows; apply in_or_app; right; now left).
        split.
        2: { intros Hne fuel limit' Hin.
             destruct (listed_ids_after toIso fuel limit' w x x Hnd Hne Hx
                         (or_introl eq_refl) _ Hin)
               as (r & Hr & Hid & Haft).
             assert (r = x)
               by (apply (NoDup_map_In_eq acc_id (accounts w)); assumption).
             subst r. rewrite after_created_at_irrefl in Haft.
             discriminate. }
        intros limit' w' page' Hacc Hrun'.
        destruct (listAccounts_page toIso limit' (Some (acc_id x)) w')
          as (page'' & Hrun'' & Hitems & Hnext).
        rewrite Hrun' in Hrun''. injection Hrun'' as <-.
        rewrite Hacc in Hitems, Hnext.
        assert (Hafter : forall r,
                  In r (listed_rows limit' (Some (acc_id x)) (accounts w)) ->
                  In r (accounts w)
                  /\ after_created_at (acc_created_at x) (acc_id x) r = true).
        { intros r Hr. destruct (In_listed_rows _ _ _ _ Hr) as (Hrin & Hw).
          split; [exact Hrin|].
          exact (Hw (acc_id x) x eq_refl Hc (find_by_id _ _ Hnd Hx)). }
        assert (Hneq : forall r,
                  In r (listed_rows limit' (Some (acc_id x)) (accounts w)) ->
                  acc_id r <> acc_id x).
        { intros r Hr Hid. destruct (Hafter r Hr) as (Hrin & Haft).
          assert (r = x)
            by (apply (NoDup_map_In_eq acc_id (accounts w)); assumption).
          subst r. rewrite after_created_at_irrefl in Haft. discriminate. }
        split; [|split].
        -- intros Hin. apply in_map_iff in Hin as (i & Hid & Hi).
           destruct (Hitems i Hi) as (r & Hr & ->).
           apply (Hneq r Hr). exact Hid.
        -- intros Hc'. destruct (Hnext _ Hc') as (r & Hr & Hid).
           now apply (Hneq r Hr).
        -- intros i Hi. destruct (Hitems i Hi) as (r & Hr & ->).
           destruct (Hafter r Hr) as (Hrin & Haft). exists x, r.
           split; [exact Hx|]. split; [reflexivity|]. split; [exact Hrin|].
           split; [reflexivity|exact Haft].
    + apply last_None in Elast. rewrite Elast. cbn.
      split; [lia|]. split; [tauto|]. discriminate.
  - rewrite map_pub_id. split; [|split].
    + intros Hl. rewrite length_map in *. lia.
    + intros i Hi. apply in_map_iff in Hi as (r & <- & Hr).
      now apply in_map, Hsub.
    + discriminate.
Qed.

Lemma X22_listAccounts_cursor_row_skipped_witness :
  List.NoDup (map acc_id (accounts eleven_accounts))
  /\ option_map nextCursor
       (match snd (listAccounts alone show_number 2 None eleven_accounts)
        with
        | Resolved page => Some page
        | Rejected _ => None
        end) = Some (Some "vid2")
  /\ In "vid2" (map acc_id (accounts eleven_accounts))
  /\ (forall fuel limit',
        ~ In "vid2"
            (listed_ids show_number fuel limit' (Some "vid2")
               eleven_accounts)).
Proof.
  assert (H : List.NoDup (map acc_id (accounts eleven_accounts))).
  { apply (NoDup_count_occ' string_dec). intros x Hx. vm_compute in Hx.
    repeat (destruct Hx as [<-|Hx]; [vm_compute; reflexivity|]).
    destruct Hx. }
  assert (Hne : ~ In "" (map acc_id (accounts eleven_accounts))).
  { intros Hx. vm_compute in Hx.
    repeat (destruct Hx as [Hx|Hx]; [discriminate|]). destruct Hx. }
  split; [exact H|]. split; [vm_compute; reflexivity|].
  destruct (snd (listAccounts alone show_number 2 None eleven_accounts))
    as [page|e] eqn:E; [|vm_compute in E; discriminate].
  assert (Hc : nextCursor page = Some "vid2")
    by (vm_compute in E; injection E as <-; reflexivity).
  pose proof (proj2 (proj2 (X22_listAccounts_cursor_row_skipped
                              show_number 2 None eleven_accounts page H E))
                "vid2" Hc) as (Hin & _ & Hlater).
  split; [exact Hin|].
  assert (Hv : "vid2" <> "") by discriminate.
  exact (proj2 (Hlater Hv) Hne).
Defined.

(** Following the cursors with limit 2 over eleven accounts shows eight of
    them: the accounts 2, 5 and 8 are skipped. *)
Example listAccounts_pages_of_eleven :
  listed_ids show_number 10 2 None eleven_accounts
  = ["vid0"; "vid1"; "vid3"; "vid4"; "vid6"; "vid7"; "vid9"; "vid10"].
Proof. vm_compute. reflexivity. Qed.


(** ** The pages of the deep-history sync *)

Lemma history_loop_pages (env : Env) (mpId : string) (i : nat) (w : World) :
  hm_id (inProgressHistoryMp w) = mpId ->
  exists evs,
    trace (fst (history_loop env alone mpId i w)) = trace w ++ evs
    /\ Forall (page_between mpId (hm_page (inProgressHistoryMp w))
                 (hm_page (inProgressHistoryMp w) + Z.of_nat i))
         (fetches evs).
Proof.
  revert w. induction i as [|i IH]; intros w Hid.
  { exists []. cbn. rewrite List.app_nil_r. split; [reflexivity|constructor]. }
  cbn [history_loop]. unfold bind at 1, get. cbv iota beta.
  rewrite (proj2 (String.eqb_eq _ _) Hid). cbn [negb]. unfold bind at 1.
  set (p := hm_page (inProgressHistoryMp w)).
  destruct (requests_refreshMpArticlesAndUpdateFeed env mpId p w)
    as (evs1 & Htr1 & HP1 & _).
  pose proof (keeps_refreshMpArticlesAndUpdateFeed inProgressHistoryMp env
                Framed_inProgressHistoryMp mpId p
                (fun _ _ => eq_refl) (fun _ _ => eq_refl)
                (fun _ _ => eq_refl) (fun _ _ => eq_refl) w) as Hmark.
  assert (HP1' : Forall (page_between mpId p (p + Z.of_nat (S i)))
                   (fetches evs1)).
  { eapply List.Forall_impl; [|exact HP1]. intros e He. exists p.
    split; [lia|exact He]. }
  destruct (refreshMpArticlesAndUpdateFeed env alone mpId p w)
    as [w1 [h|e]]; cbn [fst] in *.
  2: { exists evs1. split; assumption. }
  destruct (h <? 1)%Z.
  { exists evs1. split; assumption. }
  match goal with |- context [bind (modify ?f) ?k w1] =>
    change (bind (modify f) k w1)
      with (history_loop env alone mpId i
              (emit (EvSleep (getUpdateDelaySeconds env * 1000))
                 (set_tick (S (tick w1)) (f w1)))) end.
  cbv beta.
  set (w2 := emit _ _).
  assert (Hid2 : hm_id (inProgressHistoryMp w2) = mpId).
  { subst w2. cbn [inProgressHistoryMp emit set_tick
                     set_inProgressHistoryMp hm_id]. congruence. }
  assert (Hp2 : hm_page (inProgressHistoryMp w2) = (p + 1)%Z).
  { subst w2 p. cbn [inProgressHistoryMp emit set_tick
                       set_inProgressHistoryMp hm_page]. congruence. }
  destruct (IH w2 Hid2) as (evs2 & Htr2 & HP2). rewrite Hp2 in HP2.
  exists (evs1 ++ [EvSleep (getUpdateDelaySeconds env * 1000)] ++ evs2).
  split.
  - rewrite Htr2. subst w2. cbn [trace emit set_tick set_inProgressHistoryMp].
    rewrite Htr1, <- !List.app_assoc. reflexivity.
  - rewrite !fetches_app. cbn [fetches List.filter is_fetch app].
    apply Forall_app. split; [exact HP1'|].
    eapply List.Forall_impl; [|exact HP2].
    intros e (page & Hr & He). exists page. split; [lia|exact He].
Qed.

Lemma history_loop_step (env : Env) (mpId : string) (i : nat) (page : Z)
    (w : World) :
  inProgressHistoryMp w = marker_at mpId page ->
  history_loop env alone mpId (S i) w
  = match refreshMpArticlesAndUpdateFeed env alone mpId page w with
    | (w1, Rejected e) => (w1, Rejected e)
    | (w1, Resolved h) =>
        if (h <? 1)%Z then (w1, Resolved tt)
        else history_loop env alone mpId i
               (slept (getUpdateDelaySeconds env * 1000)
                  (set_inProgressHistoryMp (marker_at mpId (page + 1)) w1))
    end.
Proof.
  intros Hm. cbn [history_loop]. unfold bind at 1, get. cbv iota beta.
  rewrite Hm. cbn [marker_at hm_id hm_page]. rewrite String.eqb_refl.
  cbn [negb]. unfold bind at 1.
  pose proof (keeps_refreshMpArticlesAndUpdateFeed inProgressHistoryMp env
                Framed_inProgressHistoryMp mpId page
                (fun _ _ => eq_refl) (fun _ _ => eq_refl)
                (fun _ _ => eq_refl) (fun _ _ => eq_refl) w) as Hmark.
  destruct (refreshMpArticlesAndUpdateFeed env alone mpId page w)
    as [w1 [h|e]]; cbn [fst] in Hmark; [|reflexivity].
  destruct (h <? 1)%Z; [reflexivity|].
  match goal with |- context [bind (modify ?f) ?k w1] =>
    change (bind (modify f) k w1)
      with (history_loop env alone mpId i
              (slept (getUpdateDelaySeconds env * 1000) (f w1))) end.
  cbv beta. rewrite Hmark, Hm. reflexivity.
Qed.

Lemma history_loop_rounds (env : Env) (mpId : string) (i : nat) (page : Z)
    (w : World) :
  inProgressHistoryMp w = marker_at mpId page ->
  exists evs,
    history_rounds env mpId i page w evs (history_loop env alone mpId i w)
    /\ trace (fst (history_loop env alone mpId i w)) = trace w ++ evs.
Proof.
  revert page w. induction i as [|i IH]; intros page w Hm.
  { exists []. split; [constructor|]. cbn. now rewrite List.app_nil_r. }
  rewrite (history_loop_step env mpId i page w Hm).
  destruct (sync_events env mpId page w) as (evs & Htr & HP & Hlen & Hone).
  destruct (refreshMpArticlesAndUpdateFeed env alone mpId page w)
    as [w1 [h|e]] eqn:Erun; cbn [fst snd] in *.
  2: { exists evs. split; [|exact Htr].
       eapply rounds_failed; [exact Erun|exact Htr|exact HP|exact Hlen]. }
  assert (Hlen1 : (1 <= length (fetches evs) <= 4)%nat)
    by (split; [now apply (Hone h)|exact Hlen]).
  destruct (Z.ltb_spec h 1) as [Hh|Hh].
  { exists evs. split; [|exact Htr].
    eapply rounds_last; [exact Erun|exact Hh|exact Htr|exact HP|exact Hlen1]. }
  set (w2 := slept _ _).
  assert (Hm2 : inProgressHistoryMp w2 = marker_at mpId (page + 1))
    by reflexivity.
  destruct (IH (page + 1)%Z w2 Hm2) as (evs' & Hrounds & Htr').
  exists (evs ++ [EvSleep (getUpdateDelaySeconds env * 1000)] ++ evs').
  split.
  - eapply rounds_next;
      [exact Erun|exact Hh|exact Htr|exact HP|exact Hlen1|exact Hrounds].
  - rewrite Htr'. subst w2.
    cbn [trace slept emit set_tick set_inProgressHistoryMp].
    rewrite Htr, <- !List.app_assoc. reflexivity.
Qed.

Lemma getHistoryMpArticles_loop (env : Env) (mpId : string) (w : World)
    (feed : FeedRow) :
  hm_id (inProgressHistoryMp w) <> mpId -> mpId <> "" ->
  stored_feed mpId w = Some feed -> has_history feed <> 0%Z ->
  getHistoryMpArticles env alone mpId w
  = (set_inProgressHistoryMp idle_marker
       (fst (history_loop env alone mpId 1000 (history_started mpId w))),
     snd (history_loop env alone mpId 1000 (history_started mpId w))).
Proof.
  intros Hm He Hfeed Hh. apply String.eqb_neq in Hm, He.
  rewrite (getHistoryMpArticles_started env mpId w Hm He).
  unfold try_finally, bind at 1. rewrite getFeedById_run.
  unfold stored_feed in Hfeed. cbn [feeds set_inProgressHistoryMp].
  rewrite Hfeed. apply Z.eqb_neq in Hh. rewrite Hh.
  unfold bind at 1. rewrite countArticlesByMpId_run. unfold bind at 1.
  unfold modify at 1. cbv iota beta.
  match goal with |- context [history_loop env alone mpId 1000 ?w3] =>
    change w3 with (history_started mpId w) end.
  destruct (history_loop env alone mpId 1000 (history_started mpId w))
    as [w4 r].
  reflexivity.
Qed.

(** X23: the pages of the deep-history sync. With [n] articles of the feed
    stored, every articles request of [getHistoryMpArticles] is for a page
    of that feed from [Math.ceil(n / 20)] on and below that page plus 1000,
    and for a feed without stored articles the first page asked for is
    page 0. When the call reaches its loop (the feed is stored with
    [has_history] not 0 and no deep-history sync of it is in progress), the
    loop goes round by round ([history_rounds]) from page
    [Math.ceil(n / 20)], for at most 1000 rounds: a round syncs one page
    with at most four requests, all for that page; a round whose sync
    rejects ends the call with that error, and a round whose sync returns
    a [hasHistory] below 1 ends it; after any other round the marker moves
    one page forward, the loop pauses for the delay, and the next round
    syncs that next page. The call leaves the marker idle. *)
Theorem X23_history_pages (env : Env) (mpId : string) (w : World) :
  let start := Math_ceil_div (stored_articles mpId w) defaultCount in
  let run := getHistoryMpArticles env alone mpId w in
  (exists evs,
      trace (fst run) = trace w ++ evs
      /\ Forall (page_between mpId start (start + 1000)) (fetches evs)
      /\ (stored_articles mpId w = 0%Z -> start = 0%Z))
  /\ (hm_id (inProgressHistoryMp w) <> mpId -> mpId <> "" ->
      forall feed,
        stored_feed mpId w = Some feed -> has_history feed <> 0%Z ->
        exists evs r,
          history_rounds env mpId 1000 start (history_started mpId w) evs r
          /\ run = (set_inProgressHistoryMp idle_marker (fst r), snd r)
          /\ trace (fst run)
             = trace w
               ++ [EvD1 (SelectFeedById mpId);
                   EvD1 (CountArticlesByMpId mpId)] ++ evs).
Proof.
  cbv zeta. split.
  2: { intros Hm He feed Hfeed Hh.
       rewrite (getHistoryMpArticles_loop env mpId w feed Hm He Hfeed Hh).
       destruct (history_loop_rounds env mpId 1000
                   (Math_ceil_div (stored_articles mpId w) defaultCount)
                   (history_started mpId w) eq_refl) as (evs & Hr & Htr).
       exists evs, (history_loop env alone mpId 1000 (history_started mpId w)).
       split; [exact Hr|]. split; [reflexivity|].
       cbn [fst trace set_inProgressHistoryMp]. rewrite Htr.
       cbn [trace history_started set_inProgressHistoryMp emit set_tick].
       rewrite <- !List.app_assoc. reflexivity. }
  assert (Hzero : stored_articles mpId w = 0%Z ->
                  Math_ceil_div (stored_articles mpId w) defaultCount = 0%Z)
    by (intros ->; reflexivity).
  unfold getHistoryMpArticles. unfold bind at 1, get.
  destruct (String.eqb_spec (hm_id (inProgressHistoryMp w)) mpId) as [Eid|Eid].
  { exists []. cbn [ret fst]. rewrite List.app_nil_r.
    split; [reflexivity|]. split; [constructor|exact Hzero]. }
  unfold bind at 1, modify.
  destruct (String.eqb_spec mpId "") as [Eempty|Eempty].
  { exists []. cbn [ret fst trace set_inProgressHistoryMp].
    rewrite List.app_nil_r.
    split; [reflexivity|]. split; [constructor|exact Hzero]. }
  unfold try_finally.
  set (wm := set_inProgressHistoryMp {| hm_id := mpId; hm_page := 1 |} w).
  unfold bind at 1. rewrite getFeedById_run.
  change (feeds wm) with (feeds w).
  destruct (List.find _ (feeds w)) as [feed|] eqn:Efeed.
  2: { exists [EvD1 (SelectFeedById mpId)]. cbn.
       split; [reflexivity|]. split; [constructor|exact Hzero]. }
  destruct (Z.eqb_spec (has_history feed) 0) as [Eh|Eh].
  { exists [EvD1 (SelectFeedById mpId)]. cbn.
    split; [reflexivity|]. split; [constructor|exact Hzero]. }
  unfold bind at 1. rewrite countArticlesByMpId_run.
  unfold bind at 1.
  set (w3 := set_inProgressHistoryMp _ _).
  assert (Hid : hm_id (inProgressHistoryMp w3) = mpId) by reflexivity.
  destruct (history_loop_pages env mpId 1000 w3 Hid) as (evs & Htr & HP).
  change (hm_page (inProgressHistoryMp w3))
    with (Math_ceil_div (stored_articles mpId w) defaultCount) in HP.
  destruct (history_loop env alone mpId 1000 w3) as [w4 r].
  cbn [fst] in *.
  exists ([EvD1 (SelectFeedById mpId); EvD1 (CountArticlesByMpId mpId)]
            ++ evs).
  split.
  { cbn [trace set_inProgressHistoryMp]. rewrite Htr. subst w3 wm.
    cbn [trace set_inProgressHistoryMp emit set_tick].
    rewrite <- !List.app_assoc. reflexivity. }
  rewrite fetches_app. cbn [fetches List.filter is_fetch app].
  split; [exact HP|exact Hzero].
Qed.

Lemma X23_history_pages_witness :
  exists evs r,
    history_rounds env_four_pages "mp" 1000 3
      (history_started "mp" forty_five_stored) evs r
    /\ getHistoryMpArticles env_four_pages alone "mp" forty_five_stored
       = (set_inProgressHistoryMp idle_marker (fst r), snd r)
    /\ trace (fst (getHistoryMpArticles env_four_pages alone "mp"
                     forty_five_stored))
       = trace forty_five_stored
         ++ [EvD1 (SelectFeedById "mp"); EvD1 (CountArticlesByMpId "mp")]
         ++ evs.
Proof.
  assert (Hm : hm_id (inProgressHistoryMp forty_five_stored) <> "mp")
    by (vm_compute; discriminate).
  assert (He : "mp" <> "") by discriminate.
  assert (Hf : stored_feed "mp" forty_five_stored = Some open_feed)
    by reflexivity.
  assert (Hh : has_history open_feed <> 0%Z) by (vm_compute; discriminate).
  exact (proj2 (X23_history_pages env_four_pages "mp" forty_five_stored)
           Hm He open_feed Hf Hh).
Defined.

(** With forty-five articles stored, a full page 3 and a short page 4, the
    deep-history sync asks for page 3 and then for page 4, pauses once in
    between, and ends with [has_history] = 0 and the marker idle. *)
Example history_of_two_rounds :
  let r := getHistoryMpArticles env_four_pages alone "mp" forty_five_stored in
  snd r = Resolved tt
  /\ List.filter
       (fun e => match e with EvSleep _ => true | _ => is_fetch e end)
       (trace (fst r))
     = [EvFetchArticles "vid0" "token" "mp" 3; EvSleep 60000;
        EvFetchArticles "vid0" "token" "mp" 4]
  /\ map has_history (feeds (fst r)) = [0%Z]
  /\ inProgressHistoryMp (fst r) = idle_marker.
Proof. cbv zeta. by_evaluation. Qed.

(** The deep-history sync of a feed without stored articles asks for
    page 0 first and goes on with page 1. *)
Example history_of_empty_feed :
  firstn 2 (fetches (trace (fst (getHistoryMpArticles env_full_page alone
                                   "mp" one_feed))))
  = [EvFetchArticles "vid0" "token" "mp" 0;
     EvFetchArticles "vid0" "token" "mp" 1].
Proof. vm_compute. reflexivity. Qed.


(** ** A sweep that resolves has synced every feed *)

Lemma advances_ret {A : Type} (a : A) : advances (ret a).
Proof. intros w. cbn. lia. Qed.

Lemma advances_throw {A : Type} (e : JsError) : advances (throw (A := A) e).
Proof. intros w. cbn. lia. Qed.

Lemma advances_get {A : Type} (f : World -> A) : advances (get f).
Proof. intros w. cbn. lia. Qed.

Lemma advances_modify (f : World -> World) :
  (forall w, tick (f w) = tick w) -> advances (modify f).
Proof. intros H w. cbn [modify fst]. rewrite H. lia. Qed.

Lemma advances_bind {A C : Type} (m : Async A) (k : A -> Async C) :
  advances m -> (forall a, advances (k a)) -> advances (bind m k).
Proof.
  intros Hm Hk w. unfold bind. specialize (Hm w).
  destruct (m w) as [w1 [a|e]]; cbn [fst] in *; [|exact Hm].
  specialize (Hk a w1). lia.
Qed.

Lemma advances_try_catch {A : Type} (m : Async A) (h : JsError -> Async A) :
  advances m -> (forall e, advances (h e)) -> advances (try_catch m h).
Proof.
  intros Hm Hh w. unfold try_catch. specialize (Hm w).
  destruct (m w) as [w1 [a|e]]; cbn [fst] in *; [exact Hm|].
  specialize (Hh e w1). lia.
Qed.

Lemma advances_if {A : Type} (b : bool) (m1 m2 : Async A) :
  advances m1 -> advances m2 -> advances (if b then m1 else m2).
Proof. destruct b; auto. Qed.

Lemma advances_d1 {A : Type} (stmt : Stmt) (run : World -> World * A) :
  (forall w, tick (fst (run w)) = tick w) -> advances (d1 alone stmt run).
Proof.
  intros Hrun w. unfold d1, bind, suspend, alone. cbv iota beta.
  specialize (Hrun (emit (EvD1 stmt) (set_tick (S (tick w)) w))).
  destruct (run _) as [w1 a]. cbn [fst tick emit set_tick] in *. lia.
Qed.

Lemma advances_sleep (ms : Z) : advances (sleep alone ms).
Proof.
  intros w. unfold sleep, bind, suspend, modify, alone.
  cbn [fst tick emit set_tick]. lia.
Qed.

Lemma advances_getAvailableAccount (env : Env) :
  advances (getAvailableAccount env alone).
Proof.
  unfold getAvailableAccount. apply advances_bind; [apply advances_get|].
  intros blocked. apply advances_bind; [apply advances_d1; reflexivity|].
  intros [|first rest]; [apply advances_throw|].
  apply advances_bind; [|intros r; apply advances_ret].
  intros w. unfold random. cbn [fst tick set_tick]. lia.
Qed.

Lemma advances_updateAccount (env : Env) (id : string) (data : AccountPatch) :
  advances (updateAccount env alone id data).
Proof.
  unfold updateAccount, getAccountById.
  apply advances_bind; [apply advances_get|]. intros now.
  apply advances_bind; [|intros _]; apply advances_d1; reflexivity.
Qed.

Lemma advances_handleAccountError (env : Env) (id msg : string) :
  advances (handleAccountError env alone id msg).
Proof.
  unfold handleAccountError.
  apply advances_bind; [apply advances_get|]. intros today.
  apply advances_bind; [apply advances_get|]. intros blocked.
  repeat apply advances_if.
  - apply advances_bind; [apply advances_updateAccount|].
    intros _. apply advances_ret.
  - apply advances_modify. reflexivity.
  - apply advances_ret.
Qed.

Lemma advances_getMpArticles (env : Env) (mpId : string) (page : Z)
    (n : nat) :
  advances (getMpArticles env alone mpId page n).
Proof.
  induction n as [|n IH]; cbn [getMpArticles];
    (apply advances_bind; [apply advances_getAvailableAccount|];
     intros account; apply advances_try_catch;
       [intros w; unfold fetchJson, bind, suspend, alone;
        cbn [fst tick emit set_tick]; lia|];
     intros error;
     apply advances_bind; [apply advances_handleAccountError|]; intros _).
  - apply advances_throw.
  - exact IH.
Qed.

Lemma advances_upsertArticles (env : Env) (mpId : string)
    (arts : list ArticleSummary) :
  advances (upsertArticles env alone mpId arts).
Proof.
  unfold upsertArticles. apply advances_bind; [apply advances_get|].
  intros now. destruct arts; [apply advances_ret|].
  apply advances_d1. reflexivity.
Qed.

Lemma refreshMpArticlesAndUpdateFeed_resolved (env : Env) (mpId : string)
    (page : Z) (w w1 : World) (h : Z) :
  refreshMpArticlesAndUpdateFeed env alone mpId page w = (w1, Resolved h) ->
  exists t,
    (tick w <= t <= tick w1)%nat
    /\ feeds w1
       = sql_updateFeed mpId (sync_patch (Date_now env t) h)
           (Date_now env t) (feeds w).
Proof.
  rewrite refreshMpArticlesAndUpdateFeed_run.
  pose proof (feeds_getMpArticles env mpId page 3 w) as Hfeeds.
  pose proof (advances_getMpArticles env mpId page 3 w) as Ht1.
  destruct (getMpArticles env alone mpId page 3 w) as [w0 [arts|e]];
    [|discriminate].
  cbn [fst] in *. cbv zeta.
  pose proof (feeds_upsertArticles env mpId (elements arts) w0) as Hf2.
  pose proof (advances_upsertArticles env mpId (elements arts) w0) as Ht2.
  set (w2 := fst (upsertArticles env alone mpId (elements arts) w0)) in *.
  rewrite updateFeed_run. cbv zeta. cbn [fst]. intros [= <- <-].
  exists (tick w2). split.
  - cbn [tick emit set_tick set_feeds]. lia.
  - cbn [feeds emit set_tick set_feeds]. rewrite Hf2, Hfeeds. reflexivity.
Qed.

Lemma refresh_each_stamps (env : Env) (fs : list FeedRow) (w : World) :
  snd (refresh_each env alone fs w) = Resolved tt ->
  let w' := fst (refresh_each env alone fs w) in
  (tick w <= tick w')%nat
  /\ map feed_id (feeds w') = map feed_id (feeds w)
  /\ (forall r, In r (feeds w') ->
        (In (feed_id r) (map feed_id fs) -> stamped_since env (tick w) r)
        /\ (~ In (feed_id r) (map feed_id fs) -> In r (feeds w))).
Proof.
  revert w. induction fs as [|f fs IH]; intros w; cbn [refresh_each].
  { intros _. cbn [ret fst map In]. split; [lia|]. split; [reflexivity|].
    intros r Hr. split; [intros []|auto]. }
  destruct (refreshMpArticlesAndUpdateFeed env alone (feed_id f) 1 w)
    as [w1 [h|e]] eqn:Erun.
  2: { unfold bind at 1. rewrite Erun. discriminate. }
  destruct (refreshMpArticlesAndUpdateFeed_resolved _ _ _ _ _ _ Erun)
    as (t & Ht & Hfeeds1).
  set (w2 := emit (EvSleep (getUpdateDelaySeconds env * 1000))
               (set_tick (S (tick w1)) w1)).
  assert (Hstep :
    (refreshMpArticlesAndUpdateFeed env alone (feed_id f) 1 >>
     sleep alone (getUpdateDelaySeconds env * 1000) >>
     refresh_each env alone fs) w
    = refresh_each env alone fs w2).
  { unfold bind at 1. rewrite Erun. reflexivity. }
  rewrite Hstep. intros Hres.
  destruct (IH w2 Hres) as (Htick & Hids & Hrows). cbv zeta.
  change (tick w2) with (S (tick w1)) in *.
  change (feeds w2) with (feeds w1) in *.
  split; [lia|]. split.
  { rewrite Hids, Hfeeds1. apply sql_updateFeed_ids. }
  intros r Hr. destruct (Hrows r Hr) as (Hin & Hout).
  destruct (in_dec string_dec (feed_id r) (map feed_id fs)) as [Hfs|Hfs].
  - split; [|intros Hn; exfalso; apply Hn; now right].
    intros _. destruct (Hin Hfs) as (t' & Ht' & Hs). exists t'.
    split; [lia|exact Hs].
  - specialize (Hout Hfs). rewrite Hfeeds1 in Hout.
    destruct (String.eqb_spec (feed_id r) (feed_id f)) as [E|E].
    + split; [|intros Hn; exfalso; apply Hn; left; now symmetry].
      intros _. apply sql_updateFeed_row in Hout as (old & _ & _ & ->);
        [|exact E].
      exists t. split; [lia|reflexivity].
    + split; [intros [Hf|Hf]; [congruence|contradiction]|].
      intros _. now apply sql_updateFeed_others in Hout.
Qed.

(** X24: a sweep that resolves has synced every feed. When
    [refreshAllMpArticlesAndUpdateFeed] starts (the flag not set) and
    resolves, the feed rows are those it found, none added or removed, and
    every one of them carries as [sync_time] the seconds of the clock read
    during the sweep. *)
Theorem X24_sweep_stamps_every_feed (env : Env) (w : World) :
  isRefreshAllMpArticlesRunning w = false ->
  snd (refreshAllMpArticlesAndUpdateFeed env alone w) = Resolved tt ->
  let w' := fst (refreshAllMpArticlesAndUpdateFeed env alone w) in
  map feed_id (feeds w') = map feed_id (feeds w)
  /\ (forall r, In r (feeds w') -> stamped_since env (tick w) r).
Proof.
  intros Hrun. rewrite (refreshAll_run env w Hrun). cbv zeta. cbn [fst snd].
  intros Hres.
  destruct (refresh_each_stamps env (feeds w) (sweep_started w) Hres)
    as (_ & Hids & Hrows).
  change (feeds (sweep_started w)) with (feeds w) in *.
  change (feeds (set_isRefreshAllMpArticlesRunning false
                   (fst (refresh_each env alone (feeds w)
                           (sweep_started w)))))
    with (feeds (fst (refresh_each env alone (feeds w) (sweep_started w)))).
  split; [exact Hids|]. intros r Hr.
  destruct (Hrows r Hr) as (Hin & _).
  destruct Hin as (t & Ht & Hs).
  { rewrite <- Hids. now apply in_map. }
  exists t. split; [|exact Hs].
  change (tick (sweep_started w)) with (S (tick w)) in Ht. lia.
Qed.

Lemma X24_sweep_stamps_every_feed_witness :
  isRefreshAllMpArticlesRunning two_feeds = false
  /\ snd (refreshAllMpArticlesAndUpdateFeed env_full_page alone two_feeds)
     = Resolved tt
  /\ map feed_id
       (feeds (fst (refreshAllMpArticlesAndUpdateFeed env_full_page alone
                      two_feeds)))
     = map feed_id (feeds two_feeds).
Proof.
  assert (H : snd (refreshAllMpArticlesAndUpdateFeed env_full_page alone
                     two_feeds) = Resolved tt) by (vm_compute; reflexivity).
  split; [reflexivity|]. split; [exact H|].
  exact (proj1 (X24_sweep_stamps_every_feed env_full_page two_feeds
                  eq_refl H)).
Defined.


Lemma cron_each_stamps (env : Env) (d : Z) (fs : list FeedRow) (w : World) :
  snd (cron_each env alone d fs w) = Resolved tt ->
  let w' := fst (cron_each env alone d fs w) in
  (tick w <= tick w')%nat
  /\ map feed_id (feeds w') = map feed_id (feeds w)
  /\ (forall r, In r (feeds w') ->
        (In (feed_id r) (map feed_id fs) -> stamped_since env (tick w) r)
        /\ (~ In (feed_id r) (map feed_id fs) -> In r (feeds w))).
Proof.
  revert w. induction fs as [|f fs IH]; intros w.
  { intros _. cbn [cron_each ret fst map In]. split; [lia|].
    split; [reflexivity|]. intros r Hr. split; [intros []|auto]. }
  destruct (refreshMpArticlesAndUpdateFeed env alone (feed_id f) 1 w)
    as [w1 [h|e]] eqn:Erun.
  2: { rewrite (cron_each_rejected env d f fs w w1 e Erun). discriminate. }
  rewrite (cron_each_resolved env d f fs w w1 h Erun).
  destruct (refreshMpArticlesAndUpdateFeed_resolved _ _ _ _ _ _ Erun)
    as (t & Ht & Hfeeds1).
  set (w2 := emit (EvSleep (30 * 1000)) _). intros Hres.
  destruct (IH w2 Hres) as (Htick & Hids & Hrows). cbv zeta.
  change (tick w2) with (S (S (tick w1))) in *.
  change (feeds w2) with (feeds w1) in *.
  split; [lia|]. split.
  { rewrite Hids, Hfeeds1. apply sql_updateFeed_ids. }
  intros r Hr. destruct (Hrows r Hr) as (Hin & Hout).
  destruct (in_dec string_dec (feed_id r) (map feed_id fs)) as [Hfs|Hfs].
  - split; [|intros Hn; exfalso; apply Hn; now right].
    intros _. destruct (Hin Hfs) as (t' & Ht' & Hs). exists t'.
    split; [lia|exact Hs].
  - specialize (Hout Hfs). rewrite Hfeeds1 in Hout.
    destruct (String.eqb_spec (feed_id r) (feed_id f)) as [E|E].
    + split; [|intros Hn; exfalso; apply Hn; left; now symmetry].
      intros _. apply sql_updateFeed_row in Hout as (old & _ & _ & ->);
        [|exact E].
      exists t. split; [lia|reflexivity].
    + split; [intros [Hf|Hf]; [congruence|contradiction]|].
      intros _. now apply sql_updateFeed_others in Hout.
Qed.

(** X25: a scheduled sync that resolves has synced every enabled feed and
    no other. When [handleUpdateFeedsCron] resolves, no feed row is added
    or removed; every row whose id is that of a feed that was enabled at
    the start carries as [sync_time] the seconds of the clock read during
    the run; and the rows of the other ids are exactly as they were. *)
Theorem X25_cron_stamps_enabled_feeds (env : Env) (w : World) :
  snd (handleUpdateFeedsCron env alone w) = Resolved tt ->
  let w' := fst (handleUpdateFeedsCron env alone w) in
  map feed_id (feeds w') = map feed_id (feeds w)
  /\ (forall r, In r (feeds w') ->
        In (feed_id r) (map feed_id (enabled_feeds w)) ->
        stamped_since env (tick w) r)
  /\ (forall r, In r (feeds w') ->
        ~ In (feed_id r) (map feed_id (enabled_feeds w)) ->
        In r (feeds w)).
Proof.
  rewrite handleUpdateFeedsCron_run. cbv zeta. intros Hres.
  destruct (cron_each_stamps env _ (enabled_feeds w) (cron_started w) Hres)
    as (_ & Hids & Hrows).
  change (feeds (cron_started w)) with (feeds w) in *.
  change (tick (cron_started w)) with (S (tick w)) in *.
  split; [exact Hids|]. split.
  - intros r Hr Hin. destruct (proj1 (Hrows r Hr) Hin) as (t & Ht & Hs).
    exists t. split; [lia|exact Hs].
  - intros r Hr Hout. exact (proj2 (Hrows r Hr) Hout).
Qed.

Lemma X25_cron_stamps_enabled_feeds_witness :
  snd (handleUpdateFeedsCron env_clock alone enabled_and_disabled)
  = Resolved tt
  /\ map feed_id (enabled_feeds enabled_and_disabled) = ["mp"]
  /\ (forall r,
        In r (feeds (fst (handleUpdateFeedsCron env_clock alone
                            enabled_and_disabled))) ->
        In (feed_id r) (map feed_id (enabled_feeds enabled_and_disabled)) ->
        stamped_since env_clock (tick enabled_and_disabled) r)
  /\ (forall r,
        In r (feeds (fst (handleUpdateFeedsCron env_clock alone
                            enabled_and_disabled))) ->
        ~ In (feed_id r) (map feed_id (enabled_feeds enabled_and_disabled)) ->
        In r (feeds enabled_and_disabled)).
Proof.
  assert (H : snd (handleUpdateFeedsCron env_clock alone
                     enabled_and_disabled) = Resolved tt)
    by (vm_compute; reflexivity).
  split; [exact H|]. split; [reflexivity|].
  exact (proj2 (X25_cron_stamps_enabled_feeds env_clock
                  enabled_and_disabled H)).
Defined.

(** The scheduled sync over an enabled feed and a disabled one, under a
    running clock: it resolves after one request, for page 1 of the enabled
    feed, whose row then carries the time of the sync; the row of the
    disabled feed is as it was. *)
Example cron_stamps_the_enabled_feed :
  let r := handleUpdateFeedsCron env_clock alone enabled_and_disabled in
  snd r = Resolved tt
  /\ fetches (trace (fst r)) = [EvFetchArticles "vid0" "token" "mp" 1]
  /\ map (fun f => (feed_id f, sync_time f)) (feeds enabled_and_disabled)
     = [("mp", 0%Z); ("mp3", 0%Z)]
  /\ map (fun f => (feed_id f, sync_time f)) (feeds (fst r))
     = [("mp", 5%Z); ("mp3", 0%Z)]
  /\ length (articles (fst r)) = 20%nat.
Proof. cbv zeta. by_evaluation. Qed.


(** ** Deleting a feed *)

Lemma find_sql_deleteFeed (id : string) (tbl : list FeedRow) :
  List.find (fun r => String.eqb (feed_id r) id) (sql_deleteFeed id tbl)
  = None.
Proof.
  unfold sql_deleteFeed.
  induction tbl as [|r tbl IH]; cbn [List.filter List.find]; [reflexivity|].
  destruct (String.eqb (feed_id r) id) eqn:E; cbn [negb List.find];
    rewrite ?E; exact IH.
Qed.

Lemma handleGenerateFeed_missing (env : Env) (opts : GenerateOpts)
    (w : World) :
  truthy_string (o_id opts) = true ->
  stored_feed (default "" (o_id opts)) w = None ->
  snd (handleGenerateFeed env alone opts w)
  = Rejected (Error_of "不存在该feed").
Proof.
  intros Ht Hnone. unfold handleGenerateFeed. cbv zeta.
  unfold bind at 1. rewrite Ht. unfold bind at 1. rewrite getFeedById_run.
  unfold stored_feed in Hnone. rewrite Hnone. reflexivity.
Qed.

(** X26: [deleteFeed] removes the rows of the feed and nothing else: the
    feed is no longer stored, the other feeds stay in their order, and the
    accounts and the articles, those of the deleted feed included, are
    untouched. So a request for the feed's own document is rejected from
    then on with the not-found error, while the articles read for the
    document of all feeds are the same as before the deletion. *)
Theorem X26_deleteFeed_keeps_articles (env : Env) (id : string) (w : World) :
  let w' := fst (deleteFeed alone id w) in
  snd (deleteFeed alone id w) = Resolved tt
  /\ stored_feed id w' = None
  /\ feeds w'
     = List.filter (fun r => negb (String.eqb (feed_id r) id)) (feeds w)
  /\ articles w' = articles w /\ accounts w' = accounts w
  /\ stored_articles id w' = stored_articles id w
  /\ (forall opts, selected_articles opts w' = selected_articles opts w)
  /\ (forall opts,
        o_id opts = Some id -> id <> "" ->
        snd (handleGenerateFeed env alone opts w')
        = Rejected (Error_of "不存在该feed")).
Proof.
  cbv zeta.
  change (deleteFeed alone id w)
    with (set_feeds (sql_deleteFeed id (feeds w)) (set_tick (S (tick w)) w),
          @Resolved unit tt).
  cbn [fst snd]. split; [reflexivity|].
  split; [apply find_sql_deleteFeed|]. split; [reflexivity|].
  split; [reflexivity|]. split; [reflexivity|]. split; [reflexivity|].
  split; [reflexivity|].
  intros opts Hid Hne. apply handleGenerateFeed_missing.
  - rewrite Hid. destruct id; [contradiction|reflexivity].
  - rewrite Hid. apply find_sql_deleteFeed.
Qed.

(** After the feed of the forty-five articles is deleted, its own document
    is gone and its articles are still stored. *)
Example deleted_feed_leaves_articles :
  let w' := fst (deleteFeed alone "mp" forty_five_stored) in
  length (articles w') = 45%nat
  /\ feeds w' = []
  /\ snd (handleGenerateFeed env0 alone exclude_trailing_bar w')
     = Rejected (Error_of "不存在该feed").
Proof. cbv zeta. by_evaluation. Qed.


(** ** The listings of feeds and articles *)

Lemma keyset_rows_spec {A : Type} (id : A -> string) (leb : A -> A -> bool)
    (where_ : A -> bool) (limit : Z) (tbl : list A) :
  List.NoDup (map id tbl) ->
  List.NoDup (map id (keyset_rows leb where_ limit tbl))
  /\ (forall r, In r (keyset_rows leb where_ limit tbl) ->
                In r tbl /\ where_ r = true)
  /\ ((0 <= limit)%Z ->
      (length (keyset_rows leb where_ limit tbl) <= Z.to_nat limit + 1)%nat).
Proof.
  intros Hnd. unfold keyset_rows, limit_offset. cbn [Z.to_nat drop].
  assert (Hs : List.NoDup (map id (sort_with leb (List.filter where_ tbl)))).
  { eapply Permutation_NoDup;
      [apply Permutation_map; symmetry; apply Permutation_sort_with|].
    now apply NoDup_map_filter. }
  assert (Hin : forall r, In r (sort_with leb (List.filter where_ tbl)) ->
                          In r tbl /\ where_ r = true).
  { intros r Hr. apply filter_In.
    eapply Permutation_in; [apply Permutation_sort_with|exact Hr]. }
  destruct (limit + 1 <? 0)%Z eqn:E.
  - split; [exact Hs|]. split; [exact Hin|]. lia.
  - split; [now apply NoDup_map_take|]. split.
    + intros r Hr. apply Hin. now apply In_take in Hr.
    + intros _. rewrite length_take. lia.
Qed.

Lemma page_of_rows_spec {A : Type} (id : A -> string) (limit : Z)
    (tbl rows : list A) :
  List.NoDup (map id rows) ->
  (forall r, In r rows -> In r tbl) ->
  ((0 <= limit)%Z -> (length rows <= Z.to_nat limit + 1)%nat) ->
  let page := page_of_rows id limit rows in
  ((0 <= limit)%Z -> (length (items page) <= Z.to_nat limit)%nat)
  /\ (forall r, In r (items page) -> In r rows)
  /\ (forall c, nextCursor page = Some c ->
                In c (map id tbl) /\ ~ In c (map id (items page))).
Proof.
  intros Hnd Hsub Hlen. cbv zeta. unfold page_of_rows.
  destruct (limit <? Z.of_nat (length rows))%Z eqn:Emore;
    cbn [items nextCursor].
  - destruct (last rows) as [x|] eqn:Elast.
    + apply last_Some in Elast as (l' & ->).
      rewrite List.removelast_last. split; [|split].
      * intros Hl. specialize (Hlen Hl). rewrite List.length_app in Hlen.
        cbn in Hlen. lia.
      * intros r Hr. apply in_or_app. now left.
      * intros c [= <-]. split.
        { apply in_map, Hsub, in_or_app. right. now left. }
        rewrite map_app in Hnd. apply List.NoDup_remove_2 in Hnd.
        now rewrite List.app_nil_r in Hnd.
    + apply last_None in Elast. subst rows. cbn.
      split; [lia|]. split; [tauto|discriminate].
  - split; [lia|]. split; [tauto|discriminate].
Qed.

Lemma page_of_rows_avoids {A : Type} (id : A -> string) (limit : Z)
    (rows : list A) (c : string) :
  (forall r, In r rows -> id r <> c) ->
  ~ In c (map id (items (page_of_rows id limit rows)))
  /\ nextCursor (page_of_rows id limit rows) <> Some c.
Proof.
  intros H.
  assert (Hitems : forall r, In r (items (page_of_rows id limit rows)) ->
                             In r rows).
  { unfold page_of_rows. destruct (limit <? _)%Z; cbn [items]; [|tauto].
    destruct (last rows) as [x|] eqn:Elast.
    - apply last_Some in Elast as (l' & ->). rewrite List.removelast_last.
      intros r Hr. apply in_or_app. now left.
    - apply last_None in Elast. subst rows. cbn. tauto. }
  split.
  - intros Hin. apply in_map_iff in Hin as (r & Hid & Hr).
    exact (H r (Hitems r Hr) Hid).
  - unfold page_of_rows. destruct (limit <? _)%Z; cbn [nextCursor];
      [|discriminate].
    destruct (last rows) as [x|] eqn:Elast; [|discriminate].
    apply last_Some in Elast as (l' & ->). intros [= Hid].
    apply (H x); [apply in_or_app; right; now left|exact Hid].
Qed.

Lemma listFeeds_run (limit : Z) (cursor : option string) (w : World) :
  snd (listFeeds alone limit cursor w)
  = Resolved
      (page_of_rows feed_id limit
         (keyset_rows feeds_by_created_at_id
            (where_listFeeds cursor (feeds w)) limit (feeds w))).
Proof.
  unfold listFeeds, page_of_rows, keyset_rows, where_listFeeds,
    getCreatedAtCursor_feeds, d1_untraced.
  destruct (truthy_string cursor).
  - unfold bind, suspend, alone. cbv iota beta.
    cbn [feeds set_tick].
    destruct (List.find _ (feeds w)) as [row|]; cbn [option_map];
      unfold ret at 1; cbv zeta iota beta; rewrite if_ret; reflexivity.
  - unfold bind, suspend, alone. unfold ret at 1. cbv iota beta zeta.
    rewrite if_ret. reflexivity.
Qed.

Lemma listArticles_run (limit : Z) (cursor mpId : option string)
    (w : World) :
  snd (listArticles alone limit cursor mpId w)
  = Resolved
      (page_of_rows art_id limit
         (keyset_rows by_publish_time_id_desc
            (where_listArticles cursor mpId (articles w)) limit
            (articles w))).
Proof.
  unfold listArticles, page_of_rows, keyset_rows, where_listArticles,
    getPublishTimeCursor, d1_untraced. cbv zeta.
  destruct (truthy_string cursor).
  - unfold bind, suspend, alone. cbv iota beta.
    cbn [articles set_tick].
    destruct (List.find _ (articles w)) as [row|]; cbn [option_map];
      unfold ret at 1; cbv zeta iota beta; rewrite if_ret; reflexivity.
  - unfold bind, suspend, alone. unfold ret at 1. cbv iota beta zeta.
    rewrite if_ret. reflexivity.
Qed.

Lemma where_listArticles_spec (cursor mpId : option string)
    (tbl : list ArticleRow) (r : ArticleRow) :
  where_listArticles cursor mpId tbl r = true ->
  (truthy_string mpId = true -> art_mp_id r = default "" mpId)
  /\ (forall row,
        truthy_string cursor = true ->
        List.find (fun r => String.eqb (art_id r) (default "" cursor)) tbl
        = Some row ->
        before_publish_time (art_publish_time row) (default "" cursor) r
        = true).
Proof.
  unfold where_listArticles. cbv zeta. intros H. split.
  - intros Hmp. rewrite Hmp in H.
    destruct (truthy_string cursor);
      [destruct (List.find _ tbl); [apply andb_true_iff in H as [H _]|]|];
      now apply String.eqb_eq.
  - intros row Hc Hfind. rewrite Hc, Hfind in H.
    now apply andb_true_iff in H as [_ H].
Qed.

(** X27: the cursor of [listFeeds] names a row that no page shows. Over a
    feeds table with pairwise distinct ids, a page has at most [limit]
    items (for a limit that is not negative), all of them stored feeds;
    when it comes with a next cursor, the cursor is the id of a stored
    feed that is not among its items, and the page requested with this
    cursor has neither that feed among its items nor that id as its next
    cursor. *)
Theorem X27_listFeeds_cursor_row_skipped (limit : Z)
    (cursor : option string) (w : World) (page : Listing FeedRow) :
  List.NoDup (map feed_id (feeds w)) ->
  snd (listFeeds alone limit cursor w) = Resolved page ->
  ((0 <= limit)%Z -> (length (items page) <= Z.to_nat limit)%nat)
  /\ (forall r, In r (items page) -> In r (feeds w))
  /\ (forall c, nextCursor page = Some c ->
        In c (map feed_id (feeds w))
        /\ ~ In c (map feed_id (items page))
        /\ (c <> "" ->
            forall limit' w' page',
              feeds w' = feeds w ->
              snd (listFeeds alone limit' (Some c) w') = Resolved page' ->
              ~ In c (map feed_id (items page'))
              /\ nextCursor page' <> Some c)).
Proof.
  intros Hnd Hrun. rewrite listFeeds_run in Hrun. injection Hrun as <-.
  destruct (keyset_rows_spec feed_id feeds_by_created_at_id
              (where_listFeeds cursor (feeds w)) limit (feeds w) Hnd)
    as (Hnd1 & Hin1 & Hlen1).
  destruct (page_of_rows_spec feed_id limit (feeds w) _ Hnd1
              (fun r Hr => proj1 (Hin1 r Hr)) Hlen1) as (Hl & Hit & Hc).
  split; [exact Hl|]. split; [intros r Hr; now apply Hin1, Hit|].
  intros c Hnext. destruct (Hc c Hnext) as (Hstored & Hnot).
  split; [exact Hstored|]. split; [exact Hnot|].
  intros Hne limit' w' page' Hfeeds Hrun'.
  rewrite listFeeds_run, Hfeeds in Hrun'. injection Hrun' as <-.
  apply page_of_rows_avoids. intros r Hr Hid.
  destruct (keyset_rows_spec feed_id feeds_by_created_at_id
              (where_listFeeds (Some c) (feeds w)) limit' (feeds w) Hnd)
    as (_ & Hin2 & _).
  destruct (Hin2 r Hr) as (Hrin & Hwhere).
  unfold where_listFeeds in Hwhere.
  assert (Ht : truthy_string (Some c) = true)
    by (destruct c; [now contradiction Hne|reflexivity]).
  rewrite Ht in Hwhere. change (default "" (Some c)) with c in Hwhere.
  destruct (List.find (fun r0 => String.eqb (feed_id r0) c) (feeds w))
    as [row|] eqn:Efind.
  - apply find_some in Efind as [Hrow Heq]. apply String.eqb_eq in Heq.
    assert (r = row)
      by (apply (NoDup_map_In_eq feed_id (feeds w)); congruence).
    subst row. unfold feed_after_created_at in Hwhere.
    rewrite Hid, ltb_irrefl, Z.ltb_irrefl, andb_false_r in Hwhere.
    discriminate.
  - apply in_map_iff in Hstored as (x & Hx & Hxin).
    apply (find_none _ _ Efind) in Hxin.
    rewrite Hx, String.eqb_refl in Hxin. discriminate.
Qed.

Lemma X27_listFeeds_cursor_row_skipped_witness :
  List.NoDup (map feed_id (feeds two_feeds))
  /\ snd (listFeeds alone 1 None two_feeds)
     = Resolved {| items := [open_feed]; nextCursor := Some "mp2" |}
  /\ ~ In "mp2" (map feed_id [open_feed]).
Proof.
  assert (H : List.NoDup (map feed_id (feeds two_feeds))).
  { apply (NoDup_count_occ' string_dec). intros x Hx. vm_compute in Hx.
    repeat (destruct Hx as [<-|Hx]; [vm_compute; reflexivity|]).
    destruct Hx. }
  assert (E : snd (listFeeds alone 1 None two_feeds)
              = Resolved {| items := [open_feed];
                            nextCursor := Some "mp2" |})
    by (vm_compute; reflexivity).
  split; [exact H|]. split; [exact E|].
  exact (proj1 (proj2 (proj2 (proj2 (X27_listFeeds_cursor_row_skipped
                                       1 None two_feeds _ H E))
                         "mp2" eq_refl))).
Defined.

(** X28: the cursor of [listArticles] names a row that no page shows.
    Over an articles table with pairwise distinct ids, a page has at most
    [limit] items (for a limit that is not negative), all of them stored
    articles, of the feed asked for when one is given; when it comes with
    a next cursor, the cursor is the id of a stored article that is not
    among its items, and the page requested with this cursor, for the same
    or another feed filter, has neither that article among its items nor
    that id as its next cursor. *)
Theorem X28_listArticles_cursor_row_skipped (limit : Z)
    (cursor mpId : option string) (w : World) (page : Listing ArticleRow) :
  List.NoDup (map art_id (articles w)) ->
  snd (listArticles alone limit cursor mpId w) = Resolved page ->
  ((0 <= limit)%Z -> (length (items page) <= Z.to_nat limit)%nat)
  /\ (forall r, In r (items page) ->
                In r (articles w)
                /\ (truthy_string mpId = true ->
                    art_mp_id r = default "" mpId))
  /\ (forall c, nextCursor page = Some c ->
        In c (map art_id (articles w))
        /\ ~ In c (map art_id (items page))
        /\ (c <> "" ->
            forall limit' mpId' w' page',
              articles w' = articles w ->
              snd (listArticles alone limit' (Some c) mpId' w')
              = Resolved page' ->
              ~ In c (map art_id (items page'))
              /\ nextCursor page' <> Some c)).
Proof.
  intros Hnd Hrun. rewrite listArticles_run in Hrun. injection Hrun as <-.
  destruct (keyset_rows_spec art_id by_publish_time_id_desc
              (where_listArticles cursor mpId (articles w)) limit
              (articles w) Hnd) as (Hnd1 & Hin1 & Hlen1).
  destruct (page_of_rows_spec art_id limit (articles w) _ Hnd1
              (fun r Hr => proj1 (Hin1 r Hr)) Hlen1) as (Hl & Hit & Hc).
  split; [exact Hl|]. split.
  { intros r Hr. destruct (Hin1 r (Hit r Hr)) as (Hrin & Hwhere).
    split; [exact Hrin|]. now apply where_listArticles_spec in Hwhere. }
  intros c Hnext. destruct (Hc c Hnext) as (Hstored & Hnot).
  split; [exact Hstored|]. split; [exact Hnot|].
  intros Hne limit' mpId' w' page' Harts Hrun'.
  rewrite listArticles_run, Harts in Hrun'. injection Hrun' as <-.
  apply page_of_rows_avoids. intros r Hr Hid.
  destruct (keyset_rows_spec art_id by_publish_time_id_desc
              (where_listArticles (Some c) mpId' (articles w)) limit'
              (articles w) Hnd) as (_ & Hin2 & _).
  destruct (Hin2 r Hr) as (Hrin & Hwhere).
  apply where_listArticles_spec in Hwhere as (_ & Hwhere).
  assert (Ht : truthy_string (Some c) = true)
    by (destruct c; [now contradiction Hne|reflexivity]).
  change (default "" (Some c)) with c in Hwhere.
  destruct (List.find (fun r0 => String.eqb (art_id r0) c) (articles w))
    as [row|] eqn:Efind.
  - specialize (Hwhere row Ht eq_refl).
    apply find_some in Efind as [Hrow Heq]. apply String.eqb_eq in Heq.
    assert (r = row)
      by (apply (NoDup_map_In_eq art_id (articles w)); congruence).
    subst row. unfold before_publish_time in Hwhere.
    rewrite Hid, ltb_irrefl, Z.ltb_irrefl, andb_false_r in Hwhere.
    discriminate.
  - apply in_map_iff in Hstored as (x & Hx & Hxin).
    apply (find_none _ _ Efind) in Hxin.
    rewrite Hx, String.eqb_refl in Hxin. discriminate.
Qed.

Lemma X28_listArticles_cursor_row_skipped_witness :
  List.NoDup (map art_id (articles forty_five_stored))
  /\ option_map nextCursor
       (match snd (listArticles alone 2 None (Some "mp") forty_five_stored)
        with
        | Resolved page => Some page
        | Rejected _ => None
        end) = Some (Some "stored43")
  /\ In "stored43" (map art_id (articles forty_five_stored)).
Proof.
  assert (H : List.NoDup (map art_id (articles forty_five_stored))).
  { apply (NoDup_count_occ' string_dec). intros x Hx. vm_compute in Hx.
    repeat (destruct Hx as [<-|Hx]; [vm_compute; reflexivity|]).
    destruct Hx. }
  split; [exact H|]. split; [vm_compute; reflexivity|].
  destruct (snd (listArticles alone 2 None (Some "mp") forty_five_stored))
    as [page|e] eqn:E; [|vm_compute in E; discriminate].
  refine (proj1 (proj2 (proj2 (X28_listArticles_cursor_row_skipped
                                 2 None (Some "mp") forty_five_stored page
                                 H E)) "stored43" _)).
  vm_compute in E. injection E as <-. reflexivity.
Defined.
